(** * SMPS conversion utilities and conic constraints of Pyomo/PySP

    A shallow embedding of
      - [pyomo/pysp/smps/smpsutils.py]: the stage classifier
        ([map_variable_stages], [map_constraint_stages]), the per-scenario
        external conversion ([_convert_external_setup] and
        [_convert_external_setup_without_cleanup]) and the embedded
        conversion ([convert_embedded]);
      - [pyomo/core/kernel/conic.py]: the bound properties shared by the
        conic constraint classes.

    Python objects are identified by [id(obj)], a [positive]; identity-keyed
    dictionaries and [ComponentMap]s are [gmap positive _], identity sets are
    [gset positive].  Exceptions are values of [exn]; a function that can
    raise returns a [result], and code that mutates the model runs in the
    state-and-exception monad [M]. *)

From Stdlib Require Import ZArith QArith String Ascii List Bool Lia.
From stdpp Require Import base option list gmap strings.
From stdpp Require Import sorting.

Local Open Scope string_scope.
Local Open Scope Z_scope.
Local Open Scope list_scope.

(** ** Exceptions and results *)

Inductive exn : Type :=
  | AssertionError
  | AttributeError
  | KeyError
  | IndexError
  | NameError (name : string)
  | TypeError (msg : string)
  | ValueError (msg : string)
  | RuntimeError (msg : string).

Inductive result (A : Type) : Type :=
  | Ok (a : A)
  | Raise (e : exn).
Arguments Ok {A} a.
Arguments Raise {A} e.

Definition result_bind {A B} (r : result A) (f : A → result B) : result B :=
  match r with
  | Ok a => f a
  | Raise e => Raise e
  end.

Notation "'let?' x ':=' c 'in' k" := (result_bind c (fun x => k))
  (at level 10, x pattern, c at level 100, k at level 200).

Definition py_assert (b : bool) : result unit :=
  if b then Ok tt else Raise AssertionError.

(** [d[k]] on a dictionary: a missing key raises [KeyError]. *)
Definition getitem `{Countable K} {V} (d : gmap K V) (k : K) : result V :=
  match d !! k with
  | Some v => Ok v
  | None => Raise KeyError
  end.

(** A [for] loop threading an accumulator, stopped by the first exception. *)
Fixpoint for_each {A B} (body : B → A → result B) (l : list A) (acc : B)
  : result B :=
  match l with
  | [] => Ok acc
  | x :: l' => let? acc' := body acc x in for_each body l' acc'
  end.

(** ** Sorting

    [list.sort] and [sorted] are stable; so is insertion from the right. *)

Section sorting.
Context {A : Type} (leb : A → A → bool).

Fixpoint sort_insert (x : A) (l : list A) : list A :=
  match l with
  | [] => [x]
  | y :: l' => if leb x y then x :: l else y :: sort_insert x l'
  end.

Definition py_sorted (l : list A) : list A := foldr sort_insert [] l.
End sorting.

(** Python compares lists of strings lexicographically. *)
Fixpoint aliases_leb (a b : list string) : bool :=
  match a, b with
  | [], _ => true
  | _ :: _, [] => false
  | x :: a', y :: b' =>
      match String.compare x y with
      | Lt => true
      | Gt => false
      | Eq => aliases_leb a' b'
      end
  end.

(** ** Data model *)

(** A variable of the model.  Nothing in the conversion assigns to a
    variable, so the record is its whole state. *)
Record VarData : Type := {
  var_id : positive;
  var_cname : string;
  var_fixed : bool
}.

#[export] Instance VarData_eq_dec : EqDecision VarData.
Proof. solve_decision. Defined.

(** The symbol map returned by the LP/MPS writer. [aliases] maps an alias
    to the object it names. *)
Record SymbolMap : Type := {
  byObject : gmap positive string;
  bySymbol : gmap string positive;
  aliases : list (string * positive)
}.

(** The two-stage scenario tree: the names of [stages[0]] and [stages[1]]
    and the variable-id sets of the root node.  The source asserts
    [len(scenario_tree.stages) == 2]; here the type has exactly two stages,
    whose names are distinct keys of the stage dictionaries. *)
Record ScenarioTree : Type := {
  firststage_name : string;
  secondstage_name : string;
  _standard_variable_ids : gset positive;
  _derived_variable_ids : gset positive
}.

Record StageToVariableMap : Type := {
  firststage_vars : list (string * VarData * option positive);
  secondstage_vars : list (string * VarData * option positive)
}.

(** ** [map_variable_stages] *)

(** [scenario_tree_id in ids], where [scenario_tree_id] may be [None]. *)
Definition id_in (scenario_tree_id : option positive) (ids : gset positive)
  : bool :=
  match scenario_tree_id with
  | Some i => bool_decide (i ∈ ids)
  | None => false
  end.

Definition is_None {A} (o : option A) : bool :=
  match o with
  | None => true
  | Some _ => false
  end.

(** The dictionaries [FirstStageVars] and [SecondStageVars]. *)
Abbreviation var_dict := (gmap string (VarData * option positive)).

Section map_variable_stages.
(** [reference_model.component_data_objects(Var, descend_into=True)] *)
Variable model_vars : list VarData.
(** [reference_model._ScenarioTreeSymbolMap.byObject] *)
Variable scenariotree_byObject : gmap positive positive.
Variable scenario_tree : ScenarioTree.
(** [scenario.node_list[-1]._variable_ids] *)
Variable secondstage_variables : gset positive.
Variable symbol_map : SymbolMap.
Variable enforce_derived_nonanticipativity : bool.

Definition map_variable_stages_body (acc : var_dict * var_dict)
    (var : VarData) : result (var_dict * var_dict) :=
  let '(FirstStageVars, SecondStageVars) := acc in
  match byObject symbol_map !! var_id var with
  | None => Ok acc
  | Some symbol =>
      let scenario_tree_id := scenariotree_byObject !! var_id var in
      if id_in scenario_tree_id (_standard_variable_ids scenario_tree)
      then Ok (<[symbol := (var, scenario_tree_id)]> FirstStageVars,
               SecondStageVars)
      else if enforce_derived_nonanticipativity
              && id_in scenario_tree_id (_derived_variable_ids scenario_tree)
      then Ok (<[symbol := (var, scenario_tree_id)]> FirstStageVars,
               SecondStageVars)
      else if id_in scenario_tree_id (_derived_variable_ids scenario_tree)
              || id_in scenario_tree_id secondstage_variables
              || is_None scenario_tree_id
      then Ok (FirstStageVars,
               <[symbol := (var, scenario_tree_id)]> SecondStageVars)
      else Raise AssertionError
  end.

(** [[(symbol, d[symbol][0], d[symbol][1]) for symbol in sorted(d)]] *)
Definition stage_entries (d : var_dict)
  : list (string * VarData * option positive) :=
  omap (fun symbol => (fun e => (symbol, e.1, e.2)) <$> d !! symbol)
       (py_sorted String.leb (map_to_list d).*1).

Definition map_variable_stages : result StageToVariableMap :=
  let? acc := for_each map_variable_stages_body model_vars (∅, ∅) in
  Ok {| firststage_vars := stage_entries acc.1;
        secondstage_vars := stage_entries acc.2 |}.
End map_variable_stages.


(** The two tests of [map_variable_stages], as predicates on a stage id:
    the first two branches of the [if] (first stage), and the third
    (second stage). *)
Definition firststage_rule (scenario_tree : ScenarioTree)
    (enforce_derived_nonanticipativity : bool)
    (scenario_tree_id : option positive) : bool :=
  id_in scenario_tree_id (_standard_variable_ids scenario_tree)
  || (enforce_derived_nonanticipativity
      && id_in scenario_tree_id (_derived_variable_ids scenario_tree)).

Definition secondstage_rule (scenario_tree : ScenarioTree)
    (secondstage_variables : gset positive)
    (scenario_tree_id : option positive) : bool :=
  id_in scenario_tree_id (_derived_variable_ids scenario_tree)
  || id_in scenario_tree_id secondstage_variables
  || is_None scenario_tree_id.

(** A variable is classified in a stage when the stage's list has an
    entry for it. *)
Definition var_in_stage (var : VarData)
    (entries : list (string * VarData * option positive)) : Prop :=
  ∃ symbol scenario_tree_id, (symbol, var, scenario_tree_id) ∈ entries.

(** The symbol map names every variable object differently. *)
Definition symbols_injective (symbol_map : SymbolMap)
    (model_vars : list VarData) : Prop :=
  ∀ v1 v2 symbol, v1 ∈ model_vars → v2 ∈ model_vars →
    byObject symbol_map !! var_id v1 = Some symbol →
    byObject symbol_map !! var_id v2 = Some symbol → v1 = v2.

(** Every variable of the symbol map has a stage id the classifier knows:
    one of the three id sets, or none at all. *)
Definition stage_ids_known (model_vars : list VarData)
    (scenariotree_byObject : gmap positive positive)
    (scenario_tree : ScenarioTree) (secondstage_variables : gset positive)
    (symbol_map : SymbolMap) (enforce : bool) : Prop :=
  ∀ var, var ∈ model_vars → is_Some (byObject symbol_map !! var_id var) →
    firststage_rule scenario_tree enforce
      (scenariotree_byObject !! var_id var)
    || secondstage_rule scenario_tree secondstage_variables
      (scenariotree_byObject !! var_id var) = true.

(** What the two dictionaries of [map_variable_stages] hold once the loop
    has gone through the variables [seen]. *)
Definition dicts_hold (scenariotree_byObject : gmap positive positive)
    (scenario_tree : ScenarioTree) (symbol_map : SymbolMap) (enforce : bool)
    (seen : list VarData) (acc : var_dict * var_dict) : Prop :=
  ∀ symbol var i,
    (acc.1 !! symbol = Some (var, i) ↔
       var ∈ seen ∧ byObject symbol_map !! var_id var = Some symbol
       ∧ i = scenariotree_byObject !! var_id var
       ∧ firststage_rule scenario_tree enforce i = true)
    ∧ (acc.2 !! symbol = Some (var, i) ↔
       var ∈ seen ∧ byObject symbol_map !! var_id var = Some symbol
       ∧ i = scenariotree_byObject !! var_id var
       ∧ firststage_rule scenario_tree enforce i = false).

(** ** Constraints, blocks and the state of a model *)

(** The canonical (linear) representation of an expression: a constant, the
    variables and their coefficients. *)
Record LinearCanonicalRepn : Type := {
  constant : option Z;
  variables : list VarData;
  linear : list Z
}.

(** [Linear r] is an instance of [LinearCanonicalRepn]; [General] stands
    for every other representation. *)
Inductive CanonicalRepn : Type :=
  | Linear (r : LinearCanonicalRepn)
  | General.

(** The fixed part of a constraint.  [con_body] lists the variables of the
    body, [EmbeddedSP._collect_variables(con.body).values()]; the bounds
    [_lower] and [_upper], which the conversion assigns, are in the state. *)
Record ConstraintData : Type := {
  con_id : positive;
  con_cname : string;
  con_active : bool;
  con_parent_block : positive;
  con_body : list VarData
}.

#[export] Instance ConstraintData_eq_dec : EqDecision ConstraintData.
Proof. solve_decision. Defined.

(** An active block, as [block_data_objects(active=True, descend_into=True)]
    yields it: the names of its active [SOSConstraint]s and its constraints
    in the sorted order of [component_data_objects]. *)
Record BlockData : Type := {
  block_id : positive;
  block_cname : string;
  block_sos : list string;
  block_constraints : list ConstraintData
}.

(** The three attributes of a block that the conversion reads, deletes and
    sets.  [_canonical_repn] holds the address of a [ComponentMap]. *)
Record BlockAttrs : Type := {
  _gen_obj_canonical_repn : option bool;
  _gen_con_canonical_repn : option bool;
  _canonical_repn : option positive
}.

Definition no_attrs : BlockAttrs :=
  {| _gen_obj_canonical_repn := None; _gen_con_canonical_repn := None;
     _canonical_repn := None |}.

(** The mutable part of a model: the bounds of the constraints, the
    attributes of the blocks and the values of the mutable parameters, by
    object id; the [ComponentMap]s of canonical representations, by
    address; and the name of the model.  A representation is held by one
    [ComponentMap], under the id of its constraint or objective: an
    assignment to one of its attributes is an update of that entry, seen
    through every reference to the [ComponentMap]. *)
Record ModelState : Type := {
  st_bounds : gmap positive (option Z * option Z);
  st_attrs : gmap positive BlockAttrs;
  st_heap : gmap positive (gmap positive CanonicalRepn);
  st_name : string;
  st_params : gmap positive (option Z)
}.

Definition attrs_of (st : ModelState) (block : positive) : BlockAttrs :=
  default no_attrs (st_attrs st !! block).

Definition _lower (st : ModelState) (con : ConstraintData) : option Z :=
  (default (None, None) (st_bounds st !! con_id con)).1.

Definition _upper (st : ModelState) (con : ConstraintData) : option Z :=
  (default (None, None) (st_bounds st !! con_id con)).2.

Record StageToConstraintMap : Type := {
  firststage_cons : list (list string * ConstraintData);
  secondstage_cons : list (list string * ConstraintData)
}.

(** The active constraints of the active blocks:
    [component_data_objects(Constraint, active=True, descend_into=True)]. *)
Definition active_constraints (model_blocks : list BlockData)
  : list ConstraintData :=
  concat ((fun block => filter (fun con => con_active con = true)
                               (block_constraints block)) <$> model_blocks).

(** ** [map_constraint_stages] *)

(** The table from a symbol to the sorted aliases of its object. *)
Definition reverse_alias_body (byObject : gmap positive string)
    (acc : gmap string (list string)) (item : string * positive)
  : result (gmap string (list string)) :=
  let? symbol := getitem byObject item.2 in
  let? l := getitem acc symbol in
  Ok (<[symbol := l ++ [item.1]]> acc).

Definition reverse_alias (symbol_map : SymbolMap)
  : result (gmap string (list string)) :=
  let? acc := for_each (reverse_alias_body (byObject symbol_map))
        (aliases symbol_map) ((fun _ => []) <$> bySymbol symbol_map) in
  Ok (py_sorted String.leb <$> acc).

Section map_constraint_stages.
Variable st : ModelState.
(** [reference_model.block_data_objects(active=True, descend_into=True,
    sort=sortOrder)] *)
Variable model_blocks : list BlockData.
Variable symbol_map : SymbolMap.
Variable stochastic_constraint_ids : gset positive.
Variable firststage_variable_ids : gset positive.
Variable secondstage_variable_ids : gset positive.

(** The inner loop over the variables of a body: [true] when it leaves
    with [constraint_stage = secondstage]. *)
Fixpoint body_is_secondstage (vars : list VarData) : result bool :=
  match vars with
  | [] => Ok false
  | var :: vars' =>
      if negb (var_fixed var) then
        if bool_decide (var_id var ∈ secondstage_variable_ids)
        then Ok true
        else
          let? _ := py_assert
                (bool_decide (var_id var ∈ firststage_variable_ids)) in
          body_is_secondstage vars'
      else body_is_secondstage vars'
  end.

Definition map_constraint_stages_con
    (reverse : gmap string (list string))
    (acc : StageToConstraintMap) (con : ConstraintData)
  : result StageToConstraintMap :=
  let? symbol := getitem (byObject symbol_map) (con_id con) in
  let? aliases := getitem reverse symbol in
  let? _ := py_assert (bool_decide (0 < length aliases)%nat) in
  let? secondstage :=
    (if bool_decide (con_id con ∈ stochastic_constraint_ids)
     then Ok true
     else body_is_secondstage (con_body con)) in
  if secondstage : bool
  then Ok {| firststage_cons := firststage_cons acc;
             secondstage_cons := secondstage_cons acc ++ [(aliases, con)] |}
  else Ok {| firststage_cons := firststage_cons acc ++ [(aliases, con)];
             secondstage_cons := secondstage_cons acc |}.

Definition map_constraint_stages_block
    (reverse : gmap string (list string))
    (acc : StageToConstraintMap) (block : BlockData)
  : result StageToConstraintMap :=
  match block_sos block with
  | _ :: _ =>
      Raise (TypeError "SOSConstraints are not allowed with this format.")
  | [] =>
      match _canonical_repn (attrs_of st (block_id block)) with
      | None =>
          Raise (ValueError "Unable to find _canonical_repn ComponentMap")
      | Some _ =>
          for_each (map_constraint_stages_con reverse)
            (filter (fun con => con_active con = true)
                    (block_constraints block)) acc
      end
  end.

Definition by_aliases (a b : list string * ConstraintData) : bool :=
  aliases_leb a.1 b.1.

Definition map_constraint_stages : result StageToConstraintMap :=
  let? reverse := reverse_alias symbol_map in
  let? acc := for_each (map_constraint_stages_block reverse) model_blocks
        {| firststage_cons := []; secondstage_cons := [] |} in
  Ok {| firststage_cons := py_sorted by_aliases (firststage_cons acc);
        secondstage_cons := py_sorted by_aliases (secondstage_cons acc) |}.
End map_constraint_stages.

(** ** The model, its annotations and the scenario *)

Record ObjectiveData : Type := {
  obj_id : positive;
  obj_cname : string;
  obj_parent_block : positive
}.

(** An annotation object, through the three members the conversion calls:
    [has_declarations()], [expand_entries()] and [default] (here
    [default_]). *)
Record Annotation (E V : Type) : Type := {
  has_declarations : bool;
  expand_entries : list (E * V);
  default_ : V
}.
Arguments has_declarations {E V} _.
Arguments expand_entries {E V} _.
Arguments default_ {E V} _.

(** The value a stochastic-rhs annotation gives a constraint: [True], or
    a pair of flags for the lower and the upper bound. *)
Inductive include_bound : Type :=
  | IncludeTrue
  | IncludePair (lb ub : bool).

(** [(include_bound is True) or (include_bound[0] is True)] *)
Definition includes_lb (b : include_bound) : bool :=
  match b with
  | IncludeTrue => true
  | IncludePair lb _ => lb
  end.

(** [(include_bound is True) or (include_bound[1] is True)] *)
Definition includes_ub (b : include_bound) : bool :=
  match b with
  | IncludeTrue => true
  | IncludePair _ ub => ub
  end.

Abbreviation RhsAnnotation := (Annotation ConstraintData include_bound).
Abbreviation MatrixAnnotation :=
  (Annotation ConstraintData (option (list VarData))).
Abbreviation ObjectiveAnnotation :=
  (Annotation ObjectiveData (option (list VarData) * bool)).

(** The reference model of a scenario.  [model_id] is the id of the model,
    itself a block; the four lists are the annotation objects declared on
    the model, by kind, with the names they are declared under. *)
Record Model : Type := {
  model_id : positive;
  model_blocks : list BlockData;
  model_vars : list VarData;
  _ScenarioTreeSymbolMap : gmap positive positive;
  rhs_annotations : list (string * RhsAnnotation);
  matrix_annotations : list (string * MatrixAnnotation);
  objective_annotations : list (string * ObjectiveAnnotation);
  varbounds_annotations : list (string * unit)
}.

Record Scenario : Type := {
  scenario_name : string;
  probability : Q;
  _instance : Model;
  _instance_objective : option ObjectiveData;
  (** [node_list[-1]._variable_ids] *)
  leaf_variable_ids : gset positive
}.

(** Modelled from the spec: [locate_annotations] of [pyomo.pysp.annotations],
    which is not among the sources.  It returns the annotations of one kind
    declared on the model; given [max_allowed], more than that many is an
    error ("at most one instance of each of the first three is allowed"). *)
Definition locate_annotations {A} (declared : list (string * A))
    (max_allowed : option nat) : result (list (string * A)) :=
  match max_allowed with
  | Some n =>
      if (n <? length declared)%nat
      then Raise (ValueError "Too many annotations found on model")
      else Ok declared
  | None => Ok declared
  end.

(** ** The LP/MPS writer and the files of the conversion *)

Inductive FileFormat : Type := lp | mps.

Definition format_name (file_format : FileFormat) : string :=
  match file_format with
  | lp => "lp"
  | mps => "mps"
  end.

(** The keys of [io_options] that the conversion reads and sets:
    ['column_order'], ['row_order'] and ['force_objective_constant']. *)
Record IoOptions : Type := {
  io_column_order : option (gmap positive nat);
  io_row_order : option (gmap positive nat);
  io_force_objective_constant : option bool
}.

(** The writer is a collaborator: called on the model in its present state
    with a file name and the options, it returns the name of the file it
    wrote and a symbol map, or raises, and may change the model. *)
Definition Writer : Type :=
  FileFormat → string → IoOptions → ModelState →
  result (string * SymbolMap) * ModelState.

(** A record of the [.sto] file; the [%.17g] rendering of its numbers is
    left to the reader of the record.  [StoBlock], [StoRHS] and [StoEntry]
    are the lines of the scenario-based file, [StoText] and [StoIndep]
    those of the embedded one. *)
Inductive sto_record : Type :=
  | StoBlock (probability : Q)
  | StoRHS (con_label : string) (value : Z)
  | StoEntry (var_label con_label : string) (value : Z)
  | StoText (line : string)
  | StoIndep (var_label con_label : string) (value : Z) (probability : Q).

(** The files of one scenario: the text of [.col], [.row], [.tim] and
    [.sto.struct], and the records of [.sto]. *)
Record Files : Type := {
  f_col : string;
  f_row : string;
  f_tim : string;
  f_coords : string;
  f_sto : list sto_record
}.

Definition no_files : Files :=
  {| f_col := ""; f_row := ""; f_tim := ""; f_coords := ""; f_sto := [] |}.

Inductive FileName : Type := Col | Row | Tim | Coords.

(** The text of a file, and the files once the text of one of them is
    changed by [f]. *)
Definition text (name : FileName) (fs : Files) : string :=
  match name with
  | Col => f_col fs
  | Row => f_row fs
  | Tim => f_tim fs
  | Coords => f_coords fs
  end.

Definition with_text (name : FileName) (f : string → string) (fs : Files)
  : Files :=
  match name with
  | Col => {| f_col := f (f_col fs); f_row := f_row fs; f_tim := f_tim fs;
              f_coords := f_coords fs; f_sto := f_sto fs |}
  | Row => {| f_col := f_col fs; f_row := f (f_row fs); f_tim := f_tim fs;
              f_coords := f_coords fs; f_sto := f_sto fs |}
  | Tim => {| f_col := f_col fs; f_row := f_row fs; f_tim := f (f_tim fs);
              f_coords := f_coords fs; f_sto := f_sto fs |}
  | Coords => {| f_col := f_col fs; f_row := f_row fs; f_tim := f_tim fs;
                 f_coords := f (f_coords fs); f_sto := f_sto fs |}
  end.

Definition with_sto (f : list sto_record → list sto_record) (fs : Files)
  : Files :=
  {| f_col := f_col fs; f_row := f_row fs; f_tim := f_tim fs;
     f_coords := f_coords fs; f_sto := f (f_sto fs) |}.

Record State : Type := {
  model : ModelState;
  files : Files
}.

(** ** The monad of the conversion: state and exceptions *)

Definition M (A : Type) : Type := State → result A * State.

Definition ret {A} (a : A) : M A := fun s => (Ok a, s).

Definition raise {A} (e : exn) : M A := fun s => (Raise e, s).

Definition bind {A B} (m : M A) (k : A → M B) : M B := fun s =>
  match m s with
  | (Ok a, s') => k a s'
  | (Raise e, s') => (Raise e, s')
  end.

Notation "'let!' x ':=' c 'in' k" := (bind c (fun x => k))
  (at level 10, x pattern, c at level 100, k at level 200).

Definition lift {A} (r : result A) : M A := fun s => (r, s).

Definition get_model : M ModelState := fun s => (Ok (model s), s).

Definition set_model (f : ModelState → ModelState) : M unit := fun s =>
  (Ok tt, {| model := f (model s); files := files s |}).

Definition m_assert (b : bool) : M unit := lift (py_assert b).

(** [try: body finally: cleanup] *)
Definition try_finally {A} (body : M A) (cleanup : M unit) : M A := fun s =>
  let '(r, s') := body s in
  match cleanup s' with
  | (Ok _, s'') => (r, s'')
  | (Raise e, s'') => (Raise e, s'')
  end.

Fixpoint m_for_each {A} (body : A → M unit) (l : list A) : M unit :=
  match l with
  | [] => ret tt
  | x :: l' => let! _ := body x in m_for_each body l'
  end.

Definition set_files (f : Files → Files) : M unit := fun s =>
  (Ok tt, {| model := model s; files := f (files s) |}).

(** [open(name, 'w')] and [f.write(chunk)] *)
Definition f_open (name : FileName) : M unit :=
  set_files (with_text name (fun _ => "")).

Definition f_write (name : FileName) (chunk : string) : M unit :=
  set_files (with_text name (fun old => old +:+ chunk)).

Definition sto_open : M unit := set_files (with_sto (fun _ => [])).

Definition sto_write (r : sto_record) : M unit :=
  set_files (with_sto (fun old => old ++ [r])).

Definition call_writer (writer : Writer) (file_format : FileFormat)
    (output_filename : string) (io_options : IoOptions)
  : M (string * SymbolMap) := fun s =>
  let '(r, st) := writer file_format output_filename io_options (model s) in
  (r, {| model := st; files := files s |}).

(** ** The per-scenario external conversion, step by step *)

Definition nl : string := String "010"%char "".

(** [l[0]] *)
Definition first_item {A} (l : list A) : result A :=
  match l with
  | x :: _ => Ok x
  | [] => Raise IndexError
  end.

(** *** Annotations *)

Definition by_cname {V} (a b : ConstraintData * V) : bool :=
  String.leb (con_cname a.1) (con_cname b.1).

(** The resolution of the stochastic-rhs annotation, and of the
    stochastic-matrix annotation, which the source spells out twice: the
    annotation if there is one, its entries, and whether it is a default
    annotation ([empty_rhs_annotation], [empty_matrix_annotation]). *)
Definition resolve_constraint_annotation {V}
    (declared : list (string * Annotation ConstraintData V))
    (all_constraints : list ConstraintData)
  : result (option (Annotation ConstraintData V)
            * list (ConstraintData * V) * bool) :=
  let? located := locate_annotations declared (Some 1%nat) in
  match located with
  | [] => Ok (None, [], false)
  | (_, annotation) :: _ =>
      let? _ := py_assert (length located =? 1)%nat in
      if has_declarations annotation then
        let entries := py_sorted by_cname (expand_entries annotation) in
        if (length entries =? 0)%nat
        then Raise (RuntimeError
               "The annotation was declared with explicit entries but no active Constraint objects were recovered from those entries.")
        else Ok (Some annotation, entries, false)
      else
        Ok (Some annotation,
            (fun con => (con, default_ annotation)) <$> all_constraints,
            true)
  end.

Record ResolvedAnnotations : Type := {
  stochastic_rhs : option RhsAnnotation;
  stochastic_rhs_entries : list (ConstraintData * include_bound);
  empty_rhs_annotation : bool;
  stochastic_matrix : option MatrixAnnotation;
  stochastic_matrix_entries : list (ConstraintData * option (list VarData));
  empty_matrix_annotation : bool;
  stochastic_constraint_ids : gset positive;
  stochastic_objective : option ObjectiveAnnotation
}.

Definition entry_ids {V} (entries : list (ConstraintData * V))
  : gset positive :=
  list_to_set ((fun e => con_id e.1) <$> entries).

Definition resolve_annotations (reference_model : Model)
    (all_constraints : list ConstraintData) : result ResolvedAnnotations :=
  let? rhs := resolve_constraint_annotation
                (rhs_annotations reference_model) all_constraints in
  let? matrix := resolve_constraint_annotation
                   (matrix_annotations reference_model) all_constraints in
  let? located := locate_annotations (objective_annotations reference_model)
                    (Some 1%nat) in
  let? objective :=
    match located with
    | [] => Ok None
    | (_, annotation) :: _ =>
        let? _ := py_assert (length located =? 1)%nat in
        Ok (Some annotation)
    end in
  let? stochastic_varbounds :=
    locate_annotations (varbounds_annotations reference_model) None in
  if (0 <? length stochastic_varbounds)%nat
  then Raise (ValueError
         "The SMPS writer does not currently support stochastic variable bounds.")
  else if is_None rhs.1.1 && is_None matrix.1.1 && is_None objective
  then Raise (RuntimeError "No stochastic annotations found.")
  else Ok {| stochastic_rhs := rhs.1.1;
             stochastic_rhs_entries := rhs.1.2;
             empty_rhs_annotation := rhs.2;
             stochastic_matrix := matrix.1.1;
             stochastic_matrix_entries := matrix.1.2;
             empty_matrix_annotation := matrix.2;
             stochastic_constraint_ids :=
               entry_ids rhs.1.2 ∪ entry_ids matrix.1.2;
             stochastic_objective := objective |}.

(** *** Ordering maps *)

(** One turn of the loops that fill [column_order]: the variable gets
    the next index, then its symbol is tested. *)
Definition column_order_body (acc : gmap positive nat * nat)
    (entry : string * VarData * option positive)
  : result (gmap positive nat * nat) :=
  let order := <[var_id entry.1.2 := acc.2]> acc.1 in
  if String.eqb entry.1.1 "RHS"
  then Raise (RuntimeError
         "The SMPS input format forbids variables from using the symbol 'RHS'.")
  else Ok (order, S acc.2).

Definition make_column_order (m : StageToVariableMap)
  : result (gmap positive nat) :=
  let? acc1 := for_each column_order_body (firststage_vars m) (∅, 0%nat) in
  let? acc2 := for_each column_order_body (secondstage_vars m)
                 (acc1.1, size acc1.1) in
  Ok acc2.1.

Definition row_order_body (acc : gmap positive nat * nat)
    (entry : list string * ConstraintData) : gmap positive nat * nat :=
  (<[con_id entry.2 := acc.2]> acc.1, S acc.2).

Definition make_row_order (m : StageToConstraintMap) : gmap positive nat :=
  let acc1 := foldl row_order_body (∅, 0%nat) (firststage_cons m) in
  (foldl row_order_body (acc1.1, size acc1.1) (secondstage_cons m)).1.

(** [ComponentMap((con, symbols) for stage_name in StageToConstraintMap
    for symbols, con in StageToConstraintMap[stage_name])] *)
Definition make_constraint_symbols (m : StageToConstraintMap)
  : gmap positive (list string) :=
  foldl (fun acc entry => <[con_id entry.2 := entry.1]> acc) ∅
        (firststage_cons m ++ secondstage_cons m).

(** *** The [.col] and [.row] files *)

(** Writes each symbol on a line of its own and counts the lines. *)
Fixpoint write_symbols (name : FileName) (symbols : list string)
    (count : nat) : M nat :=
  match symbols with
  | [] => ret count
  | symbol :: symbols' =>
      let! _ := f_write name (symbol +:+ nl) in
      write_symbols name symbols' (S count)
  end.

Definition var_symbols (entries : list (string * VarData * option positive))
  : list string := (fun e => e.1.1) <$> entries.

(** The symbols of the rows of a stage: those of each constraint in turn. *)
Definition con_symbols (entries : list (list string * ConstraintData))
  : list string := concat (fst <$> entries).

Definition write_col_file (m : StageToVariableMap) : M (nat * nat) :=
  let! _ := f_open Col in
  let! firststage_variable_count :=
    write_symbols Col (var_symbols (firststage_vars m)) 0 in
  let! secondstage_variable_count :=
    write_symbols Col (var_symbols (secondstage_vars m)) 0 in
  let! _ := f_write Col ("ONE_VAR_CONSTANT" +:+ nl) in
  ret (firststage_variable_count, S secondstage_variable_count).

Definition write_row_file (symbol_map : SymbolMap)
    (objective_object : ObjectiveData) (m : StageToConstraintMap)
  : M (nat * nat) :=
  let! _ := f_open Row in
  let! objective_symbol :=
    lift (getitem (byObject symbol_map) (obj_id objective_object)) in
  let! _ := f_write Row (objective_symbol +:+ nl) in
  let! firststage_constraint_count :=
    write_symbols Row (con_symbols (firststage_cons m)) 0 in
  let! secondstage_constraint_count :=
    write_symbols Row (con_symbols (secondstage_cons m)) 0 in
  let! _ := f_write Row "c_e_ONE_VAR_CONSTANT" in
  ret (firststage_constraint_count, S secondstage_constraint_count).

(** *** The [.tim] file *)

Definition starts_with (s prefix : string) : bool := String.prefix prefix s.

Definition tim_line (symbol period : string) : string :=
  "    " +:+ symbol +:+ " " +:+ period +:+ nl.

Definition write_tim_lines (symbols : list string) (period : string)
  : M unit :=
  m_for_each (fun symbol => f_write Tim (tim_line symbol period)) symbols.

Definition write_tim_file (basename : string) (file_format : FileFormat)
    (symbol_map : SymbolMap) (objective_object : ObjectiveData)
    (vm : StageToVariableMap) (cm : StageToConstraintMap) : M unit :=
  let! _ := f_open Tim in
  let! _ := f_write Tim ("TIME " +:+ basename +:+ nl) in
  let! _ :=
    match file_format with
    | mps =>
        let! _ := f_write Tim ("PERIODS IMPLICIT" +:+ nl) in
        let! first_var := lift (first_item (firststage_vars vm)) in
        let! objective_symbol :=
          lift (getitem (byObject symbol_map) (obj_id objective_object)) in
        let! _ := f_write Tim ("    " +:+ first_var.1.1 +:+ " "
                               +:+ objective_symbol +:+ " TIME1" +:+ nl) in
        let! first_con := lift (first_item (secondstage_cons cm)) in
        let symbols := first_con.1 in
        let! stage2_row_start :=
          if (length symbols =? 1)%nat then
            let! symbol0 := lift (first_item symbols) in
            let! _ := m_assert (starts_with symbol0 "c_e_"
                                || starts_with symbol0 "c_l_"
                                || starts_with symbol0 "c_u_") in
            ret symbol0
          else
            let symbols := py_sorted String.leb symbols in
            let! symbol0 := lift (first_item symbols) in
            let! _ := m_assert (starts_with symbol0 "r_l_"
                                || starts_with symbol0 "r_u_") in
            ret symbol0 in
        let! second_var := lift (first_item (secondstage_vars vm)) in
        let! _ :=
          if (0 <? String.length second_var.1.1)%nat
          then f_write Tim ("    " +:+ second_var.1.1 +:+ " ")
          else f_write Tim "    ONE_VAR_CONSTANT " in
        f_write Tim (stage2_row_start +:+ " TIME2" +:+ nl)
    | lp =>
        let! _ := f_write Tim ("PERIODS EXPLICIT" +:+ nl) in
        let! _ := f_write Tim ("    TIME1" +:+ nl) in
        let! _ := f_write Tim ("    TIME2" +:+ nl) in
        let! _ := f_write Tim ("ROWS" +:+ nl) in
        let! objective_symbol :=
          lift (getitem (byObject symbol_map) (obj_id objective_object)) in
        let! _ := f_write Tim (tim_line objective_symbol "TIME1") in
        let! _ := write_tim_lines (con_symbols (firststage_cons cm)) "TIME1" in
        let! _ := write_tim_lines (con_symbols (secondstage_cons cm)) "TIME2" in
        let! _ := f_write Tim (tim_line "c_e_ONE_VAR_CONSTANT" "TIME2") in
        let! _ := f_write Tim ("COLS" +:+ nl) in
        let! _ := write_tim_lines (var_symbols (firststage_vars vm)) "TIME1" in
        let! _ := write_tim_lines (var_symbols (secondstage_vars vm)) "TIME2" in
        f_write Tim (tim_line "ONE_VAR_CONSTANT" "TIME2")
    end in
  f_write Tim ("ENDATA" +:+ nl).

(** *** The [.sto] file and the zeroing of the stochastic data *)

Definition _deterministic_check_value : Z := -99999999.

Definition _no_negative_zero (val : Z) : Z :=
  if val =? 0 then 0 else val.

(** [value(bound) - value(body_constant)]; a bound that is [None] has no
    value to subtract from. *)
Definition bound_minus (bound : option Z) (body_constant : Z) : result Z :=
  match bound with
  | Some b => Ok (b - body_constant)
  | None => Raise (TypeError "unsupported operand type(s) for -")
  end.

(** [canonical_repn_cache[id(block)][key]] *)
Definition get_repn (canonical_repn_cache : gmap positive positive)
    (block key : positive) : M CanonicalRepn :=
  let! address := lift (getitem canonical_repn_cache block) in
  let! st := get_model in
  let! repns := lift (getitem (st_heap st) address) in
  lift (getitem repns key).

(** An assignment to an attribute of the representation held at
    [canonical_repn_cache[id(block)][key]]. *)
Definition set_repn (canonical_repn_cache : gmap positive positive)
    (block key : positive) (repn : CanonicalRepn) : M unit :=
  let! address := lift (getitem canonical_repn_cache block) in
  set_model (fun st =>
    {| st_bounds := st_bounds st; st_attrs := st_attrs st;
       st_heap := alter (insert key repn) address (st_heap st);
       st_name := st_name st;
       st_params := st_params st |}).

(** [con._lower = v] and [con._upper = v] *)
Definition set_lower (con : ConstraintData) (v : option Z) : M unit :=
  set_model (fun st =>
    {| st_bounds := <[con_id con := (v, _upper st con)]> (st_bounds st);
       st_attrs := st_attrs st; st_heap := st_heap st;
       st_name := st_name st;
       st_params := st_params st |}).

Definition set_upper (con : ConstraintData) (v : option Z) : M unit :=
  set_model (fun st =>
    {| st_bounds := <[con_id con := (_lower st con, v)]> (st_bounds st);
       st_attrs := st_attrs st; st_heap := st_heap st;
       st_name := st_name st;
       st_params := st_params st |}).

Definition set_name (name : string) : M unit :=
  set_model (fun st =>
    {| st_bounds := st_bounds st; st_attrs := st_attrs st;
       st_heap := st_heap st; st_name := name;
       st_params := st_params st |}).

(** The local variables that the writing of the [.sto] file updates. *)
Record StoLocals : Type := {
  modified_constraint_lb : list (ConstraintData * option Z);
  modified_constraint_ub : list (ConstraintData * option Z);
  stochastic_rhs_count : nat;
  stochastic_matrix_count : nat;
  stochastic_cost_count : nat
}.

(** [d[con] = v] on a [ComponentMap], kept in the order of its keys. *)
Fixpoint component_map_set {V} (d : list (ConstraintData * V))
    (con : ConstraintData) (v : V) : list (ConstraintData * V) :=
  match d with
  | [] => [(con, v)]
  | (c, w) :: d' =>
      if decide (con_id c = con_id con) then (c, v) :: d'
      else (c, w) :: component_map_set d' con v
  end.

Fixpoint m_fold {A B} (body : B → A → M B) (l : list A) (acc : B) : M B :=
  match l with
  | [] => ret acc
  | x :: l' => let! acc' := body acc x in m_fold body l' acc'
  end.

(** [_no_negative_zero] at a probability. *)
Definition _no_negative_zero_Q (val : Q) : Q :=
  if Qeq_bool val 0 then 0%Q else val.

(** The position and the coefficient of [var] in a representation: the
    scan of [zip(repn.variables, repn.linear)] for [_var is var]. *)
Fixpoint find_coef (var : VarData) (vars : list VarData) (coefs : list Z)
    (i : nat) : option (nat * Z) :=
  match vars, coefs with
  | _var :: vars', coef :: coefs' =>
      if decide (var_id _var = var_id var) then Some (i, coef)
      else find_coef var vars' coefs' (S i)
  | _, _ => None
  end.

(** [var_list.sort(key=lambda _v: column_order[_v])] *)
Definition sort_by_column_order (column_order : gmap positive nat)
    (var_list : list VarData) : result (list VarData) :=
  let? keyed :=
    for_each (fun acc var =>
                let? key := getitem column_order (var_id var) in
                Ok (acc ++ [(key, var)])) var_list [] in
  Ok (snd <$> py_sorted (fun a b : nat * VarData => (a.1 <=? b.1)%nat) keyed).

Section sto.
Variable canonical_repn_cache : gmap positive positive.
Variable constraint_symbols : gmap positive (list string).
Variable secondstage_constraint_ids : gset positive.
Variable column_order : gmap positive nat.
Variable symbol_map : SymbolMap.

(** The test that a constraint declared in an annotation with entries
    is second-stage.  The [raise RuntimeError(...)] of the source builds
    its message from [ConstraintStageAnnotation.__name__]; the module
    imports [_ConstraintStageAnnotation] only, so the evaluation of the
    message raises [NameError] and no [RuntimeError] is made. *)
Definition check_declared_secondstage (empty_annotation : bool)
    (con : ConstraintData) : M unit :=
  if negb empty_annotation then
    if negb (bool_decide (con_id con ∈ secondstage_constraint_ids))
    then raise (NameError "ConstraintStageAnnotation")
    else ret tt
  else ret tt.

Definition get_linear_repn (con : ConstraintData) : M LinearCanonicalRepn :=
  let! repn := get_repn canonical_repn_cache (con_parent_block con)
                 (con_id con) in
  match repn with
  | Linear r => ret r
  | General =>
      raise (RuntimeError
        "Only linear constraints are accepted for conversion to SMPS format.")
  end.

(** The four statements that record a stochastic lower bound: the
    [.sto] record, the coordinate, the saved bound and the sentinel. *)
Definition stochastic_lower (con : ConstraintData) (body_constant : Z)
    (con_label : string) (loc : StoLocals) : M StoLocals :=
  let! st := get_model in
  let! v := lift (bound_minus (_lower st con) body_constant) in
  let! _ := sto_write (StoRHS con_label (_no_negative_zero v)) in
  let! _ := f_write Coords ("RHS " +:+ con_label +:+ nl) in
  let! _ := set_lower con (Some _deterministic_check_value) in
  ret {| modified_constraint_lb :=
           component_map_set (modified_constraint_lb loc) con
             (_lower st con);
         modified_constraint_ub := modified_constraint_ub loc;
         stochastic_rhs_count := S (stochastic_rhs_count loc);
         stochastic_matrix_count := stochastic_matrix_count loc;
         stochastic_cost_count := stochastic_cost_count loc |}.

Definition stochastic_upper (con : ConstraintData) (body_constant : Z)
    (con_label : string) (loc : StoLocals) : M StoLocals :=
  let! st := get_model in
  let! v := lift (bound_minus (_upper st con) body_constant) in
  let! _ := sto_write (StoRHS con_label (_no_negative_zero v)) in
  let! _ := f_write Coords ("RHS " +:+ con_label +:+ nl) in
  let! _ := set_upper con (Some _deterministic_check_value) in
  ret {| modified_constraint_lb := modified_constraint_lb loc;
         modified_constraint_ub :=
           component_map_set (modified_constraint_ub loc) con
             (_upper st con);
         stochastic_rhs_count := S (stochastic_rhs_count loc);
         stochastic_matrix_count := stochastic_matrix_count loc;
         stochastic_cost_count := stochastic_cost_count loc |}.

(** The upper bound of an equality row, saved and replaced after its
    lower bound. *)
Definition zero_upper (con : ConstraintData) (loc : StoLocals)
  : M StoLocals :=
  let! st := get_model in
  let! _ := set_upper con (Some _deterministic_check_value) in
  ret {| modified_constraint_lb := modified_constraint_lb loc;
         modified_constraint_ub :=
           component_map_set (modified_constraint_ub loc) con
             (_upper st con);
         stochastic_rhs_count := stochastic_rhs_count loc;
         stochastic_matrix_count := stochastic_matrix_count loc;
         stochastic_cost_count := stochastic_cost_count loc |}.

Definition stochastic_rhs_label (con : ConstraintData)
    (include_bound : include_bound) (body_constant : Z)
    (loc : StoLocals) (con_label : string) : M StoLocals :=
  if starts_with con_label "c_e_" || starts_with con_label "c_l_" then
    let! _ := m_assert (includes_lb include_bound) in
    let! loc := stochastic_lower con body_constant con_label loc in
    if starts_with con_label "c_e_" then zero_upper con loc else ret loc
  else if starts_with con_label "r_l_" then
    if includes_lb include_bound
    then stochastic_lower con body_constant con_label loc
    else ret loc
  else if starts_with con_label "c_u_" then
    let! _ := m_assert (includes_ub include_bound) in
    stochastic_upper con body_constant con_label loc
  else if starts_with con_label "r_u_" then
    if includes_ub include_bound
    then stochastic_upper con body_constant con_label loc
    else ret loc
  else raise AssertionError.

Definition stochastic_rhs_entry (empty_rhs_annotation : bool)
    (loc : StoLocals) (entry : ConstraintData * include_bound)
  : M StoLocals :=
  let con := entry.1 in
  let! _ := check_declared_secondstage empty_rhs_annotation con in
  let! constraint_repn := get_linear_repn con in
  let body_constant := constant constraint_repn in
  let! _ := set_repn canonical_repn_cache (con_parent_block con)
              (con_id con)
              (Linear {| constant := Some 0;
                         variables := variables constraint_repn;
                         linear := linear constraint_repn |}) in
  let body_constant := default 0 body_constant in
  let! symbols := lift (getitem constraint_symbols (con_id con)) in
  let! _ := m_assert (0 <? length symbols)%nat in
  m_fold (stochastic_rhs_label con entry.2 body_constant) symbols loc.

Definition count_matrix (loc : StoLocals) : StoLocals :=
  {| modified_constraint_lb := modified_constraint_lb loc;
     modified_constraint_ub := modified_constraint_ub loc;
     stochastic_rhs_count := stochastic_rhs_count loc;
     stochastic_matrix_count := S (stochastic_matrix_count loc);
     stochastic_cost_count := stochastic_cost_count loc |}.

Definition count_cost (loc : StoLocals) : StoLocals :=
  {| modified_constraint_lb := modified_constraint_lb loc;
     modified_constraint_ub := modified_constraint_ub loc;
     stochastic_rhs_count := stochastic_rhs_count loc;
     stochastic_matrix_count := stochastic_matrix_count loc;
     stochastic_cost_count := S (stochastic_cost_count loc) |}.

(** One variable of a stochastic-matrix entry; the accumulator holds
    [new_coefs] and the locals. *)
Definition stochastic_matrix_var (constraint_repn : LinearCanonicalRepn)
    (symbols : list string) (acc : list Z * StoLocals) (var : VarData)
  : M (list Z * StoLocals) :=
  let! _ := m_assert (negb (var_fixed var)) in
  match find_coef var (variables constraint_repn)
          (linear constraint_repn) 0 with
  | None =>
      raise (RuntimeError
        "The coefficient for a variable has been marked as stochastic, but the variable does not appear in the canonical constraint expression.")
  | Some (i, var_coef) =>
      let new_coefs := <[i := _deterministic_check_value]> acc.1 in
      let! var_label := lift (getitem (byObject symbol_map) (var_id var)) in
      let! loc :=
        m_fold (fun loc con_label =>
                  let! _ := sto_write (StoEntry var_label con_label
                                         (_no_negative_zero var_coef)) in
                  let! _ := f_write Coords
                              (var_label +:+ " " +:+ con_label +:+ nl) in
                  ret (count_matrix loc))
               symbols acc.2 in
      ret (new_coefs, loc)
  end.

Definition stochastic_matrix_entry (empty_matrix_annotation : bool)
    (loc : StoLocals) (entry : ConstraintData * option (list VarData))
  : M StoLocals :=
  let con := entry.1 in
  let! _ := check_declared_secondstage empty_matrix_annotation con in
  let! constraint_repn := get_linear_repn con in
  let! _ := m_assert (0 <? length (variables constraint_repn))%nat in
  let var_list := default (variables constraint_repn) entry.2 in
  let! _ := m_assert (0 <? length var_list)%nat in
  let! symbols := lift (getitem constraint_symbols (con_id con)) in
  let! var_list := lift (sort_by_column_order column_order var_list) in
  let! acc := m_fold (stochastic_matrix_var constraint_repn symbols)
                var_list (linear constraint_repn, loc) in
  let! _ := set_repn canonical_repn_cache (con_parent_block con)
              (con_id con)
              (Linear {| constant := constant constraint_repn;
                         variables := variables constraint_repn;
                         linear := acc.1 |}) in
  ret acc.2.

Definition stochastic_objective_var (objective_repn : LinearCanonicalRepn)
    (stochastic_objective_label : string) (acc : list Z * StoLocals)
    (var : VarData) : M (list Z * StoLocals) :=
  match find_coef var (variables objective_repn)
          (linear objective_repn) 0 with
  | None =>
      raise (RuntimeError
        "The coefficient for a variable has been marked as stochastic, but the variable does not appear in the canonical objective expression.")
  | Some (i, var_coef) =>
      let new_coefs := <[i := _deterministic_check_value]> acc.1 in
      let! var_label := lift (getitem (byObject symbol_map) (var_id var)) in
      let! _ := sto_write (StoEntry var_label stochastic_objective_label
                             (_no_negative_zero var_coef)) in
      let! _ := f_write Coords (var_label +:+ " "
                                +:+ stochastic_objective_label +:+ nl) in
      ret (new_coefs, count_cost acc.2)
  end.

(** The stochastic objective.  [objective_repn] is the representation
    held for the objective in the cache of its block. *)
Definition stochastic_objective_part (objective_object : ObjectiveData)
    (annotation : ObjectiveAnnotation) (loc : StoLocals) : M StoLocals :=
  let! declared :=
    if has_declarations annotation then
      let sorted_values := expand_entries annotation in
      let! _ := m_assert (length sorted_values <=? 1)%nat in
      match sorted_values with
      | [] =>
          raise (RuntimeError
            "The annotation was declared with explicit entries but no active Objective objects were recovered from those entries.")
      | (obj, v) :: _ =>
          let! _ := m_assert
                      (bool_decide (obj_id obj = obj_id objective_object)) in
          ret v
      end
    else ret (default_ annotation) in
  let include_constant := declared.2 in
  let! objective_repn := get_repn canonical_repn_cache
                           (obj_parent_block objective_object)
                           (obj_id objective_object) in
  match objective_repn with
  | General =>
      raise (RuntimeError
        "Only linear stochastic objectives are accepted for conversion to SMPS format.")
  | Linear objective_repn =>
      let objective_variables :=
        default (variables objective_repn) declared.1 in
      let! stochastic_objective_label :=
        lift (getitem (byObject symbol_map) (obj_id objective_object)) in
      let! objective_variables :=
        lift (sort_by_column_order column_order objective_variables) in
      let! _ := m_assert ((0 <? length objective_variables)%nat
                          || include_constant) in
      let! acc := m_fold (stochastic_objective_var objective_repn
                            stochastic_objective_label)
                    objective_variables (linear objective_repn, loc) in
      let! _ := set_repn canonical_repn_cache
                  (obj_parent_block objective_object)
                  (obj_id objective_object)
                  (Linear {| constant := constant objective_repn;
                             variables := variables objective_repn;
                             linear := acc.1 |}) in
      if include_constant : bool then
        let obj_constant := constant objective_repn in
        let! _ := set_repn canonical_repn_cache
                    (obj_parent_block objective_object)
                    (obj_id objective_object)
                    (Linear {| constant := Some 0;
                               variables := variables objective_repn;
                               linear := acc.1 |}) in
        let obj_constant := default 0 obj_constant in
        let! _ := sto_write (StoEntry "ONE_VAR_CONSTANT"
                               stochastic_objective_label
                               (_no_negative_zero obj_constant)) in
        let! _ := f_write Coords ("ONE_VAR_CONSTANT " +:+
                                  stochastic_objective_label +:+ nl) in
        ret (count_cost acc.2)
      else ret acc.2
  end.

(** The body of the [.sto] file and its coordinates. *)
Definition write_sto_files (scenario_probability : Q)
    (annotations : ResolvedAnnotations) (objective_object : ObjectiveData)
  : M StoLocals :=
  let loc := {| modified_constraint_lb := []; modified_constraint_ub := [];
                stochastic_rhs_count := 0; stochastic_matrix_count := 0;
                stochastic_cost_count := 0 |} in
  let! _ := f_open Coords in
  let! _ := sto_open in
  let! _ := sto_write
              (StoBlock (_no_negative_zero_Q scenario_probability)) in
  let! loc :=
    match stochastic_rhs annotations with
    | Some _ =>
        m_fold (stochastic_rhs_entry (empty_rhs_annotation annotations))
          (stochastic_rhs_entries annotations) loc
    | None => ret loc
    end in
  let! loc :=
    match stochastic_matrix annotations with
    | Some _ =>
        m_fold (stochastic_matrix_entry
                  (empty_matrix_annotation annotations))
          (stochastic_matrix_entries annotations) loc
    | None => ret loc
    end in
  match stochastic_objective annotations with
  | Some annotation =>
      stochastic_objective_part objective_object annotation loc
  | None => ret loc
  end.
End sto.

(** *** The conversion of one scenario *)

(** The seven counts that the conversion of a scenario returns. *)
Record SetupCounts : Type := {
  firststage_variable_count : nat;
  secondstage_variable_count : nat;
  firststage_constraint_count : nat;
  secondstage_constraint_count : nat;
  cost_count : nat;
  rhs_count : nat;
  matrix_count : nat
}.

Definition os_path_join (directory name : string) : string :=
  directory +:+ "/" +:+ name.

(** The names of the three files that the writer is asked for. *)
Definition setup_filename (output_directory basename : string)
    (file_format : FileFormat) (scenario : string) : string :=
  os_path_join output_directory
    (basename +:+ ".setup." +:+ format_name file_format +:+ "."
     +:+ scenario).

Definition core_filename (output_directory basename : string)
    (file_format : FileFormat) (scenario : string) : string :=
  os_path_join output_directory
    (basename +:+ "." +:+ format_name file_format +:+ "." +:+ scenario).

Definition det_filename (output_directory basename : string)
    (file_format : FileFormat) (scenario : string) : string :=
  os_path_join output_directory
    (basename +:+ "." +:+ format_name file_format +:+ ".det."
     +:+ scenario).

Definition set_attrs (block : positive) (a : BlockAttrs) : M unit :=
  set_model (fun st =>
    {| st_bounds := st_bounds st;
       st_attrs := <[block := a]> (st_attrs st);
       st_heap := st_heap st; st_name := st_name st;
       st_params := st_params st |}).

(** [canonical_repn_cache[id(block)] = block._canonical_repn], then the
    two flags that stop the writer from generating representations. *)
Definition cache_canonical_repn (cache : gmap positive positive)
    (block : BlockData) : M (gmap positive positive) :=
  let! st := get_model in
  match _canonical_repn (attrs_of st (block_id block)) with
  | None => raise AttributeError
  | Some address =>
      let! _ := set_attrs (block_id block)
                  {| _gen_obj_canonical_repn := Some false;
                     _gen_con_canonical_repn := Some false;
                     _canonical_repn := Some address |} in
      ret (<[block_id block := address]> cache)
  end.

Definition var_ids (entries : list (string * VarData * option positive))
  : gset positive :=
  list_to_set ((fun e => var_id e.1.2) <$> entries).

Definition con_ids (entries : list (list string * ConstraintData))
  : gset positive :=
  list_to_set ((fun e => con_id e.2) <$> entries).

Section convert_external.
Variable writer : Writer.
(** [worker.scenario_tree] *)
Variable scenario_tree : ScenarioTree.

Definition write_core (file_format : FileFormat)
    (output_filename : string) (io_options : IoOptions) : M SymbolMap :=
  let! written := call_writer writer file_format output_filename
                    io_options in
  let! _ := m_assert (String.eqb written.1 output_filename) in
  ret written.2.

Definition _convert_external_setup_without_cleanup (scenario : Scenario)
    (output_directory basename : string) (file_format : FileFormat)
    (enforce_derived_nonanticipativity : bool) (io_options : IoOptions)
  : M SetupCounts :=
  let reference_model := _instance scenario in
  let blocks := model_blocks reference_model in
  let all_constraints := active_constraints blocks in
  let! annotations :=
    lift (resolve_annotations reference_model all_constraints) in
  (* the first write, for the symbol map *)
  let! st := get_model in
  let! _ := m_assert
    (is_None (_canonical_repn (attrs_of st (model_id reference_model)))) in
  let output_filename :=
    setup_filename output_directory basename file_format
      (scenario_name scenario) in
  let! _ := m_assert (is_None (io_column_order io_options)) in
  let! _ := m_assert (is_None (io_row_order io_options)) in
  let! symbol_map := write_core file_format output_filename io_options in
  let! st := get_model in
  let! _ := m_assert
    (negb (is_None
       (_canonical_repn (attrs_of st (model_id reference_model))))) in
  let! StageToVariableMap :=
    lift (map_variable_stages (model_vars reference_model)
            (_ScenarioTreeSymbolMap reference_model) scenario_tree
            (leaf_variable_ids scenario) symbol_map
            enforce_derived_nonanticipativity) in
  let firststage_variable_ids :=
    var_ids (firststage_vars StageToVariableMap) in
  let secondstage_variable_ids :=
    var_ids (secondstage_vars StageToVariableMap) in
  let! st := get_model in
  let! StageToConstraintMap :=
    lift (map_constraint_stages st blocks symbol_map
            (stochastic_constraint_ids annotations)
            firststage_variable_ids secondstage_variable_ids) in
  let secondstage_constraint_ids :=
    con_ids (secondstage_cons StageToConstraintMap) in
  let! canonical_repn_cache := m_fold cache_canonical_repn blocks ∅ in
  let! objective_object :=
    match _instance_objective scenario with
    | Some objective_object => ret objective_object
    | None => raise AssertionError
    end in
  let! _ := get_repn canonical_repn_cache
              (obj_parent_block objective_object)
              (obj_id objective_object) in
  let! column_order := lift (make_column_order StageToVariableMap) in
  let row_order := make_row_order StageToConstraintMap in
  (* the ordered write *)
  let output_filename :=
    core_filename output_directory basename file_format
      (scenario_name scenario) in
  let! _ := m_assert (is_None (io_column_order io_options)) in
  let! _ := m_assert (is_None (io_row_order io_options)) in
  let io_options :=
    {| io_column_order := Some column_order;
       io_row_order := Some row_order;
       io_force_objective_constant := Some true |} in
  let! symbol_map := write_core file_format output_filename io_options in
  let! StageToVariableMap :=
    lift (map_variable_stages (model_vars reference_model)
            (_ScenarioTreeSymbolMap reference_model) scenario_tree
            (leaf_variable_ids scenario) symbol_map
            enforce_derived_nonanticipativity) in
  let! st := get_model in
  let! StageToConstraintMap :=
    lift (map_constraint_stages st blocks symbol_map
            (stochastic_constraint_ids annotations)
            firststage_variable_ids secondstage_variable_ids) in
  let constraint_symbols := make_constraint_symbols StageToConstraintMap in
  let! variable_counts := write_col_file StageToVariableMap in
  let! constraint_counts :=
    write_row_file symbol_map objective_object StageToConstraintMap in
  let! _ := write_tim_file basename file_format symbol_map objective_object
              StageToVariableMap StageToConstraintMap in
  let! loc := write_sto_files canonical_repn_cache constraint_symbols
                secondstage_constraint_ids column_order symbol_map
                (probability scenario) annotations objective_object in
  (* the deterministic write *)
  let! st := get_model in
  let reference_model_name := st_name st in
  let! _ := set_name "ZeroStochasticData" in
  let det_output_filename :=
    det_filename output_directory basename file_format
      (scenario_name scenario) in
  let! _ := write_core file_format det_output_filename io_options in
  let! _ := set_name reference_model_name in
  (* reset bounds on any constraints that were modified *)
  let! _ := m_for_each (fun item => set_lower item.1 item.2)
              (modified_constraint_lb loc) in
  let! _ := m_for_each (fun item => set_upper item.1 item.2)
              (modified_constraint_ub loc) in
  ret {| firststage_variable_count := variable_counts.1;
         secondstage_variable_count := variable_counts.2;
         firststage_constraint_count := constraint_counts.1;
         secondstage_constraint_count := constraint_counts.2;
         cost_count := stochastic_cost_count loc;
         rhs_count := stochastic_rhs_count loc;
         matrix_count := stochastic_matrix_count loc |}.

(** The attributes of a block that exist are kept aside and deleted. *)
Definition cache_attrs (cached_attrs : list (positive * BlockAttrs))
    (block : BlockData) : M (list (positive * BlockAttrs)) :=
  let! st := get_model in
  let block_cached_attrs := attrs_of st (block_id block) in
  let! _ := set_attrs (block_id block) no_attrs in
  ret (cached_attrs ++ [(block_id block, block_cached_attrs)]).

(** [setattr(block, name, block_cached_attrs[name])] for the names that
    were kept aside. *)
Definition restore_attrs (cached : positive * BlockAttrs) : M unit :=
  let! st := get_model in
  let now := attrs_of st cached.1 in
  let kept {A} (aside current : option A) : option A :=
    match aside with
    | Some v => Some v
    | None => current
    end in
  set_attrs cached.1
    {| _gen_obj_canonical_repn :=
         kept (_gen_obj_canonical_repn cached.2)
              (_gen_obj_canonical_repn now);
       _gen_con_canonical_repn :=
         kept (_gen_con_canonical_repn cached.2)
              (_gen_con_canonical_repn now);
       _canonical_repn :=
         kept (_canonical_repn cached.2) (_canonical_repn now) |}.

Definition _convert_external_setup (scenario : Scenario)
    (output_directory basename : string) (file_format : FileFormat)
    (enforce_derived_nonanticipativity : bool) (io_options : IoOptions)
  : M SetupCounts :=
  let reference_model := _instance scenario in
  let! cached_attrs :=
    m_fold cache_attrs (model_blocks reference_model) [] in
  try_finally
    (_convert_external_setup_without_cleanup scenario output_directory
       basename file_format enforce_derived_nonanticipativity io_options)
    (m_for_each restore_attrs cached_attrs).
End convert_external.

(** ** The embedded conversion: [convert_embedded] *)

(** A coefficient or bound of the representation that
    [generate_canonical_repn(expr, compute_values=False)] gives: a number,
    a mutable parameter itself, or an expression over mutable parameters. *)
Inductive Coef : Type :=
  | Number (z : Z)
  | ParamData (param : positive)
  | Expression (params : list positive).

(** [sp._collect_mutable_parameters(coef)]: the parameters of a
    coefficient. *)
Definition _collect_mutable_parameters (coef : option Coef)
  : list positive :=
  match coef with
  | Some (ParamData param) => [param]
  | Some (Expression params) => params
  | _ => []
  end.

(** [coef is paramdata] *)
Definition is_param (coef : option Coef) (paramdata : positive) : bool :=
  match coef with
  | Some (ParamData param) => bool_decide (param = paramdata)
  | _ => false
  end.

Record ParamRepn : Type := {
  p_constant : option Coef;
  p_variables : list VarData;
  p_linear : list Coef
}.

(** The distribution that the user gives a stochastic parameter: a list
    of values, a list of [(probability, value)] pairs, or something that
    is not a list. *)
Inductive Distribution : Type :=
  | Values (values : list Z)
  | Weighted (table : list (Q * Z))
  | NotAList.

(** A constraint of the embedded stochastic program: its bounds, and the
    representation of its body if it is linear. *)
Record EmbeddedConstraint : Type := {
  e_con : ConstraintData;
  e_lower : option Coef;
  e_upper : option Coef;
  e_repn : option ParamRepn
}.

(** The [EmbeddedSP] object, through the members that the conversion
    reads.  [compute_constraint_stage con derived_last_stage] is the
    method of that name. *)
Record EmbeddedSP : Type := {
  has_stochastic_variable_bounds : bool;
  time_stages : list string;
  stage_to_variables_map : gmap string (list (VarData * bool));
  sp_blocks : list positive;
  sp_constraints : list EmbeddedConstraint;
  compute_constraint_stage : ConstraintData → bool → string;
  sp_objective : ObjectiveData;
  sp_objective_repn : option ParamRepn;
  stochastic_data : list (positive * Distribution);
  objective_to_stochastic_data_map : list positive;
  constraint_to_stochastic_data_map : list EmbeddedConstraint
}.

(** [paramdata.value] and [paramdata.value = v] *)
Definition param_value (st : ModelState) (paramdata : positive)
  : option Z := default None (st_params st !! paramdata).

Definition set_param (paramdata : positive) (v : option Z) : M unit :=
  set_model (fun st =>
    {| st_bounds := st_bounds st; st_attrs := st_attrs st;
       st_heap := st_heap st; st_name := st_name st;
       st_params := <[paramdata := v]> (st_params st) |}).

(** "For consistancy set all stochastic parameters to zero before writing
    the core file": the loop returns [param_vals_orig]. *)
Definition zero_stochastic_parameters
    (stochastic_data : list (positive * Distribution))
  : M (list (positive * option Z)) :=
  m_fold (fun param_vals_orig item =>
            let! st := get_model in
            let! _ := set_param item.1 (Some 0) in
            ret (param_vals_orig ++ [(item.1, param_value st item.1)]))
         stochastic_data [].

(** "Reset stochastic parameter to their original setting values": the
    source binds [param_vals_orig] to a new, empty [ComponentMap] and then
    loops over it. *)
Definition reset_stochastic_parameters
    (param_vals_orig : list (positive * option Z)) : M unit :=
  let param_vals_orig : list (positive * option Z) := [] in
  m_for_each (fun item => set_param item.1 item.2) param_vals_orig.

Definition by_var_cname (a b : VarData) : bool :=
  String.leb (var_cname a) (var_cname b).

Definition by_con_cname (a b : EmbeddedConstraint) : bool :=
  String.leb (con_cname (e_con a)) (con_cname (e_con b)).

(** [len(variables) == len(variable_ids)]: no variable is listed twice. *)
Definition distinct_ids (vars : list VarData) : bool :=
  (length vars =? size (list_to_set (var_id <$> vars) : gset positive))%nat.

(** The two stages of the variables of [sp]. *)
Definition embedded_variable_stages (sp : EmbeddedSP) (enforce : bool)
  : result (string * string * list VarData * list VarData) :=
  let? _ := py_assert (length (time_stages sp) =? 2)%nat in
  let? _ := py_assert
    (bool_decide (py_sorted String.leb (time_stages sp)
                  = py_sorted String.leb
                      (map_to_list (stage_to_variables_map sp)).*1)) in
  let? firststage := first_item (time_stages sp) in
  let? secondstage := first_item (drop 1 (time_stages sp)) in
  let? vars1 := getitem (stage_to_variables_map sp) firststage in
  let? vars2 := getitem (stage_to_variables_map sp) secondstage in
  let first_stage_variables :=
    fst <$> filter (fun item => negb item.2 || enforce = true) vars1 in
  let second_stage_variables :=
    (fst <$> filter (fun item => negb item.2 || enforce = false) vars1)
    ++ (fst <$> vars2) in
  let first_stage_variables :=
    py_sorted by_var_cname first_stage_variables in
  let second_stage_variables :=
    py_sorted by_var_cname second_stage_variables in
  let? _ := py_assert (distinct_ids first_stage_variables) in
  let? _ := py_assert (distinct_ids second_stage_variables) in
  Ok (firststage, secondstage, first_stage_variables,
      second_stage_variables).

(** The two stages of the constraints of [sp]. *)
Definition embedded_constraint_body (sp : EmbeddedSP) (enforce : bool)
    (firststage secondstage : string)
    (acc : list EmbeddedConstraint * list EmbeddedConstraint)
    (con : EmbeddedConstraint)
  : result (list EmbeddedConstraint * list EmbeddedConstraint) :=
  let constage := compute_constraint_stage sp (e_con con) (negb enforce) in
  if String.eqb constage firststage then Ok (acc.1 ++ [con], acc.2)
  else
    let? _ := py_assert (String.eqb constage secondstage) in
    Ok (acc.1, acc.2 ++ [con]).

Definition embedded_constraint_stages (sp : EmbeddedSP) (enforce : bool)
    (firststage secondstage : string)
  : result (list EmbeddedConstraint * list EmbeddedConstraint) :=
  let? acc := for_each (embedded_constraint_body sp enforce firststage
                          secondstage)
                (filter (fun con => con_active (e_con con) = true)
                        (sp_constraints sp)) ([], []) in
  Ok (py_sorted by_con_cname acc.1, py_sorted by_con_cname acc.2).

(** [for index, obj in enumerate(objs, len(order)): order[obj] = index] *)
Definition enumerate_into (order : gmap positive nat) (ids : list positive)
  : gmap positive nat :=
  (foldl (fun acc i => (<[i := acc.2]> acc.1, S acc.2))
         (order, size order) ids).1.

(** [constraint_symbols], from the symbol map of the writer. *)
Definition embedded_constraint_symbols (symbol_map : SymbolMap)
    (cons : list EmbeddedConstraint) : result (gmap positive (list string)) :=
  let? reverse := reverse_alias symbol_map in
  for_each (fun acc con =>
              let? symbol := getitem (byObject symbol_map)
                               (con_id (e_con con)) in
              let? aliases := getitem reverse symbol in
              Ok (<[con_id (e_con con) := aliases]> acc))
           cons ∅.

Definition symbols_of (constraint_symbols : gmap positive (list string))
    (cons : list EmbeddedConstraint) : result (list string) :=
  for_each (fun acc con =>
              let? symbols := getitem constraint_symbols
                                (con_id (e_con con)) in
              Ok (acc ++ symbols))
           cons [].

(** The symbols of the variables that the symbol map names. *)
Definition named_symbols (symbol_map : SymbolMap) (vars : list VarData)
  : list string :=
  omap (fun var => byObject symbol_map !! var_id var) vars.

Definition write_embedded_tim (basename : string) (core_format : FileFormat)
    (symbol_map : SymbolMap) (objective : ObjectiveData)
    (constraint_symbols : gmap positive (list string))
    (first_stage_variables second_stage_variables : list VarData)
    (first_stage_constraints second_stage_constraints
       : list EmbeddedConstraint) : M unit :=
  let! _ := f_open Tim in
  let! _ := f_write Tim ("TIME " +:+ basename +:+ nl) in
  let! _ :=
    match core_format with
    | mps =>
        let! _ := f_write Tim ("PERIODS IMPLICIT" +:+ nl) in
        let! first_var := lift (first_item first_stage_variables) in
        let! first_symbol :=
          lift (getitem (byObject symbol_map) (var_id first_var)) in
        let! objective_symbol :=
          lift (getitem (byObject symbol_map) (obj_id objective)) in
        let! _ := f_write Tim ("    " +:+ first_symbol +:+ " "
                               +:+ objective_symbol +:+ " TIME1" +:+ nl) in
        let! first_con := lift (first_item second_stage_constraints) in
        let! symbols :=
          lift (getitem constraint_symbols (con_id (e_con first_con))) in
        let! stage2_row_start :=
          if (length symbols =? 1)%nat then
            let! symbol0 := lift (first_item symbols) in
            let! _ := m_assert (starts_with symbol0 "c_e_"
                                || starts_with symbol0 "c_l_"
                                || starts_with symbol0 "c_u_") in
            ret symbol0
          else
            let symbols := py_sorted String.leb symbols in
            let! symbol0 := lift (first_item symbols) in
            let! _ := m_assert (starts_with symbol0 "r_l_"
                                || starts_with symbol0 "r_u_") in
            ret symbol0 in
        let! second_var := lift (first_item second_stage_variables) in
        let! _ :=
          match byObject symbol_map !! var_id second_var with
          | Some symbol => f_write Tim ("    " +:+ symbol +:+ " ")
          | None => f_write Tim "    ONE_VAR_CONSTANT "
          end in
        f_write Tim (stage2_row_start +:+ " TIME2" +:+ nl)
    | lp =>
        let! _ := f_write Tim ("PERIODS EXPLICIT" +:+ nl) in
        let! _ := f_write Tim ("    TIME1" +:+ nl) in
        let! _ := f_write Tim ("    TIME2" +:+ nl) in
        let! _ := f_write Tim ("ROWS" +:+ nl) in
        let! objective_symbol :=
          lift (getitem (byObject symbol_map) (obj_id objective)) in
        let! _ := f_write Tim (tim_line objective_symbol "TIME1") in
        let! rows1 := lift (symbols_of constraint_symbols
                              first_stage_constraints) in
        let! _ := write_tim_lines rows1 "TIME1" in
        let! rows2 := lift (symbols_of constraint_symbols
                              second_stage_constraints) in
        let! _ := write_tim_lines rows2 "TIME2" in
        let! _ := f_write Tim (tim_line "c_e_ONE_VAR_CONSTANT" "TIME2") in
        let! _ := f_write Tim ("COLS" +:+ nl) in
        let! _ := write_tim_lines
                    (named_symbols symbol_map first_stage_variables)
                    "TIME1" in
        let! _ := write_tim_lines
                    (named_symbols symbol_map second_stage_variables)
                    "TIME2" in
        f_write Tim (tim_line "ONE_VAR_CONSTANT" "TIME2")
    end in
  f_write Tim ("ENDATA" +:+ nl).

(** *** The stochastic elements of the embedded [.sto] file *)

Definition stochastic_message : string :=
  "Cannot output embedded SP representation for component.".

(** The table of a distribution, as pairs of a probability and a value. *)
Definition distribution_table (distribution : Distribution)
  : result (list (Q * Z)) :=
  match distribution with
  | NotAList => Raise (TypeError "Invalid distribution type")
  | Values values =>
      let? _ := py_assert (0 <? length values)%nat in
      let uniformp := (1 / inject_Z (Z.of_nat (length values)))%Q in
      Ok ((fun v => (uniformp, v)) <$> values)
  | Weighted table =>
      let? _ := py_assert (0 <? length table)%nat in
      Ok table
  end.

Section embedded_sto.
Variable sp : EmbeddedSP.

Definition is_stochastic (param : positive) : bool :=
  bool_decide (param ∈ (stochastic_data sp).*1).

(** One coefficient, of a variable or of the right-hand side, in the
    row [label]: the parameters it holds are marked as seen, and the
    table of the single one is written. *)
Definition embedded_coefficient (label : string)
    (varlabel : result string) (stochastic_data_seen : gset positive)
    (varcoef : option Coef) : M (gset positive) :=
  let params := _collect_mutable_parameters varcoef in
  let stochastic_params := filter (fun p => is_stochastic p = true) params in
  let! stochastic_data_seen :=
    m_fold (fun seen param =>
              if bool_decide (param ∈ seen)
              then raise (ValueError stochastic_message)
              else ret ({[param]} ∪ seen))
           stochastic_params stochastic_data_seen in
  match stochastic_params with
  | [] => ret stochastic_data_seen
  | [paramdata] =>
      if negb (is_param varcoef paramdata)
      then raise (ValueError stochastic_message)
      else
        let! distribution :=
          match list_find (fun item => item.1 = paramdata)
                  (stochastic_data sp) with
          | Some found => ret found.2.2
          | None => raise KeyError
          end in
        let! table := lift (distribution_table distribution) in
        let! varlabel := lift varlabel in
        let! _ := m_for_each
          (fun item => sto_write
             (StoIndep varlabel label (_no_negative_zero item.2)
                (_no_negative_zero_Q item.1))) table in
        ret stochastic_data_seen
  | _ => raise (ValueError stochastic_message)
  end.

(** [zip(repn.variables, repn.linear)], sorted by the column order. *)
Definition sorted_terms (column_order : gmap positive nat)
    (repn : ParamRepn) : result (list (VarData * Coef)) :=
  let? keyed :=
    for_each (fun acc (term : VarData * Coef) =>
                let? key := getitem column_order (var_id term.1) in
                Ok (acc ++ [(key, term)]))
             (zip (p_variables repn) (p_linear repn)) [] in
  Ok (snd <$> py_sorted
                (fun a b : nat * (VarData * Coef) => (a.1 <=? b.1)%nat)
                keyed).

Definition embedded_objective (symbol_map : SymbolMap)
    (column_order : gmap positive nat)
    (stochastic_data_seen : gset positive) : M (gset positive) :=
  if (0 <? length (objective_to_stochastic_data_map sp))%nat then
    let! _ := m_assert
      (length (objective_to_stochastic_data_map sp) =? 1)%nat in
    let! _ := m_assert
      (bool_decide (objective_to_stochastic_data_map sp
                    = [obj_id (sp_objective sp)])) in
    match sp_objective_repn sp with
    | None => raise (ValueError stochastic_message)
    | Some objective_repn =>
        let! terms := lift (sorted_terms column_order objective_repn) in
        let objective_vars :=
          ((fun term : VarData * Coef =>
              (getitem (byObject symbol_map) (var_id term.1),
               Some term.2)) <$> terms)
          ++ match p_constant objective_repn with
             | Some c => [(Ok "ONE_VAR_CONSTANT", Some c)]
             | None => []
             end in
        let! stochastic_objective_label :=
          lift (getitem (byObject symbol_map)
                  (obj_id (sp_objective sp))) in
        m_fold (fun seen term =>
                  embedded_coefficient stochastic_objective_label
                    term.1 seen term.2)
               objective_vars stochastic_data_seen
    end
  else ret stochastic_data_seen.

Definition embedded_constraint (symbol_map : SymbolMap)
    (column_order : gmap positive nat)
    (constraint_symbols : gmap positive (list string))
    (stochastic_data_seen : gset positive) (con : EmbeddedConstraint)
  : M (gset positive) :=
  match e_repn con with
  | None => raise (ValueError stochastic_message)
  | Some constraint_repn =>
      let! terms := lift (sorted_terms column_order constraint_repn) in
      let! constraint_vars :=
        lift (for_each
                (fun acc (term : VarData * Coef) =>
                   let? symbol := getitem (byObject symbol_map)
                                    (var_id term.1) in
                   Ok (acc ++ [(symbol, Some term.2)]))
                terms []) in
      let! _ :=
        m_for_each (fun param =>
                      if is_stochastic param
                      then raise (ValueError stochastic_message)
                      else ret tt)
          (_collect_mutable_parameters (p_constant constraint_repn)) in
      let! symbols :=
        lift (getitem constraint_symbols (con_id (e_con con))) in
      if (length symbols =? 2)%nat
      then raise (ValueError stochastic_message)
      else
        let! _ := m_assert (length symbols =? 1)%nat in
        let! stochastic_constraint_label := lift (first_item symbols) in
        let constraint_vars :=
          constraint_vars
          ++ (if starts_with stochastic_constraint_label "c_e_"
                 || starts_with stochastic_constraint_label "c_l_"
              then [("RHS", e_lower con)]
              else if starts_with stochastic_constraint_label "c_u_"
              then [("RHS", e_upper con)]
              else []) in
        m_fold (fun seen (term : string * option Coef) =>
                  embedded_coefficient stochastic_constraint_label
                    (Ok term.1) seen term.2)
               constraint_vars stochastic_data_seen
  end.

(** [stochastic_constraints.sort(key=lambda x: row_order[x])] *)
Definition sort_by_row_order (row_order : gmap positive nat)
    (cons : list EmbeddedConstraint) : result (list EmbeddedConstraint) :=
  let? keyed :=
    for_each (fun acc con =>
                let? key := getitem row_order (con_id (e_con con)) in
                Ok (acc ++ [(key, con)])) cons [] in
  Ok (snd <$> py_sorted
                (fun a b : nat * EmbeddedConstraint => (a.1 <=? b.1)%nat)
                keyed).
End embedded_sto.

Definition convert_embedded (writer : Writer)
    (output_directory basename : string) (sp : EmbeddedSP)
    (core_format : FileFormat) (io_options : IoOptions)
    (enforce_derived_nonanticipativity : bool) : M SymbolMap :=
  if has_stochastic_variable_bounds sp
  then raise (ValueError
         "Problems with stochastic variables bounds can not be converted into an embedded SMPS representation")
  else
    let! stages :=
      lift (embedded_variable_stages sp
              enforce_derived_nonanticipativity) in
    let firststage := stages.1.1.1 in
    let secondstage := stages.1.1.2 in
    let first_stage_variables := stages.1.2 in
    let second_stage_variables := stages.2 in
    let! constraints :=
      lift (embedded_constraint_stages sp enforce_derived_nonanticipativity
              firststage secondstage) in
    let first_stage_constraints := constraints.1 in
    let second_stage_constraints := constraints.2 in
    let column_order :=
      enumerate_into
        (enumerate_into ∅ (map var_id first_stage_variables))
        (map var_id second_stage_variables) in
    let row_order :=
      enumerate_into
        (enumerate_into ∅
           (map (fun con => con_id (e_con con)) first_stage_constraints))
        (map (fun con => con_id (e_con con)) second_stage_constraints) in
    let! param_vals_orig :=
      zero_stochastic_parameters (stochastic_data sp) in
    let output_filename :=
      os_path_join output_directory (basename +:+ ".cor") in
    let! _ := m_assert (is_None (io_column_order io_options)) in
    let! _ := m_assert (is_None (io_row_order io_options)) in
    let io_options :=
      {| io_column_order := Some column_order;
         io_row_order := Some row_order;
         io_force_objective_constant := Some true |} in
    let! symbol_map := write_core writer core_format output_filename
                         io_options in
    let! canonical_repn_cache :=
      m_fold (fun cache block =>
                let! st := get_model in
                match _canonical_repn (attrs_of st block) with
                | Some address => ret (<[block := address]> cache)
                | None => raise AttributeError
                end)
             (sp_blocks sp) (∅ : gmap positive positive) in
    let! _ := reset_stochastic_parameters param_vals_orig in
    let! constraint_symbols :=
      lift (embedded_constraint_symbols symbol_map
              (first_stage_constraints ++ second_stage_constraints)) in
    let! _ := write_embedded_tim basename core_format symbol_map
                (sp_objective sp) constraint_symbols first_stage_variables
                second_stage_variables first_stage_constraints
                second_stage_constraints in
    let! _ := sto_open in
    let! _ := sto_write (StoText ("STOCH " +:+ basename +:+ nl)) in
    let! _ := sto_write (StoText ("INDEP         DISCRETE" +:+ nl)) in
    let! stochastic_data_seen :=
      embedded_objective sp symbol_map column_order ∅ in
    let! stochastic_constraints :=
      lift (sort_by_row_order row_order
              (constraint_to_stochastic_data_map sp)) in
    let! _ := m_fold (embedded_constraint sp symbol_map column_order
                        constraint_symbols)
                stochastic_constraints stochastic_data_seen in
    let! _ := sto_write (StoText ("ENDATA" +:+ nl)) in
    ret symbol_map.

(** ** The conic constraints of [pyomo/core/kernel/conic.py] *)

Module Conic.

(** The classes of the module: the base class and the six constraints
    that derive from it. *)
Inductive class : Type :=
  | _ConicBase
  | quadratic
  | rotated_quadratic
  | primal_exponential
  | primal_power
  | dual_exponential
  | dual_power.

#[export] Instance class_eq_dec : EqDecision class.
Proof. solve_decision. Defined.

(** The names that the body of each class binds: its methods and its
    properties. *)
Definition declares (c : class) : list string :=
  match c with
  | _ConicBase =>
      ["__init__"; "_body_function"; "_body_function_variables";
       "check_convexity_conditions"; "body"; "lb"; "ub"; "rhs";
       "equality"; "__call__"]
  | quadratic =>
      ["__init__"; "x"; "r"; "_body_function";
       "_body_function_variables"; "check_convexity_conditions"]
  | rotated_quadratic =>
      ["__init__"; "x"; "r1"; "r2"; "_body_function";
       "_body_function_variables"; "check_convexity_conditions"]
  | primal_exponential =>
      ["__init__"; "x1"; "x2"; "r"; "_body_function";
       "_body_function_variables"; "check_convexity_conditions"]
  | primal_power =>
      ["__init__"; "x"; "r1"; "r2"; "alpha"; "_body_function";
       "_body_function_variables"; "check_convexity_conditions"]
  | dual_exponential =>
      ["__init__"; "x1"; "x2"; "r"; "_body_function";
       "_body_function_variables"; "check_convexity_conditions"]
  | dual_power =>
      ["__init__"; "x"; "r1"; "r2"; "alpha"; "_body_function";
       "_body_function_variables"; "check_convexity_conditions"]
  end.

(** The classes of this module in the method resolution order of a
    class: the class, then [_ConicBase]. *)
Definition mro (c : class) : list class :=
  match c with
  | _ConicBase => [_ConicBase]
  | _ => [c; _ConicBase]
  end.

(** The class whose body gives an instance of [c] the attribute
    [name]. *)
Definition owner (c : class) (name : string) : option class :=
  snd <$> list_find (fun k => name ∈ declares k) (mro c).

(** The values that the bound properties return. *)
Inductive value : Type :=
  | PyNone
  | PyFloat (q : Q)
  | PyBool (b : bool).

(** The four bound properties, as the body of [_ConicBase] has them. *)
Definition lb : result value := Ok PyNone.

Definition ub : result value := Ok (PyFloat 0).

Definition rhs : result value :=
  Raise (ValueError
    "The rhs property can not be read because this is not an equality constraint").

Definition equality : result value := Ok (PyBool false).

(** The reading of a bound property on an instance of [c]: the property
    of the class that owns the name.  No class but [_ConicBase] has a
    body for these names. *)
Definition read (c : class) (name : string) : option (result value) :=
  match owner c name with
  | Some _ConicBase =>
      if String.eqb name "lb" then Some lb
      else if String.eqb name "ub" then Some ub
      else if String.eqb name "rhs" then Some rhs
      else if String.eqb name "equality" then Some equality
      else None
  | _ => None
  end.

(** The constraint that the bounds of an instance stand for: [body <= 0]
    when there is no lower bound, the upper bound is 0 and the
    constraint is no equality. *)
Definition is_body_le_zero (c : class) : Prop :=
  read c "lb" = Some (Ok PyNone)
  ∧ read c "ub" = Some (Ok (PyFloat 0))
  ∧ read c "equality" = Some (Ok (PyBool false)).

End Conic.

(** ** The conversion of a scenario tree: [convert_external]

    [convert_external] works on files: it has the scenario tree manager
    convert every scenario into the directory [scenario_files] of the
    output directory, copies the files of the first scenario, merges the
    [.sto] files, compares the files of the scenarios and removes what is
    not to be kept.  The output directory exists (the source asserts it);
    a file is the text it holds.  What [verbose] prints is left out. *)

(** The errors of the file operations, next to the exceptions of the
    conversion. *)
Inductive io_exn : Type :=
  | PyExn (e : exn)
  | OSError (filename : string).

Inductive io_result (A : Type) : Type :=
  | IoOk (a : A)
  | IoRaise (e : io_exn).
Arguments IoOk {A} a.
Arguments IoRaise {A} e.

(** The files of the output directory, by name, and those of its
    directory [scenario_files], if there is one. *)
Record FileSystem : Type := {
  output_files : gmap string string;
  scenario_files : option (gmap string string)
}.

(** [os.path.join(output_directory, name)] and
    [os.path.join(scenario_directory, name)] *)
Inductive Path : Type :=
  | InOutput (name : string)
  | InScenario (name : string).

Definition path_name (p : Path) : string :=
  match p with
  | InOutput name => name
  | InScenario name => os_path_join "scenario_files" name
  end.

Definition read (p : Path) (fs : FileSystem) : option string :=
  match p with
  | InOutput name => output_files fs !! name
  | InScenario name => scenario_files fs ≫= (fun d => d !! name)
  end.

Definition IO (A : Type) : Type := FileSystem → io_result A * FileSystem.

Definition io_ret {A} (a : A) : IO A := fun fs => (IoOk a, fs).

Definition io_raise {A} (e : io_exn) : IO A := fun fs => (IoRaise e, fs).

Definition io_bind {A B} (m : IO A) (k : A → IO B) : IO B := fun fs =>
  match m fs with
  | (IoOk a, fs') => k a fs'
  | (IoRaise e, fs') => (IoRaise e, fs')
  end.

Notation "'let*' x ':=' c 'in' k" := (io_bind c (fun x => k))
  (at level 10, x pattern, c at level 100, k at level 200).

Definition io_lift {A} (r : result A) : IO A := fun fs =>
  match r with
  | Ok a => (IoOk a, fs)
  | Raise e => (IoRaise (PyExn e), fs)
  end.

Definition io_assert (b : bool) : IO unit := io_lift (py_assert b).

Fixpoint io_for_each {A} (body : A → IO unit) (l : list A) : IO unit :=
  match l with
  | [] => io_ret tt
  | x :: l' => let* _ := body x in io_for_each body l'
  end.

(** [os.path.exists(p)] *)
Definition path_exists (p : Path) : IO bool := fun fs =>
  (IoOk (bool_decide (is_Some (read p fs))), fs).

(** The text of a file is replaced, or the file is made. *)
Definition write_file (p : Path) (content : string) : IO unit := fun fs =>
  match p with
  | InOutput name =>
      (IoOk tt, {| output_files := <[name := content]> (output_files fs);
                   scenario_files := scenario_files fs |})
  | InScenario name =>
      match scenario_files fs with
      | Some d =>
          (IoOk tt, {| output_files := output_files fs;
                       scenario_files := Some (<[name := content]> d) |})
      | None => (IoRaise (OSError (path_name p)), fs)
      end
  end.

(** [_safe_remove_file]: "Try to remove a file, ignoring failure." *)
Definition _safe_remove_file (p : Path) : IO unit := fun fs =>
  match p with
  | InOutput name =>
      (IoOk tt, {| output_files := delete name (output_files fs);
                   scenario_files := scenario_files fs |})
  | InScenario name =>
      (IoOk tt, {| output_files := output_files fs;
                   scenario_files := delete name <$> scenario_files fs |})
  end.

(** [shutil.copy2(src, dst)] *)
Definition copy2 (src dst : Path) : IO unit := fun fs =>
  match read src fs with
  | Some content => write_file dst content fs
  | None => (IoRaise (OSError (path_name src)), fs)
  end.

(** [f.write(chunk)] on a file that is open for writing. *)
Definition append_file (p : Path) (chunk : string) : IO unit := fun fs =>
  match read p fs with
  | Some content => write_file p (content +:+ chunk) fs
  | None => (IoRaise (OSError (path_name p)), fs)
  end.

(** [with open(src, 'r') as fsrc: shutil.copyfileobj(fsrc, fdst)] *)
Definition copyfileobj (src dst : Path) : IO unit := fun fs =>
  match read src fs with
  | Some content => append_file dst content fs
  | None => (IoRaise (OSError (path_name src)), fs)
  end.

(** The test that two files differ: the status of [diff -q], which is
    not zero when the files differ or when one is missing, or the
    negation of [filecmp.cmp(a, b, shallow=False)], which raises when one
    is missing. *)
Definition files_differ (has_diff : bool) (a b : Path) : IO bool := fun fs =>
  match read a fs, read b fs with
  | Some x, Some y => (IoOk (negb (String.eqb x y)), fs)
  | None, _ =>
      if has_diff then (IoOk true, fs)
      else (IoRaise (OSError (path_name a)), fs)
  | Some _, None =>
      if has_diff then (IoOk true, fs)
      else (IoRaise (OSError (path_name b)), fs)
  end.

(** [if not os.path.exists(scenario_directory): os.mkdir(...)] *)
Definition make_scenario_directory : IO unit := fun fs =>
  match scenario_files fs with
  | Some _ => (IoOk tt, fs)
  | None => (IoOk tt, {| output_files := output_files fs;
                         scenario_files := Some ∅ |})
  end.

(** [if len(os.listdir(scenario_directory)) == 0:
        shutil.rmtree(scenario_directory, ignore_errors=True)] *)
Definition remove_scenario_directory_if_empty : IO unit := fun fs =>
  match scenario_files fs with
  | Some d =>
      if bool_decide (d = ∅)
      then (IoOk tt, {| output_files := output_files fs;
                        scenario_files := None |})
      else (IoOk tt, fs)
  | None => (IoRaise (OSError "scenario_files"), fs)
  end.

(** The scenario tree manager, through what the conversion asks of it:
    whether the tree has bundles, the names of the scenarios in the order
    of the tree, and [invoke_function("_convert_external_setup", ...,
    function_args=(scenario_directory, basename, core_format,
    enforce_derived_nonanticipativity, io_options))], which converts every
    scenario and returns the counts by scenario name. *)
Record ScenarioTreeManager : Type := {
  contains_bundles : bool;
  scenarios : list string;
  invoke_function :
    string → FileFormat → bool → IoOptions → IO (gmap string SetupCounts)
}.

Record ProblemStats : Type := {
  stats_firststage_variable_count : nat;
  stats_secondstage_variable_count : nat;
  stats_firststage_constraint_count : nat;
  stats_secondstage_constraint_count : nat;
  stats_stochastic_cost_count : nat;
  stats_stochastic_rhs_count : nat;
  stats_stochastic_matrix_count : nat;
  scenario_count : nat
}.

(** The kinds of files that a scenario leaves in [scenario_files], by
    the part of the name between the base name and the name of the
    scenario. *)
Definition row_kind : string := ".row.".
Definition col_kind : string := ".col.".
Definition tim_kind : string := ".tim.".
Definition struct_kind : string := ".sto.struct.".
Definition sto_kind : string := ".sto.".
Definition det_kind (core_format : FileFormat) : string :=
  "." +:+ format_name core_format +:+ ".det.".
Definition setup_kind (core_format : FileFormat) : string :=
  ".setup." +:+ format_name core_format +:+ ".".
Definition core_kind (core_format : FileFormat) : string :=
  "." +:+ format_name core_format +:+ ".".

Definition scenario_file (basename kind scenario : string) : Path :=
  InScenario (basename +:+ kind +:+ scenario).

(** The six files of the output directory that are copies of files of the
    reference scenario, with the kind of file that each is a copy of. *)
Definition copied_files (core_format : FileFormat)
  : list (string * string) :=
  [(".cor", core_kind core_format); (".row", row_kind); (".col", col_kind);
   (".tim", tim_kind); (".sto.struct", struct_kind);
   ("." +:+ format_name core_format +:+ ".det", det_kind core_format)].

(** [_safe_remove_file(dst); shutil.copy2(src, dst)] *)
Definition copy_reference (basename reference_scenario_name : string)
    (file : string * string) : IO unit :=
  let dst := InOutput (basename +:+ file.1) in
  let* _ := _safe_remove_file dst in
  copy2 (scenario_file basename file.2 reference_scenario_name) dst.

(** "Merge the per-scenario .sto files into one" *)
Definition merge_sto (basename : string) (scenarios : list string)
  : IO unit :=
  let sto_filename := InOutput (basename +:+ ".sto") in
  let* _ := _safe_remove_file sto_filename in
  let* _ := write_file sto_filename "" in
  let* _ := append_file sto_filename ("STOCH " +:+ basename +:+ nl) in
  let* _ := append_file sto_filename ("BLOCKS DISCRETE REPLACE" +:+ nl) in
  let* _ :=
    io_for_each
      (fun scenario =>
         let scenario_sto_filename :=
           scenario_file basename sto_kind scenario in
         let* found := path_exists scenario_sto_filename in
         let* _ := io_assert found in
         copyfileobj scenario_sto_filename sto_filename)
      scenarios in
  append_file sto_filename ("ENDATA" +:+ nl).

(** One comparison of the consistency checks: the file of a scenario
    against the copy of the file of the reference scenario. *)
Definition check_same (has_diff : bool) (basename kind scenario copy : string)
    (error : io_exn) : IO unit :=
  let* rc := files_differ has_diff (scenario_file basename kind scenario)
               (InOutput (basename +:+ copy)) in
  if rc : bool then io_raise error else io_ret tt.

(** The consistency checks.  The error of the rows is made from
    [ConstraintStageAnnotation.__name__], a name that the module does not
    bind: what is raised is a [NameError]. *)
Definition consistency_checks (has_diff : bool) (basename : string)
    (core_format : FileFormat) (scenarios : list string) : IO unit :=
  let* _ :=
    io_for_each
      (fun scenario =>
         let* _ := check_same has_diff basename row_kind scenario ".row"
                     (PyExn (NameError "ConstraintStageAnnotation")) in
         check_same has_diff basename col_kind scenario ".col"
           (PyExn (ValueError
              "The column ordering indicated in the file does not match that for the scenario.")))
      scenarios in
  let* _ :=
    io_for_each
      (fun scenario =>
         check_same has_diff basename tim_kind scenario ".tim"
           (PyExn (ValueError
              "Main .tim file does not match .tim file for the scenario.")))
      scenarios in
  let* _ :=
    io_for_each
      (fun scenario =>
         check_same has_diff basename struct_kind scenario ".sto.struct"
           (PyExn (ValueError
              "The structure of stochastic entries indicated in the file does not match that for the scenario.")))
      scenarios in
  io_for_each
    (fun scenario =>
       check_same has_diff basename (det_kind core_format) scenario
         ("." +:+ format_name core_format +:+ ".det")
         (PyExn (ValueError
            "One or more deterministic parts of the problem found in the file do not match those for the scenario.")))
    scenarios.

(** The kinds of the files of a scenario, in the order in which they are
    removed. *)
Definition scenario_kinds (core_format : FileFormat) : list string :=
  [row_kind; col_kind; tim_kind; struct_kind; sto_kind;
   det_kind core_format; setup_kind core_format; core_kind core_format].

(** [assert os.path.exists(f); _safe_remove_file(f)] *)
Definition remove_existing (p : Path) : IO unit :=
  let* found := path_exists p in
  let* _ := io_assert found in
  _safe_remove_file p.

Definition remove_scenario_files (basename : string)
    (core_format : FileFormat) (scenarios : list string) : IO unit :=
  let* _ :=
    io_for_each
      (fun scenario =>
         io_for_each
           (fun kind => remove_existing (scenario_file basename kind scenario))
           (scenario_kinds core_format))
      scenarios in
  remove_scenario_directory_if_empty.

Definition convert_external (basename : string)
    (scenario_tree_manager : ScenarioTreeManager)
    (core_format : FileFormat) (enforce_derived_nonanticipativity : bool)
    (io_options : IoOptions)
    (disable_consistency_checks keep_scenario_files keep_auxiliary_files
       : bool)
    (has_diff : bool) : IO ProblemStats :=
  if contains_bundles scenario_tree_manager
  then io_raise (PyExn (ValueError
         "SMPS conversion does not yet handle bundles"))
  else
    let* _ := make_scenario_directory in
    let* counts :=
      invoke_function scenario_tree_manager basename core_format
        enforce_derived_nonanticipativity io_options in
    let* reference_scenario_name :=
      io_lift (first_item (scenarios scenario_tree_manager)) in
    let* reference_counts :=
      io_lift (getitem counts reference_scenario_name) in
    let* _ :=
      io_for_each (copy_reference basename reference_scenario_name)
        (copied_files core_format) in
    let* _ := merge_sto basename (scenarios scenario_tree_manager) in
    let* _ :=
      if negb disable_consistency_checks
      then consistency_checks has_diff basename core_format
             (scenarios scenario_tree_manager)
      else io_ret tt in
    let* _ :=
      if negb keep_auxiliary_files
      then
        io_for_each (fun copy => _safe_remove_file (InOutput (basename +:+ copy)))
          [".row"; ".col"; ".sto.struct";
           "." +:+ format_name core_format +:+ ".det"]
      else io_ret tt in
    let* _ :=
      if negb keep_scenario_files
      then remove_scenario_files basename core_format
             (scenarios scenario_tree_manager)
      else io_ret tt in
    io_ret
      {| stats_firststage_variable_count :=
           firststage_variable_count reference_counts;
         stats_secondstage_variable_count :=
           secondstage_variable_count reference_counts;
         stats_firststage_constraint_count :=
           firststage_constraint_count reference_counts;
         stats_secondstage_constraint_count :=
           secondstage_constraint_count reference_counts;
         stats_stochastic_cost_count := cost_count reference_counts;
         stats_stochastic_rhs_count := rhs_count reference_counts;
         stats_stochastic_matrix_count := matrix_count reference_counts;
         scenario_count := length (scenarios scenario_tree_manager) |}.

(** ** The convexity conditions of the conic constraints

    [check_convexity_conditions] of the six classes of
    [pyomo/core/kernel/conic.py]. *)

Module Convexity.

(** [a and b] and [a or b]: the second operand is evaluated only if the
    first does not decide, so that what it raises is raised only then. *)
Definition py_and (a b : result bool) : result bool :=
  match a with
  | Ok true => b
  | _ => a
  end.

Definition py_or (a b : result bool) : result bool :=
  match a with
  | Ok false => b
  | _ => a
  end.

Section conditions.

(** The bounds are floats, or expressions that [value] turns into floats;
    the conditions only compare them with 0 and 1. *)
Context {number : Type}.
(** [v >= 0] *)
Variable nonnegative : number → bool.
(** [v <= 0] *)
Variable nonpositive : number → bool.
(** [0 < v < 1] *)
Variable in_unit_interval : number → bool.

(** A variable, through what the conditions ask of it:
    [is_continuous()], [has_lb()], [value(lb)], [has_ub()] and
    [value(ub)]. *)
Record variable : Type := {
  is_continuous : bool;
  has_lb : bool;
  lb : result number;
  has_ub : bool;
  ub : result number
}.

(** An instance of one of the six classes, with its variables; [alpha]
    is [value(self.alpha, exception=False)], which is [None] when the
    term has no value. *)
Inductive constraint : Type :=
  | quadratic (x : list variable) (r : variable)
  | rotated_quadratic (x : list variable) (r1 r2 : variable)
  | primal_exponential (x1 x2 r : variable)
  | primal_power (x : list variable) (r1 r2 : variable)
      (alpha : option number)
  | dual_exponential (x1 x2 r : variable)
  | dual_power (x : list variable) (r1 r2 : variable)
      (alpha : option number).

(** [v.has_lb() and value(v.lb) >= 0] *)
Definition lb_nonnegative (v : variable) : result bool :=
  py_and (Ok (has_lb v)) (let? bound := lb v in Ok (nonnegative bound)).

(** [v.has_ub() and value(v.ub) <= 0] *)
Definition ub_nonpositive (v : variable) : result bool :=
  py_and (Ok (has_ub v)) (let? bound := ub v in Ok (nonpositive bound)).

(** [(alpha is not None) and (0 < alpha < 1)] *)
Definition alpha_in_range (alpha : option number) : result bool :=
  match alpha with
  | Some a => Ok (in_unit_interval a)
  | None => Ok false
  end.

(** [all(xi.is_continuous() for xi in x)] *)
Definition all_continuous (x : list variable) : result bool :=
  Ok (forallb is_continuous x).

Definition check_convexity_conditions (c : constraint) (relax : bool)
  : result bool :=
  match c with
  | quadratic x r =>
      py_and
        (py_or (Ok relax)
           (py_and (Ok (is_continuous r)) (all_continuous x)))
        (lb_nonnegative r)
  | rotated_quadratic x r1 r2 =>
      py_and
        (py_and
           (py_or (Ok relax)
              (py_and
                 (py_and (Ok (is_continuous r1)) (Ok (is_continuous r2)))
                 (all_continuous x)))
           (lb_nonnegative r1))
        (lb_nonnegative r2)
  | primal_exponential x1 x2 r =>
      py_and
        (py_and
           (py_or (Ok relax)
              (py_and
                 (py_and (Ok (is_continuous x1)) (Ok (is_continuous x2)))
                 (Ok (is_continuous r))))
           (lb_nonnegative x1))
        (lb_nonnegative r)
  | primal_power x r1 r2 alpha =>
      py_and
        (py_and
           (py_and
              (py_or (Ok relax)
                 (py_and
                    (py_and (Ok (is_continuous r1)) (Ok (is_continuous r2)))
                    (all_continuous x)))
              (lb_nonnegative r1))
           (lb_nonnegative r2))
        (alpha_in_range alpha)
  | dual_exponential x1 x2 r =>
      py_and
        (py_and
           (py_or (Ok relax)
              (py_and
                 (py_and (Ok (is_continuous x1)) (Ok (is_continuous x2)))
                 (Ok (is_continuous r))))
           (ub_nonpositive x2))
        (lb_nonnegative r)
  | dual_power x r1 r2 alpha =>
      py_and
        (py_and
           (py_and
              (py_or (Ok relax)
                 (py_and
                    (py_and (Ok (is_continuous r1)) (Ok (is_continuous r2)))
                    (all_continuous x)))
              (lb_nonnegative r1))
           (lb_nonnegative r2))
        (alpha_in_range alpha)
  end.

(** The variable with a continuous domain, and the constraint over such
    variables. *)
Definition as_continuous (v : variable) : variable :=
  {| is_continuous := true; has_lb := has_lb v; lb := lb v;
     has_ub := has_ub v; ub := ub v |}.

Definition over_continuous (c : constraint) : constraint :=
  match c with
  | quadratic x r => quadratic (as_continuous <$> x) (as_continuous r)
  | rotated_quadratic x r1 r2 =>
      rotated_quadratic (as_continuous <$> x) (as_continuous r1)
        (as_continuous r2)
  | primal_exponential x1 x2 r =>
      primal_exponential (as_continuous x1) (as_continuous x2)
        (as_continuous r)
  | primal_power x r1 r2 alpha =>
      primal_power (as_continuous <$> x) (as_continuous r1)
        (as_continuous r2) alpha
  | dual_exponential x1 x2 r =>
      dual_exponential (as_continuous x1) (as_continuous x2)
        (as_continuous r)
  | dual_power x r1 r2 alpha =>
      dual_power (as_continuous <$> x) (as_continuous r1)
        (as_continuous r2) alpha
  end.

End conditions.

End Convexity.

(** ** Statements about the classifiers *)

(** The classification of variables as the design document words it:
    the call returns, a variable of the symbol map is first-stage exactly
    under the first-stage rule, and second-stage otherwise, whatever its
    stage id. *)
Definition variable_stages_as_documented (model_vars : list VarData)
    (scenariotree_byObject : gmap positive positive)
    (scenario_tree : ScenarioTree) (secondstage_variables : gset positive)
    (symbol_map : SymbolMap) (enforce : bool) : Prop :=
  ∃ m, map_variable_stages model_vars scenariotree_byObject scenario_tree
         secondstage_variables symbol_map enforce = Ok m
    ∧ ∀ var, var ∈ model_vars →
        is_Some (byObject symbol_map !! var_id var) →
        (var_in_stage var (firststage_vars m) ↔
           firststage_rule scenario_tree enforce
             (scenariotree_byObject !! var_id var) = true)
        ∧ (var_in_stage var (secondstage_vars m) ↔
           firststage_rule scenario_tree enforce
             (scenariotree_byObject !! var_id var) = false).

(** The condition under which a constraint is second-stage: it was flagged
    as holding stochastic data, or a variable of its body that is not
    fixed is second-stage. *)
Definition secondstage_condition (stochastic_constraint_ids : gset positive)
    (secondstage_variable_ids : gset positive) (con : ConstraintData)
  : Prop :=
  con_id con ∈ stochastic_constraint_ids
  ∨ ∃ var, var ∈ con_body con ∧ var_fixed var = false
           ∧ var_id var ∈ secondstage_variable_ids.

Definition con_in_stage (con : ConstraintData)
    (entries : list (list string * ConstraintData)) : Prop :=
  ∃ aliases, (aliases, con) ∈ entries.

(** Every alias of the symbol map names an object that has a symbol. *)
Definition aliases_resolve (symbol_map : SymbolMap) : Prop :=
  ∀ alias obj, (alias, obj) ∈ aliases symbol_map →
    ∃ symbol, byObject symbol_map !! obj = Some symbol
              ∧ is_Some (bySymbol symbol_map !! symbol).

(** No block holds an active SOS constraint, and each has its
    [_canonical_repn]. *)
Definition blocks_preprocessed (st : ModelState)
    (model_blocks : list BlockData) : Prop :=
  ∀ block, block ∈ model_blocks →
    block_sos block = []
    ∧ is_Some (_canonical_repn (attrs_of st (block_id block))).

(** Every active constraint has a symbol, and that symbol an alias. *)
Definition constraints_named (symbol_map : SymbolMap)
    (model_blocks : list BlockData) : Prop :=
  ∀ con, con ∈ active_constraints model_blocks →
    ∃ symbol alias obj,
      byObject symbol_map !! con_id con = Some symbol
      ∧ (alias, obj) ∈ aliases symbol_map
      ∧ byObject symbol_map !! obj = Some symbol.

(** Every variable that is not fixed in the body of an active constraint
    was put in one of the two stages. *)
Definition free_variables_staged (model_blocks : list BlockData)
    (firststage_variable_ids secondstage_variable_ids : gset positive)
  : Prop :=
  ∀ con var, con ∈ active_constraints model_blocks → var ∈ con_body con →
    var_fixed var = false →
    var_id var ∈ firststage_variable_ids
    ∨ var_id var ∈ secondstage_variable_ids.

(** What the two lists of [map_constraint_stages] hold once the loop has
    gone through the constraints [seen]. *)
Definition stages_hold (stochastic_constraint_ids : gset positive)
    (secondstage_variable_ids : gset positive)
    (seen : list ConstraintData) (acc : StageToConstraintMap) : Prop :=
  ∀ con,
    (con_in_stage con (secondstage_cons acc) ↔
       con ∈ seen
       ∧ secondstage_condition stochastic_constraint_ids
           secondstage_variable_ids con)
    ∧ (con_in_stage con (firststage_cons acc) ↔
       con ∈ seen
       ∧ ¬ secondstage_condition stochastic_constraint_ids
             secondstage_variable_ids con).

(** ** Statements about the conversion *)

(** The text of a file whose lines are [lines], each ended by a newline. *)
Definition unlines (lines : list string) : string :=
  foldr (fun line rest => line +:+ nl +:+ rest) "" lines.

(** A computation leaves the text of the file [name] as it is, whether it
    returns or raises. *)
Definition keeps (name : FileName) {A} (m : M A) : Prop :=
  ∀ s, text name (files (m s).2) = text name (files s).

(** An attribute that a block had is the same in the second record. *)
Definition attrs_kept (before after : BlockAttrs) : Prop :=
  (∀ v, _gen_obj_canonical_repn before = Some v →
        _gen_obj_canonical_repn after = Some v)
  ∧ (∀ v, _gen_con_canonical_repn before = Some v →
          _gen_con_canonical_repn after = Some v)
  ∧ (∀ v, _canonical_repn before = Some v →
          _canonical_repn after = Some v).

(** The values that a conversion goes through when it returns: the
    resolved annotations; the symbol map of the setup write, the state it
    leaves and the stage maps and column order made from it; the state in
    which the ordered write is called, its symbol map, the state it leaves
    and the stage maps made from it; the objective and its symbol. *)
Record ConversionTrace : Type := {
  t_annotations : ResolvedAnnotations;
  t_setup_symbols : SymbolMap;
  t_setup_state : ModelState;
  t_setup_vars : StageToVariableMap;
  t_setup_cons : StageToConstraintMap;
  t_column_order : gmap positive nat;
  t_cached_state : ModelState;
  t_symbols : SymbolMap;
  t_state : ModelState;
  t_vars : StageToVariableMap;
  t_cons : StageToConstraintMap;
  t_objective : ObjectiveData;
  t_objective_symbol : string
}.

Definition traces (writer : Writer) (scenario_tree : ScenarioTree)
    (scenario : Scenario) (output_directory basename : string)
    (file_format : FileFormat) (enforce : bool) (io_options : IoOptions)
    (st : ModelState) (t : ConversionTrace) : Prop :=
  let reference_model := _instance scenario in
  let stages symbol_map :=
    map_variable_stages (model_vars reference_model)
      (_ScenarioTreeSymbolMap reference_model) scenario_tree
      (leaf_variable_ids scenario) symbol_map enforce in
  let rows st symbol_map :=
    map_constraint_stages st (model_blocks reference_model) symbol_map
      (stochastic_constraint_ids (t_annotations t))
      (var_ids (firststage_vars (t_setup_vars t)))
      (var_ids (secondstage_vars (t_setup_vars t))) in
  resolve_annotations reference_model
    (active_constraints (model_blocks reference_model))
  = Ok (t_annotations t)
  ∧ writer file_format
      (setup_filename output_directory basename file_format
         (scenario_name scenario)) io_options st
    = (Ok (setup_filename output_directory basename file_format
             (scenario_name scenario), t_setup_symbols t),
       t_setup_state t)
  ∧ stages (t_setup_symbols t) = Ok (t_setup_vars t)
  ∧ rows (t_setup_state t) (t_setup_symbols t) = Ok (t_setup_cons t)
  ∧ _instance_objective scenario = Some (t_objective t)
  ∧ make_column_order (t_setup_vars t) = Ok (t_column_order t)
  ∧ writer file_format
      (core_filename output_directory basename file_format
         (scenario_name scenario))
      {| io_column_order := Some (t_column_order t);
         io_row_order := Some (make_row_order (t_setup_cons t));
         io_force_objective_constant := Some true |} (t_cached_state t)
    = (Ok (core_filename output_directory basename file_format
             (scenario_name scenario), t_symbols t),
       t_state t)
  ∧ stages (t_symbols t) = Ok (t_vars t)
  ∧ rows (t_state t) (t_symbols t) = Ok (t_cons t)
  ∧ byObject (t_symbols t) !! obj_id (t_objective t)
    = Some (t_objective_symbol t).

(** The state in which the conversion proper runs: that of the caller,
    once [_convert_external_setup] has put aside and deleted the cached
    attributes of the blocks. *)
Definition detached (scenario : Scenario) (s : State) : State :=
  (m_fold cache_attrs (model_blocks (_instance scenario)) [] s).2.

(** Two states that differ in the attributes of the blocks at most. *)
Definition same_but_attrs (s1 s2 : State) : Prop :=
  files s1 = files s2
  ∧ st_bounds (model s1) = st_bounds (model s2)
  ∧ st_heap (model s1) = st_heap (model s2)
  ∧ st_name (model s1) = st_name (model s2)
  ∧ st_params (model s1) = st_params (model s2).

(** The annotations that make a conversion fail: a stochastic variable
    bounds annotation; none of the three other kinds; one of the rhs or
    matrix kind that was declared with entries, none of which gives an
    active constraint; more than one of a kind. *)
Definition annotations_rejected (reference_model : Model) : Prop :=
  varbounds_annotations reference_model ≠ []
  ∨ (rhs_annotations reference_model = []
     ∧ matrix_annotations reference_model = []
     ∧ objective_annotations reference_model = [])
  ∨ (∃ name annotation, (name, annotation) ∈ rhs_annotations reference_model
       ∧ has_declarations annotation = true
       ∧ expand_entries annotation = [])
  ∨ (∃ name annotation,
       (name, annotation) ∈ matrix_annotations reference_model
       ∧ has_declarations annotation = true
       ∧ expand_entries annotation = [])
  ∨ (1 < length (rhs_annotations reference_model))%nat
  ∨ (1 < length (matrix_annotations reference_model))%nat
  ∨ (1 < length (objective_annotations reference_model))%nat.

(** A conversion that ends on an exception. *)
Definition raises {A} (m : M A) (s : State) : Prop :=
  ∃ e s', m s = (Raise e, s').

(** The handling of reserved symbols as the design document words it: a
    variable that the setup write names [RHS] or [ONE_VAR_CONSTANT] makes
    the conversion raise. *)
Definition reserved_symbols_rejected (reserved : list string)
    (writer : Writer) (scenario_tree : ScenarioTree) (scenario : Scenario)
    (output_directory basename : string) (file_format : FileFormat)
    (enforce : bool) (io_options : IoOptions) (s : State) : Prop :=
  ∀ symbol_map st var symbol,
    writer file_format
      (setup_filename output_directory basename file_format
         (scenario_name scenario)) io_options (model (detached scenario s))
    = (Ok (setup_filename output_directory basename file_format
             (scenario_name scenario), symbol_map), st) →
    var ∈ model_vars (_instance scenario) →
    byObject symbol_map !! var_id var = Some symbol →
    symbol ∈ reserved →
    raises (_convert_external_setup writer scenario_tree scenario
              output_directory basename file_format enforce io_options) s.

(** The lines of a text, as [str.splitlines] gives them for texts whose
    only line boundary is the newline: a last line needs no newline. *)
Fixpoint splitlines_from (current text : string) : list string :=
  match text with
  | EmptyString =>
      match current with
      | EmptyString => []
      | _ => [current]
      end
  | String c text' =>
      if Ascii.eqb c "010"%char then current :: splitlines_from "" text'
      else splitlines_from (current +:+ String c "") text'
  end.

Definition splitlines (text : string) : list string :=
  splitlines_from "" text.

(** The counts of lines as the design document words them: each of the two
    files has as many lines as the first-stage count and the second-stage
    count that the conversion returns make together, plus [synthetic]
    lines for the synthetic constant entry: one, or none if the counts are
    read as including it. *)
Definition line_counts_as_documented (synthetic : nat)
    (counts : SetupCounts) (fs : Files) : Prop :=
  length (splitlines (f_col fs))
  = (firststage_variable_count counts + secondstage_variable_count counts
     + synthetic)%nat
  ∧ length (splitlines (f_row fs))
    = (firststage_constraint_count counts
       + secondstage_constraint_count counts + synthetic)%nat.

(** The lines of the two files of a conversion that went through [t]. *)
Definition col_lines (t : ConversionTrace) : list string :=
  var_symbols (firststage_vars (t_vars t))
  ++ var_symbols (secondstage_vars (t_vars t))
  ++ ["ONE_VAR_CONSTANT"].

Definition row_lines (t : ConversionTrace) : list string :=
  [t_objective_symbol t]
  ++ con_symbols (firststage_cons (t_cons t))
  ++ con_symbols (secondstage_cons (t_cons t))
  ++ ["c_e_ONE_VAR_CONSTANT"].

(** The text of a file whose lines are [lines], the last one without a
    newline. *)
Fixpoint join_lines (lines : list string) : string :=
  match lines with
  | [] => ""
  | [line] => line
  | line :: lines' => line +:+ nl +:+ join_lines lines'
  end.

(** The ordered write names no variable of the model that the setup write
    did not name. *)
Definition names_no_new_variable (scenario : Scenario)
    (t : ConversionTrace) : Prop :=
  ∀ var, var ∈ model_vars (_instance scenario) →
    is_Some (byObject (t_symbols t) !! var_id var) →
    is_Some (byObject (t_setup_symbols t) !! var_id var).

(** ** Statements of the further properties *)

(** What an entry of a dictionary of the loop of [map_variable_stages] is,
    whatever the symbol map: a variable that the loop met, under its
    symbol, with its stage id, in the dictionary of its rule. *)
Definition entries_sound (scenariotree_byObject : gmap positive positive)
    (scenario_tree : ScenarioTree) (secondstage_variables : gset positive)
    (symbol_map : SymbolMap) (enforce : bool)
    (seen : list VarData) (acc : var_dict * var_dict) : Prop :=
  ∀ symbol var i,
    (acc.1 !! symbol = Some (var, i) →
       var ∈ seen ∧ byObject symbol_map !! var_id var = Some symbol
       ∧ i = scenariotree_byObject !! var_id var
       ∧ firststage_rule scenario_tree enforce i = true)
    ∧ (acc.2 !! symbol = Some (var, i) →
       var ∈ seen ∧ byObject symbol_map !! var_id var = Some symbol
       ∧ i = scenariotree_byObject !! var_id var
       ∧ firststage_rule scenario_tree enforce i = false
       ∧ secondstage_rule scenario_tree secondstage_variables i = true).

(** The aliases that the symbol map gives the object named [symbol], in
    the order of [symbol_map.aliases]. *)
Definition aliases_of (symbol_map : SymbolMap) (symbol : string)
  : list string :=
  (filter (fun item => byObject symbol_map !! item.2 = Some symbol)
          (aliases symbol_map)).*1.

(** The entries of a stage list of [map_constraint_stages] pair a
    constraint with the entry that the table of aliases has for its
    symbol, which is not empty. *)
Definition entries_named (symbol_map : SymbolMap)
    (reverse : gmap string (list string))
    (entries : list (list string * ConstraintData)) : Prop :=
  ∀ aliases con, (aliases, con) ∈ entries →
    ∃ symbol, byObject symbol_map !! con_id con = Some symbol
              ∧ reverse !! symbol = Some aliases
              ∧ (0 < length aliases)%nat.

(** The numbering of a loop [for index, obj in enumerate(objs, n):
    order[obj] = index], over the ids of the objects: the map and the next
    index. *)
Definition number_from (order : gmap positive nat) (n : nat)
    (ids : list positive) : gmap positive nat * nat :=
  foldl (fun acc i => (<[i := acc.2]> acc.1, S acc.2)) (order, n) ids.

(** A computation leaves a part of the state as it is, whether it returns
    or raises. *)
Definition preserves {B} (proj : State → B) {A} (m : M A) : Prop :=
  ∀ s, proj (m s).2 = proj s.

(** The state of a model under another name. *)
Definition with_name (name : string) (st : ModelState) : ModelState :=
  {| st_bounds := st_bounds st; st_attrs := st_attrs st;
     st_heap := st_heap st; st_name := name; st_params := st_params st |}.

(** The state that the last statements of the conversion leave: the
    lower bounds, then the upper bounds, that were put aside are
    assigned again. *)
Definition reset_bounds (loc : StoLocals) (s : State) : State :=
  (m_for_each (fun item => set_upper item.1 item.2)
     (modified_constraint_ub loc)
     (m_for_each (fun item => set_lower item.1 item.2)
        (modified_constraint_lb loc) s).2).2.

(** *** The [.tim] file *)

(** A line of the [.tim] file, without its newline. *)
Definition tim_entry (symbol period : string) : string :=
  "    " +:+ symbol +:+ " " +:+ period.

(** The lines of the [.tim] file of a conversion to the [lp] format that
    went through [t]: the periods, then every row and every column with
    its period. *)
Definition tim_lines_explicit (basename : string) (t : ConversionTrace)
  : list string :=
  ["TIME " +:+ basename; "PERIODS EXPLICIT"; "    TIME1"; "    TIME2";
   "ROWS"; tim_entry (t_objective_symbol t) "TIME1"]
  ++ ((fun symbol => tim_entry symbol "TIME1")
        <$> con_symbols (firststage_cons (t_cons t)))
  ++ ((fun symbol => tim_entry symbol "TIME2")
        <$> con_symbols (secondstage_cons (t_cons t)))
  ++ [tim_entry "c_e_ONE_VAR_CONSTANT" "TIME2"; "COLS"]
  ++ ((fun symbol => tim_entry symbol "TIME1")
        <$> var_symbols (firststage_vars (t_vars t)))
  ++ ((fun symbol => tim_entry symbol "TIME2")
        <$> var_symbols (secondstage_vars (t_vars t)))
  ++ [tim_entry "ONE_VAR_CONSTANT" "TIME2"; "ENDATA"].

(** The row that starts the second period: the only symbol of the first
    second-stage constraint, or the first of its symbols once sorted. *)
Definition stage2_row_start (symbols : list string) : option string :=
  head (if (length symbols =? 1)%nat then symbols
        else py_sorted String.leb symbols).

(** The column that starts the second period. *)
Definition stage2_column_start (symbol : string) : string :=
  if (0 <? String.length symbol)%nat then symbol else "ONE_VAR_CONSTANT".

(** The lines of the [.tim] file of a conversion to the [mps] format:
    each period with its first column and its first row. *)
Definition tim_lines_implicit (basename first_column objective_symbol
    second_column second_row : string) : list string :=
  ["TIME " +:+ basename; "PERIODS IMPLICIT";
   "    " +:+ first_column +:+ " " +:+ objective_symbol +:+ " TIME1";
   "    " +:+ stage2_column_start second_column +:+ " " +:+ second_row
     +:+ " TIME2";
   "ENDATA"].

(** *** The [.sto] file and its coordinates *)

(** The line of [.sto.struct] that locates a record of [.sto]. *)
Definition coordinate (r : sto_record) : option string :=
  match r with
  | StoRHS con_label _ => Some ("RHS " +:+ con_label)
  | StoEntry var_label con_label _ => Some (var_label +:+ " " +:+ con_label)
  | _ => None
  end.

Definition is_rhs (r : sto_record) : bool :=
  match r with
  | StoRHS _ _ => true
  | _ => false
  end.

Definition is_entry (r : sto_record) : bool :=
  match r with
  | StoEntry _ _ _ => true
  | _ => false
  end.

(** The two files of the stochastic data go together: after the header
    of the block, [.sto] holds [n_rhs] right-hand sides and [n_entry]
    coefficients, and [.sto.struct] holds the coordinate of each record,
    in the same order. *)
Definition sto_inv (p : Q) (fs : Files) (n_rhs n_entry : nat) : Prop :=
  ∃ entries,
    f_sto fs = StoBlock p :: entries
    ∧ Forall (fun r => is_rhs r || is_entry r = true) entries
    ∧ f_coords fs = unlines (omap coordinate entries)
    ∧ length (filter (fun r => is_rhs r = true) entries) = n_rhs
    ∧ length (filter (fun r => is_entry r = true) entries) = n_entry.

(** *** What the conversion leaves on the model *)

(** The writer leaves a part of the state of the model as it is. *)
Definition writer_keeps {B} (proj : ModelState → B) (writer : Writer)
  : Prop :=
  ∀ file_format output_filename io_options st,
    proj (writer file_format output_filename io_options st).2 = proj st.

(** The two flags of a block that stop the writer from generating
    canonical representations. *)
Definition gen_flags (st : ModelState) (block : positive)
  : option bool * option bool :=
  (_gen_obj_canonical_repn (attrs_of st block),
   _gen_con_canonical_repn (attrs_of st block)).

(** The attributes of a block once the [finally] block has run: those
    that were put aside are assigned again, the others are as the
    conversion proper left them. *)
Definition restored_attrs (aside now : BlockAttrs) : BlockAttrs :=
  {| _gen_obj_canonical_repn :=
       match _gen_obj_canonical_repn aside with
       | Some v => Some v
       | None => _gen_obj_canonical_repn now
       end;
     _gen_con_canonical_repn :=
       match _gen_con_canonical_repn aside with
       | Some v => Some v
       | None => _gen_con_canonical_repn now
       end;
     _canonical_repn :=
       match _canonical_repn aside with
       | Some v => Some v
       | None => _canonical_repn now
       end |}.

(** *** The bounds of the constraints *)

(** The bounds of the constraint of id [i]. *)
Definition lower_of (st : ModelState) (i : positive) : option Z :=
  (default (None, None) (st_bounds st !! i)).1.

Definition upper_of (st : ModelState) (i : positive) : option Z :=
  (default (None, None) (st_bounds st !! i)).2.

(** The content of [modified_constraint_lb] or [modified_constraint_ub]:
    the bound that was put aside for a constraint, by its id. *)
Definition saved_bounds (d : list (ConstraintData * option Z))
  : gmap positive (option Z) :=
  list_to_map ((fun e => (con_id e.1, e.2)) <$> d).

(** Each bound is as it was in [st0], or was put aside at the value it
    had in [st0]; and a map of bounds put aside has one entry at most for
    a constraint. *)
Definition bounds_kept (st0 st : ModelState) (loc : StoLocals) : Prop :=
  (∀ i,
     default (lower_of st i)
       (saved_bounds (modified_constraint_lb loc) !! i)
     = lower_of st0 i
     ∧ default (upper_of st i)
         (saved_bounds (modified_constraint_ub loc) !! i)
       = upper_of st0 i)
  ∧ NoDup ((fun e => con_id e.1) <$> modified_constraint_lb loc)
  ∧ NoDup ((fun e => con_id e.1) <$> modified_constraint_ub loc).

(** The labels of rows under which a lower bound, or an upper bound, is
    put aside. *)
Definition lower_prefixed (label : string) : bool :=
  starts_with label "c_e_" || starts_with label "c_l_"
  || starts_with label "r_l_".

Definition upper_prefixed (label : string) : bool :=
  starts_with label "c_e_" || starts_with label "c_u_"
  || starts_with label "r_u_".

(** One row at most stands for each bound: an equality row, or a row for
    the lower bound and a row for the upper bound. *)
Definition one_row_per_bound (symbols : list string) : Prop :=
  (length (filter (fun label => lower_prefixed label = true) symbols)
   ≤ 1)%nat
  ∧ (length (filter (fun label => upper_prefixed label = true) symbols)
     ≤ 1)%nat.

(** The writer gives every object one row per bound. *)
Definition writer_rows_wellformed (writer : Writer) : Prop :=
  ∀ file_format output_filename io_options st name symbol_map st',
    writer file_format output_filename io_options st
    = (Ok (name, symbol_map), st') →
    ∀ symbol, one_row_per_bound (aliases_of symbol_map symbol).

(** The model lists no active constraint twice, and neither do the
    entries of its stochastic-rhs annotations. *)
Definition constraints_listed_once (reference_model : Model) : Prop :=
  NoDup (con_id <$> active_constraints (model_blocks reference_model))
  ∧ ∀ name annotation,
      (name, annotation) ∈ rhs_annotations reference_model →
      NoDup ((fun e => con_id e.1) <$> expand_entries annotation).

(** *** Statements about the conversion of a scenario tree *)

(** The files once the scenario tree manager has converted the
    scenarios: those that [convert_external] goes on with. *)
Definition converted (basename : string) (manager : ScenarioTreeManager)
    (core_format : FileFormat) (enforce : bool) (io_options : IoOptions)
    (fs : FileSystem) : FileSystem :=
  (invoke_function manager basename core_format enforce io_options
     (make_scenario_directory fs).2).2.

(** The names, in [scenario_files], of the files of the scenarios. *)
Definition scenario_file_names (basename : string) (core_format : FileFormat)
    (scenarios : list string) : list string :=
  scenario ← scenarios;
  kind ← scenario_kinds core_format;
  [basename +:+ kind +:+ scenario].

(** The kinds of files that the consistency checks compare. *)
Definition checked_kinds (core_format : FileFormat) : list string :=
  [row_kind; col_kind; tim_kind; struct_kind; det_kind core_format].

(** The auxiliary files of the output directory, with the kind of file of
    the reference scenario that each is a copy of. *)
Definition auxiliary_files (core_format : FileFormat)
  : list (string * string) :=
  [(".row", row_kind); (".col", col_kind); (".sto.struct", struct_kind);
   ("." +:+ format_name core_format +:+ ".det", det_kind core_format)].

(** The names of the files that the conversion makes in the output
    directory. *)
Definition output_file_names (basename : string) (core_format : FileFormat)
  : list string :=
  (fun suffix => basename +:+ suffix) <$>
    ((copied_files core_format).*1 ++ [".sto"]).

(** The text of a merged [.sto] file. *)
Definition merged_sto (basename : string) (contents : list string) : string :=
  "STOCH " +:+ basename +:+ nl +:+ "BLOCKS DISCRETE REPLACE" +:+ nl
  +:+ foldr String.append ("ENDATA" +:+ nl) contents.

(** *** Statements about the embedded conversion *)

(** The model in which every stochastic parameter is zero and nothing
    else has changed. *)
Definition zeroed (stochastic_data : list (positive * Distribution))
    (st : ModelState) : ModelState :=
  {| st_bounds := st_bounds st; st_attrs := st_attrs st;
     st_heap := st_heap st; st_name := st_name st;
     st_params :=
       foldl (fun params item => <[item.1 := Some 0]> params)
             (st_params st) stochastic_data |}.

(** A record of the embedded [.sto] file that gives one row of the table
    of a stochastic parameter of [sp]. *)
Definition from_table (sp : EmbeddedSP) (r : sto_record) : Prop :=
  ∃ var_label con_label param distribution table item,
    (param, distribution) ∈ stochastic_data sp ∧
    distribution_table distribution = Ok table ∧
    item ∈ table ∧
    r = StoIndep var_label con_label (_no_negative_zero item.2)
          (_no_negative_zero_Q item.1).

(** The [.sto] file has got more rows of tables, and nothing else. *)
Definition sto_grows (sp : EmbeddedSP) (s s' : State) : Prop :=
  ∃ records,
    f_sto (files s') = f_sto (files s) ++ records ∧
    Forall (from_table sp) records.

(** ** Concrete models *)

Module Examples.

(** A tree whose root holds the standard id 5 and the derived id 6; the
    leaf node of the scenario holds the id 8. *)
Definition tree : ScenarioTree :=
  {| firststage_name := "Stage1"; secondstage_name := "Stage2";
     _standard_variable_ids := {[5%positive]};
     _derived_variable_ids := {[6%positive]} |}.
Definition leaf_ids : gset positive := {[8%positive]}.

Definition x : VarData :=
  {| var_id := 1; var_cname := "x"; var_fixed := false |}.
Definition y : VarData :=
  {| var_id := 2; var_cname := "y"; var_fixed := false |}.
Definition z : VarData :=
  {| var_id := 3; var_cname := "z"; var_fixed := false |}.
Definition w : VarData :=
  {| var_id := 4; var_cname := "w"; var_fixed := false |}.

Definition four_symbols : SymbolMap :=
  {| byObject := {[1%positive := "x"; 2%positive := "y";
                   3%positive := "z"; 4%positive := "w"]};
     bySymbol := {["x" := 1%positive; "y" := 2%positive;
                   "z" := 3%positive; "w" := 4%positive]};
     aliases := [] |}.

(** [x] is a standard first-stage variable, [y] a derived one, [z] a
    leaf variable and [w] carries no stage id. *)
Definition known_ids : gmap positive positive :=
  {[1%positive := 5%positive; 2%positive := 6%positive;
    3%positive := 8%positive]}.

(** As [known_ids], but [w] carries the id 7, which no node holds. *)
Definition stray_ids : gmap positive positive :=
  <[4%positive := 7%positive]> known_ids.

Definition four_vars : list VarData := [x; y; z; w].

(** *** A two-variable model and a writer for it

    The model is one block, of id 100, with the objective [o] and three
    constraints: [c1], [x + y >= 5]; [c2], [x <= 3]; and [c3],
    [y * y >= 2], which has no linear representation.
    [x] is first-stage and [y] second-stage. *)

Definition o : ObjectiveData :=
  {| obj_id := 50; obj_cname := "o"; obj_parent_block := 100 |}.

Definition c1 : ConstraintData :=
  {| con_id := 11; con_cname := "c1"; con_active := true;
     con_parent_block := 100; con_body := [x; y] |}.
Definition c2 : ConstraintData :=
  {| con_id := 12; con_cname := "c2"; con_active := true;
     con_parent_block := 100; con_body := [x] |}.
Definition c3 : ConstraintData :=
  {| con_id := 13; con_cname := "c3"; con_active := true;
     con_parent_block := 100; con_body := [y] |}.

Definition two_var_ids : gmap positive positive :=
  {[1%positive := 5%positive; 2%positive := 8%positive]}.

(** The representations that preprocessing gives the objective and the
    constraints. *)
Definition repns : gmap positive CanonicalRepn :=
  {[50%positive := Linear {| constant := None; variables := [x; y];
                             linear := [1; 2] |};
    11%positive := Linear {| constant := None; variables := [x; y];
                             linear := [1; 1] |};
    12%positive := Linear {| constant := None; variables := [x];
                             linear := [1] |};
    13%positive := General]}.

(** The symbols of the writer: a name for each object and, for each
    constraint, the alias of its row. *)
Definition symbols : SymbolMap :=
  {| byObject := {[1%positive := "x"; 2%positive := "y";
                   50%positive := "o"; 11%positive := "c1";
                   12%positive := "c2"; 13%positive := "c3"]};
     bySymbol := {["x" := 1%positive; "y" := 2%positive;
                   "o" := 50%positive; "c1" := 11%positive;
                   "c2" := 12%positive; "c3" := 13%positive]};
     aliases := [("c_l_c1_", 11%positive); ("c_u_c2_", 12%positive);
                 ("c_l_c3_", 13%positive)] |}.

(** A writer that installs the representations [table] on a block that
    has none, under a fresh address, and returns the symbol map [sm]
    with the name of the file. *)
Definition install (table : gmap positive CanonicalRepn)
    (st : ModelState) (block : positive) : ModelState :=
  match _canonical_repn (attrs_of st block) with
  | Some _ => st
  | None =>
      let address := fresh (dom (st_heap st)) in
      {| st_bounds := st_bounds st;
         st_attrs :=
           <[block := {| _gen_obj_canonical_repn :=
                           _gen_obj_canonical_repn (attrs_of st block);
                         _gen_con_canonical_repn :=
                           _gen_con_canonical_repn (attrs_of st block);
                         _canonical_repn := Some address |}]>
             (st_attrs st);
         st_heap := <[address := table]> (st_heap st);
         st_name := st_name st;
         st_params := st_params st |}
  end.

Definition table_writer (blocks : list positive)
    (table : gmap positive CanonicalRepn) (sm : SymbolMap) : Writer :=
  fun _ output_filename _ st =>
    (Ok (output_filename, sm), foldl (install table) st blocks).

Definition model_with (cons : list ConstraintData)
    (rhs : list (string * RhsAnnotation)) : Model :=
  {| model_id := 100;
     model_blocks := [{| block_id := 100; block_cname := "model";
                         block_sos := []; block_constraints := cons |}];
     model_vars := [x; y];
     _ScenarioTreeSymbolMap := two_var_ids;
     rhs_annotations := rhs;
     matrix_annotations := [];
     objective_annotations := [];
     varbounds_annotations := [] |}.

Definition scenario_of (m : Model) : Scenario :=
  {| scenario_name := "s1"; probability := 1 # 2; _instance := m;
     _instance_objective := Some o; leaf_variable_ids := leaf_ids |}.

(** The state of the model before the conversion: the bounds of the
    three constraints, and a block that was preprocessed, its
    representations at the address 1. *)
Definition state0 : State :=
  {| model :=
       {| st_bounds := {[11%positive := (Some 5, None);
                         12%positive := (None, Some 3);
                         13%positive := (Some 2, None)]};
          st_attrs := {[100%positive :=
                          {| _gen_obj_canonical_repn := None;
                             _gen_con_canonical_repn := None;
                             _canonical_repn := Some 1%positive |}]};
          st_heap := {[1%positive := repns]};
          st_name := "two_vars";
          st_params := ∅ |};
     files := no_files |}.

Definition no_options : IoOptions :=
  {| io_column_order := None; io_row_order := None;
     io_force_objective_constant := None |}.

Definition explicit_rhs (cons : list ConstraintData) : RhsAnnotation :=
  {| has_declarations := true;
     expand_entries := (fun con => (con, IncludeTrue)) <$> cons;
     default_ := IncludeTrue |}.

(** [c5] is over [y] alone, and [y] is fixed in it. *)
Definition c5 : ConstraintData :=
  {| con_id := 15; con_cname := "c5"; con_active := true;
     con_parent_block := 100;
     con_body := [{| var_id := 2; var_cname := "y"; var_fixed := true |}] |}.

(** The conversion of the scenario of a model, with the table writer. *)
Definition convert (m : Model) (file_format : FileFormat) : M SetupCounts :=
  _convert_external_setup (table_writer [100%positive] repns symbols) tree
    (scenario_of m) "out" "base" file_format false no_options.

(** [c1] alone is declared stochastic. *)
Definition good_model : Model :=
  model_with [c1; c2] [("rhs", explicit_rhs [c1])].

(** [c1] and [c3] are declared stochastic. *)
Definition nonlinear_model : Model :=
  model_with [c1; c2; c3] [("rhs", explicit_rhs [c1; c3])].

Definition good_run : result SetupCounts * State :=
  Eval vm_compute in convert good_model mps state0.

(** [c4] is an active constraint of a block that is not active, so that
    no traversal of the model meets it; it is declared stochastic. *)
Definition c4 : ConstraintData :=
  {| con_id := 14; con_cname := "sub.c4"; con_active := true;
     con_parent_block := 200; con_body := [y] |}.

Definition stray_model : Model :=
  model_with [c1; c2] [("rhs", explicit_rhs [c4])].

(** A stochastic variable bounds annotation next to the rhs one. *)
Definition varbounds_model : Model :=
  {| model_id := 100;
     model_blocks := model_blocks good_model;
     model_vars := [x; y];
     _ScenarioTreeSymbolMap := two_var_ids;
     rhs_annotations := rhs_annotations good_model;
     matrix_annotations := [];
     objective_annotations := [];
     varbounds_annotations := [("bounds", tt)] |}.

(** The symbols of a writer that names [y] as [name]. *)
Definition symbols_with (name : string) : SymbolMap :=
  {| byObject := <[2%positive := name]> (byObject symbols);
     bySymbol := <[name := 2%positive]> (delete "y" (bySymbol symbols));
     aliases := aliases symbols |}.

Definition convert_naming (name : string) : M SetupCounts :=
  _convert_external_setup
    (table_writer [100%positive] repns (symbols_with name)) tree
    (scenario_of good_model) "out" "base" mps false no_options.

(** The state of the model after the setup write of [good_model], and
    what the conversion then gives the constraint classifier. *)
Definition written_state : ModelState :=
  Eval vm_compute in
    foldl (install repns) (model (detached (scenario_of good_model) state0))
          [100%positive].

(** *** An embedded stochastic program

    The constraint [c1] is [x + y >= p], where the mutable parameter
    [p], of id 70 and value 7, is stochastic over the values 10 and 20. *)

Definition p : positive := 70.

Definition e1 : EmbeddedConstraint :=
  {| e_con := c1; e_lower := Some (ParamData p); e_upper := None;
     e_repn := Some {| p_constant := None; p_variables := [x; y];
                       p_linear := [Number 1; Number 1] |} |}.

Definition sp : EmbeddedSP :=
  {| has_stochastic_variable_bounds := false;
     time_stages := ["Stage1"; "Stage2"];
     stage_to_variables_map :=
       {["Stage1" := [(x, false)]; "Stage2" := [(y, false)]]};
     sp_blocks := [100%positive];
     sp_constraints := [e1];
     compute_constraint_stage := fun _ _ => "Stage2";
     sp_objective := o;
     sp_objective_repn :=
       Some {| p_constant := None; p_variables := [x; y];
               p_linear := [Number 1; Number 2] |};
     stochastic_data := [(p, Values [10; 20])];
     objective_to_stochastic_data_map := [];
     constraint_to_stochastic_data_map := [e1] |}.

Definition sp_state0 : State :=
  {| model :=
       {| st_bounds := ∅;
          st_attrs := ∅;
          st_heap := ∅;
          st_name := "embedded";
          st_params := {[p := Some 7]} |};
     files := no_files |}.

(** The conversion of [good_model] to the [lp] format. *)
Definition lp_run : result SetupCounts * State :=
  Eval vm_compute in convert good_model lp state0.

(** The counts of the conversions of [good_model]. *)
Definition good_counts : SetupCounts :=
  {| firststage_variable_count := 1; secondstage_variable_count := 2;
     firststage_constraint_count := 1; secondstage_constraint_count := 2;
     cost_count := 0; rhs_count := 1; matrix_count := 0 |}.

(** Options that already hold a column order. *)
Definition preset_options : IoOptions :=
  {| io_column_order := Some ∅; io_row_order := None;
     io_force_objective_constant := None |}.

(** A scenario tree manager of two scenarios: every scenario leaves its
    eight files in [scenario_files]; the [.row] file of the second
    scenario holds [row2]. *)
Definition example_files (basename : string) (core_format : FileFormat)
    (scenario row sto : string) : list (string * string) :=
  [(basename +:+ row_kind +:+ scenario, row);
   (basename +:+ col_kind +:+ scenario, "x" +:+ nl +:+ "y" +:+ nl);
   (basename +:+ tim_kind +:+ scenario, "TIME " +:+ basename +:+ nl);
   (basename +:+ struct_kind +:+ scenario, "c1 RHS" +:+ nl);
   (basename +:+ sto_kind +:+ scenario, sto);
   (basename +:+ det_kind core_format +:+ scenario, "det");
   (basename +:+ setup_kind core_format +:+ scenario, "setup");
   (basename +:+ core_kind core_format +:+ scenario, "core")].

Definition example_manager (row2 : string) : ScenarioTreeManager :=
  {| contains_bundles := false;
     scenarios := ["s1"; "s2"];
     invoke_function := fun basename core_format _ _ fs =>
       (IoOk (list_to_map [("s1", good_counts); ("s2", good_counts)]),
        {| output_files := output_files fs;
           scenario_files :=
             Some (list_to_map
                     (example_files basename core_format "s1"
                        ("c1" +:+ nl) ("a" +:+ nl)
                      ++ example_files basename core_format "s2"
                           row2 ("b" +:+ nl))
                   ∪ default ∅ (scenario_files fs)) |}) |}.

(** An output directory that holds files of an earlier conversion and
    files of the user. *)
Definition fs0 : FileSystem :=
  {| output_files := {["base.row" := "old"; "notes" := "kept"]};
     scenario_files := Some {["mine" := "kept"]} |}.

Definition external_run : io_result ProblemStats * FileSystem :=
  Eval vm_compute in
    convert_external "base" (example_manager ("c1" +:+ nl)) lp false
      no_options false false false true fs0.

Definition external_stats : ProblemStats :=
  {| stats_firststage_variable_count := 1;
     stats_secondstage_variable_count := 2;
     stats_firststage_constraint_count := 1;
     stats_secondstage_constraint_count := 2;
     stats_stochastic_cost_count := 0;
     stats_stochastic_rhs_count := 1;
     stats_stochastic_matrix_count := 0;
     scenario_count := 2 |}.

(** The embedded conversion of [sp]. *)
Definition embedded_run : result SymbolMap * State :=
  Eval vm_compute in
    convert_embedded (table_writer [100%positive] repns symbols)
      "out" "base" sp mps no_options false sp_state0.

End Examples.
(** * Properties *)

#[local] Set Warnings "-clear-no-such-hyp".

(** ** Sorting *)

Lemma sort_insert_Permutation {A} (leb : A → A → bool) x l :
  sort_insert leb x l ≡ₚ x :: l.
Proof.
  induction l as [|y l IH]; simpl; [done|].
  destruct (leb x y); [done|].
  rewrite IH. apply Permutation_swap.
Qed.

Lemma py_sorted_Permutation {A} (leb : A → A → bool) l :
  py_sorted leb l ≡ₚ l.
Proof.
  induction l as [|x l IH]; simpl; [done|].
  rewrite sort_insert_Permutation. by rewrite IH.
Qed.

Lemma elem_of_py_sorted {A} (leb : A → A → bool) l x :
  x ∈ py_sorted leb l ↔ x ∈ l.
Proof. by rewrite py_sorted_Permutation. Qed.

Lemma length_py_sorted {A} (leb : A → A → bool) l :
  length (py_sorted leb l) = length l.
Proof. by rewrite py_sorted_Permutation. Qed.

(** ** The variable stage classifier *)

Lemma elem_of_stage_entries (d : var_dict) symbol var stid :
  (symbol, var, stid) ∈ stage_entries d ↔ d !! symbol = Some (var, stid).
Proof.
  unfold stage_entries. rewrite list_elem_of_omap. split.
  - intros (s & Hs & Heq). destruct (d !! s) as [[v i]|] eqn:E; simplify_eq/=.
    done.
  - intros Hd. exists symbol. rewrite Hd. split; [|done].
    apply elem_of_py_sorted, list_elem_of_fmap.
    exists (symbol, (var, stid)). split; [done|].
    by apply elem_of_map_to_list.
Qed.

Section map_variable_stages_facts.
Variable model_vars : list VarData.
Variable scenariotree_byObject : gmap positive positive.
Variable scenario_tree : ScenarioTree.
Variable secondstage_variables : gset positive.
Variable symbol_map : SymbolMap.
Variable enforce : bool.

Local Abbreviation body := (map_variable_stages_body scenariotree_byObject
  scenario_tree secondstage_variables symbol_map enforce).
Local Abbreviation stid v := (scenariotree_byObject !! var_id v).
Local Abbreviation rule1 := (firststage_rule scenario_tree enforce).
Local Abbreviation rule2 :=
  (secondstage_rule scenario_tree secondstage_variables).
Local Abbreviation dicts_hold :=
  (dicts_hold scenariotree_byObject scenario_tree symbol_map enforce).

Lemma body_cases acc var :
  match byObject symbol_map !! var_id var with
  | None => body acc var = Ok acc
  | Some symbol =>
      if rule1 (stid var)
      then body acc var = Ok (<[symbol := (var, stid var)]> acc.1, acc.2)
      else if rule2 (stid var)
      then body acc var = Ok (acc.1, <[symbol := (var, stid var)]> acc.2)
      else body acc var = Raise AssertionError
  end.
Proof.
  destruct acc as [F S]. unfold map_variable_stages_body, firststage_rule,
    secondstage_rule.
  destruct (byObject symbol_map !! var_id var); [|done].
  destruct (id_in _ (_standard_variable_ids _)); simpl; [done|].
  destruct (enforce && _); simpl; [done|].
  by destruct (_ || _ || _).
Qed.

Lemma dict_keep (d : var_dict) seen v (b : bool) :
  (∀ s, byObject symbol_map !! var_id v = Some s → rule1 (stid v) = negb b) →
  (∀ symbol var i, d !! symbol = Some (var, i) ↔
     var ∈ seen ∧ byObject symbol_map !! var_id var = Some symbol
     ∧ i = stid var ∧ rule1 i = b) →
  ∀ symbol var i, d !! symbol = Some (var, i) ↔
     var ∈ seen ++ [v] ∧ byObject symbol_map !! var_id var = Some symbol
     ∧ i = stid var ∧ rule1 i = b.
Proof.
  intros Hv Hd symbol var i. rewrite Hd. split.
  - intros (Hin & ?). split; [|done]. apply elem_of_app. by left.
  - intros (Hin & Hsym & -> & Hr). split; [|done].
    apply elem_of_app in Hin as [Hin|Hin]; [done|].
    apply list_elem_of_singleton in Hin as ->.
    rewrite (Hv _ Hsym) in Hr. by destruct b.
Qed.

Lemma dict_insert (d : var_dict) seen v s (b : bool) :
  symbols_injective symbol_map (seen ++ [v]) →
  byObject symbol_map !! var_id v = Some s → rule1 (stid v) = b →
  (∀ symbol var i, d !! symbol = Some (var, i) ↔
     var ∈ seen ∧ byObject symbol_map !! var_id var = Some symbol
     ∧ i = stid var ∧ rule1 i = b) →
  ∀ symbol var i, <[s := (v, stid v)]> d !! symbol = Some (var, i) ↔
     var ∈ seen ++ [v] ∧ byObject symbol_map !! var_id var = Some symbol
     ∧ i = stid var ∧ rule1 i = b.
Proof.
  intros Hinj Hs Hb Hd symbol var i.
  assert (Hv : v ∈ seen ++ [v]) by (apply elem_of_app; right; by left).
  destruct (decide (s = symbol)) as [->|Hne].
  - rewrite lookup_insert_eq. split.
    + intros ?; simplify_eq. done.
    + intros (Hin & Hsym & -> & _).
      by rewrite (Hinj v var symbol Hv Hin Hs Hsym).
  - rewrite lookup_insert_ne by done. rewrite Hd. split.
    + intros (Hin & ?). split; [|done]. apply elem_of_app. by left.
    + intros (Hin & Hsym & ? & ?). split; [|done].
      apply elem_of_app in Hin as [Hin|Hin]; [done|].
      apply list_elem_of_singleton in Hin as ->. congruence.
Qed.

Lemma for_each_body_Ok seen l acc acc' :
  symbols_injective symbol_map (seen ++ l) →
  dicts_hold seen acc →
  for_each body l acc = Ok acc' →
  dicts_hold (seen ++ l) acc'.
Proof.
  revert seen acc. induction l as [|v l IH]; intros seen acc Hinj Hacc Hrun.
  { simpl in Hrun. simplify_eq. by rewrite app_nil_r. }
  simpl in Hrun.
  destruct (body acc v) as [acc1|e] eqn:Hbody; [|done]. simpl in Hrun.
  assert (seen ++ v :: l = (seen ++ [v]) ++ l) as Heq
    by (by rewrite <- app_assoc).
  rewrite Heq in Hinj |- *.
  apply (IH _ acc1); [done| |done].
  assert (Hinj' : symbols_injective symbol_map (seen ++ [v])).
  { intros v1 v2 s H1 H2. apply Hinj; apply elem_of_app; by left. }
  pose proof (body_cases acc v) as Hc. rewrite Hbody in Hc.
  assert (HF := λ symbol var i, proj1 (Hacc symbol var i)).
  assert (HS := λ symbol var i, proj2 (Hacc symbol var i)).
  intros symbol var i.
  destruct (byObject symbol_map !! var_id v) as [s|] eqn:Hs.
  - destruct (rule1 (stid v)) eqn:H1; [|destruct (rule2 (stid v)) eqn:H2];
      simplify_eq; simpl; split.
    + by apply dict_insert.
    + apply dict_keep; [|done]. intros; simpl; congruence.
    + apply dict_keep; [|done]. intros; simpl; congruence.
    + by apply dict_insert.
  - simplify_eq. split; (apply dict_keep; [|done]); intros; congruence.
Qed.

(** The loop stops exactly at a variable of the symbol map whose stage
    id no branch accepts. *)
Lemma for_each_body_Raise l acc e :
  for_each body l acc = Raise e →
  e = AssertionError ∧
  ∃ var, var ∈ l ∧ is_Some (byObject symbol_map !! var_id var)
         ∧ rule1 (stid var) || rule2 (stid var) = false.
Proof.
  revert acc. induction l as [|v l IH]; intros acc Hrun; [done|].
  simpl in Hrun. pose proof (body_cases acc v) as Hc.
  destruct (body acc v) as [acc1|e1] eqn:Hbody; simpl in Hrun.
  - destruct (IH _ Hrun) as (-> & var & ? & ? & ?).
    split; [done|]. exists var. split; [by right|done].
  - simplify_eq.
    destruct (byObject symbol_map !! var_id v) as [s|] eqn:Hs; [|done].
    destruct (rule1 (stid v)) eqn:H1; [done|].
    destruct (rule2 (stid v)) eqn:H2; [done|]. simplify_eq.
    split; [done|]. exists v. split; [by left|]. split; [by eexists|].
    by rewrite H1, H2.
Qed.

Lemma for_each_body_unknown l acc var :
  var ∈ l → is_Some (byObject symbol_map !! var_id var) →
  rule1 (stid var) || rule2 (stid var) = false →
  for_each body l acc = Raise AssertionError.
Proof.
  revert acc. induction l as [|v l IH]; intros acc Hin [s Hs] Hr.
  { by apply elem_of_nil in Hin. }
  simpl. pose proof (body_cases acc v) as Hc.
  destruct (body acc v) as [acc1|e1] eqn:Hbody; simpl.
  - apply elem_of_cons in Hin as [->|Hin]; [|by apply IH].
    apply orb_false_iff in Hr as [H1 H2]. by rewrite Hs, H1, H2 in Hc.
  - destruct (byObject symbol_map !! var_id v); [|done].
    destruct (rule1 (stid v)); [done|]. destruct (rule2 (stid v)); [done|].
    done.
Qed.
End map_variable_stages_facts.

(** C4, as amended.  With a symbol map that names the variables
    differently: when every variable of the symbol map has a stage id that
    is absent or held by one of the three id sets, [map_variable_stages]
    returns, and such a variable is first-stage exactly when its id is a
    standard root id, or a derived root id under
    [enforce_derived_nonanticipativity]; it is second-stage otherwise, which
    covers derived ids that are not enforced and an absent id.  When some
    variable of the symbol map has an id that no set holds, the call fails
    on its [assert False]. *)
Theorem map_variable_stages_classification (model_vars : list VarData)
    (scenariotree_byObject : gmap positive positive)
    (scenario_tree : ScenarioTree) (secondstage_variables : gset positive)
    (symbol_map : SymbolMap) (enforce : bool) :
  symbols_injective symbol_map model_vars →
  (stage_ids_known model_vars scenariotree_byObject scenario_tree
     secondstage_variables symbol_map enforce →
   variable_stages_as_documented model_vars scenariotree_byObject
     scenario_tree secondstage_variables symbol_map enforce)
  ∧ ((∃ var, var ∈ model_vars ∧ is_Some (byObject symbol_map !! var_id var)
        ∧ firststage_rule scenario_tree enforce
            (scenariotree_byObject !! var_id var)
          || secondstage_rule scenario_tree secondstage_variables
            (scenariotree_byObject !! var_id var) = false) →
     map_variable_stages model_vars scenariotree_byObject scenario_tree
       secondstage_variables symbol_map enforce = Raise AssertionError).
Proof.
  intros Hinj. split.
  - intros Hknown. unfold variable_stages_as_documented, map_variable_stages.
    destruct (for_each _ model_vars (∅, ∅)) as [acc|e] eqn:Hrun.
    + eexists; split; [done|]. simpl.
      assert (Hinv : dicts_hold scenariotree_byObject scenario_tree
                       symbol_map enforce ([] ++ model_vars) acc).
      { eapply for_each_body_Ok; [done| |done].
        intros symbol var i. simpl. rewrite !lookup_empty.
        split; (split; [done|]); intros (Hin & _); by apply elem_of_nil in Hin. }
      simpl in Hinv. intros var Hvar [s Hs]. unfold var_in_stage. split.
      * split.
        -- intros (s' & i & Hin). apply elem_of_stage_entries in Hin.
           apply Hinv in Hin as (_ & _ & -> & ?). done.
        -- intros Hr. exists s, (scenariotree_byObject !! var_id var).
           apply elem_of_stage_entries, Hinv. done.
      * split.
        -- intros (s' & i & Hin). apply elem_of_stage_entries in Hin.
           apply Hinv in Hin as (_ & _ & -> & ?). done.
        -- intros Hr. exists s, (scenariotree_byObject !! var_id var).
           apply elem_of_stage_entries, Hinv. done.
    + apply for_each_body_Raise in Hrun as (_ & var & Hin & Hsym & Hr).
      specialize (Hknown var Hin Hsym). congruence.
  - intros (var & Hin & Hsym & Hr). unfold map_variable_stages.
    by erewrite for_each_body_unknown.
Qed.

Lemma four_vars_symbols_injective :
  symbols_injective Examples.four_symbols Examples.four_vars.
Proof.
  intros v1 v2 s H1 H2 Hs1 Hs2.
  apply list_elem_of_In in H1, H2. simpl in H1, H2.
  destruct H1 as [<-|[<-|[<-|[<-|[]]]]]; vm_compute in Hs1;
    destruct H2 as [<-|[<-|[<-|[<-|[]]]]]; vm_compute in Hs2; congruence.
Defined.

Lemma four_vars_stage_ids_known :
  stage_ids_known Examples.four_vars Examples.known_ids Examples.tree
    Examples.leaf_ids Examples.four_symbols false.
Proof.
  intros var Hin _. apply list_elem_of_In in Hin. simpl in Hin.
  destruct Hin as [<-|[<-|[<-|[<-|[]]]]]; vm_compute; reflexivity.
Defined.

Lemma map_variable_stages_classification_witness :
  variable_stages_as_documented Examples.four_vars Examples.known_ids
    Examples.tree Examples.leaf_ids Examples.four_symbols false.
Proof.
  apply (map_variable_stages_classification Examples.four_vars
           Examples.known_ids Examples.tree Examples.leaf_ids
           Examples.four_symbols false).
  - exact four_vars_symbols_injective.
  - exact four_vars_stage_ids_known.
Defined.

(** On the model of the witness the four variables fall as the rule says. *)
Example map_variable_stages_four_vars :
  map_variable_stages Examples.four_vars Examples.known_ids Examples.tree
    Examples.leaf_ids Examples.four_symbols false
  = Ok {| firststage_vars := [("x", Examples.x, Some 5%positive)];
          secondstage_vars := [("w", Examples.w, None);
                               ("y", Examples.y, Some 6%positive);
                               ("z", Examples.z, Some 8%positive)] |}.
Proof. vm_compute. reflexivity. Qed.

(** C4, as stated, fails: a variable whose stage id no node holds is not
    put in the second stage; the call raises [AssertionError]. *)
Lemma stray_stage_id_is_not_classified :
  map_variable_stages Examples.four_vars Examples.stray_ids Examples.tree
    Examples.leaf_ids Examples.four_symbols false = Raise AssertionError
  ∧ ¬ variable_stages_as_documented Examples.four_vars Examples.stray_ids
        Examples.tree Examples.leaf_ids Examples.four_symbols false.
Proof.
  assert (H : map_variable_stages Examples.four_vars Examples.stray_ids
                Examples.tree Examples.leaf_ids Examples.four_symbols false
              = Raise AssertionError) by (vm_compute; reflexivity).
  split; [exact H|]. intros (m & Hm & _). rewrite H in Hm. discriminate.
Qed.

(** ** The constraint stage classifier *)

Lemma result_bind_Ok {A B} (r : result A) (f : A → result B) b :
  result_bind r f = Ok b ↔ ∃ a, r = Ok a ∧ f a = Ok b.
Proof.
  destruct r as [a|e]; simpl.
  - split; [by exists a|]. by intros (? & [= <-] & ?).
  - split; [done|]. by intros (? & ? & _).
Qed.

Lemma py_assert_Ok b u : py_assert b = Ok u ↔ b = true.
Proof. destruct b, u; simpl; split; done. Qed.

Lemma getitem_Ok `{Countable K} {V} (d : gmap K V) k v :
  getitem d k = Ok v ↔ d !! k = Some v.
Proof. unfold getitem. destruct (d !! k); split; congruence. Qed.

Section map_constraint_stages_facts.
Variable st : ModelState.
Variable symbol_map : SymbolMap.
Variable stoch first second : gset positive.

Local Abbreviation cond := (secondstage_condition stoch second).
Local Abbreviation step :=
  (map_constraint_stages_con symbol_map stoch first second).
Local Abbreviation inv := (stages_hold stoch second).

Lemma body_is_secondstage_Ok vars b :
  body_is_secondstage first second vars = Ok b →
  (b = true ↔ ∃ var, var ∈ vars ∧ var_fixed var = false
                     ∧ var_id var ∈ second).
Proof.
  revert b. induction vars as [|v vars IH]; intros b Hb; simpl in Hb.
  { simplify_eq. split; [done|]. intros (? & Hin & _).
    by apply elem_of_nil in Hin. }
  destruct (var_fixed v) eqn:Hfix; simpl in Hb.
  - rewrite (IH b Hb). split; intros (var & Hin & Hf & Hs).
    + exists var. split; [by right|done].
    + apply elem_of_cons in Hin as [->|Hin]; [congruence|]. by exists var.
  - case_bool_decide as Hsec.
    + simplify_eq. split; [|done]. intros _. exists v. split; [by left|done].
    + apply result_bind_Ok in Hb as ([] & _ & Hb).
      rewrite (IH b Hb). split; intros (var & Hin & Hf & Hs).
      * exists var. split; [by right|done].
      * apply elem_of_cons in Hin as [->|Hin]; [done|]. by exists var.
Qed.

Lemma body_is_secondstage_total vars :
  (∀ var, var ∈ vars → var_fixed var = false →
          var_id var ∈ first ∨ var_id var ∈ second) →
  ∃ b, body_is_secondstage first second vars = Ok b.
Proof.
  induction vars as [|v vars IH]; intros Hvars; simpl; [by eexists|].
  assert (Hrest : ∃ b, body_is_secondstage first second vars = Ok b).
  { apply IH. intros var Hin. apply Hvars. by right. }
  destruct (var_fixed v) eqn:Hfix; simpl; [done|].
  case_bool_decide as Hsec; [by eexists|].
  destruct (Hvars v) as [Hf|Hs]; [by left|done| |done].
  by rewrite bool_decide_eq_true_2.
Qed.

(** One constraint: it is appended to the list of its stage. *)
Lemma step_Ok reverse acc con acc' :
  step reverse acc con = Ok acc' →
  ∃ aliases,
    (cond con ∧ firststage_cons acc' = firststage_cons acc
     ∧ secondstage_cons acc' = secondstage_cons acc ++ [(aliases, con)])
    ∨ (¬ cond con ∧ secondstage_cons acc' = secondstage_cons acc
       ∧ firststage_cons acc' = firststage_cons acc ++ [(aliases, con)]).
Proof.
  unfold map_constraint_stages_con. intros Hstep.
  apply result_bind_Ok in Hstep as (symbol & _ & Hstep).
  apply result_bind_Ok in Hstep as (aliases & _ & Hstep).
  apply result_bind_Ok in Hstep as ([] & _ & Hstep).
  apply result_bind_Ok in Hstep as (b & Hb & Hstep).
  exists aliases. unfold secondstage_condition.
  case_bool_decide as Hflag.
  - simplify_eq. left. split; [by left|done].
  - apply body_is_secondstage_Ok in Hb. destruct b; simplify_eq; simpl.
    + left. split; [|done]. right. by apply Hb.
    + right. split; [|done]. intros [?|Hex]; [done|].
      by apply Hb in Hex.
Qed.

Lemma inv_step seen acc con acc' reverse :
  inv seen acc → step reverse acc con = Ok acc' → inv (seen ++ [con]) acc'.
Proof.
  intros Hinv Hstep. apply step_Ok in Hstep as (aliases & Hcase).
  intros c. destruct (Hinv c) as [H2 H1]. unfold con_in_stage in *.
  destruct Hcase as [(Hc & -> & ->)|(Hc & -> & ->)]; split.
  - split.
    + intros (a & Hin). apply elem_of_app in Hin as [Hin|Hin].
      * destruct (proj1 H2 (ex_intro _ a Hin)) as [? ?].
        split; [|done]. apply elem_of_app. by left.
      * apply list_elem_of_singleton in Hin. simplify_eq.
        split; [|done]. apply elem_of_app. right. by left.
    + intros (Hin & Hcc). apply elem_of_app in Hin as [Hin|Hin].
      * destruct (proj2 H2 (conj Hin Hcc)) as (a & Ha).
        exists a. apply elem_of_app. by left.
      * apply list_elem_of_singleton in Hin as ->. exists aliases.
        apply elem_of_app. right. by left.
  - rewrite H1. split.
    + intros (Hin & ?). split; [|done]. apply elem_of_app. by left.
    + intros (Hin & Hcc). split; [|done].
      apply elem_of_app in Hin as [Hin|Hin]; [done|].
      by apply list_elem_of_singleton in Hin as ->.
  - rewrite H2. split.
    + intros (Hin & ?). split; [|done]. apply elem_of_app. by left.
    + intros (Hin & Hcc). split; [|done].
      apply elem_of_app in Hin as [Hin|Hin]; [done|].
      by apply list_elem_of_singleton in Hin as ->.
  - split.
    + intros (a & Hin). apply elem_of_app in Hin as [Hin|Hin].
      * destruct (proj1 H1 (ex_intro _ a Hin)) as [? ?].
        split; [|done]. apply elem_of_app. by left.
      * apply list_elem_of_singleton in Hin. simplify_eq.
        split; [|done]. apply elem_of_app. right. by left.
    + intros (Hin & Hcc). apply elem_of_app in Hin as [Hin|Hin].
      * destruct (proj2 H1 (conj Hin Hcc)) as (a & Ha).
        exists a. apply elem_of_app. by left.
      * apply list_elem_of_singleton in Hin as ->. exists aliases.
        apply elem_of_app. right. by left.
Qed.

Lemma inv_cons reverse cons seen acc acc' :
  inv seen acc → for_each (step reverse) cons acc = Ok acc' →
  inv (seen ++ cons) acc'.
Proof.
  revert seen acc. induction cons as [|con cons IH]; intros seen acc Hinv Hrun.
  { simpl in Hrun. simplify_eq. by rewrite app_nil_r. }
  simpl in Hrun. apply result_bind_Ok in Hrun as (acc1 & Hstep & Hrun).
  replace (seen ++ con :: cons) with ((seen ++ [con]) ++ cons)
    by (by rewrite <- app_assoc).
  eapply IH; [|done]. by eapply inv_step.
Qed.

Lemma inv_blocks reverse blocks seen acc acc' :
  inv seen acc →
  for_each (map_constraint_stages_block st symbol_map stoch first second
              reverse) blocks acc = Ok acc' →
  inv (seen ++ active_constraints blocks) acc'.
Proof.
  revert seen acc.
  induction blocks as [|block blocks IH]; intros seen acc Hinv Hrun.
  { simpl in Hrun. simplify_eq. unfold active_constraints. simpl.
    by rewrite app_nil_r. }
  simpl in Hrun. apply result_bind_Ok in Hrun as (acc1 & Hblock & Hrun).
  unfold active_constraints. rewrite fmap_cons. simpl.
  rewrite app_assoc. eapply IH; [|done].
  unfold map_constraint_stages_block in Hblock.
  destruct (block_sos block); [|done].
  destruct (_canonical_repn _); [|done]. by eapply inv_cons.
Qed.

(** Whenever [map_constraint_stages] returns, each active constraint is
    in the list of the stage that the condition gives it. *)
Lemma map_constraint_stages_Ok blocks m :
  map_constraint_stages st blocks symbol_map stoch first second = Ok m →
  ∀ con, con ∈ active_constraints blocks →
    (con_in_stage con (secondstage_cons m) ↔ cond con)
    ∧ (con_in_stage con (firststage_cons m) ↔ ¬ cond con).
Proof.
  unfold map_constraint_stages. intros Hrun.
  apply result_bind_Ok in Hrun as (reverse & _ & Hrun).
  apply result_bind_Ok in Hrun as (acc & Hacc & Hrun). simplify_eq.
  apply (inv_blocks _ _ []) in Hacc; last first.
  { intros con. unfold con_in_stage. simpl.
    split; (split; [intros (a & Hin)|intros (Hin & _)]);
      by apply elem_of_nil in Hin. }
  simpl in Hacc. intros con Hcon. destruct (Hacc con) as [H2 H1].
  unfold con_in_stage in *. simpl.
  split; split.
  - intros (a & Hin). apply elem_of_py_sorted in Hin.
    by destruct (proj1 H2 (ex_intro _ a Hin)).
  - intros Hc. destruct (proj2 H2 (conj Hcon Hc)) as (a & Ha).
    exists a. by apply elem_of_py_sorted.
  - intros (a & Hin). apply elem_of_py_sorted in Hin.
    by destruct (proj1 H1 (ex_intro _ a Hin)).
  - intros Hc. destruct (proj2 H1 (conj Hcon Hc)) as (a & Ha).
    exists a. by apply elem_of_py_sorted.
Qed.
End map_constraint_stages_facts.

Lemma reverse_alias_fold (bo : gmap positive string) items
    (acc : gmap string (list string)) :
  (∀ alias obj, (alias, obj) ∈ items →
     ∃ symbol, bo !! obj = Some symbol ∧ is_Some (acc !! symbol)) →
  ∃ acc', for_each (reverse_alias_body bo) items acc = Ok acc'
    ∧ (∀ s l a, acc !! s = Some l → a ∈ l →
         ∃ l', acc' !! s = Some l' ∧ a ∈ l')
    ∧ (∀ alias obj symbol, (alias, obj) ∈ items → bo !! obj = Some symbol →
         ∃ l, acc' !! symbol = Some l ∧ alias ∈ l).
Proof.
  revert acc. induction items as [|[alias obj] items IH]; intros acc Hitems.
  { exists acc. split; [done|]. split; [by eauto|].
    intros ??? Hin. by apply elem_of_nil in Hin. }
  destruct (Hitems alias obj) as (symbol & Hobj & [l Hl]); [by left|].
  set (acc1 := <[symbol := l ++ [alias]]> acc).
  destruct (IH acc1) as (acc' & Hrun & Hkeep & Hnew).
  { intros a o Hin. destruct (Hitems a o) as (s & ? & Hs); [by right|].
    exists s. split; [done|]. unfold acc1.
    destruct (decide (symbol = s)) as [->|?].
    - rewrite lookup_insert_eq. by eexists.
    - by rewrite lookup_insert_ne. }
  assert (Hgrow : ∀ s l0 a, acc !! s = Some l0 → a ∈ l0 →
            ∃ l1, acc1 !! s = Some l1 ∧ a ∈ l1).
  { intros s l0 a Hs Ha. unfold acc1.
    destruct (decide (symbol = s)) as [->|?].
    - rewrite lookup_insert_eq. eexists. split; [done|].
      simplify_eq. apply elem_of_app. by left.
    - rewrite lookup_insert_ne by done. by exists l0. }
  exists acc'. split; [|split].
  - simpl. unfold reverse_alias_body at 1. simpl.
    rewrite (proj2 (getitem_Ok _ _ _) Hobj). simpl.
    rewrite (proj2 (getitem_Ok _ _ _) Hl). simpl. exact Hrun.
  - intros s l0 a Hs Ha. destruct (Hgrow s l0 a Hs Ha) as (l1 & H1 & Ha1).
    by apply (Hkeep s l1 a).
  - intros a o s Hin Ho. apply elem_of_cons in Hin as [Heq|Hin].
    + injection Heq as -> ->. rewrite Hobj in Ho. injection Ho as <-.
      apply (Hkeep symbol (l ++ [alias]) alias).
      * unfold acc1. by rewrite lookup_insert_eq.
      * apply elem_of_app. right. by left.
    + by apply (Hnew a o s).
Qed.

Lemma reverse_alias_total symbol_map :
  aliases_resolve symbol_map →
  ∃ reverse, reverse_alias symbol_map = Ok reverse
    ∧ ∀ alias obj symbol, (alias, obj) ∈ aliases symbol_map →
        byObject symbol_map !! obj = Some symbol →
        ∃ l, reverse !! symbol = Some l ∧ (0 < length l)%nat.
Proof.
  intros Hres. unfold reverse_alias.
  destruct (reverse_alias_fold (byObject symbol_map) (aliases symbol_map)
              ((fun _ => []) <$> bySymbol symbol_map))
    as (acc & Hrun & _ & Hnew).
  { intros alias obj Hin. destruct (Hres alias obj Hin) as (s & ? & [o Ho]).
    exists s. split; [done|]. rewrite lookup_fmap, Ho. by eexists. }
  rewrite Hrun. simpl. eexists. split; [done|].
  intros alias obj symbol Hin Ho.
  destruct (Hnew alias obj symbol Hin Ho) as (l & Hl & Ha).
  exists (py_sorted String.leb l). rewrite lookup_fmap, Hl. split; [done|].
  rewrite length_py_sorted. destruct l; [by apply elem_of_nil in Ha|].
  simpl. lia.
Qed.

Section map_constraint_stages_total.
Variable st : ModelState.
Variable symbol_map : SymbolMap.
Variable stoch first second : gset positive.
Variable reverse : gmap string (list string).
Hypothesis reverse_named :
  ∀ alias obj symbol, (alias, obj) ∈ aliases symbol_map →
    byObject symbol_map !! obj = Some symbol →
    ∃ l, reverse !! symbol = Some l ∧ (0 < length l)%nat.

Local Abbreviation step :=
  (map_constraint_stages_con symbol_map stoch first second reverse).

Lemma step_total acc con :
  (∃ symbol alias obj,
     byObject symbol_map !! con_id con = Some symbol
     ∧ (alias, obj) ∈ aliases symbol_map
     ∧ byObject symbol_map !! obj = Some symbol) →
  (∀ var, var ∈ con_body con → var_fixed var = false →
          var_id var ∈ first ∨ var_id var ∈ second) →
  ∃ acc', step acc con = Ok acc'.
Proof.
  intros (symbol & alias & obj & Hsym & Hin & Hobj) Hvars.
  destruct (reverse_named alias obj symbol Hin Hobj) as (l & Hl & Hlen).
  unfold map_constraint_stages_con.
  rewrite (proj2 (getitem_Ok _ _ _) Hsym). simpl.
  rewrite (proj2 (getitem_Ok _ _ _) Hl). simpl.
  rewrite bool_decide_eq_true_2 by done. simpl.
  case_bool_decide; simpl; [by eexists|].
  destruct (body_is_secondstage_total first second _ Hvars) as (b & ->).
  simpl. destruct b; by eexists.
Qed.

Lemma cons_total cons acc :
  (∀ con, con ∈ cons →
     (∃ symbol alias obj,
        byObject symbol_map !! con_id con = Some symbol
        ∧ (alias, obj) ∈ aliases symbol_map
        ∧ byObject symbol_map !! obj = Some symbol)
     ∧ ∀ var, var ∈ con_body con → var_fixed var = false →
              var_id var ∈ first ∨ var_id var ∈ second) →
  ∃ acc', for_each step cons acc = Ok acc'.
Proof.
  revert acc. induction cons as [|con cons IH]; intros acc Hcons.
  { by eexists. }
  destruct (Hcons con) as [Hname Hvars]; [by left|].
  destruct (step_total acc con Hname Hvars) as (acc1 & Hstep).
  simpl. rewrite Hstep. simpl. apply IH.
  intros c Hc. apply Hcons. by right.
Qed.

Lemma blocks_total blocks acc :
  blocks_preprocessed st blocks →
  constraints_named symbol_map blocks →
  free_variables_staged blocks first second →
  ∃ acc', for_each (map_constraint_stages_block st symbol_map stoch first
                      second reverse) blocks acc = Ok acc'.
Proof.
  revert acc. induction blocks as [|block blocks IH];
    intros acc Hpre Hnamed Hstaged.
  { by eexists. }
  destruct (Hpre block) as [Hsos [a Hrepn]]; [by left|].
  assert (Hsub : ∀ con,
    con ∈ filter (fun con => con_active con = true)
                 (block_constraints block) →
    con ∈ active_constraints (block :: blocks)).
  { intros con Hcon. unfold active_constraints. rewrite fmap_cons.
    simpl. apply elem_of_app. by left. }
  assert (Hsub' : ∀ con, con ∈ active_constraints blocks →
    con ∈ active_constraints (block :: blocks)).
  { intros con Hcon. unfold active_constraints. rewrite fmap_cons.
    simpl. apply elem_of_app. by right. }
  destruct (cons_total (filter (fun con => con_active con = true)
                          (block_constraints block)) acc)
    as (acc1 & Hacc1).
  { intros con Hcon. split; [by apply Hnamed, Hsub|].
    intros var. by apply Hstaged, Hsub. }
  simpl. unfold map_constraint_stages_block at 1.
  rewrite Hsos, Hrepn, Hacc1. simpl. apply IH.
  - intros b Hb. apply Hpre. by right.
  - intros con Hcon. by apply Hnamed, Hsub'.
  - intros con var Hcon. by apply Hstaged, Hsub'.
Qed.
End map_constraint_stages_total.

(** C3.  On a model whose symbol map resolves its aliases, whose blocks
    have no SOS constraint and carry their canonical representations, whose
    active constraints are named and whose free variables were staged,
    [map_constraint_stages] returns, and it puts an active constraint in
    the second stage exactly when the constraint was flagged as holding
    stochastic data or a variable of its body that is not fixed is
    second-stage; it puts the constraint in the first stage exactly when
    neither holds.  Fixed variables play no part. *)
Theorem map_constraint_stages_classification (st : ModelState)
    (model_blocks : list BlockData) (symbol_map : SymbolMap)
    (stochastic_constraint_ids : gset positive)
    (firststage_variable_ids secondstage_variable_ids : gset positive) :
  aliases_resolve symbol_map →
  blocks_preprocessed st model_blocks →
  constraints_named symbol_map model_blocks →
  free_variables_staged model_blocks firststage_variable_ids
    secondstage_variable_ids →
  ∃ m, map_constraint_stages st model_blocks symbol_map
         stochastic_constraint_ids firststage_variable_ids
         secondstage_variable_ids = Ok m
    ∧ ∀ con, con ∈ active_constraints model_blocks →
        (con_in_stage con (secondstage_cons m) ↔
           secondstage_condition stochastic_constraint_ids
             secondstage_variable_ids con)
        ∧ (con_in_stage con (firststage_cons m) ↔
           ¬ secondstage_condition stochastic_constraint_ids
               secondstage_variable_ids con).
Proof.
  intros Hres Hpre Hnamed Hstaged.
  destruct (reverse_alias_total symbol_map Hres) as (reverse & Hrev & Hlen).
  destruct (blocks_total st symbol_map stochastic_constraint_ids
              firststage_variable_ids secondstage_variable_ids reverse Hlen
              model_blocks {| firststage_cons := []; secondstage_cons := [] |}
              Hpre Hnamed Hstaged) as (acc & Hacc).
  assert (Hrun : map_constraint_stages st model_blocks symbol_map
            stochastic_constraint_ids firststage_variable_ids
            secondstage_variable_ids
          = Ok {| firststage_cons :=
                    py_sorted by_aliases (firststage_cons acc);
                  secondstage_cons :=
                    py_sorted by_aliases (secondstage_cons acc) |}).
  { unfold map_constraint_stages. rewrite Hrev. simpl. by rewrite Hacc. }
  eexists. split; [exact Hrun|].
  by apply (map_constraint_stages_Ok _ _ _ _ _ _ _ Hrun).
Qed.

(** ** The monad of the conversion *)

Lemma append_assoc (a b c : string) : (a +:+ b) +:+ c = a +:+ (b +:+ c).
Proof.
  induction a as [|ch a IH]; [done|].
  change (String ch ((a +:+ b) +:+ c) = String ch (a +:+ b +:+ c)).
  by rewrite IH.
Qed.

Lemma append_empty_r (a : string) : a +:+ "" = a.
Proof.
  induction a as [|ch a IH]; [done|].
  change (String ch (a +:+ "") = String ch a). by rewrite IH.
Qed.

Lemma unlines_cons x l : unlines (x :: l) = x +:+ nl +:+ unlines l.
Proof. done. Qed.

Lemma unlines_app l1 l2 : unlines (l1 ++ l2) = unlines l1 +:+ unlines l2.
Proof.
  induction l1 as [|x l1 IH]; [done|].
  rewrite <- app_comm_cons, !unlines_cons, IH. by rewrite !append_assoc.
Qed.

Lemma bind_Ok {A B} (m : M A) (k : A → M B) s b s' :
  bind m k s = (Ok b, s') ↔ ∃ a s1, m s = (Ok a, s1) ∧ k a s1 = (Ok b, s').
Proof.
  unfold bind. destruct (m s) as [[a|e] s1]; split.
  - intros H. by exists a, s1.
  - by intros (? & ? & [= <- <-] & ?).
  - done.
  - by intros (? & ? & ? & _).
Qed.

Lemma bind_result {A B} (m : M A) (k : A → M B) s :
  bind m k s = match m s with
               | (Ok a, s1) => k a s1
               | (Raise e, s1) => (Raise e, s1)
               end.
Proof. done. Qed.

Lemma lift_Ok {A} (r : result A) s a s' :
  lift r s = (Ok a, s') ↔ r = Ok a ∧ s' = s.
Proof. unfold lift. split; [by intros [= -> ->]|by intros [-> ->]]. Qed.

Lemma m_assert_Ok b s u s' : m_assert b s = (Ok u, s') ↔ b = true ∧ s' = s.
Proof.
  unfold m_assert. rewrite lift_Ok, py_assert_Ok. done.
Qed.

(** *** Computations that leave a file, or the model, as it is *)

Lemma keeps_ret name {A} (a : A) : keeps name (ret a).
Proof. done. Qed.

Lemma keeps_raise name {A} e : keeps name (@raise A e).
Proof. done. Qed.

Lemma keeps_lift name {A} (r : result A) : keeps name (lift r).
Proof. done. Qed.

Lemma keeps_m_assert name b : keeps name (m_assert b).
Proof. done. Qed.

Lemma keeps_get_model name : keeps name get_model.
Proof. done. Qed.

Lemma keeps_set_model name f : keeps name (set_model f).
Proof. done. Qed.

Lemma keeps_bind name {A B} (m : M A) (k : A → M B) :
  keeps name m → (∀ a, keeps name (k a)) → keeps name (bind m k).
Proof.
  intros Hm Hk s. unfold bind. specialize (Hm s).
  destruct (m s) as [[a|e] s1]; simpl in *; [|done].
  by rewrite Hk.
Qed.

Lemma keeps_f_write name other chunk :
  name ≠ other → keeps name (f_write other chunk).
Proof. intros Hne s. by destruct name, other. Qed.

Lemma keeps_f_open name other : name ≠ other → keeps name (f_open other).
Proof. intros Hne s. by destruct name, other. Qed.

Lemma keeps_sto_open name : keeps name sto_open.
Proof. intros s. by destruct name. Qed.

Lemma keeps_sto_write name r : keeps name (sto_write r).
Proof. intros s. by destruct name. Qed.

Lemma keeps_call_writer name writer file_format output_filename io_options :
  keeps name (call_writer writer file_format output_filename io_options).
Proof. intros s. unfold call_writer. by destruct (writer _ _ _ _). Qed.

Lemma keeps_m_for_each name {A} (body : A → M unit) l :
  (∀ x, keeps name (body x)) → keeps name (m_for_each body l).
Proof.
  intros Hbody. induction l as [|x l IH]; simpl; [apply keeps_ret|].
  apply keeps_bind; [done|]. by intros [].
Qed.

Lemma keeps_m_fold name {A B} (body : B → A → M B) l acc :
  (∀ acc x, keeps name (body acc x)) → keeps name (m_fold body l acc).
Proof.
  intros Hbody. revert acc.
  induction l as [|x l IH]; intros acc; simpl; [apply keeps_ret|].
  by apply keeps_bind.
Qed.

Create HintDb keeps.
#[export] Hint Resolve keeps_ret keeps_raise keeps_lift keeps_m_assert
  keeps_get_model keeps_set_model keeps_sto_open keeps_sto_write
  keeps_call_writer : keeps.

(** Takes a computation apart along its binds and its case analyses. *)
Ltac keeps_step :=
  match goal with
  | |- keeps _ (bind _ _) => apply keeps_bind; [|intros ?]
  | |- keeps _ (m_for_each _ _) => apply keeps_m_for_each; intros ?
  | |- keeps _ (m_fold _ _ _) => apply keeps_m_fold; intros ? ?
  | |- keeps _ (f_write _ _) => apply keeps_f_write; discriminate
  | |- keeps _ (f_open _) => apply keeps_f_open; discriminate
  | |- keeps _ (match ?x with _ => _ end) => destruct x
  | |- keeps _ _ => solve [auto with keeps]
  end.

Ltac solve_keeps := repeat keeps_step.

Lemma keeps_write_tim_file name basename file_format symbol_map obj vm cm :
  name ≠ Tim →
  keeps name (write_tim_file basename file_format symbol_map obj vm cm).
Proof.
  intros Hne. unfold write_tim_file, write_tim_lines.
  destruct name; [| |done|]; solve_keeps.
Qed.

Lemma keeps_set_repn name cache block key repn :
  keeps name (set_repn cache block key repn).
Proof. unfold set_repn. solve_keeps. Qed.

Lemma keeps_get_repn name cache block key :
  keeps name (get_repn cache block key).
Proof. unfold get_repn. solve_keeps. Qed.

#[export] Hint Resolve keeps_set_repn keeps_get_repn : keeps.

Lemma keeps_write_sto_files name cache symbols ids order sm p ann obj :
  name ≠ Coords →
  keeps name (write_sto_files cache symbols ids order sm p ann obj).
Proof.
  intros Hne.
  unfold write_sto_files, stochastic_rhs_entry, stochastic_matrix_entry,
    stochastic_objective_part, stochastic_rhs_label, stochastic_matrix_var,
    stochastic_objective_var, stochastic_lower, stochastic_upper, zero_upper,
    check_declared_secondstage, get_linear_repn, set_lower, set_upper.
  destruct name; [| | |done]; solve_keeps.
Qed.

(** ** The [.col] and [.row] files *)

Lemma write_symbols_run name symbols count s :
  ∃ s', write_symbols name symbols count s
        = (Ok (count + length symbols)%nat, s')
    ∧ text name (files s') = text name (files s) +:+ unlines symbols
    ∧ (∀ other, other ≠ name →
         text other (files s') = text other (files s))
    ∧ model s' = model s.
Proof.
  revert count s. induction symbols as [|symbol symbols IH]; intros count s.
  { exists s. rewrite Nat.add_0_r. split; [done|].
    split; [by rewrite append_empty_r|done]. }
  destruct (IH (S count)
              {| model := model s;
                 files := with_text name (fun old => old +:+ (symbol +:+ nl))
                            (files s) |})
    as (s' & Hrun & Htext & Hother & Hmodel).
  exists s'. split; [|split; [|split]].
  - simpl. rewrite bind_result. simpl. rewrite Hrun.
    do 2 f_equal. lia.
  - rewrite Htext, unlines_cons. simpl.
    destruct name; simpl; by rewrite !append_assoc.
  - intros other Hne. rewrite (Hother other Hne).
    by destruct name, other.
  - by rewrite Hmodel.
Qed.

Lemma write_col_file_run vm s :
  ∃ s', write_col_file vm s
        = (Ok (length (firststage_vars vm),
               S (length (secondstage_vars vm))), s')
    ∧ f_col (files s')
      = unlines (var_symbols (firststage_vars vm)
                 ++ var_symbols (secondstage_vars vm)
                 ++ ["ONE_VAR_CONSTANT"])
    ∧ model s' = model s.
Proof.
  unfold write_col_file. rewrite bind_result. simpl.
  set (s0 := {| model := model s; files := _ |}).
  destruct (write_symbols_run Col (var_symbols (firststage_vars vm)) 0 s0)
    as (s1 & Hrun1 & Htext1 & _ & Hmodel1).
  destruct (write_symbols_run Col (var_symbols (secondstage_vars vm)) 0 s1)
    as (s2 & Hrun2 & Htext2 & _ & Hmodel2).
  rewrite bind_result, Hrun1, bind_result, Hrun2. simpl.
  unfold var_symbols in *. rewrite !length_fmap.
  eexists. split; [done|]. simpl in *. split.
  - rewrite Htext2, Htext1, !unlines_app. simpl.
    by rewrite !append_assoc.
  - by rewrite Hmodel2, Hmodel1.
Qed.

Lemma write_row_file_Ok symbol_map objective_object cm s counts s' :
  write_row_file symbol_map objective_object cm s = (Ok counts, s') →
  ∃ objective_symbol,
    byObject symbol_map !! obj_id objective_object = Some objective_symbol
    ∧ counts = (length (con_symbols (firststage_cons cm)),
                S (length (con_symbols (secondstage_cons cm))))
    ∧ f_row (files s')
      = unlines (objective_symbol :: con_symbols (firststage_cons cm)
                 ++ con_symbols (secondstage_cons cm))
        +:+ "c_e_ONE_VAR_CONSTANT"
    ∧ f_col (files s') = f_col (files s)
    ∧ model s' = model s.
Proof.
  unfold write_row_file. rewrite bind_result. simpl.
  set (s0 := {| model := model s; files := _ |}).
  rewrite bind_result. unfold lift at 1.
  destruct (getitem _ _) as [objective_symbol|e] eqn:Hsym; [|done].
  apply getitem_Ok in Hsym. rewrite bind_result. simpl.
  set (s1 := {| model := model s; files := _ |}).
  destruct (write_symbols_run Row (con_symbols (firststage_cons cm)) 0 s1)
    as (s2 & Hrun2 & Htext2 & Hother2 & Hmodel2).
  destruct (write_symbols_run Row (con_symbols (secondstage_cons cm)) 0 s2)
    as (s3 & Hrun3 & Htext3 & Hother3 & Hmodel3).
  rewrite bind_result, Hrun2, bind_result, Hrun3. simpl.
  intros [= <- <-]. exists objective_symbol.
  split; [done|]. split; [done|]. split; [|split].
  - cbn [files f_row with_text text] in *.
    rewrite Htext3, Htext2, ?unlines_cons, unlines_app. unfold s1.
    cbn [files f_row]. change ("" +:+ ?x) with x.
    by rewrite !append_assoc.
  - change (text Col (files s3) = text Col (files s)).
    by rewrite (Hother3 Col), (Hother2 Col).
  - cbn [model]. by rewrite Hmodel3, Hmodel2.
Qed.

(** ** A conversion that returns *)

Lemma get_model_Ok s st s' :
  get_model s = (Ok st, s') ↔ st = model s ∧ s' = s.
Proof. unfold get_model. split; [by intros [= <- <-]|by intros [-> ->]]. Qed.

Lemma write_core_Ok writer file_format output_filename io_options s sm s' :
  write_core writer file_format output_filename io_options s = (Ok sm, s') →
  writer file_format output_filename io_options (model s)
  = (Ok (output_filename, sm), model s')
  ∧ files s' = files s.
Proof.
  unfold write_core, call_writer. intros H.
  apply bind_Ok in H as ([name sm'] & s1 & Hcall & H).
  apply bind_Ok in H as ([] & s2 & Hname & H).
  apply m_assert_Ok in Hname as [Hname ->]. injection H as <- <-.
  apply String.eqb_eq in Hname. simpl in Hname. subst name.
  destruct (writer _ _ _ _) as [r st]. by injection Hcall as -> <-.
Qed.

Lemma keeps_write_core name writer file_format output_filename io_options :
  keeps name (write_core writer file_format output_filename io_options).
Proof. unfold write_core. solve_keeps. Qed.

Lemma keeps_set_lower name con v : keeps name (set_lower con v).
Proof. done. Qed.

Lemma keeps_set_upper name con v : keeps name (set_upper con v).
Proof. done. Qed.

Lemma keeps_set_name name n : keeps name (set_name n).
Proof. done. Qed.

#[export] Hint Resolve keeps_write_core keeps_set_lower keeps_set_upper
  keeps_set_name : keeps.

Lemma keeps_run name {A} (m : M A) s r s' :
  keeps name m → m s = (r, s') → text name (files s') = text name (files s).
Proof. intros Hk Hrun. specialize (Hk s). by rewrite Hrun in Hk. Qed.

Lemma without_cleanup_Ok writer scenario_tree scenario output_directory
    basename file_format enforce io_options s counts s' :
  _convert_external_setup_without_cleanup writer scenario_tree scenario
    output_directory basename file_format enforce io_options s
  = (Ok counts, s') →
  ∃ t, traces writer scenario_tree scenario output_directory basename
         file_format enforce io_options (model s) t
    ∧ f_col (files s')
      = unlines (var_symbols (firststage_vars (t_vars t))
                 ++ var_symbols (secondstage_vars (t_vars t))
                 ++ ["ONE_VAR_CONSTANT"])
    ∧ f_row (files s')
      = unlines (t_objective_symbol t
                 :: con_symbols (firststage_cons (t_cons t))
                 ++ con_symbols (secondstage_cons (t_cons t)))
        +:+ "c_e_ONE_VAR_CONSTANT"
    ∧ firststage_variable_count counts = length (firststage_vars (t_vars t))
    ∧ secondstage_variable_count counts
      = S (length (secondstage_vars (t_vars t)))
    ∧ firststage_constraint_count counts
      = length (con_symbols (firststage_cons (t_cons t)))
    ∧ secondstage_constraint_count counts
      = S (length (con_symbols (secondstage_cons (t_cons t)))).
Proof.
  unfold _convert_external_setup_without_cleanup. intros H.
  apply bind_Ok in H as (annotations & s1 & Hann & H).
  apply lift_Ok in Hann as [Hann ->].
  apply bind_Ok in H as (st & s1 & Hst & H).
  apply get_model_Ok in Hst as [-> ->].
  apply bind_Ok in H as ([] & s1 & Has & H).
  apply m_assert_Ok in Has as [_ ->].
  apply bind_Ok in H as ([] & s1 & Has & H).
  apply m_assert_Ok in Has as [Hcol ->].
  apply bind_Ok in H as ([] & s1 & Has & H).
  apply m_assert_Ok in Has as [Hrow ->].
  apply bind_Ok in H as (sm1 & s1 & Hw1 & H).
  apply write_core_Ok in Hw1 as [Hw1 Hf1].
  apply bind_Ok in H as (st & s2 & Hst & H).
  apply get_model_Ok in Hst as [-> ->].
  apply bind_Ok in H as ([] & s2 & Has & H).
  apply m_assert_Ok in Has as [_ ->].
  apply bind_Ok in H as (vm1 & s2 & Hvm1 & H).
  apply lift_Ok in Hvm1 as [Hvm1 ->].
  apply bind_Ok in H as (st & s2 & Hst & H).
  apply get_model_Ok in Hst as [-> ->].
  apply bind_Ok in H as (cm1 & s2 & Hcm1 & H).
  apply lift_Ok in Hcm1 as [Hcm1 ->].
  apply bind_Ok in H as (cache & s2 & Hcache & H).
  apply bind_Ok in H as (o' & s3 & Hobj & H).
  destruct (_instance_objective scenario) as [o|] eqn:Ho; [|done].
  injection Hobj as <- <-.
  apply bind_Ok in H as (orepn & s3 & _ & H).
  apply bind_Ok in H as (column_order & s4 & Hco & H).
  apply lift_Ok in Hco as [Hco ->].
  apply bind_Ok in H as ([] & s4 & Has & H).
  apply m_assert_Ok in Has as [_ ->].
  apply bind_Ok in H as ([] & s4 & Has & H).
  apply m_assert_Ok in Has as [_ ->].
  apply bind_Ok in H as (sm2 & s4 & Hw2 & H).
  apply write_core_Ok in Hw2 as [Hw2 Hf2].
  apply bind_Ok in H as (vm2 & s5 & Hvm2 & H).
  apply lift_Ok in Hvm2 as [Hvm2 ->].
  apply bind_Ok in H as (st & s5 & Hst & H).
  apply get_model_Ok in Hst as [-> ->].
  apply bind_Ok in H as (cm2 & s5 & Hcm2 & H).
  apply lift_Ok in Hcm2 as [Hcm2 ->].
  apply bind_Ok in H as (vcounts & s5 & Hcolf & H).
  destruct (write_col_file_run vm2 s4) as (s5' & Hcolf' & Hcol_text & _).
  rewrite Hcolf' in Hcolf. injection Hcolf as <- <-.
  apply bind_Ok in H as (ccounts & s6 & Hrowf & H).
  apply write_row_file_Ok in Hrowf
    as (osym & Hosym & -> & Hrow_text & Hrow_col & _).
  assert (Hkeep : ∀ name, name ≠ Tim → name ≠ Coords →
            text name (files s') = text name (files s6)).
  { intros name Htim Hcoords. eapply keeps_run; [|exact H].
    solve_keeps.
    - by apply keeps_write_tim_file.
    - by apply keeps_write_sto_files. }
  apply bind_Ok in H as ([] & s7 & _ & H).
  apply bind_Ok in H as (loc & s8 & _ & H).
  apply bind_Ok in H as (st & s9 & _ & H).
  apply bind_Ok in H as ([] & s10 & _ & H).
  apply bind_Ok in H as (sm3 & s11 & _ & H).
  apply bind_Ok in H as ([] & s12 & _ & H).
  apply bind_Ok in H as ([] & s13 & _ & H).
  apply bind_Ok in H as ([] & s14 & _ & H).
  injection H as <- <-.
  exists {| t_annotations := annotations; t_setup_symbols := sm1;
            t_setup_state := model s1; t_setup_vars := vm1;
            t_setup_cons := cm1; t_column_order := column_order;
            t_cached_state := model s3; t_symbols := sm2;
            t_state := model s4; t_vars := vm2; t_cons := cm2;
            t_objective := o; t_objective_symbol := osym |}.
  split; [by repeat split|]. simpl.
  split; [|split; [|done]].
  - change (text Col (files s14) = unlines
      (var_symbols (firststage_vars vm2)
       ++ var_symbols (secondstage_vars vm2) ++ ["ONE_VAR_CONSTANT"])).
    rewrite (Hkeep Col) by done. simpl. by rewrite Hrow_col.
  - change (text Row (files s14) = unlines
      (osym :: con_symbols (firststage_cons cm2)
       ++ con_symbols (secondstage_cons cm2)) +:+ "c_e_ONE_VAR_CONSTANT").
    by rewrite (Hkeep Row).
Qed.

(** *** The wrapper *)

Lemma cache_attrs_run blocks acc s :
  ∃ cached s1, m_fold cache_attrs blocks acc s = (Ok cached, s1)
    ∧ same_but_attrs s1 s.
Proof.
  revert acc s. induction blocks as [|block blocks IH]; intros acc s.
  { by exists acc, s. }
  simpl. rewrite bind_result. unfold cache_attrs at 1.
  rewrite !bind_result. simpl.
  match goal with |- context [m_fold cache_attrs blocks ?a ?s0] =>
    destruct (IH a s0) as (cached & s1 & Hrun & Hf & Hb & Hh & Hn & Hp) end.
  exists cached, s1. split; [done|]. by repeat split.
Qed.

Lemma restore_attrs_run cached s :
  ∃ s1, m_for_each restore_attrs cached s = (Ok tt, s1)
    ∧ same_but_attrs s1 s.
Proof.
  revert s. induction cached as [|c cached IH]; intros s.
  { by exists s. }
  simpl. rewrite bind_result. unfold restore_attrs at 1.
  rewrite !bind_result. simpl.
  match goal with |- context [m_for_each restore_attrs cached ?s0] =>
    destruct (IH s0) as (s1 & Hrun & Hf & Hb & Hh & Hn & Hp) end.
  exists s1. split; [done|]. by repeat split.
Qed.

(** [_convert_external_setup] returns or raises as the conversion proper
    does in the detached state, and ends in its state up to the
    attributes of the blocks. *)
Lemma convert_external_setup_run writer scenario_tree scenario
    output_directory basename file_format enforce io_options s :
  ∃ s', _convert_external_setup writer scenario_tree scenario
          output_directory basename file_format enforce io_options s
        = ((_convert_external_setup_without_cleanup writer scenario_tree
              scenario output_directory basename file_format enforce
              io_options (detached scenario s)).1, s')
    ∧ same_but_attrs s'
        (_convert_external_setup_without_cleanup writer scenario_tree
           scenario output_directory basename file_format enforce
           io_options (detached scenario s)).2.
Proof.
  unfold _convert_external_setup, detached.
  destruct (cache_attrs_run (model_blocks (_instance scenario)) [] s)
    as (cached & s1 & Hcache & _).
  rewrite bind_result, Hcache. simpl. unfold try_finally.
  destruct (_convert_external_setup_without_cleanup _ _ _ _ _ _ _ _ s1)
    as [r s2].
  destruct (restore_attrs_run cached s2) as (s3 & Hrestore & Hsame).
  rewrite Hrestore. by exists s3.
Qed.

(** *** What the [finally] block restores *)

Lemma cache_attrs_cached blocks acc s :
  NoDup (block_id <$> blocks) →
  (m_fold cache_attrs blocks acc s).1
  = Ok (acc ++ ((fun block => (block_id block,
                               attrs_of (model s) (block_id block)))
                <$> blocks)).
Proof.
  revert acc s. induction blocks as [|block blocks IH]; intros acc s Hnd.
  { simpl. by rewrite app_nil_r. }
  apply NoDup_cons in Hnd as [Hnotin Hnd].
  simpl. rewrite bind_result. unfold cache_attrs at 1.
  rewrite !bind_result. simpl. rewrite IH by done.
  rewrite <- app_assoc. simpl. do 3 f_equal.
  apply list_fmap_ext. intros i b Hb. simpl. f_equal.
  unfold attrs_of. simpl. rewrite lookup_insert_ne; [done|].
  intros Heq. apply Hnotin. rewrite Heq.
  apply list_elem_of_fmap. exists b. split; [done|].
  by eapply list_elem_of_lookup_2.
Qed.

Lemma restore_attrs_other cached s j :
  j ∉ cached.*1 →
  attrs_of (model (m_for_each restore_attrs cached s).2) j
  = attrs_of (model s) j.
Proof.
  revert s. induction cached as [|[k c] cached IH]; intros s Hnotin; [done|].
  simpl. rewrite bind_result. unfold restore_attrs at 1.
  rewrite !bind_result. simpl. rewrite IH.
  - unfold attrs_of. simpl. rewrite lookup_insert_ne; [done|].
    intros ->. apply Hnotin. simpl. by left.
  - intros Hin. apply Hnotin. simpl. by right.
Qed.

Lemma restore_attrs_restores cached s i a :
  NoDup cached.*1 → (i, a) ∈ cached →
  attrs_kept a (attrs_of (model (m_for_each restore_attrs cached s).2) i).
Proof.
  revert s. induction cached as [|[j b] cached IH]; intros s Hnd Hin.
  { by apply elem_of_nil in Hin. }
  simpl in Hnd. apply NoDup_cons in Hnd as [Hnotin Hnd].
  apply elem_of_cons in Hin as [Heq|Hin].
  - injection Heq as -> ->.
    simpl. rewrite bind_result. unfold restore_attrs at 1.
    rewrite !bind_result. simpl.
    rewrite restore_attrs_other by done.
    unfold attrs_of. simpl. rewrite lookup_insert_eq.
    simpl. repeat split; intros v Hv; by rewrite Hv.
  - simpl. rewrite bind_result. unfold restore_attrs at 1.
    rewrite !bind_result. simpl. by apply IH.
Qed.



(** ** Annotations that stop the conversion *)

Lemma resolve_constraint_annotation_Ok {V}
    (declared : list (string * Annotation ConstraintData V)) all r :
  resolve_constraint_annotation declared all = Ok r →
  (length declared ≤ 1)%nat
  ∧ (r.1.1 = None ↔ declared = [])
  ∧ ∀ name annotation, (name, annotation) ∈ declared →
      has_declarations annotation = true → expand_entries annotation ≠ [].
Proof.
  unfold resolve_constraint_annotation, locate_annotations. intros H.
  destruct (1 <? length declared)%nat eqn:Hlen; [done|].
  apply Nat.ltb_ge in Hlen. simpl in H.
  destruct declared as [|[name annotation] [|? ?]]; simpl in *; [| |lia].
  { simplify_eq. split; [lia|]. split; [done|].
    intros ?? Hin. by apply elem_of_nil in Hin. }
  split; [lia|].
  destruct (has_declarations annotation) eqn:Hdecl.
  - destruct (length (py_sorted _ _) =? 0)%nat eqn:Hn; [done|].
    simplify_eq. split; [done|]. intros n a Hin _ Hempty.
    apply list_elem_of_singleton in Hin. simplify_eq.
    by rewrite Hempty in Hn.
  - simplify_eq. split; [done|]. intros n a Hin Ha.
    apply list_elem_of_singleton in Hin. simplify_eq. congruence.
Qed.

Lemma resolve_annotations_Ok reference_model all annotations :
  resolve_annotations reference_model all = Ok annotations →
  ¬ annotations_rejected reference_model.
Proof.
  unfold resolve_annotations. intros H.
  apply result_bind_Ok in H as (rhs & Hrhs & H).
  apply result_bind_Ok in H as (matrix & Hmatrix & H).
  apply result_bind_Ok in H as (located & Hlocated & H).
  apply result_bind_Ok in H as (objective & Hobjective & H).
  apply result_bind_Ok in H as (varbounds & Hvarbounds & H).
  apply resolve_constraint_annotation_Ok in Hrhs as (Hr1 & Hr2 & Hr3).
  apply resolve_constraint_annotation_Ok in Hmatrix as (Hm1 & Hm2 & Hm3).
  unfold locate_annotations in Hlocated, Hvarbounds.
  destruct (1 <? length (objective_annotations reference_model))%nat
    eqn:Hlen; [done|].
  apply Nat.ltb_ge in Hlen. simplify_eq.
  destruct (0 <? length (varbounds_annotations reference_model))%nat
    eqn:Hvb; [done|].
  apply Nat.ltb_ge in Hvb.
  destruct (is_None rhs.1.1 && is_None matrix.1.1 && is_None objective)
    eqn:Hnone; [done|].
  intros [Hbad|[(H1 & H2 & H3)|[(n & a & Hin & Hd & He)|
          [(n & a & Hin & Hd & He)|[Hbad|[Hbad|Hbad]]]]]]; try lia.
  - destruct (varbounds_annotations reference_model); [done|].
    simpl in Hvb. lia.
  - rewrite (proj2 Hr2 H1), (proj2 Hm2 H2) in Hnone. rewrite H3 in Hobjective.
    by simplify_eq.
  - by apply (Hr3 n a).
  - by apply (Hm3 n a).
Qed.

(** C6.  The conversion fails with an error whenever a stochastic variable
    bounds annotation is declared; whenever no stochastic rhs, matrix or
    objective annotation is; whenever an rhs or matrix annotation declared
    with entries gives no active constraint; and whenever more than one
    annotation of one of the first three kinds is declared. *)
Theorem rejected_annotations_raise (writer : Writer)
    (scenario_tree : ScenarioTree) (scenario : Scenario)
    (output_directory basename : string) (file_format : FileFormat)
    (enforce : bool) (io_options : IoOptions) (s : State) :
  annotations_rejected (_instance scenario) →
  raises (_convert_external_setup writer scenario_tree scenario
            output_directory basename file_format enforce io_options) s.
Proof.
  intros Hbad.
  destruct (convert_external_setup_run writer scenario_tree scenario
              output_directory basename file_format enforce io_options s)
    as (s' & Hrun & _).
  destruct (_convert_external_setup_without_cleanup _ _ _ _ _ _ _ _ _)
    as [[counts|e] s2] eqn:Hinner.
  - apply without_cleanup_Ok in Hinner as (t & Ht & _).
    destruct Ht as (Hann & _). by apply resolve_annotations_Ok in Hann.
  - by exists e, s'.
Qed.

(** ** Reserved symbols *)

Lemma column_order_body_Ok acc entry acc' :
  column_order_body acc entry = Ok acc' →
  entry.1.1 ≠ "RHS"
  ∧ acc' = (<[var_id entry.1.2 := acc.2]> acc.1, S acc.2).
Proof.
  unfold column_order_body.
  destruct (String.eqb entry.1.1 "RHS") eqn:Heq; [done|].
  apply String.eqb_neq in Heq. by intros [= <-].
Qed.

Lemma column_order_loop_Ok entries acc acc' :
  for_each column_order_body entries acc = Ok acc' →
  (∀ entry, entry ∈ entries → entry.1.1 ≠ "RHS")
  ∧ dom acc'.1 = dom acc.1 ∪ var_ids entries.
Proof.
  revert acc. induction entries as [|entry entries IH]; intros acc H.
  { simpl in H. simplify_eq. split.
    - intros ? Hin. by apply elem_of_nil in Hin.
    - unfold var_ids. simpl. set_solver. }
  simpl in H. apply result_bind_Ok in H as (acc1 & Hbody & H).
  apply column_order_body_Ok in Hbody as [Hne ->].
  apply IH in H as [Hrest Hdom]. split.
  - intros e Hin. apply elem_of_cons in Hin as [->|Hin]; [done|].
    by apply Hrest.
  - rewrite Hdom. simpl. rewrite dom_insert_L. unfold var_ids.
    rewrite fmap_cons. simpl. set_solver.
Qed.

Lemma make_column_order_Ok vm column_order :
  make_column_order vm = Ok column_order →
  (∀ entry, entry ∈ firststage_vars vm ++ secondstage_vars vm →
     entry.1.1 ≠ "RHS")
  ∧ dom column_order
    = var_ids (firststage_vars vm) ∪ var_ids (secondstage_vars vm).
Proof.
  unfold make_column_order. intros H.
  apply result_bind_Ok in H as (acc1 & H1 & H).
  apply result_bind_Ok in H as (acc2 & H2 & H). simplify_eq.
  apply column_order_loop_Ok in H1 as [Hne1 Hdom1].
  apply column_order_loop_Ok in H2 as [Hne2 Hdom2]. simpl in *. split.
  - intros e Hin. apply elem_of_app in Hin as [Hin|Hin]; auto.
  - rewrite Hdom2, Hdom1. set_solver.
Qed.

(** The symbol of every variable that the symbol map names is a key of
    one of the two dictionaries. *)
Lemma map_variable_stages_keys stmap tree leaf sm enforce l
    (acc acc' : var_dict * var_dict) :
  for_each (map_variable_stages_body stmap tree leaf sm enforce) l acc
  = Ok acc' →
  (∀ symbol, is_Some (acc.1 !! symbol) ∨ is_Some (acc.2 !! symbol) →
     is_Some (acc'.1 !! symbol) ∨ is_Some (acc'.2 !! symbol))
  ∧ ∀ var symbol, var ∈ l → byObject sm !! var_id var = Some symbol →
      is_Some (acc'.1 !! symbol) ∨ is_Some (acc'.2 !! symbol).
Proof.
  revert acc. induction l as [|v l IH]; intros acc H.
  { simpl in H. simplify_eq. split; [done|].
    intros ?? Hin. by apply elem_of_nil in Hin. }
  simpl in H. apply result_bind_Ok in H as (acc1 & Hbody & H).
  destruct (IH _ H) as [Hkeep Hnew].
  pose proof (body_cases stmap tree leaf sm enforce acc v) as Hc.
  rewrite Hbody in Hc.
  assert (Hgrow : ∀ symbol,
            is_Some (acc.1 !! symbol) ∨ is_Some (acc.2 !! symbol) →
            is_Some (acc1.1 !! symbol) ∨ is_Some (acc1.2 !! symbol)).
  { intros symbol Hs.
    destruct (byObject sm !! var_id v) as [s|]; [|by simplify_eq].
    destruct (firststage_rule _ _ _);
      [|destruct (secondstage_rule _ _ _); [|done]]; simplify_eq; simpl.
    - destruct Hs as [Hs|Hs]; [left|by right].
      rewrite lookup_insert. case_decide; [by eexists|done].
    - destruct Hs as [Hs|Hs]; [by left|right].
      rewrite lookup_insert. case_decide; [by eexists|done]. }
  split; [by auto|].
  intros var symbol Hin Hsym.
  apply elem_of_cons in Hin as [->|Hin]; [|by eapply Hnew].
  apply Hkeep. rewrite Hsym in Hc.
  destruct (firststage_rule _ _ _);
    [|destruct (secondstage_rule _ _ _); [|done]]; simplify_eq; simpl.
  - left. rewrite lookup_insert_eq. by eexists.
  - right. rewrite lookup_insert_eq. by eexists.
Qed.

Lemma map_variable_stages_symbol vars stmap tree leaf sm enforce vm var
    symbol :
  map_variable_stages vars stmap tree leaf sm enforce = Ok vm →
  var ∈ vars → byObject sm !! var_id var = Some symbol →
  ∃ entry, entry ∈ firststage_vars vm ++ secondstage_vars vm
           ∧ entry.1.1 = symbol.
Proof.
  unfold map_variable_stages. intros H Hin Hsym.
  apply result_bind_Ok in H as (acc & Hacc & H). simplify_eq. simpl.
  apply map_variable_stages_keys in Hacc as [_ Hkeys].
  destruct (Hkeys var symbol Hin Hsym) as [[[v i] Hs]|[[v i] Hs]];
    exists (symbol, v, i); (split; [|done]); apply elem_of_app;
    [left|right]; by apply elem_of_stage_entries.
Qed.

(** C9, as amended.  When the setup write names a variable of the model
    [RHS], the conversion raises an error and renames nothing.  (No other
    symbol is tested.) *)
Theorem RHS_symbol_raises (writer : Writer) (scenario_tree : ScenarioTree)
    (scenario : Scenario) (output_directory basename : string)
    (file_format : FileFormat) (enforce : bool) (io_options : IoOptions)
    (s : State) :
  reserved_symbols_rejected ["RHS"] writer scenario_tree scenario
    output_directory basename file_format enforce io_options s.
Proof.
  intros sm st var symbol Hwrite Hvar Hsym Hreserved.
  apply list_elem_of_singleton in Hreserved as ->.
  destruct (convert_external_setup_run writer scenario_tree scenario
              output_directory basename file_format enforce io_options s)
    as (s' & Hrun & _).
  destruct (_convert_external_setup_without_cleanup _ _ _ _ _ _ _ _ _)
    as [[counts|e] s2] eqn:Hinner; [|by exists e, s'].
  apply without_cleanup_Ok in Hinner as (t & Ht & _).
  destruct Ht as (_ & Hwrite' & Hvm & _ & _ & Hco & _).
  rewrite Hwrite in Hwrite'. injection Hwrite' as Heq _.
  rewrite <- Heq in Hvm.
  destruct (map_variable_stages_symbol _ _ _ _ _ _ _ var "RHS" Hvm Hvar Hsym)
    as (entry & Hentry & Hrhs).
  apply make_column_order_Ok in Hco as [Hne _].
  by destruct (Hne entry Hentry).
Qed.

(** ** The files of a conversion that returns *)

Lemma convert_external_setup_Ok writer scenario_tree scenario
    output_directory basename file_format enforce io_options s counts s' :
  _convert_external_setup writer scenario_tree scenario output_directory
    basename file_format enforce io_options s = (Ok counts, s') →
  ∃ s2, _convert_external_setup_without_cleanup writer scenario_tree
          scenario output_directory basename file_format enforce
          io_options (detached scenario s) = (Ok counts, s2)
    ∧ same_but_attrs s' s2.
Proof.
  intros H.
  destruct (convert_external_setup_run writer scenario_tree scenario
              output_directory basename file_format enforce io_options s)
    as (s3 & Hrun & Hsame).
  rewrite Hrun in H. injection H as Hr <-.
  destruct (_convert_external_setup_without_cleanup _ _ _ _ _ _ _ _ _)
    as [r s2]. simpl in *. subst r. by exists s2.
Qed.

(** C5.  When the conversion of a scenario returns, the [.col] file lists
    the symbols of the first-stage variables, then those of the
    second-stage variables, then [ONE_VAR_CONSTANT], a line each; the
    [.row] file lists the symbol of the objective, then the symbols of the
    first-stage constraints, then those of the second-stage constraints, a
    line each, and ends with [c_e_ONE_VAR_CONSTANT].  The stages are those
    of the stage maps made from the symbol map of the ordered write. *)
Theorem col_and_row_files (writer : Writer) (scenario_tree : ScenarioTree)
    (scenario : Scenario) (output_directory basename : string)
    (file_format : FileFormat) (enforce : bool) (io_options : IoOptions)
    (s : State) (counts : SetupCounts) (s' : State) :
  _convert_external_setup writer scenario_tree scenario output_directory
    basename file_format enforce io_options s = (Ok counts, s') →
  ∃ t, traces writer scenario_tree scenario output_directory basename
         file_format enforce io_options (model (detached scenario s)) t
    ∧ f_col (files s')
      = unlines (var_symbols (firststage_vars (t_vars t))
                 ++ var_symbols (secondstage_vars (t_vars t))
                 ++ ["ONE_VAR_CONSTANT"])
    ∧ f_row (files s')
      = unlines ([t_objective_symbol t]
                 ++ con_symbols (firststage_cons (t_cons t))
                 ++ con_symbols (secondstage_cons (t_cons t)))
        +:+ "c_e_ONE_VAR_CONSTANT".
Proof.
  intros H. apply convert_external_setup_Ok in H as (s2 & H & Hfiles & _).
  apply without_cleanup_Ok in H as (t & Ht & Hcol & Hrow & _).
  exists t. rewrite Hfiles. done.
Qed.

(** *** The ordering maps *)

Lemma secondstage_condition_dec stoch second con :
  secondstage_condition stoch second con
  ∨ ¬ secondstage_condition stoch second con.
Proof.
  unfold secondstage_condition.
  destruct (decide (con_id con ∈ stoch)) as [?|Hflag]; [by left; left|].
  destruct (decide (Exists (fun var => var_fixed var = false
                                       ∧ var_id var ∈ second)
                           (con_body con))) as [Hex|Hex].
  - left. right. apply Exists_exists in Hex as (var & ? & ? & ?).
    by exists var.
  - right. intros [?|(var & ? & ? & ?)]; [done|]. apply Hex.
    apply Exists_exists. by exists var.
Qed.

Lemma map_constraint_stages_members st blocks sm stoch first second cm :
  map_constraint_stages st blocks sm stoch first second = Ok cm →
  ∀ con, con ∈ active_constraints blocks ↔
    con_in_stage con (firststage_cons cm)
    ∨ con_in_stage con (secondstage_cons cm).
Proof.
  unfold map_constraint_stages. intros Hrun con.
  apply result_bind_Ok in Hrun as (reverse & _ & Hrun).
  apply result_bind_Ok in Hrun as (acc & Hacc & Hrun). simplify_eq.
  apply (inv_blocks _ _ _ _ _ _ _ []) in Hacc; last first.
  { intros c. unfold con_in_stage. simpl.
    split; (split; [intros (a & Hin)|intros (Hin & _)]);
      by apply elem_of_nil in Hin. }
  simpl in Hacc. destruct (Hacc con) as [H2 H1].
  unfold con_in_stage in *. simpl. setoid_rewrite elem_of_py_sorted. split.
  - intros Hcon.
    destruct (secondstage_condition_dec stoch second con) as [Hc|Hc].
    + right. by apply H2.
    + left. by apply H1.
  - intros [Hin|Hin].
    + apply H1 in Hin. by destruct Hin.
    + apply H2 in Hin. by destruct Hin.
Qed.

Lemma row_order_loop entries acc :
  dom (foldl row_order_body acc entries).1 = dom acc.1 ∪ con_ids entries.
Proof.
  revert acc. induction entries as [|entry entries IH]; intros acc; simpl.
  { unfold con_ids. simpl. set_solver. }
  rewrite IH. simpl. rewrite dom_insert_L. unfold con_ids.
  rewrite fmap_cons. simpl. set_solver.
Qed.

Lemma dom_make_row_order cm :
  dom (make_row_order cm)
  = con_ids (firststage_cons cm) ∪ con_ids (secondstage_cons cm).
Proof.
  unfold make_row_order. rewrite row_order_loop. simpl.
  rewrite row_order_loop. simpl. rewrite dom_empty_L. set_solver.
Qed.

Lemma elem_of_con_ids con entries :
  con_in_stage con entries → con_id con ∈ con_ids entries.
Proof.
  intros (a & Hin). unfold con_ids. apply elem_of_list_to_set.
  apply list_elem_of_fmap. by exists (a, con).
Qed.

Lemma map_variable_stages_members vars stmap tree leaf sm enforce vm :
  symbols_injective sm vars →
  map_variable_stages vars stmap tree leaf sm enforce = Ok vm →
  ∀ symbol var i,
    (symbol, var, i) ∈ firststage_vars vm ++ secondstage_vars vm ↔
    var ∈ vars ∧ byObject sm !! var_id var = Some symbol
    ∧ i = stmap !! var_id var.
Proof.
  unfold map_variable_stages. intros Hinj H symbol var i.
  apply result_bind_Ok in H as (acc & Hacc & H). simplify_eq. simpl.
  assert (Hinv : dicts_hold stmap tree sm enforce ([] ++ vars) acc).
  { eapply for_each_body_Ok; [done| |done].
    intros s v j. simpl. rewrite !lookup_empty.
    split; (split; [done|]); intros (Hin & _); by apply elem_of_nil in Hin. }
  simpl in Hinv. destruct (Hinv symbol var i) as [H1 H2].
  rewrite elem_of_app, !elem_of_stage_entries, H1, H2. split.
  - intros [(?&?&?&?)|(?&?&?&?)]; done.
  - intros (? & ? & ->).
    destruct (firststage_rule tree enforce (stmap !! var_id var)) eqn:Hr;
      [left|right]; done.
Qed.

Lemma join_lines_snoc lines line :
  join_lines (lines ++ [line]) = unlines lines +:+ line.
Proof.
  induction lines as [|x lines IH]; [done|].
  rewrite unlines_cons, !append_assoc, <- IH.
  destruct lines; done.
Qed.

(** C8, as amended.  When the conversion of a scenario returns, the
    [.col] file has exactly [firststage_variable_count +
    secondstage_variable_count] lines, the second count already counting
    the line of [ONE_VAR_CONSTANT]; the [.row] file has one line more than
    [firststage_constraint_count + secondstage_constraint_count], the line
    of the objective, the second count already counting the line of
    [c_e_ONE_VAR_CONSTANT].  Every constraint whose rows are in the [.row]
    file is a key of the row ordering map given to the ordered write; and
    every variable whose symbol is in the [.col] file is a key of the
    column ordering map, provided both symbol maps name the variables
    differently and the ordered write names no variable that the setup
    write did not name. *)
Theorem file_lines_and_orderings (writer : Writer)
    (scenario_tree : ScenarioTree) (scenario : Scenario)
    (output_directory basename : string) (file_format : FileFormat)
    (enforce : bool) (io_options : IoOptions) (s : State)
    (counts : SetupCounts) (s' : State) :
  _convert_external_setup writer scenario_tree scenario output_directory
    basename file_format enforce io_options s = (Ok counts, s') →
  ∃ t, traces writer scenario_tree scenario output_directory basename
         file_format enforce io_options (model (detached scenario s)) t
    ∧ f_col (files s') = unlines (col_lines t)
    ∧ length (col_lines t)
      = (firststage_variable_count counts
         + secondstage_variable_count counts)%nat
    ∧ f_row (files s') = join_lines (row_lines t)
    ∧ length (row_lines t)
      = (1 + firststage_constraint_count counts
         + secondstage_constraint_count counts)%nat
    ∧ (∀ entry,
         entry ∈ firststage_cons (t_cons t) ++ secondstage_cons (t_cons t) →
         con_id entry.2 ∈ dom (make_row_order (t_setup_cons t)))
    ∧ (symbols_injective (t_setup_symbols t)
         (model_vars (_instance scenario)) →
       symbols_injective (t_symbols t) (model_vars (_instance scenario)) →
       names_no_new_variable scenario t →
       ∀ entry,
         entry ∈ firststage_vars (t_vars t) ++ secondstage_vars (t_vars t) →
         var_id entry.1.2 ∈ dom (t_column_order t)).
Proof.
  intros H. apply convert_external_setup_Ok in H as (s2 & H & Hfiles & _).
  apply without_cleanup_Ok in H
    as (t & Ht & Hcol & Hrow & Hfv & Hsv & Hfc & Hsc).
  exists t. rewrite Hfiles. split; [done|].
  destruct Ht as (_ & _ & Hvm1 & Hcm1 & _ & Hco & _ & Hvm2 & Hcm2 & _).
  unfold col_lines, row_lines. split; [done|]. split.
  { rewrite !length_app, Hfv, Hsv. unfold var_symbols.
    rewrite !length_fmap. simpl. lia. }
  split.
  { rewrite Hrow. rewrite !app_assoc, join_lines_snoc.
    by rewrite <- !app_assoc. }
  split.
  { rewrite !length_app, Hfc, Hsc. simpl. lia. }
  split.
  - intros [a con] Hin. simpl.
    assert (Hactive : con ∈ active_constraints
                              (model_blocks (_instance scenario))).
    { apply (map_constraint_stages_members _ _ _ _ _ _ _ Hcm2).
      unfold con_in_stage.
      apply elem_of_app in Hin as [Hin|Hin]; [left|right]; by exists a. }
    apply (map_constraint_stages_members _ _ _ _ _ _ _ Hcm1) in Hactive.
    rewrite dom_make_row_order. apply elem_of_union.
    destruct Hactive as [Hc|Hc]; [left|right]; by apply elem_of_con_ids.
  - intros Hinj1 Hinj2 Hnew [[symbol var] i] Hin. simpl.
    apply (map_variable_stages_members _ _ _ _ _ _ _ Hinj2 Hvm2)
      in Hin as (Hvar & Hsym & ->).
    destruct (Hnew var Hvar) as [symbol1 Hsym1]; [by eexists|].
    assert (Hin1 : (symbol1, var,
                    _ScenarioTreeSymbolMap (_instance scenario)
                      !! var_id var)
                   ∈ firststage_vars (t_setup_vars t)
                     ++ secondstage_vars (t_setup_vars t)).
    { by apply (map_variable_stages_members _ _ _ _ _ _ _ Hinj1 Hvm1). }
    apply make_column_order_Ok in Hco as [_ ->]. unfold var_ids.
    rewrite <- list_to_set_app_L, <- fmap_app.
    apply elem_of_list_to_set, list_elem_of_fmap.
    by eexists (symbol1, var, _).
Qed.

(** ** The conversions of the two-variable model *)

Lemma good_run_eq :
  Examples.convert Examples.good_model mps Examples.state0
  = (Ok {| firststage_variable_count := 1; secondstage_variable_count := 2;
           firststage_constraint_count := 1;
           secondstage_constraint_count := 2;
           cost_count := 0; rhs_count := 1; matrix_count := 0 |},
     Examples.good_run.2).
Proof. vm_compute. reflexivity. Defined.

(** The files of the conversion of [good_model]. *)
Example good_run_files :
  f_col (files Examples.good_run.2)
  = unlines ["x"; "y"; "ONE_VAR_CONSTANT"]
  ∧ f_row (files Examples.good_run.2)
    = join_lines ["o"; "c_u_c2_"; "c_l_c1_"; "c_e_ONE_VAR_CONSTANT"].
Proof. split; vm_compute; reflexivity. Qed.

Lemma col_and_row_files_witness :
  ∃ t, traces (Examples.table_writer [100%positive] Examples.repns
                 Examples.symbols)
         Examples.tree (Examples.scenario_of Examples.good_model) "out"
         "base" mps false Examples.no_options
         (model (detached (Examples.scenario_of Examples.good_model)
                   Examples.state0)) t
    ∧ f_col (files Examples.good_run.2)
      = unlines (var_symbols (firststage_vars (t_vars t))
                 ++ var_symbols (secondstage_vars (t_vars t))
                 ++ ["ONE_VAR_CONSTANT"])
    ∧ f_row (files Examples.good_run.2)
      = unlines ([t_objective_symbol t]
                 ++ con_symbols (firststage_cons (t_cons t))
                 ++ con_symbols (secondstage_cons (t_cons t)))
        +:+ "c_e_ONE_VAR_CONSTANT".
Proof.
  apply (col_and_row_files _ _ _ _ _ _ _ _ Examples.state0
           {| firststage_variable_count := 1;
              secondstage_variable_count := 2;
              firststage_constraint_count := 1;
              secondstage_constraint_count := 2;
              cost_count := 0; rhs_count := 1; matrix_count := 0 |}).
  exact good_run_eq.
Defined.

(** C8, as stated, fails: the conversion of [good_model] returns the
    counts 1 and 2 of variables and 1 and 2 of constraints; it writes the
    three lines [x], [y] and [ONE_VAR_CONSTANT], which is the sum of the
    two counts, and the four lines [o], [c_u_c2_], [c_l_c1_] and
    [c_e_ONE_VAR_CONSTANT], which is that sum and one.  No number of
    synthetic entries makes the count of the design document right for
    both files. *)
Lemma line_counts_differ_between_files :
  (Examples.convert Examples.good_model mps Examples.state0).1
  = Ok {| firststage_variable_count := 1; secondstage_variable_count := 2;
          firststage_constraint_count := 1;
          secondstage_constraint_count := 2;
          cost_count := 0; rhs_count := 1; matrix_count := 0 |}
  ∧ splitlines
      (f_col (files (Examples.convert Examples.good_model mps
                       Examples.state0).2))
    = ["x"; "y"; "ONE_VAR_CONSTANT"]
  ∧ splitlines
      (f_row (files (Examples.convert Examples.good_model mps
                       Examples.state0).2))
    = ["o"; "c_u_c2_"; "c_l_c1_"; "c_e_ONE_VAR_CONSTANT"]
  ∧ ∀ synthetic,
      ¬ line_counts_as_documented synthetic
          {| firststage_variable_count := 1;
             secondstage_variable_count := 2;
             firststage_constraint_count := 1;
             secondstage_constraint_count := 2;
             cost_count := 0; rhs_count := 1; matrix_count := 0 |}
          (files (Examples.convert Examples.good_model mps
                    Examples.state0).2).
Proof.
  split; [vm_compute; reflexivity|]. split; [vm_compute; reflexivity|].
  split; [vm_compute; reflexivity|].
  intros synthetic [Hcol Hrow]. vm_compute in Hcol, Hrow. lia.
Qed.

Lemma file_lines_and_orderings_witness :
  ∃ t, traces (Examples.table_writer [100%positive] Examples.repns
                 Examples.symbols)
         Examples.tree (Examples.scenario_of Examples.good_model) "out"
         "base" mps false Examples.no_options
         (model (detached (Examples.scenario_of Examples.good_model)
                   Examples.state0)) t
    ∧ f_col (files Examples.good_run.2) = unlines (col_lines t)
    ∧ length (col_lines t) = (1 + 2)%nat
    ∧ f_row (files Examples.good_run.2) = join_lines (row_lines t)
    ∧ length (row_lines t) = (1 + 1 + 2)%nat.
Proof.
  destruct (file_lines_and_orderings _ _ _ _ _ _ _ _ Examples.state0 _ _
              good_run_eq) as (t & Ht & Hcol & Hn & Hrow & Hm & _).
  exists t. simpl in Hn, Hm. done.
Defined.

(** C1.  The bounds are not restored on every exit path: the conversion
    of [nonlinear_model] ends on the error of its second entry, and the
    lower bound 5 of [c1], the first entry, is left at the sentinel. *)
Lemma failed_conversion_keeps_sentinel :
  (Examples.convert Examples.nonlinear_model mps Examples.state0).1
  = Raise (RuntimeError
      "Only linear constraints are accepted for conversion to SMPS format.")
  ∧ _lower (model Examples.state0) Examples.c1 = Some 5
  ∧ _lower (model (Examples.convert Examples.nonlinear_model mps
                     Examples.state0).2) Examples.c1
    = Some _deterministic_check_value.
Proof. repeat split; vm_compute; reflexivity. Qed.

(** The conversion of [good_model], which returns, leaves the bounds of
    the three constraints as they were. *)
Example returned_conversion_restores_bounds :
  st_bounds (model Examples.good_run.2) = st_bounds (model Examples.state0).
Proof. vm_compute. reflexivity. Qed.

(** C7.  The cross-check does not end on its consistency error: the
    conversion of [stray_model], whose annotation names a constraint that
    is not second-stage, ends on a [NameError]. *)
Lemma undeclared_stage_raises_NameError :
  (Examples.convert Examples.stray_model mps Examples.state0).1
  = Raise (NameError "ConstraintStageAnnotation").
Proof. vm_compute. reflexivity. Qed.

(** C9, as stated, fails: a variable that the writer names
    [ONE_VAR_CONSTANT] goes through, and the [.col] file lists the symbol
    twice. *)
Lemma ONE_VAR_CONSTANT_is_not_rejected :
  (Examples.convert_naming "ONE_VAR_CONSTANT" Examples.state0).1
  = Ok {| firststage_variable_count := 1; secondstage_variable_count := 2;
          firststage_constraint_count := 1;
          secondstage_constraint_count := 2;
          cost_count := 0; rhs_count := 1; matrix_count := 0 |}
  ∧ ¬ reserved_symbols_rejected ["RHS"; "ONE_VAR_CONSTANT"]
        (Examples.table_writer [100%positive] Examples.repns
           (Examples.symbols_with "ONE_VAR_CONSTANT"))
        Examples.tree (Examples.scenario_of Examples.good_model) "out"
        "base" mps false Examples.no_options Examples.state0.
Proof.
  split; [vm_compute; reflexivity|]. intros H.
  destruct (H (Examples.symbols_with "ONE_VAR_CONSTANT") _ Examples.y
              "ONE_VAR_CONSTANT" eq_refl) as (e & s' & Hrun).
  - apply list_elem_of_In. simpl. auto.
  - vm_compute. reflexivity.
  - apply list_elem_of_In. simpl. auto.
  - vm_compute in Hrun. discriminate.
Qed.

Lemma RHS_symbol_raises_witness :
  raises (Examples.convert_naming "RHS") Examples.state0.
Proof.
  apply (RHS_symbol_raises
           (Examples.table_writer [100%positive] Examples.repns
              (Examples.symbols_with "RHS"))
           Examples.tree (Examples.scenario_of Examples.good_model) "out"
           "base" mps false Examples.no_options Examples.state0
           (Examples.symbols_with "RHS") _ Examples.y "RHS" eq_refl).
  - apply list_elem_of_In. simpl. auto.
  - vm_compute. reflexivity.
  - apply list_elem_of_In. simpl. auto.
Defined.

Lemma rejected_annotations_raise_witness :
  raises (Examples.convert Examples.varbounds_model mps) Examples.state0.
Proof.
  apply (rejected_annotations_raise
           (Examples.table_writer [100%positive] Examples.repns
              Examples.symbols)
           Examples.tree (Examples.scenario_of Examples.varbounds_model)
           "out" "base" mps false Examples.no_options Examples.state0).
  left. simpl. discriminate.
Defined.

(** *** The classifier on the two-variable model *)

Lemma symbols_aliases_resolve : aliases_resolve Examples.symbols.
Proof.
  intros alias obj Hin. apply list_elem_of_In in Hin. simpl in Hin.
  destruct Hin as [[= <- <-]|[[= <- <-]|[[= <- <-]|[]]]];
    eexists; (split; [vm_compute; reflexivity|]); vm_compute; by eexists.
Defined.

Lemma good_blocks_preprocessed :
  blocks_preprocessed Examples.written_state
    (model_blocks Examples.good_model).
Proof.
  intros block Hin. apply list_elem_of_In in Hin. simpl in Hin.
  destruct Hin as [<-|[]]. split; [done|]. vm_compute. by eexists.
Defined.

Lemma good_constraints_named :
  constraints_named Examples.symbols (model_blocks Examples.good_model).
Proof.
  intros con Hin. apply list_elem_of_In in Hin. vm_compute in Hin.
  destruct Hin as [<-|[<-|[]]].
  - exists "c1", "c_l_c1_", 11%positive.
    split; [vm_compute; reflexivity|]. split; [|vm_compute; reflexivity].
    apply list_elem_of_In. simpl. auto.
  - exists "c2", "c_u_c2_", 12%positive.
    split; [vm_compute; reflexivity|]. split; [|vm_compute; reflexivity].
    apply list_elem_of_In. simpl. auto.
Defined.

Lemma good_free_variables_staged :
  free_variables_staged (model_blocks Examples.good_model)
    {[1%positive]} {[2%positive]}.
Proof.
  intros con var Hcon Hvar _.
  apply list_elem_of_In in Hcon. vm_compute in Hcon.
  destruct Hcon as [<-|[<-|[]]];
    apply list_elem_of_In in Hvar; simpl in Hvar.
  - destruct Hvar as [<-|[<-|[]]]; [left|right];
      by apply elem_of_singleton.
  - destruct Hvar as [<-|[]]. left. by apply elem_of_singleton.
Defined.

Lemma map_constraint_stages_classification_witness :
  ∃ m, map_constraint_stages Examples.written_state
         (model_blocks Examples.good_model) Examples.symbols
         {[11%positive]} {[1%positive]} {[2%positive]} = Ok m
    ∧ ∀ con, con ∈ active_constraints (model_blocks Examples.good_model) →
        (con_in_stage con (secondstage_cons m) ↔
           secondstage_condition {[11%positive]} {[2%positive]} con)
        ∧ (con_in_stage con (firststage_cons m) ↔
           ¬ secondstage_condition {[11%positive]} {[2%positive]} con).
Proof.
  apply (map_constraint_stages_classification Examples.written_state
           (model_blocks Examples.good_model) Examples.symbols
           {[11%positive]} {[1%positive]} {[2%positive]}).
  - exact symbols_aliases_resolve.
  - exact good_blocks_preprocessed.
  - exact good_constraints_named.
  - exact good_free_variables_staged.
Defined.

(** On the two-variable model [c2], over the first-stage [x] alone, is
    first-stage, and [c1], over [x] and the second-stage [y], is
    second-stage. *)
Example map_constraint_stages_two_vars :
  map_constraint_stages Examples.written_state
    (model_blocks Examples.good_model) Examples.symbols ∅
    {[1%positive]} {[2%positive]}
  = Ok {| firststage_cons := [(["c_u_c2_"], Examples.c2)];
          secondstage_cons := [(["c_l_c1_"], Examples.c1)] |}.
Proof. vm_compute. reflexivity. Qed.

(** A variable that is fixed does not make its constraint second-stage:
    [c5], over the fixed second-stage [y], is first-stage. *)
Example fixed_variables_are_ignored :
  body_is_secondstage {[1%positive]} {[2%positive]}
    (con_body Examples.c5) = Ok false
  ∧ body_is_secondstage {[1%positive]} {[2%positive]}
      (con_body Examples.c3) = Ok true.
Proof. split; vm_compute; reflexivity. Qed.

(** *** The cross-check of the declared constraints *)

(** Under an annotation with entries, a constraint that is not among the
    second-stage ones stops the conversion. *)
Lemma check_declared_secondstage_explicit ids con s :
  con_id con ∉ ids →
  check_declared_secondstage ids false con s
  = (Raise (NameError "ConstraintStageAnnotation"), s).
Proof.
  intros Hout. unfold check_declared_secondstage. simpl.
  by rewrite bool_decide_eq_false_2.
Qed.

Lemma check_declared_secondstage_member ids con s :
  con_id con ∈ ids → check_declared_secondstage ids false con s = (Ok tt, s).
Proof.
  intros Hin. unfold check_declared_secondstage. simpl.
  by rewrite bool_decide_eq_true_2.
Qed.

(** Under a default annotation no constraint is tested. *)
Lemma check_declared_secondstage_default ids con s :
  check_declared_secondstage ids true con s = (Ok tt, s).
Proof. done. Qed.

(** ** The embedded conversion *)

(** The loop that should reset the parameters goes over an empty map. *)
Lemma reset_stochastic_parameters_does_nothing param_vals_orig s :
  reset_stochastic_parameters param_vals_orig s = (Ok tt, s).
Proof. done. Qed.

(** C2.  The parameters are not restored: the embedded conversion of [sp]
    returns, and the stochastic parameter [p], of value 7 before the call,
    has the value 0 after it. *)
Lemma convert_embedded_leaves_zero :
  (∃ symbol_map,
     (convert_embedded
        (Examples.table_writer [100%positive] Examples.repns
           Examples.symbols)
        "out" "base" Examples.sp mps Examples.no_options false
        Examples.sp_state0).1 = Ok symbol_map)
  ∧ param_value (model Examples.sp_state0) Examples.p = Some 7
  ∧ param_value
      (model (convert_embedded
                (Examples.table_writer [100%positive] Examples.repns
                   Examples.symbols)
                "out" "base" Examples.sp mps Examples.no_options false
                Examples.sp_state0).2) Examples.p = Some 0.
Proof.
  split; [|split]; [|vm_compute; reflexivity..].
  eexists. vm_compute. reflexivity.
Qed.

(** ** The conic constraints *)

(** C10.  On an instance of each of the six conic constraint classes, [lb]
    returns [None], [ub] returns [0.0], [equality] returns [False] and the
    reading of [rhs] raises [ValueError]: each is the inequality
    [body <= 0] and none is an equality. *)
Theorem conic_bounds (c : Conic.class) :
  Conic.read c "lb" = Some (Ok Conic.PyNone)
  ∧ Conic.read c "ub" = Some (Ok (Conic.PyFloat 0))
  ∧ Conic.read c "equality" = Some (Ok (Conic.PyBool false))
  ∧ Conic.read c "rhs"
    = Some (Raise (ValueError
        "The rhs property can not be read because this is not an equality constraint"))
  ∧ Conic.is_body_le_zero c.
Proof. destruct c; vm_compute; repeat split; reflexivity. Qed.

(** None of the six classes binds one of the four names itself. *)
Lemma conic_bounds_are_inherited (c : Conic.class) (name : string) :
  name ∈ ["lb"; "ub"; "rhs"; "equality"] →
  Conic.owner c name = Some Conic._ConicBase.
Proof.
  intros Hin. apply list_elem_of_In in Hin. simpl in Hin.
  destruct Hin as [<-|[<-|[<-|[<-|[]]]]]; destruct c; vm_compute; reflexivity.
Qed.

(** * Further properties of the classifiers *)

(** ** Orders and sorted lists *)

Lemma ascii_compare_refl (a : ascii) : Ascii.compare a a = Eq.
Proof. unfold Ascii.compare. apply N.compare_refl. Qed.

Lemma ascii_compare_Lt_trans (a b c : ascii) :
  Ascii.compare a b = Lt → Ascii.compare b c = Lt → Ascii.compare a c = Lt.
Proof. unfold Ascii.compare. rewrite !N.compare_lt_iff. lia. Qed.

Lemma string_compare_refl (a : string) : String.compare a a = Eq.
Proof.
  induction a as [|x a IH]; simpl; [done|]. by rewrite ascii_compare_refl.
Qed.

Lemma string_compare_Lt_trans (a b c : string) :
  String.compare a b = Lt → String.compare b c = Lt →
  String.compare a c = Lt.
Proof.
  revert b c. induction a as [|x a IH]; intros [|y b] [|z c]; simpl;
    try done.
  destruct (Ascii.compare x y) eqn:Hxy; try done;
    destruct (Ascii.compare y z) eqn:Hyz; try done; intros H1 H2.
  - apply Ascii.compare_eq_iff in Hxy, Hyz. subst.
    rewrite ascii_compare_refl. by eapply IH.
  - apply Ascii.compare_eq_iff in Hxy. subst. by rewrite Hyz.
  - apply Ascii.compare_eq_iff in Hyz. subst. by rewrite Hxy.
  - by rewrite (ascii_compare_Lt_trans x y z).
Qed.

Lemma string_leb_cases (a b : string) :
  String.leb a b = true ↔ a = b ∨ String.compare a b = Lt.
Proof.
  unfold String.leb. destruct (String.compare a b) eqn:Hc.
  - apply String.compare_eq_iff in Hc. by split; [left|].
  - by split; [right|].
  - split; [done|]. intros [->|?]; [|done].
    by rewrite string_compare_refl in Hc.
Qed.

Lemma string_leb_trans (a b c : string) :
  String.leb a b = true → String.leb b c = true → String.leb a c = true.
Proof.
  rewrite !string_leb_cases. intros [->|H1] [->|H2]; auto.
  right. by eapply string_compare_Lt_trans.
Qed.

Lemma aliases_leb_total (a b : list string) :
  aliases_leb a b = true ∨ aliases_leb b a = true.
Proof.
  revert b. induction a as [|x a IH]; intros [|y b]; simpl; auto.
  rewrite (String.compare_antisym y x).
  destruct (String.compare x y); simpl; auto.
Qed.

Lemma aliases_leb_trans (a b c : list string) :
  aliases_leb a b = true → aliases_leb b c = true → aliases_leb a c = true.
Proof.
  revert b c. induction a as [|x a IH]; intros [|y b] [|z c]; simpl;
    try done.
  destruct (String.compare x y) eqn:Hxy; try done;
    destruct (String.compare y z) eqn:Hyz; try done; intros H1 H2.
  - apply String.compare_eq_iff in Hxy, Hyz. subst.
    rewrite string_compare_refl. by eapply IH.
  - apply String.compare_eq_iff in Hxy. subst. by rewrite Hyz.
  - apply String.compare_eq_iff in Hyz. subst. by rewrite Hxy.
  - by rewrite (string_compare_Lt_trans x y z).
Qed.

Section sorted.
Context {A : Type} (leb : A → A → bool).
Hypothesis leb_total : ∀ x y, leb x y = true ∨ leb y x = true.
Hypothesis leb_trans :
  ∀ x y z, leb x y = true → leb y z = true → leb x z = true.

Lemma sort_insert_sorted x l :
  StronglySorted (fun a b => leb a b = true) l →
  StronglySorted (fun a b => leb a b = true) (sort_insert leb x l).
Proof.
  induction 1 as [|y l Hl IH Hy]; simpl.
  { repeat constructor. }
  destruct (leb x y) eqn:Hxy.
  - constructor; [by constructor|]. constructor; [done|].
    eapply Forall_impl; [exact Hy|]. intros z Hz. by eapply leb_trans.
  - constructor; [done|].
    rewrite sort_insert_Permutation. constructor; [|done].
    destruct (leb_total x y); congruence.
Qed.

Lemma py_sorted_sorted l :
  StronglySorted (fun a b => leb a b = true) (py_sorted leb l).
Proof.
  induction l as [|x l IH]; simpl; [constructor|].
  by apply sort_insert_sorted.
Qed.
End sorted.

(** A sorted list of strings that has no duplicates increases strictly. *)
Lemma sorted_NoDup_strict (l : list string) :
  StronglySorted (fun a b => String.leb a b = true) l → NoDup l →
  StronglySorted (fun a b => String.ltb a b = true) l.
Proof.
  induction 1 as [|x l Hl IH Hx]; intros Hnd; [constructor|].
  apply NoDup_cons in Hnd as [Hnotin Hnd].
  constructor; [by apply IH|].
  apply Forall_forall. intros y Hy.
  rewrite Forall_forall in Hx. specialize (Hx y Hy).
  apply string_leb_cases in Hx as [->|Hlt]; [done|].
  unfold String.ltb. by rewrite Hlt.
Qed.

(** ** [map_variable_stages]: the order and the entries of the lists *)

Lemma var_symbols_stage_entries (d : var_dict) :
  var_symbols (stage_entries d) = py_sorted String.leb (map_to_list d).*1.
Proof.
  unfold stage_entries, var_symbols.
  assert (Hkeys : ∀ symbol, symbol ∈ py_sorted String.leb (map_to_list d).*1
                            → is_Some (d !! symbol)).
  { intros symbol Hin. apply elem_of_py_sorted in Hin.
    apply list_elem_of_fmap in Hin as ([k v] & -> & Hin).
    apply elem_of_map_to_list in Hin. by eexists. }
  induction (py_sorted String.leb (map_to_list d).*1) as [|k l IH];
    [done|].
  destruct (Hkeys k) as [e He]; [by left|].
  simpl. rewrite He. simpl. f_equal. apply IH.
  intros symbol Hin. apply Hkeys. by right.
Qed.

Lemma stage_entries_increasing (d : var_dict) :
  StronglySorted (fun a b => String.ltb a b = true)
    (var_symbols (stage_entries d)).
Proof.
  rewrite var_symbols_stage_entries. apply sorted_NoDup_strict.
  - apply py_sorted_sorted; [apply String.leb_total|apply string_leb_trans].
  - rewrite py_sorted_Permutation. apply NoDup_fst_map_to_list.
Qed.



Section map_variable_stages_entries.
Variable scenariotree_byObject : gmap positive positive.
Variable scenario_tree : ScenarioTree.
Variable secondstage_variables : gset positive.
Variable symbol_map : SymbolMap.
Variable enforce : bool.

Local Abbreviation body := (map_variable_stages_body scenariotree_byObject
  scenario_tree secondstage_variables symbol_map enforce).
Local Abbreviation stid v := (scenariotree_byObject !! var_id v).
Local Abbreviation rule1 := (firststage_rule scenario_tree enforce).
Local Abbreviation rule2 :=
  (secondstage_rule scenario_tree secondstage_variables).

Local Abbreviation entries_sound :=
  (entries_sound scenariotree_byObject scenario_tree secondstage_variables
     symbol_map enforce).

Lemma entries_sound_loop l seen acc acc' :
  entries_sound seen acc → for_each body l acc = Ok acc' →
  entries_sound (seen ++ l) acc'.
Proof.
  revert seen acc. induction l as [|v l IH]; intros seen acc Hacc Hrun.
  { simpl in Hrun. simplify_eq. by rewrite app_nil_r. }
  simpl in Hrun. apply result_bind_Ok in Hrun as (acc1 & Hbody & Hrun).
  replace (seen ++ v :: l) with ((seen ++ [v]) ++ l)
    by (by rewrite <- app_assoc).
  apply (IH _ acc1); [|done]. clear IH Hrun.
  assert (Hseen : ∀ var, var ∈ seen → var ∈ seen ++ [v])
    by (intros; apply elem_of_app; by left).
  assert (Hv : v ∈ seen ++ [v]) by (apply elem_of_app; right; by left).
  pose proof (body_cases scenariotree_byObject scenario_tree
                secondstage_variables symbol_map enforce acc v) as Hc.
  rewrite Hbody in Hc.
  destruct (byObject symbol_map !! var_id v) as [s|] eqn:Hs.
  - destruct (rule1 (stid v)) eqn:H1; [|destruct (rule2 (stid v)) eqn:H2];
      simplify_eq; intros symbol var i; destruct (Hacc symbol var i)
      as [HF HS]; simpl; split.
    + destruct (decide (s = symbol)) as [->|Hne].
      * rewrite lookup_insert_eq. intros ?; simplify_eq. done.
      * rewrite lookup_insert_ne by done. intros Hd.
        destruct (HF Hd) as (? & ?). by auto.
    + intros Hd. destruct (HS Hd) as (? & ?). by auto.
    + intros Hd. destruct (HF Hd) as (? & ?). by auto.
    + destruct (decide (s = symbol)) as [->|Hne].
      * rewrite lookup_insert_eq. intros ?; simplify_eq. done.
      * rewrite lookup_insert_ne by done. intros Hd.
        destruct (HS Hd) as (? & ?). by auto.
  - simplify_eq. intros symbol var i. destruct (Hacc symbol var i)
      as [HF HS]. split; intros Hd.
    + destruct (HF Hd) as (? & ?). by auto.
    + destruct (HS Hd) as (? & ?). by auto.
Qed.
End map_variable_stages_entries.

Lemma map_variable_stages_Ok_entries (model_vars : list VarData)
    (scenariotree_byObject : gmap positive positive)
    (scenario_tree : ScenarioTree) (secondstage_variables : gset positive)
    (symbol_map : SymbolMap) (enforce : bool) (m : StageToVariableMap) :
  map_variable_stages model_vars scenariotree_byObject scenario_tree
    secondstage_variables symbol_map enforce = Ok m →
  (∀ symbol var i, (symbol, var, i) ∈ firststage_vars m →
     var ∈ model_vars ∧ byObject symbol_map !! var_id var = Some symbol
     ∧ i = scenariotree_byObject !! var_id var
     ∧ firststage_rule scenario_tree enforce i = true)
  ∧ (∀ symbol var i, (symbol, var, i) ∈ secondstage_vars m →
     var ∈ model_vars ∧ byObject symbol_map !! var_id var = Some symbol
     ∧ i = scenariotree_byObject !! var_id var
     ∧ firststage_rule scenario_tree enforce i = false
     ∧ secondstage_rule scenario_tree secondstage_variables i = true)
  ∧ (∀ v1 v2, var_in_stage v1 (firststage_vars m) →
       var_in_stage v2 (secondstage_vars m) → var_id v1 ≠ var_id v2).
Proof.
  unfold map_variable_stages. intros Hrun.
  apply result_bind_Ok in Hrun as (acc & Hacc & [= <-]). simpl.
  apply (entries_sound_loop _ _ _ _ _ _ []) in Hacc; last first.
  { intros symbol var i. simpl. rewrite !lookup_empty. by split. }
  simpl in Hacc.
  assert (H1 : ∀ symbol var i, (symbol, var, i) ∈ stage_entries acc.1 →
     var ∈ model_vars ∧ byObject symbol_map !! var_id var = Some symbol
     ∧ i = scenariotree_byObject !! var_id var
     ∧ firststage_rule scenario_tree enforce i = true).
  { intros symbol var i Hin. apply elem_of_stage_entries in Hin.
    by apply Hacc. }
  assert (H2 : ∀ symbol var i, (symbol, var, i) ∈ stage_entries acc.2 →
     var ∈ model_vars ∧ byObject symbol_map !! var_id var = Some symbol
     ∧ i = scenariotree_byObject !! var_id var
     ∧ firststage_rule scenario_tree enforce i = false
     ∧ secondstage_rule scenario_tree secondstage_variables i = true).
  { intros symbol var i Hin. apply elem_of_stage_entries in Hin.
    by apply Hacc. }
  split; [done|]. split; [done|].
  intros v1 v2 (s1 & i1 & Hin1) (s2 & i2 & Hin2) Heq.
  destruct (H1 _ _ _ Hin1) as (_ & _ & -> & Hr1).
  destruct (H2 _ _ _ Hin2) as (_ & _ & -> & Hr2 & _).
  rewrite Heq in Hr1. congruence.
Qed.



(** ** [map_constraint_stages]: what a call that returns has met *)

Lemma reverse_alias_body_fold (bo : gmap positive string) items
    (acc acc' : gmap string (list string)) :
  for_each (reverse_alias_body bo) items acc = Ok acc' →
  (∀ alias obj, (alias, obj) ∈ items →
     ∃ symbol, bo !! obj = Some symbol ∧ is_Some (acc !! symbol))
  ∧ ∀ s, acc' !! s
         = (fun l => l ++ (filter (fun item => bo !! item.2 = Some s)
                                  items).*1) <$> acc !! s.
Proof.
  revert acc. induction items as [|[alias obj] items IH]; intros acc Hrun.
  { simpl in Hrun. simplify_eq. split.
    - intros ?? Hin. by apply elem_of_nil in Hin.
    - intros s. destruct (acc' !! s); simpl; [|done].
      by rewrite app_nil_r. }
  simpl in Hrun. apply result_bind_Ok in Hrun as (acc1 & Hbody & Hrun).
  unfold reverse_alias_body in Hbody. simpl in Hbody.
  apply result_bind_Ok in Hbody as (symbol & Hsym & Hbody).
  apply result_bind_Ok in Hbody as (l & Hl & [= <-]).
  apply getitem_Ok in Hsym, Hl.
  destruct (IH _ Hrun) as [Hitems Hacc']. split.
  - intros a o Hin. apply elem_of_cons in Hin as [[= -> ->]|Hin].
    + exists symbol. split; [done|]. by eexists.
    + destruct (Hitems a o Hin) as (s & Hs & Hsome). exists s.
      split; [done|]. destruct (decide (symbol = s)) as [<-|Hne].
      * by eexists.
      * by rewrite lookup_insert_ne in Hsome.
  - intros s. rewrite Hacc'. destruct (decide (symbol = s)) as [<-|Hne].
    + rewrite lookup_insert_eq, Hl. simpl.
      rewrite filter_cons_True by done. simpl.
      by rewrite <- app_assoc.
    + rewrite lookup_insert_ne by done.
      rewrite filter_cons_False; [done|]. simpl. congruence.
Qed.

(** The table of aliases, when it can be made: every alias names an
    object that has a symbol, and each symbol of [bySymbol] has the sorted
    list of the aliases of its object. *)
Lemma reverse_alias_Ok symbol_map reverse :
  reverse_alias symbol_map = Ok reverse →
  aliases_resolve symbol_map
  ∧ ∀ symbol, reverse !! symbol
      = (fun _ => py_sorted String.leb (aliases_of symbol_map symbol))
        <$> bySymbol symbol_map !! symbol.
Proof.
  unfold reverse_alias. intros Hrun.
  apply result_bind_Ok in Hrun as (acc & Hacc & [= <-]).
  apply reverse_alias_body_fold in Hacc as [Hitems Hacc]. split.
  - intros alias obj Hin. destruct (Hitems alias obj Hin) as (s & Hs & Hsome).
    exists s. split; [done|]. rewrite lookup_fmap in Hsome.
    by apply fmap_is_Some in Hsome.
  - intros symbol. rewrite lookup_fmap, Hacc, lookup_fmap.
    by destruct (bySymbol symbol_map !! symbol).
Qed.

Section map_constraint_stages_returns.
Variable st : ModelState.
Variable symbol_map : SymbolMap.
Variable stoch first second : gset positive.
Variable reverse : gmap string (list string).

Local Abbreviation step :=
  (map_constraint_stages_con symbol_map stoch first second reverse).
Local Abbreviation named := (entries_named symbol_map reverse).

Lemma step_named acc con acc' :
  step acc con = Ok acc' →
  ∃ new1 new2,
    firststage_cons acc' = firststage_cons acc ++ new1
    ∧ secondstage_cons acc' = secondstage_cons acc ++ new2
    ∧ new1.*2 ++ new2.*2 ≡ₚ [con] ∧ named (new1 ++ new2).
Proof.
  unfold map_constraint_stages_con. intros Hstep.
  apply result_bind_Ok in Hstep as (symbol & Hsym & Hstep).
  apply result_bind_Ok in Hstep as (aliases & Hal & Hstep).
  apply result_bind_Ok in Hstep as ([] & Hlen & Hstep).
  apply result_bind_Ok in Hstep as (b & _ & Hstep).
  apply getitem_Ok in Hsym, Hal. apply py_assert_Ok in Hlen.
  apply bool_decide_eq_true_1 in Hlen.
  assert (Hnamed : named [(aliases, con)]).
  { intros a c Hin. apply list_elem_of_singleton in Hin as [= -> ->].
    by exists symbol. }
  destruct b; simplify_eq; simpl.
  - exists [], [(aliases, con)]. by rewrite app_nil_r.
  - exists [(aliases, con)], []. by rewrite app_nil_r.
Qed.

Lemma cons_named cons acc acc' :
  for_each step cons acc = Ok acc' →
  ∃ new1 new2,
    firststage_cons acc' = firststage_cons acc ++ new1
    ∧ secondstage_cons acc' = secondstage_cons acc ++ new2
    ∧ new1.*2 ++ new2.*2 ≡ₚ cons ∧ named (new1 ++ new2).
Proof.
  revert acc. induction cons as [|con cons IH]; intros acc Hrun.
  { simpl in Hrun. simplify_eq. exists [], []. rewrite !app_nil_r.
    repeat split; try done. intros ?? Hin. by apply elem_of_nil in Hin. }
  simpl in Hrun. apply result_bind_Ok in Hrun as (acc1 & Hstep & Hrun).
  apply step_named in Hstep as (a1 & a2 & H1 & H2 & Hp & Hn).
  apply IH in Hrun as (b1 & b2 & H1' & H2' & Hp' & Hn').
  exists (a1 ++ b1), (a2 ++ b2). rewrite H1', H2', H1, H2, !app_assoc.
  split; [done|]. split; [done|]. split.
  - rewrite !fmap_app. change (con :: cons) with ([con] ++ cons).
    rewrite <- Hp, <- Hp'.
    rewrite <- !app_assoc. apply Permutation_app_head.
    rewrite !app_assoc. apply Permutation_app_tail, Permutation_app_comm.
  - intros a c Hin. rewrite !elem_of_app in Hin.
    assert ((a, c) ∈ a1 ++ a2 ∨ (a, c) ∈ b1 ++ b2) as [Hin'|Hin']
      by (rewrite !elem_of_app; tauto); [by apply Hn|by apply Hn'].
Qed.

Lemma blocks_named blocks acc acc' :
  for_each (map_constraint_stages_block st symbol_map stoch first second
              reverse) blocks acc = Ok acc' →
  blocks_preprocessed st blocks
  ∧ ∃ new1 new2,
      firststage_cons acc' = firststage_cons acc ++ new1
      ∧ secondstage_cons acc' = secondstage_cons acc ++ new2
      ∧ new1.*2 ++ new2.*2 ≡ₚ active_constraints blocks
      ∧ named (new1 ++ new2).
Proof.
  revert acc. induction blocks as [|block blocks IH]; intros acc Hrun.
  { simpl in Hrun. simplify_eq. split.
    - intros ? Hin. by apply elem_of_nil in Hin.
    - exists [], []. rewrite !app_nil_r. repeat split; try done.
      intros ?? Hin. by apply elem_of_nil in Hin. }
  simpl in Hrun. apply result_bind_Ok in Hrun as (acc1 & Hblock & Hrun).
  unfold map_constraint_stages_block in Hblock.
  destruct (block_sos block) eqn:Hsos; [|done].
  destruct (_canonical_repn (attrs_of st (block_id block))) eqn:Hrepn;
    [|done].
  apply cons_named in Hblock as (a1 & a2 & H1 & H2 & Hp & Hn).
  apply IH in Hrun as (Hpre & b1 & b2 & H1' & H2' & Hp' & Hn'). split.
  - intros b Hin. apply elem_of_cons in Hin as [->|Hin]; [|by apply Hpre].
    split; [done|]. rewrite Hrepn. by eexists.
  - exists (a1 ++ b1), (a2 ++ b2). rewrite H1', H2', H1, H2, !app_assoc.
    split; [done|]. split; [done|]. split.
    + unfold active_constraints. rewrite fmap_cons. simpl.
      fold (active_constraints blocks).
      rewrite !fmap_app, <- Hp, <- Hp'.
      rewrite <- !app_assoc. apply Permutation_app_head.
      rewrite !app_assoc. apply Permutation_app_tail, Permutation_app_comm.
    + intros a c Hin. rewrite !elem_of_app in Hin.
      assert ((a, c) ∈ a1 ++ a2 ∨ (a, c) ∈ b1 ++ b2) as [Hin'|Hin']
        by (rewrite !elem_of_app; tauto); [by apply Hn|by apply Hn'].
Qed.
End map_constraint_stages_returns.

(** A call of [map_constraint_stages] that returns, taken apart. *)
Lemma map_constraint_stages_inv st blocks symbol_map stoch first second m :
  map_constraint_stages st blocks symbol_map stoch first second = Ok m →
  ∃ reverse acc,
    reverse_alias symbol_map = Ok reverse
    ∧ blocks_preprocessed st blocks
    ∧ (firststage_cons acc).*2 ++ (secondstage_cons acc).*2
      ≡ₚ active_constraints blocks
    ∧ entries_named symbol_map reverse
        (firststage_cons acc ++ secondstage_cons acc)
    ∧ firststage_cons m = py_sorted by_aliases (firststage_cons acc)
    ∧ secondstage_cons m = py_sorted by_aliases (secondstage_cons acc).
Proof.
  unfold map_constraint_stages. intros Hrun.
  apply result_bind_Ok in Hrun as (reverse & Hrev & Hrun).
  apply result_bind_Ok in Hrun as (acc & Hacc & [= <-]).
  apply blocks_named in Hacc as (Hpre & n1 & n2 & H1 & H2 & Hp & Hn).
  cbn in H1, H2. subst n1 n2. exists reverse, acc.
  split; [done|]. split; [done|]. split; [done|]. split; [done|]. done.
Qed.



Lemma entries_named_aliases symbol_map reverse entries aliases con :
  reverse_alias symbol_map = Ok reverse →
  entries_named symbol_map reverse entries →
  (aliases, con) ∈ entries →
  aliases ≠ []
  ∧ ∃ symbol, byObject symbol_map !! con_id con = Some symbol
      ∧ aliases = py_sorted String.leb (aliases_of symbol_map symbol).
Proof.
  intros Hrev Hnamed Hin.
  destruct (Hnamed _ _ Hin) as (symbol & Hsym & Hal & Hlen).
  apply reverse_alias_Ok in Hrev as [_ Hrev]. rewrite Hrev in Hal.
  split; [by destruct aliases; simpl in Hlen; [lia|]|].
  exists symbol. split; [done|].
  destruct (bySymbol symbol_map !! symbol); by simplify_eq/=.
Qed.





(** ** The ordering maps *)

Lemma number_from_spec ids order n :
  NoDup ids →
  (number_from order n ids).2 = (n + length ids)%nat
  ∧ (∀ k i, ids !! k = Some i →
       (number_from order n ids).1 !! i = Some (n + k)%nat)
  ∧ (∀ i, i ∉ ids → (number_from order n ids).1 !! i = order !! i)
  ∧ dom (number_from order n ids).1 = dom order ∪ list_to_set ids.
Proof.
  unfold number_from. revert order n.
  induction ids as [|j ids IH]; intros order n Hnd; simpl.
  { split; [lia|]. split; [done|]. split; [done|]. set_solver. }
  apply NoDup_cons in Hnd as [Hnotin Hnd].
  destruct (IH (<[j := n]> order) (S n) Hnd) as (Hn & Hpos & Hout & Hdom).
  split; [rewrite Hn; lia|]. split; [|split].
  - intros [|k] i Hk; simpl in Hk.
    + simplify_eq. rewrite (Hout i Hnotin), lookup_insert_eq.
      f_equal. lia.
    + rewrite (Hpos k i Hk). f_equal. lia.
  - intros i Hi. apply not_elem_of_cons in Hi as [Hne Hi].
    rewrite (Hout i Hi). by rewrite lookup_insert_ne.
  - rewrite Hdom, dom_insert_L. set_solver.
Qed.

(** Two loops in a row, the second one from [len(order)]: an object is
    numbered by its place in the two lists put end to end. *)
Lemma number_twice ids1 ids2 k i :
  NoDup (ids1 ++ ids2) → (ids1 ++ ids2) !! k = Some i →
  (number_from (number_from ∅ 0 ids1).1 (size (number_from ∅ 0 ids1).1)
     ids2).1 !! i = Some k.
Proof.
  intros Hnd Hk. apply NoDup_app in Hnd as (Hnd1 & Hdisj & Hnd2).
  destruct (number_from_spec ids1 ∅ 0 Hnd1) as (_ & Hpos1 & _ & Hdom1).
  assert (Hsize : size (number_from ∅ 0 ids1).1 = length ids1).
  { rewrite <- size_dom, Hdom1, dom_empty_L, (left_id_L ∅ (∪)).
    by apply size_list_to_set. }
  rewrite Hsize.
  destruct (number_from_spec ids2 (number_from ∅ 0 ids1).1 (length ids1)
              Hnd2) as (_ & Hpos2 & Hout2 & _).
  apply lookup_app_Some in Hk as [Hk|[Hlen Hk]].
  - rewrite Hout2; [by apply Hpos1|].
    apply Hdisj. by eapply list_elem_of_lookup_2.
  - rewrite (Hpos2 _ _ Hk). f_equal. lia.
Qed.

Lemma column_order_loop_number entries acc acc' :
  for_each column_order_body entries acc = Ok acc' →
  acc' = number_from acc.1 acc.2 ((fun e => var_id e.1.2) <$> entries).
Proof.
  revert acc. induction entries as [|entry entries IH]; intros acc H.
  { simpl in H. simplify_eq. by destruct acc'. }
  simpl in H. apply result_bind_Ok in H as (acc1 & Hbody & H).
  apply column_order_body_Ok in Hbody as [_ ->].
  by rewrite (IH _ H).
Qed.

Lemma row_order_loop_number entries acc :
  foldl row_order_body acc entries
  = number_from acc.1 acc.2 ((fun e => con_id e.2) <$> entries).
Proof.
  revert acc. induction entries as [|entry entries IH]; intros acc.
  { by destruct acc. }
  simpl. by rewrite IH.
Qed.

Lemma NoDup_fmap_inj_on {A B} (g : A → B) (l : list A) x y :
  NoDup (g <$> l) → x ∈ l → y ∈ l → g x = g y → x = y.
Proof.
  induction l as [|a l IH]; intros Hnd Hx Hy Heq.
  { by apply elem_of_nil in Hx. }
  rewrite fmap_cons in Hnd. apply NoDup_cons in Hnd as [Hnotin Hnd].
  apply elem_of_cons in Hx as [->|Hx], Hy as [->|Hy]; [done| | |by apply IH].
  - exfalso. apply Hnotin. rewrite Heq. by apply list_elem_of_fmap_2.
  - exfalso. apply Hnotin. rewrite <- Heq. by apply list_elem_of_fmap_2.
Qed.

(** The variables of the two stage lists are different objects. *)
Lemma map_variable_stages_ids_NoDup model_vars stmap tree leaf sm enforce m :
  map_variable_stages model_vars stmap tree leaf sm enforce = Ok m →
  NoDup ((fun e => var_id e.1.2)
           <$> (firststage_vars m ++ secondstage_vars m)).
Proof.
  intros Hrun.
  destruct (map_variable_stages_Ok_entries _ _ _ _ _ _ _ Hrun)
    as (H1 & H2 & Hdisj).
  unfold map_variable_stages in Hrun.
  apply result_bind_Ok in Hrun as (acc & _ & [= <-]). simpl in *.
  assert (Hnd : ∀ d : var_dict, NoDup (var_symbols (stage_entries d))).
  { intros d. rewrite var_symbols_stage_entries, py_sorted_Permutation.
    apply NoDup_fst_map_to_list. }
  assert (Hlist : ∀ d : var_dict,
            (∀ symbol var i, (symbol, var, i) ∈ stage_entries d →
               byObject sm !! var_id var = Some symbol) →
            NoDup ((fun e => var_id e.1.2) <$> stage_entries d)).
  { intros d Hd. apply NoDup_fmap_2_strong.
    - intros [[s1 v1] i1] [[s2 v2] i2] Hin1 Hin2 Heq. simpl in Heq.
      apply (NoDup_fmap_inj_on (fun e => e.1.1) (stage_entries d));
        [apply Hnd|done|done|]. simpl.
      pose proof (Hd _ _ _ Hin1) as Hs1. pose proof (Hd _ _ _ Hin2) as Hs2.
      rewrite Heq in Hs1. congruence.
    - eapply (NoDup_fmap_1 (fun e => e.1.1)). apply Hnd. }
  rewrite fmap_app. apply NoDup_app. split; [|split].
  - apply Hlist. intros ??? Hin. by apply H1 in Hin as (_ & ? & _).
  - intros i Hin1 Hin2.
    apply list_elem_of_fmap in Hin1 as ([[s1 v1] i1] & -> & Hin1).
    apply list_elem_of_fmap in Hin2 as ([[s2 v2] i2] & Heq & Hin2).
    simpl in Heq. apply (Hdisj v1 v2); [by exists s1, i1|by exists s2, i2|].
    done.
  - apply Hlist. intros ??? Hin. by apply H2 in Hin as (_ & ? & _).
Qed.





(** * Further properties of the conversion of a scenario *)

(** ** Computations that leave a part of the state as it is *)

Lemma preserves_ret {B} (proj : State → B) {A} (a : A) :
  preserves proj (ret a).
Proof. done. Qed.

Lemma preserves_raise {B} (proj : State → B) {A} e :
  preserves proj (@raise A e).
Proof. done. Qed.

Lemma preserves_lift {B} (proj : State → B) {A} (r : result A) :
  preserves proj (lift r).
Proof. done. Qed.

Lemma preserves_m_assert {B} (proj : State → B) b :
  preserves proj (m_assert b).
Proof. done. Qed.

Lemma preserves_get_model {B} (proj : State → B) : preserves proj get_model.
Proof. done. Qed.

Lemma preserves_bind {B} (proj : State → B) {A C} (m : M A) (k : A → M C) :
  preserves proj m → (∀ a, preserves proj (k a)) → preserves proj (bind m k).
Proof.
  intros Hm Hk s. unfold bind. specialize (Hm s).
  destruct (m s) as [[a|e] s1]; simpl in *; [|done].
  by rewrite Hk.
Qed.

Lemma preserves_m_for_each {B} (proj : State → B) {A} (body : A → M unit) l :
  (∀ x, preserves proj (body x)) → preserves proj (m_for_each body l).
Proof.
  intros Hbody. induction l as [|x l IH]; simpl; [apply preserves_ret|].
  apply preserves_bind; [done|]. by intros [].
Qed.

Lemma preserves_m_fold {B} (proj : State → B) {A C} (body : C → A → M C)
    l acc :
  (∀ acc x, preserves proj (body acc x)) →
  preserves proj (m_fold body l acc).
Proof.
  intros Hbody. revert acc.
  induction l as [|x l IH]; intros acc; simpl; [apply preserves_ret|].
  by apply preserves_bind.
Qed.

Lemma preserves_set_files {B} (g : ModelState → B) f :
  preserves (fun s => g (model s)) (set_files f).
Proof. done. Qed.

Lemma preserves_set_model {B} (g : ModelState → B) f :
  (∀ st, g (f st) = g st) → preserves (fun s => g (model s)) (set_model f).
Proof. intros Hf s. simpl. apply Hf. Qed.

Lemma preserves_files_set_model f : preserves files (set_model f).
Proof. done. Qed.

Lemma preserves_files_call_writer writer file_format output_filename
    io_options :
  preserves files (call_writer writer file_format output_filename io_options).
Proof. intros s. unfold call_writer. by destruct (writer _ _ _ _). Qed.

Lemma preserves_run {B} (proj : State → B) {A} (m : M A) s r s' :
  preserves proj m → m s = (r, s') → proj s' = proj s.
Proof. intros Hp Hrun. specialize (Hp s). by rewrite Hrun in Hp. Qed.

Create HintDb preserves.
#[export] Hint Resolve preserves_ret preserves_raise preserves_lift
  preserves_m_assert preserves_get_model preserves_files_set_model
  preserves_files_call_writer : preserves.

(** Takes a computation apart along its binds and its case analyses. *)
Ltac preserves_step :=
  match goal with
  | |- preserves _ (bind _ _) => apply preserves_bind; [|intros ?]
  | |- preserves _ (m_for_each _ _) => apply preserves_m_for_each; intros ?
  | |- preserves _ (m_fold _ _ _) => apply preserves_m_fold; intros ? ?
  | |- preserves (fun s => _ (model s)) (f_write _ _) =>
      apply preserves_set_files
  | |- preserves (fun s => _ (model s)) (f_open _) =>
      apply preserves_set_files
  | |- preserves (fun s => _ (model s)) sto_open =>
      apply preserves_set_files
  | |- preserves (fun s => _ (model s)) (sto_write _) =>
      apply preserves_set_files
  | |- preserves (fun s => _ (model s)) (set_model _) =>
      apply preserves_set_model; intros ?; reflexivity
  | |- preserves _ (match ?x with _ => _ end) => destruct x
  | |- preserves _ _ => solve [auto with preserves]
  end.

Ltac solve_preserves := repeat preserves_step.

Lemma get_repn_state cache block key s r s' :
  get_repn cache block key s = (r, s') → s' = s.
Proof.
  unfold get_repn, bind, lift, get_model. intros H.
  destruct (getitem cache block); [|by simplify_eq].
  destruct (getitem (st_heap (model s)) _); [|by simplify_eq].
  by simplify_eq.
Qed.

Lemma preserves_files_cache_canonical_repn cache block :
  preserves files (cache_canonical_repn cache block).
Proof. unfold cache_canonical_repn, set_attrs. solve_preserves. Qed.

Lemma state_eta (s : State) : s = {| model := model s; files := files s |}.
Proof. by destruct s. Qed.

(** ** A conversion that returns, step by step *)

Lemma set_name_run name s :
  set_name name s
  = (Ok tt, {| model := with_name name (model s); files := files s |}).
Proof. done. Qed.

Lemma without_cleanup_steps writer scenario_tree scenario output_directory
    basename file_format enforce io_options s counts s' :
  _convert_external_setup_without_cleanup writer scenario_tree scenario
    output_directory basename file_format enforce io_options s
  = (Ok counts, s') →
  ∃ t cache s5 s6 s7 loc s8 sm3 st11,
    traces writer scenario_tree scenario output_directory basename
      file_format enforce io_options (model s) t
    ∧ io_column_order io_options = None
    ∧ io_row_order io_options = None
    ∧ m_fold cache_canonical_repn (model_blocks (_instance scenario)) ∅
        {| model := t_setup_state t; files := files s |}
      = (Ok cache, {| model := t_cached_state t; files := files s |})
    ∧ write_col_file (t_vars t) {| model := t_state t; files := files s |}
      = (Ok (firststage_variable_count counts,
             secondstage_variable_count counts), s5)
    ∧ write_row_file (t_symbols t) (t_objective t) (t_cons t) s5
      = (Ok (firststage_constraint_count counts,
             secondstage_constraint_count counts), s6)
    ∧ write_tim_file basename file_format (t_symbols t) (t_objective t)
        (t_vars t) (t_cons t) s6 = (Ok tt, s7)
    ∧ write_sto_files cache (make_constraint_symbols (t_cons t))
        (con_ids (secondstage_cons (t_setup_cons t))) (t_column_order t)
        (t_symbols t) (probability scenario) (t_annotations t)
        (t_objective t) s7 = (Ok loc, s8)
    ∧ writer file_format
        (det_filename output_directory basename file_format
           (scenario_name scenario))
        {| io_column_order := Some (t_column_order t);
           io_row_order := Some (make_row_order (t_setup_cons t));
           io_force_objective_constant := Some true |}
        (with_name "ZeroStochasticData" (model s8))
      = (Ok (det_filename output_directory basename file_format
               (scenario_name scenario), sm3), st11)
    ∧ s' = reset_bounds loc
             {| model := with_name (st_name (model s8)) st11;
                files := files s8 |}
    ∧ cost_count counts = stochastic_cost_count loc
    ∧ rhs_count counts = stochastic_rhs_count loc
    ∧ matrix_count counts = stochastic_matrix_count loc.
Proof.
  unfold _convert_external_setup_without_cleanup. intros H.
  apply bind_Ok in H as (annotations & s1 & Hann & H).
  apply lift_Ok in Hann as [Hann ->].
  apply bind_Ok in H as (st & s1 & Hst & H).
  apply get_model_Ok in Hst as [-> ->].
  apply bind_Ok in H as ([] & s1 & Has & H).
  apply m_assert_Ok in Has as [_ ->].
  apply bind_Ok in H as ([] & s1 & Has & H).
  apply m_assert_Ok in Has as [Hcol ->].
  apply bind_Ok in H as ([] & s1 & Has & H).
  apply m_assert_Ok in Has as [Hrow ->].
  apply bind_Ok in H as (sm1 & s1 & Hw1 & H).
  apply write_core_Ok in Hw1 as [Hw1 Hf1].
  apply bind_Ok in H as (st & s2 & Hst & H).
  apply get_model_Ok in Hst as [-> ->].
  apply bind_Ok in H as ([] & s2 & Has & H).
  apply m_assert_Ok in Has as [_ ->].
  apply bind_Ok in H as (vm1 & s2 & Hvm1 & H).
  apply lift_Ok in Hvm1 as [Hvm1 ->].
  apply bind_Ok in H as (st & s2 & Hst & H).
  apply get_model_Ok in Hst as [-> ->].
  apply bind_Ok in H as (cm1 & s2 & Hcm1 & H).
  apply lift_Ok in Hcm1 as [Hcm1 ->].
  apply bind_Ok in H as (cache & s2 & Hcache & H).
  assert (Hf2 : files s2 = files s1).
  { eapply (preserves_run files); [|exact Hcache].
    apply preserves_m_fold. intros. apply preserves_files_cache_canonical_repn. }
  apply bind_Ok in H as (o' & s3 & Hobj & H).
  destruct (_instance_objective scenario) as [o|] eqn:Ho; [|done].
  injection Hobj as <- <-.
  apply bind_Ok in H as (orepn & s3 & Hrepn & H).
  apply get_repn_state in Hrepn as ->.
  apply bind_Ok in H as (column_order & s4 & Hco & H).
  apply lift_Ok in Hco as [Hco ->].
  apply bind_Ok in H as ([] & s4 & Has & H).
  apply m_assert_Ok in Has as [_ ->].
  apply bind_Ok in H as ([] & s4 & Has & H).
  apply m_assert_Ok in Has as [_ ->].
  apply bind_Ok in H as (sm2 & s4 & Hw2 & H).
  apply write_core_Ok in Hw2 as [Hw2 Hf4].
  apply bind_Ok in H as (vm2 & s5 & Hvm2 & H).
  apply lift_Ok in Hvm2 as [Hvm2 ->].
  apply bind_Ok in H as (st & s5 & Hst & H).
  apply get_model_Ok in Hst as [-> ->].
  apply bind_Ok in H as (cm2 & s5 & Hcm2 & H).
  apply lift_Ok in Hcm2 as [Hcm2 ->].
  apply bind_Ok in H as ([v1 v2] & s5 & Hcolf & H).
  apply bind_Ok in H as ([n1 n2] & s6 & Hrowf & H).
  pose proof Hrowf as Hrow'.
  apply write_row_file_Ok in Hrow' as (osym & Hosym & _).
  apply bind_Ok in H as ([] & s7 & Htim & H).
  apply bind_Ok in H as (loc & s8 & Hsto & H).
  apply bind_Ok in H as (st & s9 & Hst & H).
  apply get_model_Ok in Hst as [-> ->].
  apply bind_Ok in H as ([] & s10 & Hn1 & H).
  rewrite set_name_run in Hn1. injection Hn1 as <-.
  apply bind_Ok in H as (sm3 & s11 & Hw3 & H).
  apply write_core_Ok in Hw3 as [Hw3 Hf11]. simpl in Hw3, Hf11.
  apply bind_Ok in H as ([] & s12 & Hn2 & H).
  rewrite set_name_run in Hn2. injection Hn2 as <-.
  apply bind_Ok in H as ([] & s13 & Hl & H).
  apply bind_Ok in H as ([] & s14 & Hu & H).
  injection H as <- <-.
  exists {| t_annotations := annotations; t_setup_symbols := sm1;
            t_setup_state := model s1; t_setup_vars := vm1;
            t_setup_cons := cm1; t_column_order := column_order;
            t_cached_state := model s2; t_symbols := sm2;
            t_state := model s4; t_vars := vm2; t_cons := cm2;
            t_objective := o; t_objective_symbol := osym |}.
  exists cache, s5, s6, s7, loc, s8, sm3, (model s11). simpl.
  split; [by repeat split|].
  split; [by destruct (io_column_order io_options)|].
  split; [by destruct (io_row_order io_options)|].
  assert (Hs1 : {| model := model s1; files := files s |} = s1)
    by (destruct s1; simpl in *; congruence).
  assert (Hs2 : {| model := model s2; files := files s |} = s2)
    by (destruct s2; simpl in *; congruence).
  assert (Hs4 : {| model := model s4; files := files s |} = s4)
    by (destruct s4; simpl in *; congruence).
  rewrite Hs1, Hs2, Hs4.
  split; [done|]. split; [done|].
  split; [done|]. split; [done|]. split; [done|]. split; [done|].
  split; [|done].
  unfold reset_bounds. rewrite Hf11 in Hl. rewrite Hl. cbn [snd].
  by rewrite Hu.
Qed.

(** ** The [.tim] file *)

Lemma f_write_Ok name chunk s u s' :
  f_write name chunk s = (Ok u, s') →
  s' = {| model := model s;
          files := with_text name (fun old => old +:+ chunk) (files s) |}.
Proof. by intros [= <-]. Qed.

Lemma f_open_Ok name s u s' :
  f_open name s = (Ok u, s') →
  s' = {| model := model s;
          files := with_text name (fun _ => "") (files s) |}.
Proof. by intros [= <-]. Qed.

Lemma write_tim_lines_Ok symbols period s u s' :
  write_tim_lines symbols period s = (Ok u, s') →
  model s' = model s
  ∧ f_tim (files s')
    = f_tim (files s)
      +:+ unlines ((fun symbol => tim_entry symbol period) <$> symbols).
Proof.
  unfold write_tim_lines. revert s.
  induction symbols as [|symbol symbols IH]; intros s H.
  { unfold m_for_each, ret in H. simplify_eq. split; [done|].
    change (unlines _) with "".
    by rewrite append_empty_r. }
  simpl in H. apply bind_Ok in H as ([] & s1 & Hw & H).
  apply f_write_Ok in Hw as ->. apply IH in H as [-> ->].
  cbn [files f_tim with_text model]. split; [done|].
  rewrite fmap_cons, unlines_cons. unfold tim_line, tim_entry.
  by rewrite !append_assoc.
Qed.

Lemma write_tim_file_lp_Ok basename sm obj vm cm s u s' :
  write_tim_file basename lp sm obj vm cm s = (Ok u, s') →
  ∃ osym, byObject sm !! obj_id obj = Some osym
    ∧ f_tim (files s')
      = unlines
          (["TIME " +:+ basename; "PERIODS EXPLICIT"; "    TIME1";
            "    TIME2"; "ROWS"; tim_entry osym "TIME1"]
           ++ ((fun symbol => tim_entry symbol "TIME1")
                 <$> con_symbols (firststage_cons cm))
           ++ ((fun symbol => tim_entry symbol "TIME2")
                 <$> con_symbols (secondstage_cons cm))
           ++ [tim_entry "c_e_ONE_VAR_CONSTANT" "TIME2"; "COLS"]
           ++ ((fun symbol => tim_entry symbol "TIME1")
                 <$> var_symbols (firststage_vars vm))
           ++ ((fun symbol => tim_entry symbol "TIME2")
                 <$> var_symbols (secondstage_vars vm))
           ++ [tim_entry "ONE_VAR_CONSTANT" "TIME2"; "ENDATA"]).
Proof.
  unfold write_tim_file. intros H.
  apply bind_Ok in H as ([] & s1 & Hs1 & H). apply f_open_Ok in Hs1.
  apply bind_Ok in H as ([] & s2 & Hs2 & H). apply f_write_Ok in Hs2.
  apply bind_Ok in H as ([] & s3 & Hbody & H). apply f_write_Ok in H.
  apply bind_Ok in Hbody as ([] & t1 & Ht1 & Hbody). apply f_write_Ok in Ht1.
  apply bind_Ok in Hbody as ([] & t2 & Ht2 & Hbody). apply f_write_Ok in Ht2.
  apply bind_Ok in Hbody as ([] & t3 & Ht3 & Hbody). apply f_write_Ok in Ht3.
  apply bind_Ok in Hbody as ([] & t4 & Ht4 & Hbody). apply f_write_Ok in Ht4.
  apply bind_Ok in Hbody as (osym & t5 & Ht5 & Hbody).
  apply lift_Ok in Ht5 as [Hosym ->]. apply getitem_Ok in Hosym.
  apply bind_Ok in Hbody as ([] & t6 & Ht6 & Hbody). apply f_write_Ok in Ht6.
  apply bind_Ok in Hbody as ([] & t7 & Ht7 & Hbody).
  apply write_tim_lines_Ok in Ht7 as [Hm7 Ht7].
  apply bind_Ok in Hbody as ([] & t8 & Ht8 & Hbody).
  apply write_tim_lines_Ok in Ht8 as [Hm8 Ht8].
  apply bind_Ok in Hbody as ([] & t9 & Ht9 & Hbody). apply f_write_Ok in Ht9.
  apply bind_Ok in Hbody as ([] & t10 & Ht10 & Hbody).
  apply f_write_Ok in Ht10.
  apply bind_Ok in Hbody as ([] & t11 & Ht11 & Hbody).
  apply write_tim_lines_Ok in Ht11 as [Hm11 Ht11].
  apply bind_Ok in Hbody as ([] & t12 & Ht12 & Hbody).
  apply write_tim_lines_Ok in Ht12 as [Hm12 Ht12].
  apply f_write_Ok in Hbody.
  exists osym. split; [done|]. subst s' s3 t10 t9 t6 t4 t3 t2 t1 s2 s1.
  cbn [files f_tim with_text model] in *.
  rewrite Ht12, Ht11, Ht8, Ht7.
  rewrite !unlines_app, !unlines_cons. unfold tim_line, tim_entry.
  change ("" +:+ ?x) with x.
  rewrite !append_assoc. simpl.
  repeat (change ("" +:+ ?x) with x). by rewrite ?append_empty_r.
Qed.

Lemma first_item_Ok {A} (l : list A) x :
  first_item l = Ok x ↔ head l = Some x.
Proof. destruct l; simpl; split; congruence. Qed.

Lemma ret_Ok {A} (a : A) s b s' : ret a s = (Ok b, s') ↔ b = a ∧ s' = s.
Proof. unfold ret. split; [by intros [= <- <-]|by intros [-> ->]]. Qed.

Lemma write_tim_file_mps_Ok basename sm obj vm cm s u s' :
  write_tim_file basename mps sm obj vm cm s = (Ok u, s') →
  ∃ osym first_var first_con row second_var,
    byObject sm !! obj_id obj = Some osym
    ∧ head (firststage_vars vm) = Some first_var
    ∧ head (secondstage_cons cm) = Some first_con
    ∧ stage2_row_start first_con.1 = Some row
    ∧ (if (length first_con.1 =? 1)%nat
       then starts_with row "c_e_" || starts_with row "c_l_"
            || starts_with row "c_u_"
       else starts_with row "r_l_" || starts_with row "r_u_") = true
    ∧ head (secondstage_vars vm) = Some second_var
    ∧ f_tim (files s')
      = unlines (tim_lines_implicit basename first_var.1.1 osym
                   second_var.1.1 row).
Proof.
  unfold write_tim_file. intros H.
  apply bind_Ok in H as ([] & s1 & Hs1 & H). apply f_open_Ok in Hs1.
  apply bind_Ok in H as ([] & s2 & Hs2 & H). apply f_write_Ok in Hs2.
  apply bind_Ok in H as ([] & s3 & Hbody & H). apply f_write_Ok in H.
  apply bind_Ok in Hbody as ([] & t1 & Ht1 & Hbody). apply f_write_Ok in Ht1.
  apply bind_Ok in Hbody as (first_var & t2 & Ht2 & Hbody).
  apply lift_Ok in Ht2 as [Hfirst ->]. apply first_item_Ok in Hfirst.
  apply bind_Ok in Hbody as (osym & t2 & Ht2 & Hbody).
  apply lift_Ok in Ht2 as [Hosym ->]. apply getitem_Ok in Hosym.
  apply bind_Ok in Hbody as ([] & t2 & Ht2 & Hbody). apply f_write_Ok in Ht2.
  apply bind_Ok in Hbody as (first_con & t3 & Ht3 & Hbody).
  apply lift_Ok in Ht3 as [Hcon ->]. apply first_item_Ok in Hcon.
  apply bind_Ok in Hbody as (row & t3 & Hrow & Hbody).
  assert (Hrow' : t3 = t2 ∧ stage2_row_start first_con.1 = Some row
            ∧ (if (length first_con.1 =? 1)%nat
               then starts_with row "c_e_" || starts_with row "c_l_"
                    || starts_with row "c_u_"
               else starts_with row "r_l_" || starts_with row "r_u_")
              = true).
  { unfold stage2_row_start.
    destruct (length first_con.1 =? 1)%nat.
    - apply bind_Ok in Hrow as (symbol0 & t4 & Ht4 & Hrow).
      apply lift_Ok in Ht4 as [Hsym ->]. apply first_item_Ok in Hsym.
      apply bind_Ok in Hrow as ([] & t4 & Ht4 & Hrow).
      apply m_assert_Ok in Ht4 as [Hpre ->].
      apply ret_Ok in Hrow as [-> ->]. done.
    - apply bind_Ok in Hrow as (symbol0 & t4 & Ht4 & Hrow).
      apply lift_Ok in Ht4 as [Hsym ->]. apply first_item_Ok in Hsym.
      apply bind_Ok in Hrow as ([] & t4 & Ht4 & Hrow).
      apply m_assert_Ok in Ht4 as [Hpre ->].
      apply ret_Ok in Hrow as [-> ->]. done. }
  destruct Hrow' as (-> & Hstart & Hprefix). clear Hrow.
  apply bind_Ok in Hbody as (second_var & t3 & Ht3 & Hbody).
  apply lift_Ok in Ht3 as [Hsecond ->]. apply first_item_Ok in Hsecond.
  apply bind_Ok in Hbody as ([] & t3 & Ht3 & Hbody).
  apply f_write_Ok in Hbody.
  exists osym, first_var, first_con, row, second_var.
  do 6 (split; [done|]).
  unfold tim_lines_implicit, stage2_column_start.
  destruct (0 <? String.length second_var.1.1)%nat;
    apply f_write_Ok in Ht3; subst s' s3 t3 t2 t1 s2 s1;
    cbn [files f_tim with_text model]; rewrite !unlines_cons;
    change (unlines []) with ""; change ("" +:+ ?x) with x;
    rewrite !append_assoc; simpl; by rewrite ?append_empty_r.
Qed.

Lemma files_reset_bounds loc s : files (reset_bounds loc s) = files s.
Proof.
  unfold reset_bounds.
  assert (H : ∀ (set : ConstraintData → option Z → M unit) l,
            (∀ con v, preserves files (set con v)) →
            preserves files
              (m_for_each (fun item : ConstraintData * option Z =>
                             set item.1 item.2) l)).
  { intros set l Hset. apply preserves_m_for_each. intros x. apply Hset. }
  rewrite (H set_upper); [|intros; apply preserves_files_set_model].
  rewrite (H set_lower); [|intros; apply preserves_files_set_model].
  done.
Qed.

(** The text of [.tim] once the conversion proper has returned. *)
Lemma without_cleanup_tim writer scenario_tree scenario output_directory
    basename file_format enforce io_options s counts s' :
  _convert_external_setup_without_cleanup writer scenario_tree scenario
    output_directory basename file_format enforce io_options s
  = (Ok counts, s') →
  ∃ t s6 s7,
    traces writer scenario_tree scenario output_directory basename
      file_format enforce io_options (model s) t
    ∧ write_tim_file basename file_format (t_symbols t) (t_objective t)
        (t_vars t) (t_cons t) s6 = (Ok tt, s7)
    ∧ f_tim (files s') = f_tim (files s7).
Proof.
  intros H. apply without_cleanup_steps in H
    as (t & cache & s5 & s6 & s7 & loc & s8 & sm3 & st11 & Ht & _ & _ & _
        & _ & _ & Htim & Hsto & _ & -> & _).
  exists t, s6, s7. split; [done|]. split; [done|].
  rewrite files_reset_bounds. simpl.
  change (text Tim (files s8) = text Tim (files s7)).
  eapply keeps_run; [|exact Hsto]. by apply keeps_write_sto_files.
Qed.



Lemma lp_run_eq :
  Examples.convert Examples.good_model lp Examples.state0
  = (Ok Examples.good_counts, Examples.lp_run.2).
Proof. vm_compute. reflexivity. Defined.

Lemma mps_run_eq :
  Examples.convert Examples.good_model mps Examples.state0
  = (Ok Examples.good_counts, Examples.good_run.2).
Proof. vm_compute. reflexivity. Defined.


(** The [.tim] file of the conversion of [good_model] to [lp]. *)
Example lp_run_tim :
  splitlines (f_tim (files Examples.lp_run.2))
  = ["TIME base"; "PERIODS EXPLICIT"; "    TIME1"; "    TIME2"; "ROWS";
     "    o TIME1"; "    c_u_c2_ TIME1"; "    c_l_c1_ TIME2";
     "    c_e_ONE_VAR_CONSTANT TIME2"; "COLS"; "    x TIME1";
     "    y TIME2"; "    ONE_VAR_CONSTANT TIME2"; "ENDATA"].
Proof. vm_compute. reflexivity. Qed.


(** The [.tim] file of the conversion of [good_model] to [mps]. *)
Example mps_run_tim :
  splitlines (f_tim (files Examples.good_run.2))
  = ["TIME base"; "PERIODS IMPLICIT"; "    x o TIME1";
     "    y c_l_c1_ TIME2"; "ENDATA"].
Proof. vm_compute. reflexivity. Qed.

(** ** The options of the caller *)



(** ** The [.sto] file and its coordinates *)

Lemma m_fold_invariant {A B} (I : State → B → Prop) (body : B → A → M B)
    l acc s acc' s' :
  (∀ acc x s acc' s', body acc x s = (Ok acc', s') → I s acc → I s' acc') →
  m_fold body l acc s = (Ok acc', s') → I s acc → I s' acc'.
Proof.
  intros Hbody. revert acc s.
  induction l as [|x l IH]; intros acc s Hrun Hinv.
  { unfold m_fold, ret in Hrun. by simplify_eq. }
  simpl in Hrun. apply bind_Ok in Hrun as (acc1 & s1 & Hx & Hrun).
  eapply IH; [done|]. by eapply Hbody.
Qed.

Lemma sto_write_Ok r s u s' :
  sto_write r s = (Ok u, s') →
  s' = {| model := model s;
          files := with_sto (fun old => old ++ [r]) (files s) |}.
Proof. by intros [= <-]. Qed.

Lemma set_model_Ok f s u s' :
  set_model f s = (Ok u, s') →
  s' = {| model := f (model s); files := files s |}.
Proof. by intros [= <-]. Qed.

Lemma sto_inv_record p fs n_rhs n_entry r line chunk :
  coordinate r = Some line → chunk = line +:+ nl →
  sto_inv p fs n_rhs n_entry →
  sto_inv p (with_text Coords (fun old => old +:+ chunk)
               (with_sto (fun old => old ++ [r]) fs))
    (if is_rhs r then S n_rhs else n_rhs)
    (if is_entry r then S n_entry else n_entry).
Proof.
  intros Hline -> (entries & Hsto & Hall & Hcoords & Hr & He).
  exists (entries ++ [r]). cbn [with_text with_sto f_sto f_coords].
  split; [by rewrite Hsto|]. split; [|split; [|split]].
  - apply Forall_app. split; [done|]. constructor; [|done].
    destruct r; simpl in *; done.
  - rewrite Hcoords, omap_app, unlines_app. simpl. rewrite Hline.
    rewrite unlines_cons. change (unlines []) with "".
    by rewrite ?append_assoc, ?append_empty_r.
  - rewrite filter_app, length_app, Hr. destruct r; simpl; lia.
  - rewrite filter_app, length_app, He. destruct r; simpl; lia.
Qed.

Section sto_files.
Variable cache : gmap positive positive.
Variable constraint_symbols : gmap positive (list string).
Variable secondstage_constraint_ids : gset positive.
Variable column_order : gmap positive nat.
Variable symbol_map : SymbolMap.
Variable p : Q.

Local Abbreviation Inv s loc :=
  (sto_inv p (files s) (stochastic_rhs_count loc)
     (stochastic_matrix_count loc + stochastic_cost_count loc)).

Lemma sto_inv_silent {A} (m : M A) s a s' loc :
  preserves files m → m s = (Ok a, s') → Inv s loc → Inv s' loc.
Proof. intros Hm Hrun. by rewrite (preserves_run files m s _ s' Hm Hrun). Qed.

Lemma stochastic_lower_inv con c label loc s loc' s' :
  stochastic_lower con c label loc s = (Ok loc', s') → Inv s loc →
  Inv s' loc'.
Proof.
  unfold stochastic_lower. intros H Hinv.
  apply bind_Ok in H as (st & s1 & Hst & H).
  apply get_model_Ok in Hst as [-> ->].
  apply bind_Ok in H as (v & s1 & Hv & H). apply lift_Ok in Hv as [_ ->].
  apply bind_Ok in H as ([] & s1 & Hw & H). apply sto_write_Ok in Hw as ->.
  apply bind_Ok in H as ([] & s2 & Hw & H). apply f_write_Ok in Hw as ->.
  apply bind_Ok in H as ([] & s3 & Hw & H). apply set_model_Ok in Hw as ->.
  apply ret_Ok in H as [-> ->]. cbn [files model].
  apply (sto_inv_record p _ _ _ (StoRHS label (_no_negative_zero v))
           ("RHS " +:+ label)); done.
Qed.

Lemma stochastic_upper_inv con c label loc s loc' s' :
  stochastic_upper con c label loc s = (Ok loc', s') → Inv s loc →
  Inv s' loc'.
Proof.
  unfold stochastic_upper. intros H Hinv.
  apply bind_Ok in H as (st & s1 & Hst & H).
  apply get_model_Ok in Hst as [-> ->].
  apply bind_Ok in H as (v & s1 & Hv & H). apply lift_Ok in Hv as [_ ->].
  apply bind_Ok in H as ([] & s1 & Hw & H). apply sto_write_Ok in Hw as ->.
  apply bind_Ok in H as ([] & s2 & Hw & H). apply f_write_Ok in Hw as ->.
  apply bind_Ok in H as ([] & s3 & Hw & H). apply set_model_Ok in Hw as ->.
  apply ret_Ok in H as [-> ->]. cbn [files model].
  apply (sto_inv_record p _ _ _ (StoRHS label (_no_negative_zero v))
           ("RHS " +:+ label)); done.
Qed.

Lemma zero_upper_inv con loc s loc' s' :
  zero_upper con loc s = (Ok loc', s') → Inv s loc → Inv s' loc'.
Proof.
  unfold zero_upper. intros H Hinv.
  apply bind_Ok in H as (st & s1 & Hst & H).
  apply get_model_Ok in Hst as [-> ->].
  apply bind_Ok in H as ([] & s3 & Hw & H). apply set_model_Ok in Hw as ->.
  apply ret_Ok in H as [-> ->]. done.
Qed.

Lemma stochastic_rhs_label_inv con include_bound c loc label s loc' s' :
  stochastic_rhs_label con include_bound c loc label s = (Ok loc', s') →
  Inv s loc → Inv s' loc'.
Proof.
  unfold stochastic_rhs_label. intros H Hinv.
  destruct (starts_with label "c_e_" || starts_with label "c_l_").
  { apply bind_Ok in H as ([] & s1 & Has & H).
    apply m_assert_Ok in Has as [_ ->].
    apply bind_Ok in H as (loc1 & s1 & Hlow & H).
    apply stochastic_lower_inv in Hlow; [|done].
    destruct (starts_with label "c_e_").
    - by eapply zero_upper_inv.
    - by apply ret_Ok in H as [-> ->]. }
  destruct (starts_with label "r_l_").
  { destruct (includes_lb include_bound).
    - by eapply stochastic_lower_inv.
    - by apply ret_Ok in H as [-> ->]. }
  destruct (starts_with label "c_u_").
  { apply bind_Ok in H as ([] & s1 & Has & H).
    apply m_assert_Ok in Has as [_ ->]. by eapply stochastic_upper_inv. }
  destruct (starts_with label "r_u_"); [|done].
  destruct (includes_ub include_bound).
  - by eapply stochastic_upper_inv.
  - by apply ret_Ok in H as [-> ->].
Qed.

Lemma preserves_files_set_repn block key repn :
  preserves files (set_repn cache block key repn).
Proof. unfold set_repn. solve_preserves. Qed.

Lemma preserves_files_get_repn block key :
  preserves files (get_repn cache block key).
Proof. unfold get_repn. solve_preserves. Qed.

Lemma preserves_files_get_linear_repn con :
  preserves files (get_linear_repn cache con).
Proof.
  unfold get_linear_repn. preserves_step.
  - apply preserves_files_get_repn.
  - solve_preserves.
Qed.

Lemma preserves_files_check ids empty con :
  preserves files (check_declared_secondstage ids empty con).
Proof. unfold check_declared_secondstage. solve_preserves. Qed.

Lemma stochastic_rhs_entry_inv empty loc entry s loc' s' :
  stochastic_rhs_entry cache constraint_symbols secondstage_constraint_ids
    empty loc entry s = (Ok loc', s') →
  Inv s loc → Inv s' loc'.
Proof.
  unfold stochastic_rhs_entry. intros H Hinv.
  apply bind_Ok in H as ([] & s1 & Hc & H).
  eapply sto_inv_silent in Hc; [|apply preserves_files_check|exact Hinv].
  apply bind_Ok in H as (repn & s2 & Hr & H).
  eapply sto_inv_silent in Hr;
    [|apply preserves_files_get_linear_repn|exact Hc].
  apply bind_Ok in H as ([] & s3 & Hs & H).
  eapply sto_inv_silent in Hs; [|apply preserves_files_set_repn|exact Hr].
  apply bind_Ok in H as (symbols & s4 & Hl & H).
  apply lift_Ok in Hl as [_ ->].
  apply bind_Ok in H as ([] & s4 & Has & H).
  apply m_assert_Ok in Has as [_ ->].
  eapply (m_fold_invariant (fun s loc => Inv s loc)); [|exact H|exact Hs].
  intros ?????. apply stochastic_rhs_label_inv.
Qed.

Lemma stochastic_matrix_var_inv repn symbols acc var s acc' s' :
  stochastic_matrix_var symbol_map repn symbols acc var s = (Ok acc', s') →
  Inv s acc.2 → Inv s' acc'.2.
Proof.
  unfold stochastic_matrix_var. intros H Hinv.
  apply bind_Ok in H as ([] & s1 & Has & H).
  apply m_assert_Ok in Has as [_ ->].
  destruct (find_coef _ _ _ _) as [[i var_coef]|]; [|done].
  apply bind_Ok in H as (var_label & s1 & Hl & H).
  apply lift_Ok in Hl as [_ ->].
  apply bind_Ok in H as (loc & s1 & Hfold & H).
  apply ret_Ok in H as [-> ->]. simpl.
  eapply (m_fold_invariant (fun s loc => Inv s loc));
    [|exact Hfold|exact Hinv].
  clear. intros loc label s loc' s' H Hinv.
  apply bind_Ok in H as ([] & s1 & Hw & H). apply sto_write_Ok in Hw as ->.
  apply bind_Ok in H as ([] & s2 & Hw & H). apply f_write_Ok in Hw as ->.
  apply ret_Ok in H as [-> ->]. cbn [files model count_matrix
    stochastic_rhs_count stochastic_matrix_count stochastic_cost_count].
  apply (sto_inv_record p _ _ _
           (StoEntry var_label label (_no_negative_zero var_coef))
           (var_label +:+ " " +:+ label)); [done| |done].
  by rewrite !append_assoc.
Qed.

Lemma stochastic_matrix_entry_inv empty loc entry s loc' s' :
  stochastic_matrix_entry cache constraint_symbols
    secondstage_constraint_ids column_order symbol_map empty loc entry s
  = (Ok loc', s') →
  Inv s loc → Inv s' loc'.
Proof.
  unfold stochastic_matrix_entry. intros H Hinv.
  apply bind_Ok in H as ([] & s1 & Hc & H).
  eapply sto_inv_silent in Hc; [|apply preserves_files_check|exact Hinv].
  apply bind_Ok in H as (repn & s2 & Hr & H).
  eapply sto_inv_silent in Hr;
    [|apply preserves_files_get_linear_repn|exact Hc].
  apply bind_Ok in H as ([] & s3 & Has & H).
  apply m_assert_Ok in Has as [_ ->].
  apply bind_Ok in H as ([] & s3 & Has & H).
  apply m_assert_Ok in Has as [_ ->].
  apply bind_Ok in H as (symbols & s3 & Hl & H).
  apply lift_Ok in Hl as [_ ->].
  apply bind_Ok in H as (var_list & s3 & Hl & H).
  apply lift_Ok in Hl as [_ ->].
  apply bind_Ok in H as (acc & s3 & Hfold & H).
  apply bind_Ok in H as ([] & s4 & Hs & H).
  apply ret_Ok in H as [-> ->].
  eapply sto_inv_silent; [apply preserves_files_set_repn|exact Hs|].
  eapply (m_fold_invariant (fun s (acc : list Z * StoLocals) => Inv s acc.2));
    [|exact Hfold|exact Hr].
  intros ?????. apply stochastic_matrix_var_inv.
Qed.

Lemma stochastic_objective_var_inv repn label acc var s acc' s' :
  stochastic_objective_var symbol_map repn label acc var s = (Ok acc', s') →
  Inv s acc.2 → Inv s' acc'.2.
Proof.
  unfold stochastic_objective_var. intros H Hinv.
  destruct (find_coef _ _ _ _) as [[i var_coef]|]; [|done].
  apply bind_Ok in H as (var_label & s1 & Hl & H).
  apply lift_Ok in Hl as [_ ->].
  apply bind_Ok in H as ([] & s1 & Hw & H). apply sto_write_Ok in Hw as ->.
  apply bind_Ok in H as ([] & s2 & Hw & H). apply f_write_Ok in Hw as ->.
  apply ret_Ok in H as [-> ->]. cbn [files model count_cost snd
    stochastic_rhs_count stochastic_matrix_count stochastic_cost_count].
  rewrite Nat.add_succ_r.
  apply (sto_inv_record p _ _ _
           (StoEntry var_label label (_no_negative_zero var_coef))
           (var_label +:+ " " +:+ label)); [done| |done].
  by rewrite !append_assoc.
Qed.

Lemma stochastic_objective_part_inv obj annotation loc s loc' s' :
  stochastic_objective_part cache column_order symbol_map obj annotation
    loc s = (Ok loc', s') →
  Inv s loc → Inv s' loc'.
Proof.
  unfold stochastic_objective_part. intros H Hinv.
  apply bind_Ok in H as (declared & s1 & Hd & H).
  assert (s1 = s) as ->.
  { destruct (has_declarations annotation).
    - apply bind_Ok in Hd as ([] & s2 & Has & Hd).
      apply m_assert_Ok in Has as [_ ->].
      destruct (expand_entries annotation) as [|[o v] ?]; [done|].
      apply bind_Ok in Hd as ([] & s2 & Has & Hd).
      apply m_assert_Ok in Has as [_ ->]. by apply ret_Ok in Hd as [_ ->].
    - by apply ret_Ok in Hd as [_ ->]. }
  apply bind_Ok in H as (repn & s2 & Hr & H).
  apply get_repn_state in Hr as ->.
  destruct repn as [repn|]; [|done].
  apply bind_Ok in H as (label & s1 & Hl & H).
  apply lift_Ok in Hl as [_ ->].
  apply bind_Ok in H as (vars & s1 & Hl & H).
  apply lift_Ok in Hl as [_ ->].
  apply bind_Ok in H as ([] & s1 & Has & H).
  apply m_assert_Ok in Has as [_ ->].
  apply bind_Ok in H as (acc & s1 & Hfold & H).
  apply bind_Ok in H as ([] & s2 & Hs & H).
  assert (Hacc : Inv s2 acc.2).
  { eapply sto_inv_silent; [apply preserves_files_set_repn|exact Hs|].
    eapply (m_fold_invariant
              (fun s (acc : list Z * StoLocals) => Inv s acc.2));
      [|exact Hfold|exact Hinv].
    intros ?????. apply stochastic_objective_var_inv. }
  destruct declared.2.
  - apply bind_Ok in H as ([] & s3 & Hs3 & H).
    eapply sto_inv_silent in Hs3;
      [|apply preserves_files_set_repn|exact Hacc].
    apply bind_Ok in H as ([] & s4 & Hw & H). apply sto_write_Ok in Hw as ->.
    apply bind_Ok in H as ([] & s5 & Hw & H). apply f_write_Ok in Hw as ->.
    apply ret_Ok in H as [-> ->]. cbn [files model count_cost snd
      stochastic_rhs_count stochastic_matrix_count stochastic_cost_count].
    rewrite Nat.add_succ_r.
    apply (sto_inv_record p _ _ _
             (StoEntry "ONE_VAR_CONSTANT" label
                (_no_negative_zero (default 0 (constant repn))))
             ("ONE_VAR_CONSTANT " +:+ label)); done.
  - by apply ret_Ok in H as [-> ->].
Qed.
End sto_files.

Lemma write_sto_files_inv cache symbols ids order sm p ann obj s loc s' :
  write_sto_files cache symbols ids order sm p ann obj s = (Ok loc, s') →
  sto_inv (_no_negative_zero_Q p) (files s') (stochastic_rhs_count loc)
    (stochastic_matrix_count loc + stochastic_cost_count loc).
Proof.
  unfold write_sto_files. intros H.
  apply bind_Ok in H as ([] & s1 & Hw & H). apply f_open_Ok in Hw as ->.
  apply bind_Ok in H as ([] & s1 & Hw & H). injection Hw as <-.
  apply bind_Ok in H as ([] & s1 & Hw & H). apply sto_write_Ok in Hw as ->.
  match type of H with bind _ _ ?s0 = _ =>
    assert (Hinit : sto_inv (_no_negative_zero_Q p) (files s0) 0 (0 + 0)) end.
  { exists []. cbn [files with_sto with_text f_sto f_coords].
    repeat split; try done. }
  apply bind_Ok in H as (loc1 & s1 & H1 & H).
  assert (Hinv1 : sto_inv (_no_negative_zero_Q p) (files s1)
            (stochastic_rhs_count loc1)
            (stochastic_matrix_count loc1 + stochastic_cost_count loc1)).
  { destruct (stochastic_rhs ann).
    - eapply (m_fold_invariant (fun s loc =>
        sto_inv (_no_negative_zero_Q p) (files s) (stochastic_rhs_count loc)
          (stochastic_matrix_count loc + stochastic_cost_count loc)));
        [|exact H1|exact Hinit].
      intros ?????. apply stochastic_rhs_entry_inv.
    - by apply ret_Ok in H1 as [-> ->]. }
  apply bind_Ok in H as (loc2 & s2 & H2 & H).
  assert (Hinv2 : sto_inv (_no_negative_zero_Q p) (files s2)
            (stochastic_rhs_count loc2)
            (stochastic_matrix_count loc2 + stochastic_cost_count loc2)).
  { destruct (stochastic_matrix ann).
    - eapply (m_fold_invariant (fun s loc =>
        sto_inv (_no_negative_zero_Q p) (files s) (stochastic_rhs_count loc)
          (stochastic_matrix_count loc + stochastic_cost_count loc)));
        [|exact H2|exact Hinv1].
      intros ?????. apply stochastic_matrix_entry_inv.
    - by apply ret_Ok in H2 as [-> ->]. }
  destruct (stochastic_objective ann).
  - by eapply stochastic_objective_part_inv.
  - by apply ret_Ok in H as [-> ->].
Qed.



(** The two files of the conversion of [good_model]. *)
Example good_run_sto :
  f_sto (files Examples.good_run.2)
  = [StoBlock (1 # 2); StoRHS "c_l_c1_" 5]
  ∧ splitlines (f_coords (files Examples.good_run.2)) = ["RHS c_l_c1_"].
Proof. split; vm_compute; reflexivity. Qed.

(** ** What the conversion leaves on the model *)

Lemma restore_attrs_merge cached s i a :
  NoDup cached.*1 → (i, a) ∈ cached →
  attrs_of (model (m_for_each restore_attrs cached s).2) i
  = restored_attrs a (attrs_of (model s) i).
Proof.
  revert s. induction cached as [|[j b] cached IH]; intros s Hnd Hin.
  { by apply elem_of_nil in Hin. }
  simpl in Hnd. apply NoDup_cons in Hnd as [Hnotin Hnd].
  apply elem_of_cons in Hin as [Heq|Hin].
  - injection Heq as -> ->.
    simpl. rewrite bind_result. unfold restore_attrs at 1.
    rewrite !bind_result. simpl.
    rewrite restore_attrs_other by done.
    unfold attrs_of. simpl. by rewrite lookup_insert_eq.
  - simpl. rewrite bind_result. unfold restore_attrs at 1.
    rewrite !bind_result. simpl. rewrite IH by done.
    unfold attrs_of. simpl. rewrite lookup_insert_ne; [done|].
    intros ->. apply Hnotin. apply list_elem_of_fmap. by exists (i, a).
Qed.

(** The attributes of a block when [_convert_external_setup] is over,
    whether it returns or raises. *)
Lemma convert_external_setup_attrs writer scenario_tree scenario
    output_directory basename file_format enforce io_options s block :
  NoDup (block_id <$> model_blocks (_instance scenario)) →
  block ∈ model_blocks (_instance scenario) →
  attrs_of
    (model (_convert_external_setup writer scenario_tree scenario
              output_directory basename file_format enforce io_options
              s).2)
    (block_id block)
  = restored_attrs (attrs_of (model s) (block_id block))
      (attrs_of
         (model (_convert_external_setup_without_cleanup writer
                   scenario_tree scenario output_directory basename
                   file_format enforce io_options (detached scenario s)).2)
         (block_id block)).
Proof.
  intros Hnd Hblock. unfold _convert_external_setup, detached.
  pose proof (cache_attrs_cached (model_blocks (_instance scenario)) [] s
                Hnd) as Hcached.
  rewrite bind_result.
  destruct (m_fold cache_attrs _ [] s) as [[cached|e] s1]; [|done].
  simpl in Hcached. injection Hcached as ->. unfold try_finally.
  cbn [snd].
  destruct (_convert_external_setup_without_cleanup _ _ _ _ _ _ _ _ s1)
    as [r s2].
  pose proof (restore_attrs_merge
                ((fun block => (block_id block,
                                attrs_of (model s) (block_id block)))
                 <$> model_blocks (_instance scenario))
                s2 (block_id block)
                (attrs_of (model s) (block_id block))) as Hrestore.
  destruct (m_for_each restore_attrs _ s2) as [[u|e] s3]; simpl in *;
    apply Hrestore.
  all: try (by rewrite <- list_fmap_compose).
  all: apply list_elem_of_fmap; by exists block.
Qed.

Lemma cache_canonical_repn_step cache b s cache1 s1 i :
  cache_canonical_repn cache b s = (Ok cache1, s1) →
  gen_flags (model s1) i
  = if decide (block_id b = i) then (Some false, Some false)
    else gen_flags (model s) i.
Proof.
  unfold cache_canonical_repn. intros Hb.
  apply bind_Ok in Hb as (st & s2 & Hst & Hb).
  apply get_model_Ok in Hst as [-> ->].
  destruct (_canonical_repn _) as [address|]; [|done].
  apply bind_Ok in Hb as ([] & s2 & Hs & Hb).
  apply set_model_Ok in Hs as ->. apply ret_Ok in Hb as [_ ->].
  unfold gen_flags, attrs_of. simpl. case_decide as Hi.
  - subst i. by rewrite lookup_insert_eq.
  - by rewrite lookup_insert_ne.
Qed.

Lemma cache_canonical_repn_flags blocks cache s cache' s' i :
  m_fold cache_canonical_repn blocks cache s = (Ok cache', s') →
  gen_flags (model s') i
  = if decide (i ∈ block_id <$> blocks) then (Some false, Some false)
    else gen_flags (model s) i.
Proof.
  revert cache s. induction blocks as [|b blocks IH]; intros cache s H.
  { unfold m_fold, ret in H. by simplify_eq. }
  simpl in H. apply bind_Ok in H as (cache1 & s1 & Hb & H).
  rewrite (IH _ _ H), (cache_canonical_repn_step _ _ _ _ _ i Hb).
  rewrite fmap_cons. repeat case_decide; try done; set_solver.
Qed.

Lemma preserves_model_write_symbols {B} (g : ModelState → B) name symbols
    count :
  preserves (fun s => g (model s)) (write_symbols name symbols count).
Proof.
  revert count. induction symbols as [|symbol symbols IH]; intros count;
    simpl; solve_preserves.
Qed.

Lemma preserves_model_write_col_file {B} (g : ModelState → B) vm :
  preserves (fun s => g (model s)) (write_col_file vm).
Proof.
  unfold write_col_file.
  repeat first [apply preserves_model_write_symbols | preserves_step].
Qed.

Lemma preserves_model_write_row_file {B} (g : ModelState → B) sm obj cm :
  preserves (fun s => g (model s)) (write_row_file sm obj cm).
Proof.
  unfold write_row_file.
  repeat first [apply preserves_model_write_symbols | preserves_step].
Qed.

Lemma preserves_model_write_tim_file {B} (g : ModelState → B) basename
    file_format sm obj vm cm :
  preserves (fun s => g (model s))
    (write_tim_file basename file_format sm obj vm cm).
Proof. unfold write_tim_file, write_tim_lines. solve_preserves. Qed.

Lemma preserves_attrs_write_sto_files cache symbols ids order sm p ann obj :
  preserves (fun s => st_attrs (model s))
    (write_sto_files cache symbols ids order sm p ann obj).
Proof.
  unfold write_sto_files, stochastic_rhs_entry, stochastic_matrix_entry,
    stochastic_objective_part, stochastic_rhs_label, stochastic_matrix_var,
    stochastic_objective_var, stochastic_lower, stochastic_upper, zero_upper,
    check_declared_secondstage, get_linear_repn, get_repn, set_repn,
    set_lower, set_upper.
  solve_preserves.
Qed.

Lemma preserves_name_write_sto_files cache symbols ids order sm p ann obj :
  preserves (fun s => st_name (model s))
    (write_sto_files cache symbols ids order sm p ann obj).
Proof.
  unfold write_sto_files, stochastic_rhs_entry, stochastic_matrix_entry,
    stochastic_objective_part, stochastic_rhs_label, stochastic_matrix_var,
    stochastic_objective_var, stochastic_lower, stochastic_upper, zero_upper,
    check_declared_secondstage, get_linear_repn, get_repn, set_repn,
    set_lower, set_upper.
  solve_preserves.
Qed.

Lemma reset_bounds_attrs loc s :
  st_attrs (model (reset_bounds loc s)) = st_attrs (model s).
Proof.
  unfold reset_bounds.
  assert (H : ∀ (set : ConstraintData → option Z → M unit) l,
            (∀ con v, preserves (fun s => st_attrs (model s)) (set con v)) →
            preserves (fun s => st_attrs (model s))
              (m_for_each (fun item : ConstraintData * option Z =>
                             set item.1 item.2) l)).
  { intros set l Hset. apply preserves_m_for_each. intros x. apply Hset. }
  rewrite (H set_upper); [|intros; unfold set_upper; solve_preserves].
  rewrite (H set_lower); [|intros; unfold set_lower; solve_preserves].
  done.
Qed.

Lemma reset_bounds_name loc s :
  st_name (model (reset_bounds loc s)) = st_name (model s).
Proof.
  unfold reset_bounds.
  assert (H : ∀ (set : ConstraintData → option Z → M unit) l,
            (∀ con v, preserves (fun s => st_name (model s)) (set con v)) →
            preserves (fun s => st_name (model s))
              (m_for_each (fun item : ConstraintData * option Z =>
                             set item.1 item.2) l)).
  { intros set l Hset. apply preserves_m_for_each. intros x. apply Hset. }
  rewrite (H set_upper); [|intros; unfold set_upper; solve_preserves].
  rewrite (H set_lower); [|intros; unfold set_lower; solve_preserves].
  done.
Qed.

(** The name and the attributes of the blocks that the conversion
    proper leaves, when it returns: the name that the model had before
    the deterministic write, and the attributes that this write leaves. *)
Lemma without_cleanup_model writer scenario_tree scenario output_directory
    basename file_format enforce io_options s counts s' :
  _convert_external_setup_without_cleanup writer scenario_tree scenario
    output_directory basename file_format enforce io_options s
  = (Ok counts, s') →
  ∃ t st8 io_options' det,
    traces writer scenario_tree scenario output_directory basename
      file_format enforce io_options (model s) t
    ∧ (∀ i, gen_flags (t_cached_state t) i
            = if decide (i ∈ block_id <$> model_blocks (_instance scenario))
              then (Some false, Some false)
              else gen_flags (t_setup_state t) i)
    ∧ st_name (t_cached_state t) = st_name (t_setup_state t)
    ∧ st_attrs st8 = st_attrs (t_state t)
    ∧ st_name st8 = st_name (t_state t)
    ∧ st_name (model s') = st_name st8
    ∧ st_attrs (model s')
      = st_attrs (writer file_format det io_options'
                    (with_name "ZeroStochasticData" st8)).2.
Proof.
  intros H. apply without_cleanup_steps in H
    as (t & cache & s5 & s6 & s7 & loc & s8 & sm3 & st11 & Ht & _ & _
        & Hcache & Hcol & Hrow & Htim & Hsto & Hdet & -> & _).
  exists t, (model s8). eexists _, _. split; [done|]. split; [|split].
  - intros i. exact (cache_canonical_repn_flags _ _ _ _ _ i Hcache).
  - eapply (preserves_run (fun s => st_name (model s))) in Hcache; [done|].
    apply preserves_m_fold. intros. unfold cache_canonical_repn, set_attrs.
    solve_preserves.
  - assert (Hmodel : ∀ {B} (g : ModelState → B),
              g (model s7) = g (t_state t)).
    { intros B g.
      rewrite (preserves_run (fun s => g (model s)) _ _ _ _
                 (preserves_model_write_tim_file g _ _ _ _ _ _) Htim).
      rewrite (preserves_run (fun s => g (model s)) _ _ _ _
                 (preserves_model_write_row_file g _ _ _) Hrow).
      by rewrite (preserves_run (fun s => g (model s)) _ _ _ _
                    (preserves_model_write_col_file g _) Hcol). }
    split; [|split; [|split]].
    + rewrite <- (Hmodel _ st_attrs).
      by apply (preserves_run (fun s => st_attrs (model s)) _ _ _ _
                  (preserves_attrs_write_sto_files _ _ _ _ _ _ _ _) Hsto).
    + rewrite <- (Hmodel _ st_name).
      by apply (preserves_run (fun s => st_name (model s)) _ _ _ _
                  (preserves_name_write_sto_files _ _ _ _ _ _ _ _) Hsto).
    + by rewrite reset_bounds_name.
    + rewrite reset_bounds_attrs. simpl. by rewrite Hdet.
Qed.

Lemma gen_flags_attrs st1 st2 i :
  st_attrs st1 = st_attrs st2 → gen_flags st1 i = gen_flags st2 i.
Proof. unfold gen_flags, attrs_of. by intros ->. Qed.

Lemma detached_same scenario s : same_but_attrs (detached scenario s) s.
Proof.
  unfold detached.
  destruct (cache_attrs_run (model_blocks (_instance scenario)) [] s)
    as (cached & s1 & Hrun & Hsame).
  by rewrite Hrun.
Qed.



Lemma install_keeps table st block :
  st_name (Examples.install table st block) = st_name st
  ∧ st_bounds (Examples.install table st block) = st_bounds st
  ∧ ∀ i, gen_flags (Examples.install table st block) i = gen_flags st i.
Proof.
  unfold Examples.install.
  destruct (_canonical_repn (attrs_of st block)); [done|].
  split; [done|]. split; [done|]. intros i.
  unfold gen_flags, attrs_of. simpl.
  destruct (decide (block = i)) as [->|Hne].
  - by rewrite lookup_insert_eq.
  - by rewrite lookup_insert_ne.
Defined.

Lemma table_writer_keeps blocks table sm :
  writer_keeps st_name (Examples.table_writer blocks table sm)
  ∧ writer_keeps st_bounds (Examples.table_writer blocks table sm)
  ∧ ∀ i, writer_keeps (fun st => gen_flags st i)
           (Examples.table_writer blocks table sm).
Proof.
  assert (H : ∀ st,
            st_name (foldl (Examples.install table) st blocks) = st_name st
            ∧ st_bounds (foldl (Examples.install table) st blocks)
              = st_bounds st
            ∧ ∀ i, gen_flags (foldl (Examples.install table) st blocks) i
                   = gen_flags st i).
  { induction blocks as [|b blocks IH]; intros st; [done|]. simpl.
    destruct (IH (Examples.install table st b)) as (-> & -> & Hf).
    destruct (install_keeps table st b) as (-> & -> & Hf').
    split; [done|]. split; [done|]. intros i. by rewrite Hf, Hf'. }
  split; [|split].
  - intros ????. apply H.
  - intros ????. apply H.
  - intros i ????. apply H.
Defined.



(** The block of [good_model] had none of the two flags; the conversion
    leaves both, at [False]. *)
Example good_run_flags :
  gen_flags (model Examples.state0) 100 = (None, None)
  ∧ gen_flags (model Examples.good_run.2) 100 = (Some false, Some false).
Proof. split; vm_compute; reflexivity. Qed.

(** ** The bounds of the constraints *)

Lemma saved_bounds_set (d : list (ConstraintData * option Z)) con v :
  saved_bounds (component_map_set d con v)
  = <[con_id con := v]> (saved_bounds d).
Proof.
  unfold saved_bounds. induction d as [|[c w] d IH]; [done|].
  cbn [component_map_set]. case_decide as Hid;
    rewrite !fmap_cons, !list_to_map_cons; cbn [fst snd].
  - rewrite Hid. by rewrite insert_insert_eq.
  - rewrite IH. by rewrite insert_insert_ne.
Qed.

Lemma elem_of_keys d i :
  i ∈ (fun e : ConstraintData * option Z => con_id e.1) <$> d
  ↔ is_Some (saved_bounds d !! i).
Proof.
  unfold saved_bounds. rewrite <- elem_of_dom, dom_list_to_map_L.
  rewrite elem_of_list_to_set, !list_elem_of_fmap. split.
  - intros (e & -> & He). exists (con_id e.1, e.2). split; [done|].
    apply list_elem_of_fmap. by exists e.
  - intros ([k v] & -> & He). apply list_elem_of_fmap in He as (e & [= -> ->] & He).
    by exists e.
Qed.

Lemma keys_component_map_set (d : list (ConstraintData * option Z)) con v :
  NoDup ((fun e => con_id e.1) <$> d) →
  NoDup ((fun e => con_id e.1) <$> component_map_set d con v).
Proof.
  induction d as [|[c w] d IH]; simpl; intros Hnd.
  { apply NoDup_singleton. }
  apply NoDup_cons in Hnd as [Hnotin Hnd]. case_decide as Hid; simpl.
  - by apply NoDup_cons.
  - apply NoDup_cons. split; [|by apply IH].
    rewrite elem_of_keys, saved_bounds_set, lookup_insert_ne by done.
    by rewrite <- elem_of_keys.
Qed.

Lemma bounds_set_lower con v s i :
  lower_of (model (set_lower con v s).2) i
  = (if decide (i = con_id con) then v else lower_of (model s) i)
  ∧ upper_of (model (set_lower con v s).2) i = upper_of (model s) i.
Proof.
  unfold lower_of, upper_of, set_lower, _upper. simpl.
  case_decide as Hi.
  - subst i. by rewrite lookup_insert_eq.
  - by rewrite lookup_insert_ne.
Qed.

Lemma bounds_set_upper con v s i :
  upper_of (model (set_upper con v s).2) i
  = (if decide (i = con_id con) then v else upper_of (model s) i)
  ∧ lower_of (model (set_upper con v s).2) i = lower_of (model s) i.
Proof.
  unfold lower_of, upper_of, set_upper, _lower. simpl.
  case_decide as Hi.
  - subst i. by rewrite lookup_insert_eq.
  - by rewrite lookup_insert_ne.
Qed.

Lemma restore_lower d s i :
  NoDup ((fun e => con_id e.1) <$> d) →
  lower_of (model (m_for_each (fun item => set_lower item.1 item.2) d s).2) i
  = default (lower_of (model s) i) (saved_bounds d !! i)
  ∧ upper_of
      (model (m_for_each (fun item => set_lower item.1 item.2) d s).2) i
    = upper_of (model s) i.
Proof.
  revert s. induction d as [|[c v] d IH]; intros s Hnd; [done|].
  simpl in Hnd. apply NoDup_cons in Hnd as [Hnotin Hnd].
  cbn [m_for_each]. rewrite bind_result.
  change (set_lower (c, v).1 (c, v).2 s)
    with (Ok tt, (set_lower c v s).2).
  destruct (IH (set_lower c v s).2 Hnd) as [-> ->].
  destruct (bounds_set_lower c v s i) as [-> ->]. split; [|done].
  unfold saved_bounds. simpl. fold (saved_bounds d).
  case_decide as Hi.
  - subst i. rewrite lookup_insert_eq.
    rewrite elem_of_keys in Hnotin.
    by rewrite (proj2 (eq_None_not_Some _) Hnotin).
  - by rewrite lookup_insert_ne.
Qed.

Lemma restore_upper d s i :
  NoDup ((fun e => con_id e.1) <$> d) →
  upper_of (model (m_for_each (fun item => set_upper item.1 item.2) d s).2) i
  = default (upper_of (model s) i) (saved_bounds d !! i)
  ∧ lower_of
      (model (m_for_each (fun item => set_upper item.1 item.2) d s).2) i
    = lower_of (model s) i.
Proof.
  revert s. induction d as [|[c v] d IH]; intros s Hnd; [done|].
  simpl in Hnd. apply NoDup_cons in Hnd as [Hnotin Hnd].
  cbn [m_for_each]. rewrite bind_result.
  change (set_upper (c, v).1 (c, v).2 s)
    with (Ok tt, (set_upper c v s).2).
  destruct (IH (set_upper c v s).2 Hnd) as [-> ->].
  destruct (bounds_set_upper c v s i) as [-> ->]. split; [|done].
  unfold saved_bounds. simpl. fold (saved_bounds d).
  case_decide as Hi.
  - subst i. rewrite lookup_insert_eq.
    rewrite elem_of_keys in Hnotin.
    by rewrite (proj2 (eq_None_not_Some _) Hnotin).
  - by rewrite lookup_insert_ne.
Qed.

(** The last statements of the conversion undo what was put aside. *)
Lemma reset_bounds_kept st0 loc s i :
  bounds_kept st0 (model s) loc →
  lower_of (model (reset_bounds loc s)) i = lower_of st0 i
  ∧ upper_of (model (reset_bounds loc s)) i = upper_of st0 i.
Proof.
  intros (Hkept & Hlb & Hub). unfold reset_bounds.
  destruct (restore_upper (modified_constraint_ub loc)
              (m_for_each (fun item => set_lower item.1 item.2)
                 (modified_constraint_lb loc) s).2 i Hub) as [-> ->].
  destruct (restore_lower (modified_constraint_lb loc) s i Hlb) as [-> ->].
  apply Hkept.
Qed.

Lemma bounds_kept_ext st0 st1 st2 loc :
  st_bounds st1 = st_bounds st2 →
  bounds_kept st0 st1 loc → bounds_kept st0 st2 loc.
Proof.
  intros Heq (Hkept & Hnd). split; [|done]. intros i.
  unfold lower_of, upper_of in *. rewrite <- Heq. apply Hkept.
Qed.

Section sto_bounds.
Variable cache : gmap positive positive.
Variable constraint_symbols : gmap positive (list string).
Variable secondstage_constraint_ids : gset positive.
Variable column_order : gmap positive nat.
Variable symbol_map : SymbolMap.
Variable st0 : ModelState.

Local Abbreviation lb loc := (saved_bounds (modified_constraint_lb loc)).
Local Abbreviation ub loc := (saved_bounds (modified_constraint_ub loc)).

Lemma stochastic_lower_bounds con c label loc s loc' s' :
  stochastic_lower con c label loc s = (Ok loc', s') →
  bounds_kept st0 (model s) loc → lb loc !! con_id con = None →
  bounds_kept st0 (model s') loc'
  ∧ (∃ v, lb loc' = <[con_id con := v]> (lb loc))
  ∧ ub loc' = ub loc.
Proof.
  unfold stochastic_lower. intros H (Hkept & Hlb & Hub) Hfresh.
  apply bind_Ok in H as (st & s1 & Hst & H).
  apply get_model_Ok in Hst as [-> ->].
  apply bind_Ok in H as (v & s1 & Hv & H). apply lift_Ok in Hv as [_ ->].
  apply bind_Ok in H as ([] & s1 & Hw & H). apply sto_write_Ok in Hw as ->.
  apply bind_Ok in H as ([] & s2 & Hw & H). apply f_write_Ok in Hw as ->.
  apply bind_Ok in H as ([] & s3 & Hw & H).
  apply ret_Ok in H as [-> ->].
  match goal with |- bounds_kept _ _ ?l ∧ _ => set (loc' := l) end.
  assert (Hlb' : lb loc' = <[con_id con := _lower (model s) con]> (lb loc))
    by apply saved_bounds_set.
  assert (Hub' : ub loc' = ub loc) by done.
  split; [|split; [by eexists|done]].
  split; [|split; [by apply keys_component_map_set|done]].
  intros i. rewrite Hlb', Hub'.
  match type of Hw with set_lower ?c ?v ?s0 = _ =>
    pose proof (bounds_set_lower c v s0 i) as [Hl Hu] end.
  rewrite Hw in Hl, Hu. cbn [snd model] in Hl, Hu. rewrite Hl, Hu.
  destruct (Hkept i) as [Hkl Hku]. split; [|done].
  case_decide as Hi.
  - subst i. rewrite lookup_insert_eq. simpl.
    rewrite Hfresh in Hkl. done.
  - by rewrite lookup_insert_ne.
Qed.

Lemma stochastic_upper_bounds con c label loc s loc' s' :
  stochastic_upper con c label loc s = (Ok loc', s') →
  bounds_kept st0 (model s) loc → ub loc !! con_id con = None →
  bounds_kept st0 (model s') loc'
  ∧ (∃ v, ub loc' = <[con_id con := v]> (ub loc))
  ∧ lb loc' = lb loc.
Proof.
  unfold stochastic_upper. intros H (Hkept & Hlb & Hub) Hfresh.
  apply bind_Ok in H as (st & s1 & Hst & H).
  apply get_model_Ok in Hst as [-> ->].
  apply bind_Ok in H as (v & s1 & Hv & H). apply lift_Ok in Hv as [_ ->].
  apply bind_Ok in H as ([] & s1 & Hw & H). apply sto_write_Ok in Hw as ->.
  apply bind_Ok in H as ([] & s2 & Hw & H). apply f_write_Ok in Hw as ->.
  apply bind_Ok in H as ([] & s3 & Hw & H).
  apply ret_Ok in H as [-> ->].
  match goal with |- bounds_kept _ _ ?l ∧ _ => set (loc' := l) end.
  assert (Hub' : ub loc' = <[con_id con := _upper (model s) con]> (ub loc))
    by apply saved_bounds_set.
  assert (Hlb' : lb loc' = lb loc) by done.
  split; [|split; [by eexists|done]].
  split; [|split; [done|by apply keys_component_map_set]].
  intros i. rewrite Hlb', Hub'.
  match type of Hw with set_upper ?c ?v ?s0 = _ =>
    pose proof (bounds_set_upper c v s0 i) as [Hu Hl] end.
  rewrite Hw in Hl, Hu. cbn [snd model] in Hl, Hu. rewrite Hl, Hu.
  destruct (Hkept i) as [Hkl Hku]. split; [done|].
  case_decide as Hi.
  - subst i. rewrite lookup_insert_eq. simpl.
    rewrite Hfresh in Hku. done.
  - by rewrite lookup_insert_ne.
Qed.

Lemma zero_upper_bounds con loc s loc' s' :
  zero_upper con loc s = (Ok loc', s') →
  bounds_kept st0 (model s) loc → ub loc !! con_id con = None →
  bounds_kept st0 (model s') loc'
  ∧ (∃ v, ub loc' = <[con_id con := v]> (ub loc))
  ∧ lb loc' = lb loc.
Proof.
  unfold zero_upper. intros H (Hkept & Hlb & Hub) Hfresh.
  apply bind_Ok in H as (st & s1 & Hst & H).
  apply get_model_Ok in Hst as [-> ->].
  apply bind_Ok in H as ([] & s3 & Hw & H).
  apply ret_Ok in H as [-> ->].
  match goal with |- bounds_kept _ _ ?l ∧ _ => set (loc' := l) end.
  assert (Hub' : ub loc' = <[con_id con := _upper (model s) con]> (ub loc))
    by apply saved_bounds_set.
  assert (Hlb' : lb loc' = lb loc) by done.
  split; [|split; [by eexists|done]].
  split; [|split; [done|by apply keys_component_map_set]].
  intros i. rewrite Hlb', Hub'.
  match type of Hw with set_upper ?c ?v ?s0 = _ =>
    pose proof (bounds_set_upper c v s0 i) as [Hu Hl] end.
  rewrite Hw in Hl, Hu. cbn [snd model] in Hl, Hu. rewrite Hl, Hu.
  destruct (Hkept i) as [Hkl Hku]. split; [done|].
  case_decide as Hi.
  - subst i. rewrite lookup_insert_eq. simpl.
    rewrite Hfresh in Hku. done.
  - by rewrite lookup_insert_ne.
Qed.

Lemma stochastic_rhs_label_bounds con include_bound c loc label s loc' s' :
  stochastic_rhs_label con include_bound c loc label s = (Ok loc', s') →
  bounds_kept st0 (model s) loc →
  (lower_prefixed label = true → lb loc !! con_id con = None) →
  (upper_prefixed label = true → ub loc !! con_id con = None) →
  bounds_kept st0 (model s') loc'
  ∧ (lb loc' = lb loc
     ∨ lower_prefixed label = true
       ∧ ∃ v, lb loc' = <[con_id con := v]> (lb loc))
  ∧ (ub loc' = ub loc
     ∨ upper_prefixed label = true
       ∧ ∃ v, ub loc' = <[con_id con := v]> (ub loc)).
Proof.
  unfold stochastic_rhs_label, lower_prefixed, upper_prefixed.
  intros H Hkept Hlow Hup.
  destruct (starts_with label "c_e_") eqn:He; cbn [orb] in *.
  { apply bind_Ok in H as ([] & s1 & Has & H).
    apply m_assert_Ok in Has as [_ ->].
    apply bind_Ok in H as (loc1 & s1 & H1 & H).
    apply stochastic_lower_bounds in H1 as (Hk1 & (v1 & Hl1) & Hu1);
      [|done|auto].
    apply zero_upper_bounds in H as (Hk2 & (v2 & Hu2) & Hl2);
      [|done|rewrite Hu1; auto].
    split; [done|]. rewrite Hl2, Hu2, Hu1, Hl1.
    split; right; (split; [done|]); by eexists. }
  destruct (starts_with label "c_l_") eqn:Hl; cbn [orb] in *.
  { apply bind_Ok in H as ([] & s1 & Has & H).
    apply m_assert_Ok in Has as [_ ->].
    apply bind_Ok in H as (loc1 & s1 & H1 & H).
    apply stochastic_lower_bounds in H1 as (Hk1 & Hl1 & Hu1);
      [|done|auto].
    apply ret_Ok in H as [-> ->]. split; [done|].
    split; [right; by split|by left]. }
  destruct (starts_with label "r_l_") eqn:Hrl; cbn [orb] in *.
  { destruct (includes_lb include_bound).
    - apply stochastic_lower_bounds in H as (Hk1 & Hl1 & Hu1);
      [|done|auto].
      split; [done|]. split; [right; by split|by left].
    - apply ret_Ok in H as [-> ->]. split; [done|]. split; by left. }
  destruct (starts_with label "c_u_") eqn:Hcu; cbn [orb] in *.
  { apply bind_Ok in H as ([] & s1 & Has & H).
    apply m_assert_Ok in Has as [_ ->].
    apply stochastic_upper_bounds in H as (Hk1 & Hu1 & Hl1);
      [|done|auto].
    split; [done|]. split; [by left|right; by split]. }
  destruct (starts_with label "r_u_") eqn:Hru; [|done]. cbn [orb] in *.
  destruct (includes_ub include_bound).
  - apply stochastic_upper_bounds in H as (Hk1 & Hu1 & Hl1);
      [|done|auto].
    split; [done|]. split; [by left|right; by split].
  - apply ret_Ok in H as [-> ->]. split; [done|]. split; by left.
Qed.

Lemma labels_bounds con include_bound c symbols loc s loc' s' :
  m_fold (stochastic_rhs_label con include_bound c) symbols loc s
  = (Ok loc', s') →
  bounds_kept st0 (model s) loc →
  one_row_per_bound symbols →
  (filter (fun label => lower_prefixed label = true) symbols ≠ [] →
   lb loc !! con_id con = None) →
  (filter (fun label => upper_prefixed label = true) symbols ≠ [] →
   ub loc !! con_id con = None) →
  bounds_kept st0 (model s') loc'
  ∧ ∀ j, j ≠ con_id con →
      lb loc' !! j = lb loc !! j ∧ ub loc' !! j = ub loc !! j.
Proof.
  revert loc s. induction symbols as [|label symbols IH];
    intros loc s H Hkept [Hone1 Hone2] Hlow Hup.
  { unfold m_fold, ret in H. by simplify_eq. }
  simpl in H. apply bind_Ok in H as (loc1 & s1 & H1 & H).
  apply stochastic_rhs_label_bounds in H1 as (Hk1 & Hl1 & Hu1);
    [|done| |].
  2: { intros Hp. apply Hlow. by rewrite filter_cons_True. }
  2: { intros Hp. apply Hup. by rewrite filter_cons_True. }
  apply IH in H as [Hk Hframe]; [|done| | |].
  - split; [done|]. intros j Hj. destruct (Hframe j Hj) as [-> ->].
    destruct Hl1 as [->|(_ & v & ->)], Hu1 as [->|(_ & w & ->)];
      by rewrite ?lookup_insert_ne.
  - split.
    + rewrite filter_cons in Hone1. case_decide; simpl in Hone1; lia.
    + rewrite filter_cons in Hone2. case_decide; simpl in Hone2; lia.
  - intros Hrest.
    destruct (lower_prefixed label) eqn:Hp.
    + rewrite filter_cons_True in Hone1 by done. simpl in Hone1.
      destruct (filter (fun label => lower_prefixed label = true) symbols);
        [done|simpl in Hone1; lia].
    + destruct Hl1 as [->|(? & _)]; [|done]. apply Hlow.
      rewrite filter_cons_False; [done|]. by rewrite Hp.
  - intros Hrest.
    destruct (upper_prefixed label) eqn:Hp.
    + rewrite filter_cons_True in Hone2 by done. simpl in Hone2.
      destruct (filter (fun label => upper_prefixed label = true) symbols);
        [done|simpl in Hone2; lia].
    + destruct Hu1 as [->|(? & _)]; [|done]. apply Hup.
      rewrite filter_cons_False; [done|]. by rewrite Hp.
Qed.
End sto_bounds.

Section sto_bounds_entries.
Variable cache : gmap positive positive.
Variable constraint_symbols : gmap positive (list string).
Variable secondstage_constraint_ids : gset positive.
Variable column_order : gmap positive nat.
Variable symbol_map : SymbolMap.
Variable st0 : ModelState.
Hypothesis symbols_wellformed :
  ∀ i symbols, constraint_symbols !! i = Some symbols →
    one_row_per_bound symbols.

Local Abbreviation lb loc := (saved_bounds (modified_constraint_lb loc)).
Local Abbreviation ub loc := (saved_bounds (modified_constraint_ub loc)).

Lemma preserves_bounds_set_repn block key repn :
  preserves (fun s => st_bounds (model s)) (set_repn cache block key repn).
Proof. unfold set_repn. solve_preserves. Qed.

Lemma stochastic_rhs_entry_bounds empty loc entry s loc' s' :
  stochastic_rhs_entry cache constraint_symbols secondstage_constraint_ids
    empty loc entry s = (Ok loc', s') →
  bounds_kept st0 (model s) loc →
  lb loc !! con_id entry.1 = None → ub loc !! con_id entry.1 = None →
  bounds_kept st0 (model s') loc'
  ∧ ∀ j, j ≠ con_id entry.1 →
      lb loc' !! j = lb loc !! j ∧ ub loc' !! j = ub loc !! j.
Proof.
  unfold stochastic_rhs_entry. intros H Hkept Hlow Hup.
  apply bind_Ok in H as ([] & s1 & Hc & H).
  assert (s1 = s) as ->.
  { unfold check_declared_secondstage in Hc.
    destruct (negb empty); [|by apply ret_Ok in Hc as [_ ->]].
    destruct (negb _); [done|]. by apply ret_Ok in Hc as [_ ->]. }
  apply bind_Ok in H as (repn & s2 & Hr & H).
  assert (s2 = s) as ->.
  { unfold get_linear_repn in Hr.
    apply bind_Ok in Hr as (r & s3 & Hg & Hr).
    apply get_repn_state in Hg as ->.
    destruct r; [|done]. by apply ret_Ok in Hr as [_ ->]. }
  apply bind_Ok in H as ([] & s3 & Hs & H).
  apply (preserves_run (fun s => st_bounds (model s)) _ _ _ _
           (preserves_bounds_set_repn _ _ _)) in Hs.
  apply bind_Ok in H as (symbols & s4 & Hl & H).
  apply lift_Ok in Hl as [Hsym ->]. apply getitem_Ok in Hsym.
  apply bind_Ok in H as ([] & s4 & Has & H).
  apply m_assert_Ok in Has as [_ ->].
  eapply labels_bounds; [exact H| | |by intros _|by intros _].
  - eapply bounds_kept_ext; [|exact Hkept]. done.
  - by eapply symbols_wellformed.
Qed.

Lemma stochastic_rhs_entries_bounds empty entries loc s loc' s' :
  m_fold (stochastic_rhs_entry cache constraint_symbols
            secondstage_constraint_ids empty) entries loc s
  = (Ok loc', s') →
  NoDup ((fun e => con_id e.1) <$> entries) →
  (∀ e, e ∈ entries →
     lb loc !! con_id e.1 = None ∧ ub loc !! con_id e.1 = None) →
  bounds_kept st0 (model s) loc →
  bounds_kept st0 (model s') loc'.
Proof.
  revert loc s. induction entries as [|entry entries IH];
    intros loc s H Hnd Hfresh Hkept.
  { unfold m_fold, ret in H. by simplify_eq. }
  simpl in H. apply bind_Ok in H as (loc1 & s1 & H1 & H).
  rewrite fmap_cons in Hnd. apply NoDup_cons in Hnd as [Hnotin Hnd].
  destruct (Hfresh entry) as [Hl Hu]; [by left|].
  apply stochastic_rhs_entry_bounds in H1 as [Hk1 Hframe]; [|done..].
  eapply IH; [exact H|done| |done].
  intros e He. destruct (Hframe (con_id e.1)) as [-> ->].
  - intros Heq. apply Hnotin. rewrite <- Heq.
    apply list_elem_of_fmap. by exists e.
  - apply Hfresh. by right.
Qed.

Lemma stochastic_matrix_entry_bounds empty loc entry s loc' s' :
  stochastic_matrix_entry cache constraint_symbols
    secondstage_constraint_ids column_order symbol_map empty loc entry s
  = (Ok loc', s') →
  st_bounds (model s') = st_bounds (model s)
  ∧ modified_constraint_lb loc' = modified_constraint_lb loc
  ∧ modified_constraint_ub loc' = modified_constraint_ub loc.
Proof.
  intros H. split.
  { eapply (preserves_run (fun s => st_bounds (model s))); [|exact H].
    unfold stochastic_matrix_entry, stochastic_matrix_var,
      check_declared_secondstage, get_linear_repn, get_repn, set_repn.
    solve_preserves. }
  unfold stochastic_matrix_entry in H.
  apply bind_Ok in H as ([] & s1 & _ & H).
  apply bind_Ok in H as (repn & s2 & _ & H).
  apply bind_Ok in H as ([] & s3 & _ & H).
  apply bind_Ok in H as ([] & s4 & _ & H).
  apply bind_Ok in H as (symbols & s5 & _ & H).
  apply bind_Ok in H as (var_list & s6 & _ & H).
  apply bind_Ok in H as (acc & s7 & Hfold & H).
  apply bind_Ok in H as ([] & s8 & _ & H).
  apply ret_Ok in H as [-> ->].
  eapply (m_fold_invariant
            (fun _ (acc : list Z * StoLocals) =>
               modified_constraint_lb acc.2 = modified_constraint_lb loc
               ∧ modified_constraint_ub acc.2 = modified_constraint_ub loc));
    [|exact Hfold|done].
  clear. intros acc var s acc' s' H Hacc.
  unfold stochastic_matrix_var in H.
  apply bind_Ok in H as ([] & s1 & _ & H).
  destruct (find_coef _ _ _ _) as [[i coef]|]; [|done].
  apply bind_Ok in H as (var_label & s2 & _ & H).
  apply bind_Ok in H as (loc1 & s3 & Hfold & H).
  apply ret_Ok in H as [-> ->]. simpl.
  eapply (m_fold_invariant
            (fun _ (l : StoLocals) =>
               modified_constraint_lb l = modified_constraint_lb loc
               ∧ modified_constraint_ub l = modified_constraint_ub loc));
    [|exact Hfold|done].
  clear. intros l label s l' s' H Hl.
  apply bind_Ok in H as ([] & s1 & _ & H).
  apply bind_Ok in H as ([] & s2 & _ & H).
  by apply ret_Ok in H as [-> ->].
Qed.

Lemma stochastic_objective_part_bounds obj annotation loc s loc' s' :
  stochastic_objective_part cache column_order symbol_map obj annotation
    loc s = (Ok loc', s') →
  st_bounds (model s') = st_bounds (model s)
  ∧ modified_constraint_lb loc' = modified_constraint_lb loc
  ∧ modified_constraint_ub loc' = modified_constraint_ub loc.
Proof.
  intros H. split.
  { eapply (preserves_run (fun s => st_bounds (model s))); [|exact H].
    unfold stochastic_objective_part, stochastic_objective_var, get_repn,
      set_repn.
    solve_preserves. }
  unfold stochastic_objective_part in H.
  apply bind_Ok in H as (declared & s1 & _ & H).
  apply bind_Ok in H as (repn & s2 & _ & H).
  destruct repn as [repn|]; [|done].
  apply bind_Ok in H as (label & s3 & _ & H).
  apply bind_Ok in H as (vars & s4 & _ & H).
  apply bind_Ok in H as ([] & s5 & _ & H).
  apply bind_Ok in H as (acc & s6 & Hfold & H).
  apply bind_Ok in H as ([] & s7 & _ & H).
  assert (Hacc : modified_constraint_lb acc.2 = modified_constraint_lb loc
                 ∧ modified_constraint_ub acc.2 = modified_constraint_ub loc).
  { eapply (m_fold_invariant
              (fun _ (acc : list Z * StoLocals) =>
                 modified_constraint_lb acc.2 = modified_constraint_lb loc
                 ∧ modified_constraint_ub acc.2
                   = modified_constraint_ub loc));
      [|exact Hfold|done].
    clear. intros acc var s acc' s' H Hacc.
    unfold stochastic_objective_var in H.
    destruct (find_coef _ _ _ _) as [[i coef]|]; [|done].
    apply bind_Ok in H as (var_label & s2 & _ & H).
    apply bind_Ok in H as ([] & s3 & _ & H).
    apply bind_Ok in H as ([] & s4 & _ & H).
    by apply ret_Ok in H as [-> ->]. }
  destruct declared.2.
  - apply bind_Ok in H as ([] & s8 & _ & H).
    apply bind_Ok in H as ([] & s9 & _ & H).
    apply bind_Ok in H as ([] & s10 & _ & H).
    by apply ret_Ok in H as [-> ->].
  - by apply ret_Ok in H as [-> ->].
Qed.

Lemma bounds_kept_same st1 st2 loc1 loc2 :
  st_bounds st2 = st_bounds st1 →
  modified_constraint_lb loc2 = modified_constraint_lb loc1
  ∧ modified_constraint_ub loc2 = modified_constraint_ub loc1 →
  bounds_kept st0 st1 loc1 → bounds_kept st0 st2 loc2.
Proof.
  intros Hb [Hl Hu] Hkept. unfold bounds_kept. rewrite Hl, Hu.
  by eapply bounds_kept_ext.
Qed.

End sto_bounds_entries.

Lemma write_sto_files_bounds cache constraint_symbols
    secondstage_constraint_ids column_order symbol_map p ann obj s loc s' :
  (∀ i symbols, constraint_symbols !! i = Some symbols →
     one_row_per_bound symbols) →
  write_sto_files cache constraint_symbols secondstage_constraint_ids
    column_order symbol_map p ann obj s = (Ok loc, s') →
  NoDup ((fun e => con_id e.1) <$> stochastic_rhs_entries ann) →
  bounds_kept (model s) (model s') loc.
Proof.
  unfold write_sto_files. intros Hwf H Hnd.
  apply bind_Ok in H as ([] & s1 & Hw & H). apply f_open_Ok in Hw as ->.
  apply bind_Ok in H as ([] & s1 & Hw & H). injection Hw as <-.
  apply bind_Ok in H as ([] & s1 & Hw & H). apply sto_write_Ok in Hw as ->.
  apply bind_Ok in H as (loc1 & s1 & H1 & H).
  assert (Hk1 : bounds_kept (model s) (model s1) loc1).
  { assert (Hinit : bounds_kept (model s) (model s)
              {| modified_constraint_lb := []; modified_constraint_ub := [];
                 stochastic_rhs_count := 0; stochastic_matrix_count := 0;
                 stochastic_cost_count := 0 |}).
    { split; [done|]. split; apply NoDup_nil_2. }
    destruct (stochastic_rhs ann).
    - eapply stochastic_rhs_entries_bounds; [exact Hwf|exact H1|done|done|done].
    - by apply ret_Ok in H1 as [-> ->]. }
  apply bind_Ok in H as (loc2 & s2 & H2 & H).
  assert (Hk2 : bounds_kept (model s) (model s2) loc2).
  { destruct (stochastic_matrix ann).
    - revert H2 Hk1. generalize (stochastic_matrix_entries ann). clear.
      intros entries. revert loc1 s1.
      induction entries as [|entry entries IH]; intros loc1 s1 H2 Hk1.
      { unfold m_fold, ret in H2. by simplify_eq. }
      simpl in H2. apply bind_Ok in H2 as (loc3 & s3 & H3 & H2).
      eapply IH; [exact H2|].
      apply stochastic_matrix_entry_bounds in H3 as [Hb Hl].
      by eapply bounds_kept_same.
    - by apply ret_Ok in H2 as [-> ->]. }
  destruct (stochastic_objective ann).
  - apply stochastic_objective_part_bounds in H as [Hb Hl].
    by eapply bounds_kept_same.
  - by apply ret_Ok in H as [-> ->].
Qed.

Lemma resolve_rhs_entries_NoDup reference_model all annotations :
  resolve_annotations reference_model all = Ok annotations →
  NoDup (con_id <$> all) →
  (∀ name annotation,
     (name, annotation) ∈ rhs_annotations reference_model →
     NoDup ((fun e => con_id e.1) <$> expand_entries annotation)) →
  NoDup ((fun e => con_id e.1) <$> stochastic_rhs_entries annotations).
Proof.
  unfold resolve_annotations. intros H Hall Hdecl.
  apply result_bind_Ok in H as (rhs & Hrhs & H).
  apply result_bind_Ok in H as (matrix & _ & H).
  apply result_bind_Ok in H as (located & _ & H).
  apply result_bind_Ok in H as (objective & _ & H).
  apply result_bind_Ok in H as (varbounds & _ & H).
  destruct (0 <? length varbounds)%nat; [done|].
  destruct (is_None rhs.1.1 && _ && _); [done|].
  injection H as <-. cbn [stochastic_rhs_entries].
  unfold resolve_constraint_annotation in Hrhs.
  apply result_bind_Ok in Hrhs as (found & Hfound & Hrhs).
  unfold locate_annotations in Hfound.
  destruct (1 <? length (rhs_annotations reference_model))%nat; [done|].
  injection Hfound as <-.
  destruct (rhs_annotations reference_model) as [|[name annotation] rest]
    eqn:Hlist.
  { injection Hrhs as <-. apply NoDup_nil_2. }
  apply result_bind_Ok in Hrhs as ([] & _ & Hrhs).
  destruct (has_declarations annotation).
  - destruct (length _ =? 0)%nat; [done|]. injection Hrhs as <-.
    cbn [fst snd]. rewrite py_sorted_Permutation.
    apply (Hdecl name). by left.
  - injection Hrhs as <-. cbn [fst snd].
    rewrite <- list_fmap_compose. done.
Qed.

Lemma make_constraint_symbols_lookup m i symbols :
  make_constraint_symbols m !! i = Some symbols →
  ∃ con, (symbols, con) ∈ firststage_cons m ++ secondstage_cons m.
Proof.
  unfold make_constraint_symbols.
  assert (H : ∀ l (acc : gmap positive (list string)),
            foldl (fun acc (entry : list string * ConstraintData) =>
                     <[con_id entry.2 := entry.1]> acc) acc l !! i
            = Some symbols →
            acc !! i = Some symbols ∨ ∃ con, (symbols, con) ∈ l).
  { induction l as [|[a c] l IH]; intros acc Hl; [by left|].
    simpl in Hl. apply IH in Hl as [Hl|(con & Hin)].
    - destruct (decide (con_id c = i)) as [<-|Hne].
      + rewrite lookup_insert_eq in Hl. injection Hl as ->.
        right. exists c. by left.
      + rewrite lookup_insert_ne in Hl by done. by left.
    - right. exists con. by right. }
  intros Hl. apply H in Hl as [Hl|?]; [|done].
  by rewrite lookup_empty in Hl.
Qed.

Lemma one_row_per_bound_Permutation l1 l2 :
  l1 ≡ₚ l2 → one_row_per_bound l1 → one_row_per_bound l2.
Proof. intros Hp. unfold one_row_per_bound. by rewrite Hp. Qed.


Lemma length_one_row_per_bound l : (length l ≤ 1)%nat → one_row_per_bound l.
Proof.
  intros Hl. split.
  - etrans; [apply length_filter|done].
  - etrans; [apply length_filter|done].
Defined.

Lemma table_writer_rows_wellformed blocks table :
  writer_rows_wellformed
    (Examples.table_writer blocks table Examples.symbols).
Proof.
  intros ff fn io st name sm st' Hw symbol.
  unfold Examples.table_writer in Hw. injection Hw as _ <- _.
  apply length_one_row_per_bound. unfold aliases_of.
  assert (H11 : byObject Examples.symbols !! 11%positive = Some "c1")
    by (vm_compute; reflexivity).
  assert (H12 : byObject Examples.symbols !! 12%positive = Some "c2")
    by (vm_compute; reflexivity).
  assert (H13 : byObject Examples.symbols !! 13%positive = Some "c3")
    by (vm_compute; reflexivity).
  cbn [Examples.symbols aliases]. rewrite !filter_cons, filter_nil.
  cbn [snd]. rewrite H11, H12, H13.
  repeat case_decide; simplify_eq; simpl; lia.
Defined.

Lemma good_model_listed_once : constraints_listed_once Examples.good_model.
Proof.
  split.
  - vm_compute. repeat constructor; set_solver.
  - intros name annotation Hin. apply list_elem_of_singleton in Hin.
    injection Hin as _ ->. vm_compute. repeat constructor; set_solver.
Defined.


(** * Further properties of the conversion of a scenario tree *)

Lemma io_bind_Ok {A B} (m : IO A) (k : A → IO B) fs b fs' :
  io_bind m k fs = (IoOk b, fs') →
  ∃ a fs1, m fs = (IoOk a, fs1) ∧ k a fs1 = (IoOk b, fs').
Proof.
  unfold io_bind. destruct (m fs) as [[a|e] fs1]; [eauto|discriminate].
Qed.

Lemma io_lift_Ok {A} (r : result A) fs a fs' :
  io_lift r fs = (IoOk a, fs') → r = Ok a ∧ fs' = fs.
Proof. destruct r; simpl; intros H; by simplify_eq. Qed.

Lemma io_ret_Ok {A} (x a : A) fs fs' :
  io_ret x fs = (IoOk a, fs') → a = x ∧ fs' = fs.
Proof. unfold io_ret. intros H. by simplify_eq. Qed.

Lemma io_assert_Ok b fs u fs' :
  io_assert b fs = (IoOk u, fs') → b = true ∧ fs' = fs.
Proof.
  unfold io_assert. intros H. apply io_lift_Ok in H as [H ->].
  by destruct b.
Qed.

Lemma io_for_each_Ok {A} (body : A → IO unit) (P : FileSystem → Prop)
    (Q : A → Prop) l fs u fs' :
  (∀ x fs1 u1 fs2, x ∈ l → P fs1 → body x fs1 = (IoOk u1, fs2) →
     P fs2 ∧ Q x) →
  P fs →
  io_for_each body l fs = (IoOk u, fs') →
  P fs' ∧ Forall Q l.
Proof.
  revert fs. induction l as [|x l IH]; intros fs Hbody HP Hrun.
  - apply io_ret_Ok in Hrun as [_ ->]. auto.
  - simpl in Hrun. apply io_bind_Ok in Hrun as (u1 & fs1 & H1 & Hrun).
    destruct (Hbody x fs u1 fs1) as [HP1 HQ]; [left|done..|].
    destruct (IH fs1) as [HP' HQ']; [|done..|].
    + intros y fs2 u2 fs3 Hy. apply Hbody. by right.
    + split; [done|]. by constructor.
Qed.

(** The names of the files of the output directory differ. *)
Lemma suffix_ne (basename x y : string) :
  x ≠ y → basename +:+ x ≠ basename +:+ y.
Proof. intros Hne H. by apply String.app_inj in H. Qed.

Lemma files_differ_Ok has_diff a b fs rc fs' :
  files_differ has_diff a b fs = (IoOk rc, fs') →
  fs' = fs ∧
  (rc = false → ∃ content, read a fs = Some content ∧ read b fs = Some content).
Proof.
  unfold files_differ. intros H.
  destruct (read a fs) as [x|] eqn:Ha, (read b fs) as [y|] eqn:Hb;
    try destruct has_diff; simplify_eq; (split; [done|]); try done.
  all: intros Heq; apply negb_false_iff, String.eqb_eq in Heq as ->; eauto.
Qed.

Lemma check_same_Ok has_diff basename kind scenario copy error fs u fs' :
  check_same has_diff basename kind scenario copy error fs = (IoOk u, fs') →
  fs' = fs ∧
  ∃ content, read (scenario_file basename kind scenario) fs = Some content ∧
             read (InOutput (basename +:+ copy)) fs = Some content.
Proof.
  unfold check_same. intros H.
  apply io_bind_Ok in H as (rc & fs1 & H1 & H).
  apply files_differ_Ok in H1 as [-> Hrc].
  destruct rc; [discriminate|]. apply io_ret_Ok in H as [_ ->]. auto.
Qed.

(** What a check loop that returns has found, for every scenario. *)
Lemma check_loop_Ok has_diff basename kind copy error scenarios fs u fs' :
  io_for_each
    (fun scenario => check_same has_diff basename kind scenario copy error)
    scenarios fs = (IoOk u, fs') →
  fs' = fs ∧
  Forall (fun scenario =>
    ∃ content, read (scenario_file basename kind scenario) fs = Some content ∧
               read (InOutput (basename +:+ copy)) fs = Some content)
    scenarios.
Proof.
  intros H.
  eapply (io_for_each_Ok _ (fun fs1 => fs1 = fs)) in H; [exact H| |done].
  intros x fs1 u1 fs2 _ -> Hx. by apply check_same_Ok in Hx as [-> ?].
Qed.

Lemma consistency_checks_Ok has_diff basename core_format scenarios fs u fs' :
  consistency_checks has_diff basename core_format scenarios fs
    = (IoOk u, fs') →
  fs' = fs ∧
  ∀ scenario file, scenario ∈ scenarios →
    file ∈ auxiliary_files core_format ∨ file = (".tim", tim_kind) →
    ∃ content,
      read (scenario_file basename file.2 scenario) fs = Some content ∧
      read (InOutput (basename +:+ file.1)) fs = Some content.
Proof.
  unfold consistency_checks. intros H.
  apply io_bind_Ok in H as (u1 & fs1 & H1 & H).
  apply io_bind_Ok in H as (u2 & fs2 & H2 & H).
  apply io_bind_Ok in H as (u3 & fs3 & H3 & H).
  eapply (io_for_each_Ok _ (fun fs1 => fs1 = fs)
            (fun scenario =>
               (∃ content,
                  read (scenario_file basename row_kind scenario) fs
                    = Some content ∧
                  read (InOutput (basename +:+ ".row")) fs = Some content) ∧
               (∃ content,
                  read (scenario_file basename col_kind scenario) fs
                    = Some content ∧
                  read (InOutput (basename +:+ ".col")) fs = Some content)))
    in H1 as [-> Hrc]; [| |done].
  2:{ intros x fs4 u4 fs5 _ -> Hx.
      apply io_bind_Ok in Hx as (u5 & fs6 & Hr & Hc).
      apply check_same_Ok in Hr as [-> Hr].
      apply check_same_Ok in Hc as [-> Hc]. auto. }
  apply check_loop_Ok in H2 as [-> Htim].
  apply check_loop_Ok in H3 as [-> Hstruct].
  apply check_loop_Ok in H as [-> Hdet].
  split; [done|]. intros scenario file Hin Hfile.
  rewrite Forall_forall in Hrc, Htim, Hstruct, Hdet.
  unfold auxiliary_files in Hfile.
  rewrite !elem_of_cons, elem_of_nil in Hfile.
  destruct Hfile as [[->|[->|[->|[->|[]]]]]| ->]; simpl.
  - by apply Hrc.
  - by apply Hrc.
  - by apply Hstruct.
  - by apply Hdet.
  - by apply Htim.
Qed.

(** The copies of the files of the reference scenario. *)
Lemma copy_reference_Ok basename reference file fs u fs' :
  copy_reference basename reference file fs = (IoOk u, fs') →
  ∃ content,
    read (scenario_file basename file.2 reference) fs = Some content ∧
    fs' = {| output_files :=
               <[basename +:+ file.1 := content]> (output_files fs);
             scenario_files := scenario_files fs |}.
Proof.
  unfold copy_reference. intros H.
  apply io_bind_Ok in H as (u1 & fs1 & H1 & H).
  unfold _safe_remove_file in H1. simplify_eq.
  unfold copy2, scenario_file, read in H. cbn [scenario_files] in H.
  unfold scenario_file, read.
  destruct (scenario_files fs ≫= _) as [content|]; [|discriminate].
  exists content. split; [done|].
  unfold write_file in H. cbn [output_files scenario_files] in H.
  rewrite insert_delete_eq in H. by simplify_eq.
Qed.

Lemma copies_Ok basename reference files fs u fs' :
  NoDup files.*1 →
  io_for_each (copy_reference basename reference) files fs = (IoOk u, fs') →
  scenario_files fs' = scenario_files fs ∧
  (∀ file, file ∈ files →
     ∃ content,
       read (scenario_file basename file.2 reference) fs = Some content ∧
       output_files fs' !! (basename +:+ file.1) = Some content) ∧
  (∀ name, name ∉ (fun file => basename +:+ file.1) <$> files →
     output_files fs' !! name = output_files fs !! name).
Proof.
  revert fs. induction files as [|file files IH]; intros fs Hnd H.
  - apply io_ret_Ok in H as [_ ->]. split; [done|].
    split; [|done]. intros file Hin. by apply elem_of_nil in Hin.
  - simpl in H. apply io_bind_Ok in H as (u1 & fs1 & H1 & H).
    apply copy_reference_Ok in H1 as (content & Hsrc & ->).
    rewrite fmap_cons in Hnd. apply NoDup_cons in Hnd as [Hnotin Hnd].
    apply IH in H as (Hscen & Hfiles & Hframe); [|done].
    cbn [scenario_files output_files] in *.
    split; [done|]. split.
    + intros f Hf. apply elem_of_cons in Hf as [->|Hf].
      * exists content. split; [done|].
        rewrite Hframe, lookup_insert_eq; [done|].
        intros Hin. apply list_elem_of_fmap in Hin as (g & Hg & Hin).
        apply String.app_inj in Hg. apply Hnotin.
        apply list_elem_of_fmap. eauto.
      * destruct (Hfiles f Hf) as (c & Hc & Hout). exists c. split; [|done].
        revert Hc. unfold scenario_file, read. by cbn [scenario_files].
    + intros name Hname. rewrite fmap_cons in Hname.
      apply not_elem_of_cons in Hname as [Hne Hname].
      by rewrite Hframe, lookup_insert_ne.
Qed.

Lemma path_exists_Ok p fs found fs' :
  path_exists p fs = (IoOk found, fs') →
  fs' = fs ∧ found = bool_decide (is_Some (read p fs)).
Proof. unfold path_exists. intros H. by simplify_eq. Qed.

(** The merged [.sto] file. *)
Lemma merge_loop_Ok basename scenarios fs u fs' acc :
  output_files fs !! (basename +:+ ".sto") = Some acc →
  io_for_each
    (fun scenario =>
       let scenario_sto_filename :=
         scenario_file basename sto_kind scenario in
       let* found := path_exists scenario_sto_filename in
       let* _ := io_assert found in
       copyfileobj scenario_sto_filename (InOutput (basename +:+ ".sto")))
    scenarios fs = (IoOk u, fs') →
  ∃ contents text,
    Forall2 (fun scenario content =>
               read (scenario_file basename sto_kind scenario) fs
                 = Some content) scenarios contents ∧
    fs' = {| output_files :=
               <[basename +:+ ".sto" := text]> (output_files fs);
             scenario_files := scenario_files fs |} ∧
    ∀ tail, text +:+ tail = acc +:+ foldr String.append tail contents.
Proof.
  revert fs acc. induction scenarios as [|scenario scenarios IH];
    intros fs acc Hacc H.
  - apply io_ret_Ok in H as [_ ->]. exists [], acc.
    split; [constructor|]. split; [|done].
    rewrite insert_id by done. by destruct fs.
  - simpl in H. apply io_bind_Ok in H as (u1 & fs1 & H1 & H).
    apply io_bind_Ok in H1 as (found & fs2 & Hfound & H1).
    apply path_exists_Ok in Hfound as [-> _].
    apply io_bind_Ok in H1 as (u2 & fs3 & Hassert & H1).
    apply io_assert_Ok in Hassert as [_ ->].
    unfold copyfileobj in H1.
    destruct (read (scenario_file basename sto_kind scenario) fs)
      as [content|] eqn:Hsrc; [|discriminate].
    unfold append_file in H1. cbn [read] in H1. rewrite Hacc in H1.
    unfold write_file in H1. simplify_eq.
    eapply (IH _ (acc +:+ content)) in H as (contents & text & Hall & -> & Htext).
    2:{ cbn [output_files]. by rewrite lookup_insert_eq. }
    exists (content :: contents), text. split; [|split].
    + constructor; [done|]. eapply Forall2_impl; [exact Hall|].
      intros x y. unfold scenario_file, read. by cbn [scenario_files].
    + cbn [output_files scenario_files]. by rewrite insert_insert_eq.
    + intros tail. rewrite Htext. cbn [foldr]. by rewrite append_assoc.
Qed.

Lemma merge_sto_Ok basename scenarios fs u fs' :
  merge_sto basename scenarios fs = (IoOk u, fs') →
  ∃ contents,
    Forall2 (fun scenario content =>
               read (scenario_file basename sto_kind scenario) fs
                 = Some content) scenarios contents ∧
    fs' = {| output_files :=
               <[basename +:+ ".sto" := merged_sto basename contents]>
                 (output_files fs);
             scenario_files := scenario_files fs |}.
Proof.
  unfold merge_sto. intros H.
  apply io_bind_Ok in H as (u1 & fs1 & H1 & H).
  unfold _safe_remove_file in H1. simplify_eq.
  apply io_bind_Ok in H as (u1 & fs1 & H1 & H).
  unfold write_file in H1. cbn [output_files scenario_files] in H1.
  rewrite insert_delete_eq in H1. simplify_eq.
  apply io_bind_Ok in H as (u1 & fs1 & H1 & H).
  unfold append_file, read in H1. cbn [output_files] in H1.
  rewrite lookup_insert_eq in H1. unfold write_file in H1.
  cbn [output_files scenario_files] in H1. rewrite insert_insert_eq in H1.
  simplify_eq.
  apply io_bind_Ok in H as (u1 & fs1 & H1 & H).
  unfold append_file, read in H1. cbn [output_files] in H1.
  rewrite lookup_insert_eq in H1. unfold write_file in H1.
  cbn [output_files scenario_files] in H1. rewrite insert_insert_eq in H1.
  simplify_eq.
  apply io_bind_Ok in H as (u1 & fs1 & H1 & H).
  eapply merge_loop_Ok in H1 as (contents & text & Hall & -> & Htext).
  2:{ cbn [output_files]. by rewrite lookup_insert_eq. }
  exists contents. split.
  { eapply Forall2_impl; [exact Hall|]. intros x y.
    unfold scenario_file, read. by cbn [scenario_files]. }
  unfold append_file, read in H. cbn [output_files] in H.
  rewrite lookup_insert_eq in H. unfold write_file in H.
  cbn [output_files scenario_files] in H. rewrite !insert_insert_eq in H.
  simplify_eq. f_equal. f_equal. rewrite Htext. unfold merged_sto.
  change ("" +:+ ?x) with x. by rewrite !append_assoc.
Qed.

(** The removal of the auxiliary files. *)
Lemma remove_auxiliary_run basename suffixes fs :
  ∃ fs',
    io_for_each
      (fun copy => _safe_remove_file (InOutput (basename +:+ copy)))
      suffixes fs = (IoOk tt, fs') ∧
    scenario_files fs' = scenario_files fs ∧
    ∀ name,
      output_files fs' !! name =
        if decide (name ∈ (fun copy => basename +:+ copy) <$> suffixes)
        then None else output_files fs !! name.
Proof.
  revert fs. induction suffixes as [|copy suffixes IH]; intros fs.
  - exists fs. split; [done|]. split; [done|]. intros name.
    case_decide as Hin; [|done]. by apply elem_of_nil in Hin.
  - destruct (IH {| output_files := delete (basename +:+ copy) (output_files fs);
                    scenario_files := scenario_files fs |})
      as (fs' & Hrun & Hscen & Hout).
    exists fs'. split; [exact Hrun|]. split; [exact Hscen|].
    intros name. rewrite Hout. cbn [output_files]. rewrite fmap_cons.
    destruct (decide (name = basename +:+ copy)) as [->|Hne].
    + rewrite lookup_delete_eq. rewrite (decide_True (P := _ ∈ _ :: _));
        [by case_decide|left].
    + rewrite lookup_delete_ne by done.
      repeat case_decide; try done.
      * exfalso. set_solver.
      * exfalso. set_solver.
Qed.

(** The removal of the files of the scenarios. *)
Lemma io_for_each_app {A} (body : A → IO unit) l1 l2 fs :
  io_for_each body (l1 ++ l2) fs =
  (let* _ := io_for_each body l1 in io_for_each body l2) fs.
Proof.
  revert fs. induction l1 as [|x l1 IH]; intros fs; [done|].
  simpl. unfold io_bind in *. destruct (body x fs) as [[u|e] fs1]; [|done].
  apply IH.
Qed.

Lemma io_for_each_fmap {A B} (f : A → B) (body : B → IO unit) l fs :
  io_for_each (fun x => body (f x)) l fs = io_for_each body (f <$> l) fs.
Proof.
  revert fs. induction l as [|x l IH]; intros fs; [done|].
  simpl. unfold io_bind. destruct (body (f x) fs) as [[u|e] fs1]; [|done].
  apply IH.
Qed.

Lemma fmap_as_bind {A B} (f : A → B) (l : list A) :
  f <$> l = l ≫= fun x => [f x].
Proof. induction l as [|x l IH]; [done|]. by rewrite fmap_cons, bind_cons, IH. Qed.

Lemma remove_loop_flat basename core_format scenarios fs :
  io_for_each
    (fun scenario =>
       io_for_each
         (fun kind => remove_existing (scenario_file basename kind scenario))
         (scenario_kinds core_format))
    scenarios fs =
  io_for_each (fun name => remove_existing (InScenario name))
    (scenario_file_names basename core_format scenarios) fs.
Proof.
  unfold scenario_file_names.
  revert fs. induction scenarios as [|scenario scenarios IH]; intros fs;
    [done|].
  cbn [mbind list_bind]. change (list_bind ?f ?l) with (l ≫= f).
  rewrite io_for_each_app. cbn [io_for_each]. unfold io_bind.
  replace (scenario_kinds core_format ≫= _)
    with ((fun kind => basename +:+ kind +:+ scenario)
            <$> scenario_kinds core_format).
  2:{ apply fmap_as_bind. }
  rewrite <- (io_for_each_fmap
    (fun kind => basename +:+ kind +:+ scenario)
    (fun name => remove_existing (InScenario name))).
  unfold scenario_file.
  destruct (io_for_each _ (scenario_kinds core_format) fs) as [[u|e] fs1];
    [|done].
  apply IH.
Qed.

Lemma remove_existing_Ok name fs u fs' :
  remove_existing (InScenario name) fs = (IoOk u, fs') →
  is_Some (read (InScenario name) fs) ∧
  fs' = {| output_files := output_files fs;
           scenario_files := delete name <$> scenario_files fs |}.
Proof.
  unfold remove_existing. intros H.
  apply io_bind_Ok in H as (found & fs1 & Hfound & H).
  apply path_exists_Ok in Hfound as [-> ->].
  apply io_bind_Ok in H as (u1 & fs1 & Hassert & H).
  apply io_assert_Ok in Hassert as [Hfound ->].
  apply bool_decide_eq_true in Hfound.
  unfold _safe_remove_file in H. by simplify_eq.
Qed.

Lemma remove_flat_Ok names fs u fs' :
  io_for_each (fun name => remove_existing (InScenario name)) names fs
    = (IoOk u, fs') →
  output_files fs' = output_files fs ∧
  (is_Some (scenario_files fs') ↔ is_Some (scenario_files fs)) ∧
  NoDup names ∧
  (∀ name, name ∈ names → is_Some (read (InScenario name) fs)) ∧
  (∀ name, read (InScenario name) fs' =
     if decide (name ∈ names) then None else read (InScenario name) fs).
Proof.
  revert fs. induction names as [|n names IH]; intros fs H.
  - apply io_ret_Ok in H as [_ ->]. split; [done|]. split; [done|].
    split; [constructor|]. split.
    + intros name Hin. by apply elem_of_nil in Hin.
    + intros name. case_decide as Hin; [|done]. by apply elem_of_nil in Hin.
  - simpl in H. apply io_bind_Ok in H as (u1 & fs1 & H1 & H).
    apply remove_existing_Ok in H1 as [Hn ->].
    apply IH in H as (Hout & Hdir & Hnd & Hall & Hread).
    cbn [output_files scenario_files] in *.
    assert (Hstep : ∀ name,
      read (InScenario name)
        {| output_files := output_files fs;
           scenario_files := delete n <$> scenario_files fs |} =
      if decide (name = n) then None else read (InScenario name) fs).
    { intros name. unfold read. cbn [scenario_files].
      destruct (scenario_files fs) as [d|]; simpl; [|by case_decide].
      case_decide as Heq; [subst; apply lookup_delete_eq|].
      by apply lookup_delete_ne. }
    split; [done|]. split.
    { rewrite Hdir. by destruct (scenario_files fs). }
    split.
    { constructor; [|done]. intros Hin. apply Hall in Hin.
      rewrite Hstep, decide_True in Hin by done. by destruct Hin. }
    split.
    + intros name Hin. apply elem_of_cons in Hin as [->|Hin]; [done|].
      apply Hall in Hin. rewrite Hstep in Hin.
      case_decide; [by destruct Hin|done].
    + intros name. rewrite Hread, Hstep.
      repeat case_decide; try done; exfalso; set_solver.
Qed.

Lemma remove_scenario_files_Ok basename core_format scenarios fs u fs' :
  remove_scenario_files basename core_format scenarios fs = (IoOk u, fs') →
  let names := scenario_file_names basename core_format scenarios in
  output_files fs' = output_files fs ∧
  NoDup names ∧
  (∀ name, name ∈ names → is_Some (read (InScenario name) fs)) ∧
  (∀ name, read (InScenario name) fs' =
     if decide (name ∈ names) then None else read (InScenario name) fs) ∧
  (scenario_files fs' = None ↔
   ∀ name, name ∉ names → read (InScenario name) fs = None).
Proof.
  unfold remove_scenario_files. intros H. cbv zeta.
  set (names := scenario_file_names basename core_format scenarios).
  apply io_bind_Ok in H as (u1 & fs1 & H1 & H).
  rewrite remove_loop_flat in H1. fold names in H1.
  apply remove_flat_Ok in H1 as (Hout & Hdir & Hnd & Hall & Hread).
  unfold remove_scenario_directory_if_empty in H.
  destruct (scenario_files fs1) as [d|] eqn:Hd; [|discriminate].
  assert (Hlook : ∀ name, d !! name =
    if decide (name ∈ names) then None else read (InScenario name) fs).
  { intros name. rewrite <- Hread. unfold read. by rewrite Hd. }
  case_bool_decide as Hempty; simplify_eq; cbn [output_files scenario_files].
  - split; [done|]. split; [done|]. split; [done|]. split.
    + intros name.
      change (read (InScenario name) _) with (@None string) at 1.
      case_decide as Hin; [done|].
      specialize (Hlook name). rewrite decide_False in Hlook by done.
      by rewrite <- Hlook, lookup_empty.
    + split; [|done]. intros _ name Hin.
      specialize (Hlook name). rewrite decide_False in Hlook by done.
      by rewrite <- Hlook, lookup_empty.
  - split; [done|]. split; [done|]. split; [done|]. split; [done|].
    rewrite Hd. split; [done|]. intros Hnone. exfalso. apply Hempty.
    apply map_empty. intros name. rewrite Hlook.
    case_decide; [done|]. by apply Hnone.
Qed.

(** The steps of a conversion that returns. *)
Lemma convert_external_steps basename manager core_format enforce io_options
    disable_consistency_checks keep_scenario_files keep_auxiliary_files
    has_diff fs stats fs' :
  convert_external basename manager core_format enforce io_options
    disable_consistency_checks keep_scenario_files keep_auxiliary_files
    has_diff fs = (IoOk stats, fs') →
  ∃ counts reference reference_counts fs3 fs4 fs5 u3 u4 u5 u6 u7,
    contains_bundles manager = false ∧
    invoke_function manager basename core_format enforce io_options
      (make_scenario_directory fs).2
      = (IoOk counts,
         converted basename manager core_format enforce io_options fs) ∧
    head (scenarios manager) = Some reference ∧
    counts !! reference = Some reference_counts ∧
    io_for_each (copy_reference basename reference)
      (copied_files core_format)
      (converted basename manager core_format enforce io_options fs)
      = (IoOk u3, fs3) ∧
    merge_sto basename (scenarios manager) fs3 = (IoOk u4, fs4) ∧
    (if negb disable_consistency_checks
     then consistency_checks has_diff basename core_format
            (scenarios manager)
     else io_ret tt) fs4 = (IoOk u5, fs4) ∧
    (if negb keep_auxiliary_files
     then
       io_for_each
         (fun copy => _safe_remove_file (InOutput (basename +:+ copy)))
         (auxiliary_files core_format).*1
     else io_ret tt) fs4 = (IoOk u6, fs5) ∧
    (if negb keep_scenario_files
     then remove_scenario_files basename core_format (scenarios manager)
     else io_ret tt) fs5 = (IoOk u7, fs') ∧
    stats_firststage_variable_count stats
      = firststage_variable_count reference_counts ∧
    scenario_count stats = length (scenarios manager).
Proof.
  unfold convert_external. intros H.
  destruct (contains_bundles manager) eqn:Hbundles; [discriminate|].
  apply io_bind_Ok in H as (u1 & fs1 & H1 & H).
  apply io_bind_Ok in H as (counts & fs2 & H2 & H).
  apply io_bind_Ok in H as (reference & fs2' & Href & H).
  apply io_lift_Ok in Href as [Href ->].
  apply io_bind_Ok in H as (reference_counts & fs2' & Hcounts & H).
  apply io_lift_Ok in Hcounts as [Hcounts ->].
  apply io_bind_Ok in H as (u3 & fs3 & H3 & H).
  apply io_bind_Ok in H as (u4 & fs4 & H4 & H).
  apply io_bind_Ok in H as (u5 & fs4' & H5 & H).
  apply io_bind_Ok in H as (u6 & fs5 & H6 & H).
  apply io_bind_Ok in H as (u7 & fs6 & H7 & H).
  apply io_ret_Ok in H as [-> ->].
  assert (Hfs1 : fs1 = (make_scenario_directory fs).2) by by rewrite H1.
  assert (Hfs2 :
    fs2 = converted basename manager core_format enforce io_options fs).
  { unfold converted. by rewrite <- Hfs1, H2. }
  assert (fs4' = fs4) as ->.
  { destruct disable_consistency_checks; simpl in H5.
    - by apply io_ret_Ok in H5 as [_ H5].
    - destruct (consistency_checks_Ok _ _ _ _ _ _ _ H5) as [Heq _].
      exact Heq. }
  subst fs1 fs2.
  exists counts, reference, reference_counts, fs3, fs4, fs5, u3, u4, u5, u6, u7.
  split; [done|]. split; [done|]. split.
  { revert Href. clear. unfold first_item.
    by destruct (scenarios manager); intros; simplify_eq. }
  split.
  { revert Hcounts. clear. unfold getitem.
    by destruct (counts !! reference); intros; simplify_eq. }
  do 5 (split; [done|]). done.
Qed.

Lemma copied_files_NoDup core_format : NoDup (copied_files core_format).*1.
Proof. destruct core_format; apply (bool_decide_unpack _); by vm_compute. Qed.

Lemma sto_not_copied basename core_format :
  basename +:+ ".sto"
    ∉ (fun file : string * string => basename +:+ file.1)
        <$> copied_files core_format.
Proof.
  intros Hin. apply list_elem_of_fmap in Hin as (file & Heq & Hin).
  apply String.app_inj in Heq.
  unfold copied_files in Hin. rewrite !elem_of_cons, elem_of_nil in Hin.
  destruct core_format;
    destruct Hin as [->|[->|[->|[->|[->|[->|[]]]]]]]; discriminate.
Qed.

Lemma sto_not_auxiliary basename core_format :
  basename +:+ ".sto"
    ∉ (fun copy => basename +:+ copy) <$> (auxiliary_files core_format).*1.
Proof.
  intros Hin. apply list_elem_of_fmap in Hin as (copy & Heq & Hin).
  apply String.app_inj in Heq. subst copy.
  unfold auxiliary_files in Hin. cbn [fmap list_fmap fst] in Hin.
  rewrite !elem_of_cons, elem_of_nil in Hin.
  destruct core_format; destruct Hin as [?|[?|[?|[?|[]]]]]; discriminate.
Qed.

Lemma auxiliary_files_copied core_format file :
  file ∈ auxiliary_files core_format → file ∈ copied_files core_format.
Proof.
  unfold auxiliary_files, copied_files.
  rewrite !elem_of_cons, !elem_of_nil. tauto.
Qed.

Lemma auxiliary_by_suffix core_format file :
  file ∈ copied_files core_format →
  file.1 ∈ (auxiliary_files core_format).*1 →
  file ∈ auxiliary_files core_format.
Proof.
  unfold auxiliary_files, copied_files. cbn [fmap list_fmap fst].
  rewrite !elem_of_cons, !elem_of_nil.
  destruct core_format;
    intros [->|[->|[->|[->|[->|[->|[]]]]]]] [?|[?|[?|[?|[]]]]];
    try discriminate; tauto.
Qed.

(** What the output directory holds once the copies have been made, the
    [.sto] files merged and the auxiliary files removed. *)
Lemma output_files_after basename reference core_format scenarios
    keep_auxiliary_files fs fs3 fs4 fs5 u3 u4 u6 :
  io_for_each (copy_reference basename reference)
    (copied_files core_format) fs = (IoOk u3, fs3) →
  merge_sto basename scenarios fs3 = (IoOk u4, fs4) →
  (if negb keep_auxiliary_files
   then
     io_for_each
       (fun copy => _safe_remove_file (InOutput (basename +:+ copy)))
       (auxiliary_files core_format).*1
   else io_ret tt) fs4 = (IoOk u6, fs5) →
  scenario_files fs4 = scenario_files fs ∧
  scenario_files fs5 = scenario_files fs ∧
  (∀ file, file ∈ copied_files core_format →
     ∃ content,
       read (scenario_file basename file.2 reference) fs = Some content ∧
       output_files fs4 !! (basename +:+ file.1) = Some content ∧
       output_files fs5 !! (basename +:+ file.1) =
         if negb keep_auxiliary_files
            && bool_decide (file ∈ auxiliary_files core_format)
         then None else Some content) ∧
  (∃ contents,
     Forall2 (fun scenario content =>
                read (scenario_file basename sto_kind scenario) fs
                  = Some content) scenarios contents ∧
     output_files fs5 !! (basename +:+ ".sto")
       = Some (merged_sto basename contents)) ∧
  (∀ name, name ∉ output_file_names basename core_format →
     output_files fs5 !! name = output_files fs !! name).
Proof.
  intros H3 H4 H6.
  apply copies_Ok in H3 as (Hscen3 & Hcopies & Hframe3);
    [|apply copied_files_NoDup].
  apply merge_sto_Ok in H4 as (contents & Hcontents & ->).
  cbn [output_files scenario_files] in *.
  assert (Hout5 : ∀ name,
    output_files fs5 !! name =
      if negb keep_auxiliary_files
         && bool_decide (name ∈ (fun copy => basename +:+ copy)
                                  <$> (auxiliary_files core_format).*1)
      then None
      else <[basename +:+ ".sto" := merged_sto basename contents]>
             (output_files fs3) !! name).
  { destruct keep_auxiliary_files; cbn [negb andb] in H6 |- *.
    - apply io_ret_Ok in H6 as [_ ->]. done.
    - destruct (remove_auxiliary_run basename
                  (auxiliary_files core_format).*1
                  {| output_files :=
                       <[basename +:+ ".sto" := merged_sto basename contents]>
                         (output_files fs3);
                     scenario_files := scenario_files fs3 |})
        as (fs5' & Hrun & _ & Hout).
      rewrite Hrun in H6. simplify_eq. intros name. rewrite Hout.
      cbn [output_files]. by case_decide; case_bool_decide. }
  assert (Hscen5 : scenario_files fs5 = scenario_files fs3).
  { destruct keep_auxiliary_files; cbn [negb] in H6.
    - apply io_ret_Ok in H6 as [_ ->]. done.
    - destruct (remove_auxiliary_run basename
                  (auxiliary_files core_format).*1
                  {| output_files :=
                       <[basename +:+ ".sto" := merged_sto basename contents]>
                         (output_files fs3);
                     scenario_files := scenario_files fs3 |})
        as (fs5' & Hrun & Hscen & _).
      rewrite Hrun in H6. by simplify_eq. }
  split; [done|]. split; [congruence|]. split; [|split].
  - intros file Hfile. destruct (Hcopies file Hfile) as (content & Hsrc & Hout).
    exists content. split; [done|].
    assert (Hne : basename +:+ ".sto" ≠ basename +:+ file.1).
    { intros Heq. apply (sto_not_copied basename core_format).
      apply list_elem_of_fmap. eauto. }
    split; [by rewrite lookup_insert_ne|].
    rewrite Hout5, lookup_insert_ne, Hout by done.
    destruct keep_auxiliary_files; [done|]. cbn [negb andb].
    case_bool_decide as Hin1; case_bool_decide as Hin2; try done.
    + exfalso. apply Hin2.
      apply list_elem_of_fmap in Hin1 as (copy & Heq & Hin1).
      apply String.app_inj in Heq.
      apply list_elem_of_fmap in Hin1 as (file' & -> & Hin1).
      apply auxiliary_by_suffix; [done|]. rewrite Heq.
      apply list_elem_of_fmap. eauto.
    + exfalso. apply Hin1. apply list_elem_of_fmap. exists file.1.
      split; [done|]. apply list_elem_of_fmap. eauto.
  - exists contents. split.
    + eapply Forall2_impl; [exact Hcontents|]. intros x y.
      unfold scenario_file, read. by rewrite Hscen3.
    + rewrite Hout5, lookup_insert_eq.
      rewrite (bool_decide_eq_false_2 _ (sto_not_auxiliary _ _)).
      by rewrite andb_false_r.
  - intros name Hname. rewrite Hout5.
    unfold output_file_names in Hname. rewrite fmap_app in Hname.
    apply not_elem_of_app in Hname as [Hcopied Hsto].
    rewrite lookup_insert_ne.
    2:{ intros <-. apply Hsto. by left. }
    rewrite Hframe3.
    2:{ intros Hin. apply Hcopied.
        by rewrite <- list_fmap_compose in *. }
    case_bool_decide as Hin; [|by rewrite andb_false_r].
    exfalso. apply Hcopied.
    apply list_elem_of_fmap in Hin as (copy & -> & Hin).
    apply list_elem_of_fmap in Hin as (file & -> & Hin).
    apply list_elem_of_fmap. exists file.1. split; [done|].
    apply list_elem_of_fmap. exists file. split; [done|].
    by apply auxiliary_files_copied.
Qed.





(** Runs that go through. *)
Lemma io_bind_run {A B} (m : IO A) (k : A → IO B) fs a fs1 :
  m fs = (IoOk a, fs1) → io_bind m k fs = k a fs1.
Proof. unfold io_bind. by intros ->. Qed.

Lemma io_bind_raise {A B} (m : IO A) (k : A → IO B) fs e fs1 :
  m fs = (IoRaise e, fs1) → io_bind m k fs = (IoRaise e, fs1).
Proof. unfold io_bind. by intros ->. Qed.

Lemma copies_run basename reference files fs :
  (∀ file, file ∈ files →
     is_Some (read (scenario_file basename file.2 reference) fs)) →
  ∃ fs', io_for_each (copy_reference basename reference) files fs
         = (IoOk tt, fs').
Proof.
  revert fs. induction files as [|file files IH]; intros fs Hall.
  - by exists fs.
  - destruct (Hall file) as [content Hsrc]; [left|].
    assert (Hstep : copy_reference basename reference file fs =
      (IoOk tt, {| output_files :=
                     <[basename +:+ file.1 := content]> (output_files fs);
                   scenario_files := scenario_files fs |})).
    { unfold copy_reference, io_bind, _safe_remove_file, copy2.
      revert Hsrc. unfold scenario_file, read. cbn [scenario_files].
      intros ->. unfold write_file. cbn [output_files scenario_files].
      by rewrite insert_delete_eq. }
    destruct (IH {| output_files :=
                      <[basename +:+ file.1 := content]> (output_files fs);
                    scenario_files := scenario_files fs |}) as [fs' Hrun].
    { intros f Hf. unfold scenario_file, read. cbn [scenario_files].
      apply (Hall f). by right. }
    exists fs'. cbn [io_for_each]. by rewrite (io_bind_run _ _ _ _ _ Hstep).
Qed.

Lemma merge_loop_run basename scenarios fs :
  is_Some (output_files fs !! (basename +:+ ".sto")) →
  (∀ scenario, scenario ∈ scenarios →
     is_Some (read (scenario_file basename sto_kind scenario) fs)) →
  ∃ fs',
    io_for_each
      (fun scenario =>
         let scenario_sto_filename :=
           scenario_file basename sto_kind scenario in
         let* found := path_exists scenario_sto_filename in
         let* _ := io_assert found in
         copyfileobj scenario_sto_filename (InOutput (basename +:+ ".sto")))
      scenarios fs = (IoOk tt, fs') ∧
    is_Some (output_files fs' !! (basename +:+ ".sto")).
Proof.
  revert fs. induction scenarios as [|scenario scenarios IH];
    intros fs [acc Hacc] Hall.
  - exists fs. split; [done|]. by exists acc.
  - destruct (Hall scenario) as [content Hsrc]; [left|].
    destruct (IH {| output_files :=
                      <[basename +:+ ".sto" := acc +:+ content]>
                        (output_files fs);
                    scenario_files := scenario_files fs |})
      as (fs' & Hrun & Hsto).
    { cbn [output_files]. rewrite lookup_insert_eq. by eexists. }
    { intros s Hs. unfold scenario_file, read. cbn [scenario_files].
      apply (Hall s). by right. }
    exists fs'. split; [|done]. cbn [io_for_each].
    erewrite io_bind_run; [exact Hrun|].
    unfold io_bind, path_exists. rewrite Hsrc.
    rewrite bool_decide_eq_true_2 by by eexists.
    cbn. unfold copyfileobj. rewrite Hsrc. unfold append_file. cbn [read].
    by rewrite Hacc.
Qed.

Lemma merge_sto_run basename scenarios fs :
  (∀ scenario, scenario ∈ scenarios →
     is_Some (read (scenario_file basename sto_kind scenario) fs)) →
  ∃ fs', merge_sto basename scenarios fs = (IoOk tt, fs').
Proof.
  intros Hall. unfold merge_sto.
  set (fs1 := {| output_files :=
                   <[basename +:+ ".sto" :=
                       "STOCH " +:+ basename +:+ nl
                       +:+ "BLOCKS DISCRETE REPLACE" +:+ nl]>
                     (output_files fs);
                 scenario_files := scenario_files fs |}).
  destruct (merge_loop_run basename scenarios fs1) as (fs2 & Hloop & [acc Hacc]).
  { cbn [fs1 output_files]. rewrite lookup_insert_eq. by eexists. }
  { intros s Hs. unfold scenario_file, read. cbn [fs1 scenario_files].
    by apply (Hall s). }
  eexists.
  erewrite io_bind_run by reflexivity.
  erewrite io_bind_run by reflexivity.
  erewrite io_bind_run.
  2:{ unfold append_file, read, write_file, _safe_remove_file.
      cbn [output_files scenario_files].
      rewrite insert_delete_eq, lookup_insert_eq, insert_insert_eq.
      reflexivity. }
  erewrite io_bind_run.
  2:{ unfold append_file, read, write_file.
      cbn [output_files scenario_files].
      rewrite lookup_insert_eq, insert_insert_eq. reflexivity. }
  change ("" +:+ ?x) with x. rewrite !append_assoc. fold fs1.
  erewrite io_bind_run by exact Hloop.
  unfold append_file. cbn [read]. rewrite Hacc. reflexivity.
Qed.

Lemma check_same_run has_diff basename kind scenario copy error fs x y :
  read (scenario_file basename kind scenario) fs = Some x →
  read (InOutput (basename +:+ copy)) fs = Some y →
  check_same has_diff basename kind scenario copy error fs =
  if String.eqb x y then (IoOk tt, fs) else (IoRaise error, fs).
Proof.
  intros Hx Hy. unfold check_same, io_bind, files_differ.
  rewrite Hx, Hy. by destruct (String.eqb x y).
Qed.

Lemma io_for_each_raises {A} (body : A → IO unit) passed x rest fs e :
  (∀ y, y ∈ passed → body y fs = (IoOk tt, fs)) →
  body x fs = (IoRaise e, fs) →
  io_for_each body (passed ++ x :: rest) fs = (IoRaise e, fs).
Proof.
  intros Hpassed Hx. induction passed as [|y passed IH].
  - simpl. by rewrite (io_bind_raise _ _ _ _ _ Hx).
  - simpl. rewrite (io_bind_run _ _ _ tt fs); [|apply Hpassed; left].
    apply IH. intros z Hz. apply Hpassed. by right.
Qed.

Lemma scenario_file_names_elem basename core_format scenarios kind scenario :
  kind ∈ scenario_kinds core_format → scenario ∈ scenarios →
  basename +:+ kind +:+ scenario
    ∈ scenario_file_names basename core_format scenarios.
Proof.
  intros Hkind Hin. unfold scenario_file_names.
  apply list_elem_of_bind. exists scenario. split; [|done].
  apply list_elem_of_bind. exists kind. split; [|done]. by left.
Qed.

Lemma copied_kinds core_format file :
  file ∈ copied_files core_format → file.2 ∈ scenario_kinds core_format.
Proof.
  unfold copied_files, scenario_kinds. rewrite !elem_of_cons, !elem_of_nil.
  intros [->|[->|[->|[->|[->|[->|[]]]]]]]; simpl; tauto.
Qed.


Lemma external_run_eq :
  convert_external "base" (Examples.example_manager ("c1" +:+ nl)) lp false
    Examples.no_options false false false true Examples.fs0
  = (IoOk Examples.external_stats, Examples.external_run.2).
Proof. vm_compute. reflexivity. Defined.



(** The merged [.sto] file of the two scenarios. *)
Example external_run_sto :
  read (InOutput "base.sto") Examples.external_run.2
  = Some (unlines ["STOCH base"; "BLOCKS DISCRETE REPLACE"; "a"; "b";
                   "ENDATA"]).
Proof. vm_compute. reflexivity. Qed.


(** The output directory after the conversion of the two scenarios: the
    [.row] file of an earlier conversion is gone, the file of the user
    is there. *)
Example external_run_output :
  map_to_list (output_files Examples.external_run.2)
  ≡ₚ [("base.cor", "core"); ("base.tim", "TIME base" +:+ nl);
      ("base.sto",
       unlines ["STOCH base"; "BLOCKS DISCRETE REPLACE"; "a"; "b";
                "ENDATA"]);
      ("notes", "kept")].
Proof.
  apply (bool_decide_unpack _). vm_compute. reflexivity.
Qed.


(** The directory [scenario_files] after the conversion of the two
    scenarios: the file of the user is all that is left. *)
Example external_run_scenario_files :
  scenario_files Examples.external_run.2 = Some {["mine" := "kept"]}.
Proof. vm_compute. reflexivity. Qed.


(** * Further properties of the embedded conversion *)

Lemma zero_loop_run stochastic_data acc s :
  ∃ param_vals_orig,
    m_fold (fun param_vals_orig item =>
              let! st := get_model in
              let! _ := set_param item.1 (Some 0) in
              ret (param_vals_orig ++ [(item.1, param_value st item.1)]))
           stochastic_data acc s
    = (Ok param_vals_orig,
       {| model := zeroed stochastic_data (model s); files := files s |}).
Proof.
  revert s acc. induction stochastic_data as [|item data IH]; intros s acc.
  - exists acc. unfold m_fold, ret, zeroed. simpl. by destruct s as [[]].
  - destruct (IH {| model :=
                      {| st_bounds := st_bounds (model s);
                         st_attrs := st_attrs (model s);
                         st_heap := st_heap (model s);
                         st_name := st_name (model s);
                         st_params :=
                           <[item.1 := Some 0]> (st_params (model s)) |};
                    files := files s |}
                 (acc ++ [(item.1, param_value (model s) item.1)]))
      as (origs & Hrun).
    exists origs. cbn [m_fold]. unfold bind at 1. unfold bind at 1.
    unfold get_model at 1. unfold bind at 1. unfold set_param at 1.
    unfold set_model at 1. unfold ret at 1. cbn [model files].
    rewrite Hrun. done.
Qed.

Lemma zero_stochastic_parameters_run stochastic_data s :
  ∃ param_vals_orig,
    zero_stochastic_parameters stochastic_data s
    = (Ok param_vals_orig,
       {| model := zeroed stochastic_data (model s); files := files s |}).
Proof. apply zero_loop_run. Qed.

Lemma zeroed_param stochastic_data st param :
  param ∈ stochastic_data.*1 →
  param_value (zeroed stochastic_data st) param = Some 0.
Proof.
  unfold param_value, zeroed. cbn [st_params].
  generalize (st_params st). induction stochastic_data as [|item data IH];
    intros params Hin; [by apply elem_of_nil in Hin|].
  rewrite fmap_cons in Hin. cbn [foldl].
  destruct (decide (param ∈ data.*1)) as [Hdata|Hdata]; [by apply IH|].
  apply elem_of_cons in Hin as [->|Hin]; [|done].
  clear IH. assert (H : ∀ params : gmap positive (option Z),
    foldl (fun params item => <[item.1 := Some 0]> params) params data
      !! item.1 = params !! item.1).
  { revert Hdata. clear. induction data as [|d data IH]; intros Hd params;
      [done|].
    rewrite fmap_cons in Hd. apply not_elem_of_cons in Hd as [Hne Hd].
    cbn [foldl]. by rewrite IH, lookup_insert_ne. }
  by rewrite H, lookup_insert_eq.
Qed.

(** The rows of the embedded [.sto] file. *)
Lemma sto_grows_refl sp s : sto_grows sp s s.
Proof. exists []. by rewrite app_nil_r. Qed.

Lemma sto_grows_trans sp s1 s2 s3 :
  sto_grows sp s1 s2 → sto_grows sp s2 s3 → sto_grows sp s1 s3.
Proof.
  intros (r1 & H1 & Hall1) (r2 & H2 & Hall2). exists (r1 ++ r2).
  split; [by rewrite H2, H1, app_assoc|]. by apply Forall_app.
Qed.

Lemma preserves_state_run {A} (m : M A) s r s' :
  preserves (fun s => s) m → m s = (r, s') → s' = s.
Proof. intros Hm Hrun. specialize (Hm s). by rewrite Hrun in Hm. Qed.

Lemma table_rows_grow sp var_label con_label param distribution table items
    s u s' :
  (param, distribution) ∈ stochastic_data sp →
  distribution_table distribution = Ok table →
  items ⊆ table →
  m_for_each
    (fun item => sto_write
       (StoIndep var_label con_label (_no_negative_zero item.2)
          (_no_negative_zero_Q item.1))) items s = (Ok u, s') →
  sto_grows sp s s' ∧ model s' = model s.
Proof.
  intros Hparam Htable. revert s. induction items as [|item items IH];
    intros s Hsub Hrun.
  - unfold m_for_each, m_fold, ret in Hrun. simplify_eq.
    split; [apply sto_grows_refl|done].
  - unfold m_for_each in Hrun. cbn [m_fold] in Hrun.
    apply bind_Ok in Hrun as (u1 & s2 & H2 & Hrun).
    apply sto_write_Ok in H2.
    destruct (IH s2) as [Hgrows Hmodel].
    { intros x Hx. apply Hsub. by right. }
    { exact Hrun. }
    split.
    + eapply sto_grows_trans; [|exact Hgrows].
      eexists [_]. split; [by rewrite H2|].
      constructor; [|constructor].
      exists var_label, con_label, param, distribution, table, item.
      split; [done|]. split; [done|]. split; [|done]. apply Hsub. by left.
    + rewrite Hmodel. by rewrite H2.
Qed.

Lemma embedded_coefficient_grows sp label varlabel seen varcoef s seen' s' :
  embedded_coefficient sp label varlabel seen varcoef s = (Ok seen', s') →
  sto_grows sp s s' ∧ model s' = model s.
Proof.
  unfold embedded_coefficient. intros H.
  apply bind_Ok in H as (seen1 & s1 & Hseen & H).
  apply preserves_state_run in Hseen as ->.
  2:{ apply preserves_m_fold. intros acc param.
      case_bool_decide; auto with preserves. }
  destruct (filter _ (_collect_mutable_parameters varcoef))
    as [|paramdata [|]].
  - apply ret_Ok in H as [_ ->]. split; [apply sto_grows_refl|done].
  - destruct (negb (is_param varcoef paramdata)); [discriminate|].
    apply bind_Ok in H as (distribution & s1 & Hfind & H).
    destruct (list_find _ (stochastic_data sp)) as [[i found]|] eqn:Hfound;
      [|discriminate].
    apply ret_Ok in Hfind as [-> ->].
    apply list_find_Some in Hfound as (Hlook & _ & _).
    apply bind_Ok in H as (table & s1 & Htable & H).
    apply lift_Ok in Htable as [Htable ->].
    apply bind_Ok in H as (var_label & s1 & Hlabel & H).
    apply lift_Ok in Hlabel as [_ ->].
    apply bind_Ok in H as (u & s1 & Hrows & H).
    apply ret_Ok in H as [_ ->].
    eapply (table_rows_grow sp var_label label found.1 found.2 table table);
      [|done|done|exact Hrows].
    apply list_elem_of_lookup. exists i. by destruct found.
  - discriminate.
Qed.

Lemma coefficients_grow sp {A} (label : A → string)
    (varlabel : A → result string) (coef : A → option Coef) terms seen s
    seen' s' :
  m_fold (fun seen term =>
            embedded_coefficient sp (label term) (varlabel term) seen
              (coef term))
         terms seen s = (Ok seen', s') →
  sto_grows sp s s' ∧ model s' = model s.
Proof.
  intros H.
  eapply (m_fold_invariant
            (fun s1 _ => sto_grows sp s s1 ∧ model s1 = model s)) in H;
    [exact H| |].
  - intros acc x s1 acc' s2 Hx [Hgrows Hmodel].
    apply embedded_coefficient_grows in Hx as [Hgrows' Hmodel'].
    split; [by eapply sto_grows_trans|congruence].
  - split; [apply sto_grows_refl|done].
Qed.

Lemma embedded_objective_grows sp symbol_map column_order seen s seen' s' :
  embedded_objective sp symbol_map column_order seen s = (Ok seen', s') →
  sto_grows sp s s' ∧ model s' = model s.
Proof.
  unfold embedded_objective. intros H.
  destruct (0 <? length (objective_to_stochastic_data_map sp))%nat.
  2:{ apply ret_Ok in H as [_ ->]. split; [apply sto_grows_refl|done]. }
  apply bind_Ok in H as (u1 & s1 & H1 & H).
  apply m_assert_Ok in H1 as [_ ->].
  apply bind_Ok in H as (u2 & s1 & H1 & H).
  apply m_assert_Ok in H1 as [_ ->].
  destruct (sp_objective_repn sp) as [objective_repn|]; [|discriminate].
  apply bind_Ok in H as (terms & s1 & H1 & H).
  apply lift_Ok in H1 as [_ ->].
  apply bind_Ok in H as (objective_label & s1 & H1 & H).
  apply lift_Ok in H1 as [_ ->].
  by apply (coefficients_grow sp (fun _ => objective_label) fst snd) in H.
Qed.

Lemma embedded_constraint_grows sp symbol_map column_order constraint_symbols
    seen con s seen' s' :
  embedded_constraint sp symbol_map column_order constraint_symbols seen con s
    = (Ok seen', s') →
  sto_grows sp s s' ∧ model s' = model s.
Proof.
  unfold embedded_constraint. intros H.
  destruct (e_repn con) as [constraint_repn|]; [|discriminate].
  apply bind_Ok in H as (terms & s1 & H1 & H).
  apply lift_Ok in H1 as [_ ->].
  apply bind_Ok in H as (constraint_vars & s1 & H1 & H).
  apply lift_Ok in H1 as [_ ->].
  apply bind_Ok in H as (u1 & s1 & H1 & H).
  apply preserves_state_run in H1 as ->.
  2:{ apply preserves_m_for_each. intros param.
      destruct (is_stochastic sp param); auto with preserves. }
  apply bind_Ok in H as (symbols & s1 & H1 & H).
  apply lift_Ok in H1 as [_ ->].
  destruct (length symbols =? 2)%nat; [discriminate|].
  apply bind_Ok in H as (u2 & s1 & H1 & H).
  apply m_assert_Ok in H1 as [_ ->].
  apply bind_Ok in H as (constraint_label & s1 & H1 & H).
  apply lift_Ok in H1 as [_ ->].
  by apply (coefficients_grow sp (fun _ => constraint_label)
              (fun term => Ok term.1) snd) in H.
Qed.

(** The steps of an embedded conversion that returns. *)
Lemma convert_embedded_steps writer output_directory basename sp core_format
    io_options enforce s symbol_map s' :
  convert_embedded writer output_directory basename sp core_format io_options
    enforce s = (Ok symbol_map, s') →
  io_column_order io_options = None ∧
  io_row_order io_options = None ∧
  (∃ column_order row_order,
     writer core_format (os_path_join output_directory (basename +:+ ".cor"))
       {| io_column_order := Some column_order;
          io_row_order := Some row_order;
          io_force_objective_constant := Some true |}
       (zeroed (stochastic_data sp) (model s))
     = (Ok (os_path_join output_directory (basename +:+ ".cor"), symbol_map),
        model s')) ∧
  ∃ records,
    f_sto (files s') =
      StoText ("STOCH " +:+ basename +:+ nl)
      :: StoText ("INDEP         DISCRETE" +:+ nl)
      :: records ++ [StoText ("ENDATA" +:+ nl)] ∧
    Forall (from_table sp) records.
Proof.
  unfold convert_embedded. intros H.
  destruct (has_stochastic_variable_bounds sp); [discriminate|].
  apply bind_Ok in H as (stages & s1 & H1 & H).
  apply lift_Ok in H1 as [_ ->].
  apply bind_Ok in H as (constraints & s1 & H1 & H).
  apply lift_Ok in H1 as [_ ->].
  apply bind_Ok in H as (param_vals_orig & s1 & H1 & H).
  destruct (zero_stochastic_parameters_run (stochastic_data sp) s)
    as (origs & Hzero).
  rewrite Hzero in H1. simplify_eq.
  apply bind_Ok in H as (u1 & s1 & H1 & H).
  apply m_assert_Ok in H1 as [Hcol ->].
  apply bind_Ok in H as (u2 & s1 & H1 & H).
  apply m_assert_Ok in H1 as [Hrow ->].
  apply bind_Ok in H as (sm & s2 & Hwrite & H).
  apply write_core_Ok in Hwrite as [Hwriter Hfiles2].
  cbn [model files] in Hwriter, Hfiles2.
  apply bind_Ok in H as (cache & s3 & Hcache & H).
  apply (preserves_state_run _ _ _ _) in Hcache as ->.
  2:{ apply preserves_m_fold. intros acc block.
      apply preserves_bind; [auto with preserves|]. intros st.
      destruct (_canonical_repn (attrs_of st block)); auto with preserves. }
  apply bind_Ok in H as (u3 & s3 & H3 & H).
  unfold reset_stochastic_parameters, m_for_each in H3.
  apply ret_Ok in H3 as [_ ->].
  apply bind_Ok in H as (constraint_symbols & s3 & H3 & H).
  apply lift_Ok in H3 as [_ ->].
  apply bind_Ok in H as (u4 & s4 & Htim & H).
  assert (Hmodel4 : model s4 = model s2).
  { assert (Hp : preserves (fun s => id (model s))
                   (write_embedded_tim basename core_format sm
                      (sp_objective sp) constraint_symbols stages.1.2
                      stages.2 constraints.1 constraints.2)).
    { unfold write_embedded_tim, write_tim_lines. solve_preserves. }
    specialize (Hp s2). by rewrite Htim in Hp. }
  apply bind_Ok in H as (u5 & s5 & H5 & H).
  unfold sto_open, set_files in H5. simplify_eq.
  apply bind_Ok in H as (u6 & s6 & H6 & H).
  apply sto_write_Ok in H6 as ->.
  apply bind_Ok in H as (u7 & s7 & H7 & H).
  apply sto_write_Ok in H7 as ->.
  apply bind_Ok in H as (seen & s8 & Hobj & H).
  apply embedded_objective_grows in Hobj as [(r1 & Hr1 & Hall1) Hmodel8].
  apply bind_Ok in H as (stochastic_constraints & s9 & H9 & H).
  apply lift_Ok in H9 as [_ ->].
  apply bind_Ok in H as (seen' & s10 & Hcons & H).
  eapply (m_fold_invariant
            (fun s1 _ => sto_grows sp s8 s1 ∧ model s1 = model s8))
    in Hcons as [(r2 & Hr2 & Hall2) Hmodel10].
  2:{ intros acc con sa acc' sb Hcon [Hgrows Hmodel].
      apply embedded_constraint_grows in Hcon as [Hgrows' Hmodel'].
      split; [by eapply sto_grows_trans|congruence]. }
  2:{ split; [apply sto_grows_refl|done]. }
  apply bind_Ok in H as (u11 & s11 & H11 & H).
  apply sto_write_Ok in H11 as ->.
  apply ret_Ok in H as [-> ->].
  cbn [model files f_sto with_sto] in *.
  split. { by destruct (io_column_order io_options). }
  split. { by destruct (io_row_order io_options). }
  split.
  - eexists _, _. rewrite Hmodel10, Hmodel8, Hmodel4. exact Hwriter.
  - exists (r1 ++ r2). split; [|by apply Forall_app].
    rewrite Hr2, Hr1. by rewrite <- !app_assoc.
Qed.





Lemma embedded_run_eq :
  convert_embedded
    (Examples.table_writer [100%positive] Examples.repns Examples.symbols)
    "out" "base" Examples.sp mps Examples.no_options false
    Examples.sp_state0
  = (Ok Examples.symbols, Examples.embedded_run.2).
Proof. vm_compute. reflexivity. Defined.

Lemma table_writer_keeps_params blocks table sm :
  writer_keeps st_params (Examples.table_writer blocks table sm).
Proof.
  intros file_format output_filename io_options st.
  unfold Examples.table_writer. cbn [snd]. revert st.
  induction blocks as [|b blocks IH]; intros st; [done|].
  cbn [foldl]. rewrite IH. unfold Examples.install.
  by destruct (_canonical_repn (attrs_of st b)).
Defined.





(** The [.sto] file of the embedded conversion of [sp]: the two values
    of the parameter, each of probability one half. *)
Example embedded_run_sto :
  f_sto (files Examples.embedded_run.2)
  = [StoText ("STOCH base" +:+ nl);
     StoText ("INDEP         DISCRETE" +:+ nl);
     StoIndep "RHS" "c_l_c1_" 10 (1 # 2);
     StoIndep "RHS" "c_l_c1_" 20 (1 # 2);
     StoText ("ENDATA" +:+ nl)].
Proof. vm_compute. reflexivity. Qed.

(** * Further properties of the conic constraints *)

Lemma all_as_continuous {number} (x : list (@Convexity.variable number)) :
  forallb Convexity.is_continuous (Convexity.as_continuous <$> x) = true.
Proof. induction x as [|v x IH]; [done|]. by rewrite fmap_cons. Qed.

